(* ===== verification/_CoqProject ===== *)
-Q . S2P
Prelude.v
Model.v
Sql.v
World.v
Repository.v
Crypto.v
Text.v
Number.v
Password.v
Accounts.v
Identity.v
Limiter.v
Path.v
FileSystem.v
File.v
Throttle.v
Copy.v
WebDav.v
SqlFacts.v
Schema.v
Keeps.v
Tree.v
FsFacts.v
RenameFacts.v
CreateFacts.v
WalFacts.v
WriteFacts.v
ReadFacts.v
Session.v
Tenants.v
Cache.v
CacheKeeps.v
CacheFacts.v
Telegram.v
Config.v
BlobReader.v
BlobFacts.v
SelectFacts.v
Bots.v
Management.v
Server.v
ServerFacts.v
Maintenance.v
Packer.v
PackerFacts.v
BotsFacts.v
SparesFacts.v
LossFacts.v
CopyFacts.v
FinalizeFacts.v
IdentityFacts.v
Demo.v
Requests.v
Race.v
Spec.v
WebFacts.v
SafeFacts.v
EndureFacts.v
FsTheorems.v
CacheTheorems.v
BlobTheorems.v
BotTheorems.v
IdentityTheorems.v
WebTheorems.v
Run.v
RunFacts.v
Script.v
System.v
SystemFacts.v
EndureSteps.v
EndureServer.v
PackerTheorems.v
SpecTheorems.v
ConfigTheorems.v
ServerTheorems.v
SystemTheorems.v
EndureTheorems.v
Redact.v
SchemaTheorems.v
LimiterTheorems.v
