(* ===== verification/Prelude.v ===== *)
(** * tgwebdav: a WebDAV server that stores its files as Telegram messages

    The program (Go, under src/) serves a WebDAV tree per user.  File names, sizes
    and the layout of files are rows of a PostgreSQL database; the bytes of a file
    are first appended to a write-ahead log of 1 MiB chunks in the database, and
    later packed into blobs that bots upload as messages to Telegram channels.
    Reading a stored file downloads its blobs again, through a disk cache.  A second
    HTTP server, the Management API, administers users, bots, channels and settings.

    ** How the parts interact

    - An HTTP request passes the authentication gate and the rate limit
      (handler/http) and becomes calls of [FileSystem] (service/webdavfs) under the
      [Principal] of its context.
    - [FileSystem] and the open files work on the repositories inside transactions,
      and read stored bytes through the interface [BlobService].
    - The blob reader (service/blob.go) implements that interface over the cache
      (service/cache), the repositories and the Telegram client.
    - The packer (service/wal.go) turns buffered files into stored ones; it claims
      nodes by lease, and its builder and upload workers run concurrently.
    - Maintenance (service/maintenance.go) deletes unreferenced blobs, evicts old
      ones and refreshes which bot is in which channel (service/bot.go, channel.go).

    ** How the code is represented

    A Go function is a Rocq function into the monad [World.M]: a [World] to a value
    or an error and the new world.  The world holds the tables ([Sql.Db], one finite
    map per table), the transaction in flight, and the state the services keep in
    memory.  What the program cannot decide is read off the schedules of the class
    [World.Env]: the clocks, fresh uuids, a statement or a file operation that
    fails, a cancelled context.  Code outside src/ is a class: [Aead] (AES-GCM),
    [Kdf] (argon2 and random bytes), [BotAPI] (the Telegram server), [RateLib]
    and [PaceLib] (x/time/rate), [WebLib] (x/net/webdav, net/url), [Viper] (spf13/viper), [Oapi]
    and [BodyDecoder] (the runtime library of oapi-codegen, encoding/json), [Arch]
    (what the language leaves to the machine); the laws asked of them are stated
    where they are used ([kdf_ok], [WebLaws], [BlobLaws], [ViperLaw], [RateLaw],
    [PaceLaw], [uuids_ok]).
    Integers of 64 bits are [Z] with [wrap64] where the code can overflow; strings
    are Go's byte strings.  Concurrency is modelled where the code relies on it:
    the cache ([Cache.cstep]) and the packer ([Packer.pstep], and with its goroutines
    and their channel [Run.rstep]) are step relations over the pieces of code between
    two uses of a mutex or a channel.  Requests that overlap are looked at in [Race] (a
    request paused between two of its statements) and [Schema] (the statements of all
    transactions in any order).

    ** Files and the code they model

    - [Prelude]: scalars, ordering, strings, the tactics [blen_lia] and [int_lia].
    - [Model]: internal/model.  [Sql]: db/migrations, internal/repository/sqlc;
      [Schema]: the constraints of the schema and the statements that keep them.
      [World]: internal/database/tx.go and the effects.
    - [Repository], [Accounts]: internal/repository, with sqlc/copyfrom.go.
    - [Crypto], [Text]: the parts of Go's standard library the code computes with.
    - [Path], [FileSystem], [File], [Copy]: internal/service/webdavfs.
    - [Cache]: internal/service/cache.  [BlobReader]: internal/service/blob.go.
      [Telegram]: internal/client/telegram; [Redact]: the texts of its errors, and that
      a bot's token shows in none but those of a request that cannot be built or that
      repeat a text received from outside.
    - [Bots]: bot.go, channel.go and settings.go of internal/service;
      [Maintenance]: maintenance.go.  [Packer], [Run]: wal.go.
    - [Password], [Identity], [Limiter]: password.go, auth.go, user.go, limits.go,
      stats.go and event.go of internal/service; [Throttle]: the paced reader of
      limits.go with the time its reads take.
    - [WebDav], [Management]: internal/handler/http with its middleware.
    - [Server]: pkg/openapi/management, a wrapper per operation, over net/http's
      ServeMux, and the whole Management API on raw requests.
    - [Number], [Config]: cmd/tgwebdav/config.go, root.go and slog.go, with
      strconv.ParseFloat and IEEE doubles.
    - [System]: cmd/tgwebdav/server.go.  [System.runServer] is the start of the
      process; [System.sstep] puts the endpoints, the workers and the packer together
      over one database, with stops and restarts at any moment.
    A definition keeps the name of its Go function, with the service's name before
    it ([Bot_Add], [UserRepository_Create], [writeFile_Close]) or an underscore
    after it ([ListUsers_]) where a bare name would be ambiguous.

    The files named [..Facts], [Keeps], [Tree], [Session], [Tenants], [Requests]
    and [Spec] hold the invariants and lemmas, [Demo] a small concrete world, and the
    files named [..Theorems] the properties with their witnesses on concrete worlds.  [Keeps]
    reasons about what every run of an operation does to the world, whatever it
    answers: [BlobFacts.quiet], [BotsFacts.reaped], [SparesFacts.spares],
    [SafeFacts.improves], [SafeFacts.advances] (how blobs and extents come and go) and
    [EndureFacts.passes] (what one file of one user sees of a step) are relations it is
    used with; [SchemaTheorems.issues] (the statements a step issues) is another.
    [CacheKeeps] says what each user of the cache can do to the entries of others.  [EndureFacts], [EndureSteps] (the packer) and [EndureServer] (requests, ticks,
    restarts) carry one file through the run of a server.  [Script] computes concrete
    schedules of the packer.

    ** What is shown

    - [SpecTheorems]: every history of requests is a history of the abstract
      filesystem of [Spec] (a partial function from paths to directories and bytes for
      each user), and what that filesystem holds is what clients download.  Two kinds of
      request are outside it, a PUT that fails (or stores more than [max_file] bytes) and
      a MOVE or COPY onto an ancestor of its source: after one, nothing is said of the tree of the
      user who sent it, and everything still of the others.
    - [EndureTheorems]: an uploaded file that is not empty and that no packer had taken
      up when it was written, left alone by its owner, outlives any run of
      the whole server, from the write-ahead log through packing to Telegram and back
      through the cache, and reads as it was uploaded, unless Telegram is found to have
      lost one of its blobs.  Assumed of the run: uuids drawn for blobs are new, and no
      other body that Telegram serves has the SHA-256 of a blob.
    - [SystemTheorems]: the whole server keeps the tables [SafeFacts.fine] (the tree, no
      extent without its blob, no blob with fewer counts than references), and packs
      only what it has stored, over any number of crashes and restarts; a request to
      the Management API spares every file but those of a user it deletes.
    - [FsTheorems]: the bytes uploaded are the bytes downloaded; what a PUT, MKCOL,
      DELETE, MOVE and COPY that succeeds leaves and that one that fails leaves the
      tables; any sequence of requests keeps the namespace a tree ([tree_ok]) and
      the reference counts exact ([conserves]), and stays within its user
      ([confined]); quotas; the reads of the log.  A MOVE or COPY onto an ancestor
      of its source loses the source.
    - [BlobTheorems]: a download through cache and Telegram that succeeds is the
      file; the reader fails closed on corrupt bytes, implements the interface the
      filesystem was verified against, and deletes files only as the last resort.
    - [CacheTheorems]: bound, content, order of eviction and restart of the cache,
      under every interleaving.
    - [PackerTheorems]: packing in any interleaving keeps the content of files that
      were not overwritten since it read them;
      a file is finalised only when its blobs have landed; splitting terminates on
      an undisturbed file.  An overwrite during packing is lost.
      Told to stop, the packer drains its queue and returns, within a bound on its
      steps that nothing else in the program raises.
    - [BotTheorems]: who is picked for an upload, fairness of the round robin,
      availability of channels, and that housekeeping keeps every file readable.
    - [IdentityTheorems]: which credentials are accepted over any history of
      requests, the life of users' passwords and tokens.
    - [ServerTheorems]: a raw request to the Management API reaches the handler of
      the operation it names, with the parameters it carries; only an administrator
      passes the gate.
    - [SchemaTheorems]: keys, unique columns and foreign keys hold at any moment of any
      run, with the statements of concurrent transactions interleaved in any way.
    - [Race]: what overlapping requests can do: two deletions that release a file twice,
      two uploads that exceed a quota together.
    - [LimiterTheorems]: the eviction of idle buckets changes no answer.  [Throttle]:
      what a throttled download delivers in any stretch of time.
    - [ConfigTheorems]: where each setting comes from, and what a size parses to.
    - [WebTheorems]: a request, from its raw credentials to the tables, leaves the
      files of every user it is not let in for as before, but for files on a blob that
      a read finds lost ([LossFacts.touched]); the statuses of COPY.

    ** Bounds and fuel

    Recursions over data that is not structural take fuel that their caller
    supplies: the number of rows for the cascade of foreign keys ([Sql.cascade]) and
    for [Copy.copyNode], whose depth it bounds; the size of the file for the loops of
    [Copy.copy_wal] and [Packer.split_loop] ([split_fuel]), each turn of which
    consumes at least one byte; the number of full chunks for [File.flush_full]; the
    length of the LRU list for [Cache.evict].  The theorems on those operations hold
    for the fuel the model itself supplies.  The client's loop [Session.get] takes
    any fuel above the file's length.  Theorems on stored files hold up to [max_file]
    bytes, beyond which the offsets of the readers could leave 64 bits.  [Packer.worker_all] serves as many jobs as its
    fuel; the packer's theorems are about [pstep] and [rstep], which have none.

    ** Not modelled

    - Of cmd/tgwebdav: the connection pool, the listeners, signals, the wait at
      shutdown and the call of the migration library.  The tickers: a tick of a worker
      comes at any moment.
    - A request is one step of [System.sstep], so [SystemTheorems] and [EndureTheorems]
      are about requests that do not overlap, although their transactions run at READ
      COMMITTED: [Race] shows overlapping ones that break an invariant, and only the
      schema is proved for all.  A crash inside one is a request
      whose remaining statements fail, which the schedules of [World.Env] include.
    - The encoding of JSON, logging, request ids, error texts but
      for those of [Redact]; the body of a
      redirect that ServeMux answers.
    - The concurrency of [Prefetch].  Each statement is atomic, a commit that reports an
      error is taken to have rolled back, and ties of ORDER BY are broken stably.
    - The lock table of x/net/webdav, the tracing of queries, the request log. *)

From Stdlib Require Import ZArith Lia Strings.Byte Strings.String Strings.Ascii.
From stdpp Require Import base tactics list list_monad gmap sets sorting strings countable pretty.
#[local] Open Scope string_scope.
#[local] Open Scope Z_scope.

Declare Scope go_scope.
Delimit Scope go_scope with go.

(** ** Scalars of the program *)

(** [uuid.UUID]: sixteen opaque bytes, compared for equality; [uuid.Nil] is 0. *)
Abbreviation uuid := N (only parsing).
Definition uuid_Nil : uuid := 0%N.

(** [time.Time] and [time.Duration] as nanoseconds; the zero [time.Time] is 0. *)
Abbreviation time := Z (only parsing).
Definition Millisecond : Z := 1000000.
Definition Second : Z := 1000 * Millisecond.
Definition Minute : Z := 60 * Second.
Definition Hour : Z := 60 * Minute.

(** [[]byte]. *)
Abbreviation bytes := (list Byte.byte) (only parsing).

(** [int64] and its wrap-around. *)
Definition max_int64 : Z := 2 ^ 63 - 1.
(** The sizes of a file for which the offsets of its readers, which look a block of a
    mebibyte ahead, do not overflow. *)
Definition max_file : Z := max_int64 - 2 ^ 20.
Definition min_int64 : Z := - 2 ^ 63.
Definition in_int64 (z : Z) : bool := (min_int64 <=? z) && (z <=? max_int64).
Definition wrap64 (z : Z) : Z := (z + 2 ^ 63) mod 2 ^ 64 - 2 ^ 63.
Definition wrapu64 (z : Z) : Z := z mod 2 ^ 64.

(** [len] of a byte slice or a string as Go's [int] (an [int64] here). *)
Definition blen {A} (l : list A) : Z := Z.of_nat (length l).
Definition slen (s : string) : Z := Z.of_nat (String.length s).

(** [s[a:b]] on in-range bounds. *)
Definition slice {A} (a b : Z) (l : list A) : list A :=
  take (Z.to_nat (b - a)) (drop (Z.to_nat a) l).

(** Comparisons of [time.Time]. *)
Definition Before (a b : time) : bool := a <? b.
Definition After (a b : time) : bool := b <? a.
Definition IsZero (t : time) : bool := t =? 0.

#[global] Instance byte_eq_dec : EqDecision Byte.byte := Byte.byte_eq_dec.

(** ** Sums over lists and maps *)

(** [SUM(f)] over rows. *)
Definition sum_list_with_Z {A} (f : A → Z) (l : list A) : Z :=
  foldr (λ a s, f a + s) 0 l.

(** [lo.SumBy] / [COALESCE(SUM(..), 0)] over the rows of a table. *)
Definition map_sum {K A} `{Countable K} (f : A → Z) (m : gmap K A) : Z :=
  map_fold (λ _ a s, f a + s) 0 m.

(** Number of occurrences selected by [P] in a list. *)
Definition count_if {A} (P : A → bool) (l : list A) : Z :=
  sum_list_with_Z (λ a, if P a then 1 else 0) l.

(** [ORDER BY key]: a stable sort on an integer key. *)
Definition key_le {A} (key : A → Z) : relation A := λ a b, key a ≤ key b.
#[global] Instance key_le_dec {A} (key : A → Z) : RelDecision (key_le key).
Proof. intros a b. unfold key_le. apply _. Defined.
#[global] Instance key_le_total {A} (key : A → Z) : Total (key_le key).
Proof. intros a b. unfold key_le. lia. Qed.
#[global] Instance key_le_trans {A} (key : A → Z) : Transitive (key_le key).
Proof. intros a b c. unfold key_le. lia. Qed.
Definition sort_by {A} (key : A → Z) (l : list A) : list A := merge_sort (key_le key) l.

(** [ORDER BY key DESC]. *)
Definition sort_by_desc {A} (key : A → Z) (l : list A) : list A :=
  sort_by (λ a, - key a) l.

(** Byte order on strings ([COLLATE "C"], Go's [<]). *)
Definition str_leb (a b : string) : bool :=
  match String.compare a b with Gt => false | _ => true end.
Definition str_key_le {A} (key : A → string) : relation A :=
  λ a b, str_leb (key a) (key b) = true.
#[global] Instance str_key_le_dec {A} (key : A → string) : RelDecision (str_key_le key).
Proof. intros a b. unfold str_key_le. apply _. Defined.
Definition sort_by_str {A} (key : A → string) (l : list A) : list A :=
  merge_sort (str_key_le key) l.

(** [strings.CutPrefix]: what follows the prefix [p] of [s]. *)
Fixpoint CutPrefix (s p : string) {struct p} : option string :=
  match p with
  | EmptyString => Some s
  | String c p' =>
      match s with
      | EmptyString => None
      | String a s' => if Ascii.eqb a c then CutPrefix s' p' else None
      end
  end.

(** [strings.HasPrefix], [strings.TrimPrefix]. *)
Definition HasPrefix (s p : string) : bool :=
  match CutPrefix s p with Some _ => true | None => false end.
Definition TrimPrefix (s p : string) : string :=
  match CutPrefix s p with Some r => r | None => s end.

(** The first match in a list: a [for] loop with an early [return]. *)
Definition find_first {A} (P : A → bool) (l : list A) : option A :=
  list_find P l ≫= λ x, Some x.2.

(** ** Lengths *)

Create HintDb lengths.
#[export] Hint Rewrite @length_app @length_take @length_drop @length_replicate @length_resize @length_fmap
  @length_nil Nat2Z.id : lengths.

(** Arithmetic on [blen] of slices, concatenations and the like. *)
Ltac blen_lia := unfold blen in *; simpl length in *; autorewrite with lengths in *; lia.

Lemma blen_nonneg {A} (l : list A) : 0 ≤ blen l.
Proof. blen_lia. Qed.
Lemma blen_app {A} (l k : list A) : blen (l ++ k) = blen l + blen k.
Proof. blen_lia. Qed.
Lemma blen_nil_inv {A} (l : list A) : blen l = 0 → l = [].
Proof. intros H. apply nil_length_inv. blen_lia. Qed.

(** ** Strings *)

#[global] Arguments String.append !_ _ : simpl nomatch.

Lemma str_app_nil_r (s : string) : s +:+ "" = s.
Proof. induction s; simpl; congruence. Qed.

Lemma str_app_assoc (a b c : string) : a +:+ (b +:+ c) = (a +:+ b) +:+ c.
Proof. induction a; simpl; congruence. Qed.

Lemma CutPrefix_app (p s : string) : CutPrefix (p +:+ s) p = Some s.
Proof. induction p as [|c p IH]; simpl; [done|]. by rewrite Ascii.eqb_refl. Qed.

Lemma CutPrefix_Some (s p r : string) : CutPrefix s p = Some r → s = p +:+ r.
Proof.
  revert s. induction p as [|c p IH]; intros s H; simpl in *; [by simplify_eq|].
  destruct s as [|a s]; [done|]. destruct (Ascii.eqb_spec a c); [|done].
  subst. f_equal. by apply IH.
Qed.

Lemma CutPrefix_spec (s p r : string) : CutPrefix s p = Some r ↔ s = p +:+ r.
Proof. split; [apply CutPrefix_Some | intros ->; apply CutPrefix_app]. Qed.

Lemma HasPrefix_spec (s p : string) : HasPrefix s p = true ↔ ∃ r, s = p +:+ r.
Proof.
  unfold HasPrefix. destruct (CutPrefix s p) as [r|] eqn:H; split; try done.
  - intros _. exists r. by apply CutPrefix_Some.
  - intros [r ->]. by rewrite CutPrefix_app in H.
Qed.

Lemma TrimPrefix_app (p s : string) : TrimPrefix (p +:+ s) p = s.
Proof. unfold TrimPrefix. by rewrite CutPrefix_app. Qed.

Lemma str_length_app (a b : string) : String.length (a +:+ b) = (String.length a + String.length b)%nat.
Proof. induction a; simpl; congruence. Qed.

Lemma str_app_inj_l (p a b : string) : p +:+ a = p +:+ b → a = b.
Proof. induction p; simpl; [done|]. intros [=]; auto. Qed.

(** ** Machine integers *)

Lemma wrap64_id z : min_int64 ≤ z ≤ max_int64 → wrap64 z = z.
Proof. unfold wrap64, min_int64, max_int64. intros H. rewrite Z.mod_small; lia. Qed.

Lemma wrap64_range z : min_int64 ≤ wrap64 z ≤ max_int64.
Proof.
  unfold wrap64, min_int64, max_int64. pose proof (Z.mod_pos_bound (z + 2 ^ 63) (2 ^ 64)). lia.
Qed.

(** Arithmetic within the bounds of [int64]. *)
Ltac int_lia := unfold max_file, min_int64, max_int64, blen in *; lia.

Lemma in_int64_spec z : in_int64 z = true ↔ min_int64 ≤ z ≤ max_int64.
Proof. unfold in_int64. rewrite andb_true_iff, !Z.leb_le. done. Qed.
