(* ===== verification/Model.v ===== *)
(** * internal/model: the domain types

    The records carry the fields of the Go structs in their order.  [NodeState]
    and [BlobState] are the two [go-enum] types; their [int32] values, [String],
    [IsValid] and [Parse*] of the [*_enum.go] files are defined on the raw
    integer, because Go admits every [int32] there. *)
From Stdlib Require Import ZArith Lia Strings.Byte Strings.String.
From stdpp Require Import base list strings pretty.
From S2P Require Import Prelude.
#[local] Open Scope string_scope.
#[local] Open Scope Z_scope.

(** ** Enumerations *)

Inductive NodeState := NodeStateWriting | NodeStateBuffered | NodeStateStored.

#[global] Instance NodeState_eq_dec : EqDecision NodeState.
Proof. solve_decision. Defined.

Definition NodeState_int (s : NodeState) : Z :=
  match s with NodeStateWriting => 0 | NodeStateBuffered => 1 | NodeStateStored => 2 end.

Definition NodeStateValues : list NodeState :=
  [NodeStateWriting; NodeStateBuffered; NodeStateStored].

Definition NodeStateMap (x : Z) : option string :=
  if x =? 0 then Some "writing" else if x =? 1 then Some "buffered"
  else if x =? 2 then Some "stored" else None.

Definition NodeState_String (x : Z) : string :=
  match NodeStateMap x with
  | Some str => str
  | None => "NodeState(" +:+ pretty x +:+ ")"
  end.

Definition NodeState_IsValid (x : Z) : bool := bool_decide (is_Some (NodeStateMap x)).

Definition ParseNodeState (name : string) : option Z :=
  if String.eqb name "writing" then Some 0
  else if String.eqb name "buffered" then Some 1
  else if String.eqb name "stored" then Some 2 else None.

Inductive BlobState :=
| BlobStateOpen | BlobStateSealed | BlobStateUploading
| BlobStateStored | BlobStateUnavailable | BlobStatePermUnavailable.

#[global] Instance BlobState_eq_dec : EqDecision BlobState.
Proof. solve_decision. Defined.

Definition BlobState_int (s : BlobState) : Z :=
  match s with
  | BlobStateOpen => 0 | BlobStateSealed => 1 | BlobStateUploading => 2
  | BlobStateStored => 3 | BlobStateUnavailable => 4 | BlobStatePermUnavailable => 5
  end.

Definition BlobStateValues : list BlobState :=
  [BlobStateOpen; BlobStateSealed; BlobStateUploading; BlobStateStored;
   BlobStateUnavailable; BlobStatePermUnavailable].

Definition BlobStateMap (x : Z) : option string :=
  if x =? 0 then Some "open" else if x =? 1 then Some "sealed"
  else if x =? 2 then Some "uploading" else if x =? 3 then Some "stored"
  else if x =? 4 then Some "unavailable"
  else if x =? 5 then Some "perm_unavailable" else None.

Definition BlobState_String (x : Z) : string :=
  match BlobStateMap x with
  | Some str => str
  | None => "BlobState(" +:+ pretty x +:+ ")"
  end.

Definition BlobState_IsValid (x : Z) : bool := bool_decide (is_Some (BlobStateMap x)).

Definition ParseBlobState (name : string) : option Z :=
  if String.eqb name "open" then Some 0
  else if String.eqb name "sealed" then Some 1
  else if String.eqb name "uploading" then Some 2
  else if String.eqb name "stored" then Some 3
  else if String.eqb name "unavailable" then Some 4
  else if String.eqb name "perm_unavailable" then Some 5 else None.

(** The [driver.Value]s a database driver hands to [BlobState.Scan]. *)
Inductive scan_value :=
| ScanNil
| ScanInt64 (v : Z)
| ScanString (v : string)
| ScanBytes (v : string)
| ScanOther.

Definition int32_of (z : Z) : Z := (z + 2 ^ 31) mod 2 ^ 32 - 2 ^ 31.

(** [Scan] on those values: the new value of the receiver and whether it errs.
    A value of an unlisted type leaves the receiver alone. *)
Definition BlobState_Scan (x : Z) (v : scan_value) : Z * bool :=
  let parse name :=
    match ParseBlobState name with Some y => (y, true) | None => (0, false) end in
  match v with
  | ScanNil => (0, true)
  | ScanInt64 z => (int32_of z, true)
  | ScanString name | ScanBytes name => parse name
  | ScanOther => (x, true)
  end.

Definition BlobState_Value (x : Z) : scan_value := ScanString (BlobState_String x).

(** [BlobState.Readable]. *)
Definition Readable (s : BlobState) : bool := bool_decide (s = BlobStateStored).

(** ** Users, principals, tokens *)

Record User := mkUser {
  u_ID : uuid; u_Login : string; u_PasswordHash : string; u_IsAdmin : bool;
  u_QuotaBytes : Z; u_BandwidthBPS : Z; u_RatePerMin : Z; u_CreatedAt : time }.

Record Principal := mkPrincipal { Acting : option User; Auth : option User }.

Definition Principal_IsAdmin (p : Principal) : bool :=
  match Auth p with Some a => u_IsAdmin a | None => false end.

Definition Impersonating (p : Principal) : bool :=
  match Acting p, Auth p with
  | Some a, Some b => negb (N.eqb (u_ID a) (u_ID b))
  | _, _ => false
  end.

Record APIToken := mkAPIToken {
  t_ID : uuid; t_UserID : uuid; t_TokenHash : string; t_Name : string;
  t_CreatedAt : time; t_LastUsedAt : option time }.

(** ** Files *)

Record Node := mkNode {
  n_ID : uuid; n_UserID : uuid; n_ParentID : option uuid; n_Name : string;
  n_Path : string; n_IsDir : bool; n_Size : Z; n_ContentHash : string;
  n_ETag : string; n_ContentType : string; n_State : NodeState;
  n_CreatedAt : time; n_ModifiedAt : time }.

Record Extent := mkExtent {
  e_ID : uuid; e_NodeID : uuid; e_Seq : Z; e_FileOffset : Z; e_Length : Z;
  e_BlobID : uuid; e_BlobOffset : Z }.

Definition WALChunkSize : Z := 1048576.

Record WALChunk := mkWALChunk {
  c_ID : uuid; c_NodeID : uuid; c_Seq : Z; c_Data : bytes; c_CreatedAt : time }.

(** ** Blobs, bots, channels *)

Record Blob := mkBlob {
  b_ID : uuid; b_ChannelID : uuid; b_MessageID : Z; b_MessageSeq : Z;
  b_Size : Z; b_ContentHash : bytes; b_State : BlobState; b_Refcount : Z;
  b_CreatedAt : time; b_SealedAt : option time }.

Record BlobBotFile := mkBlobBotFile {
  f_BlobID : uuid; f_BotID : uuid; f_FileID : string; f_FileUniqueID : string;
  f_FetchedAt : time }.

Record Bot := mkBot {
  bot_ID : uuid; bot_Username : string; bot_Token : string; bot_Enabled : bool;
  bot_UnavailableUntil : option time; bot_CreatedAt : time }.

(** [Bot.Available]. *)
Definition Available (b : Bot) (now : time) : bool :=
  if negb (bot_Enabled b) then false
  else match bot_UnavailableUntil b with
       | Some u => if Before now u then false else true
       | None => true
       end.

Record Channel := mkChannel {
  ch_ID : uuid; ch_TGChatID : Z; ch_Title : string; ch_MessageCounter : Z;
  ch_EvictionThreshold : Z; ch_Available : bool; ch_CreatedAt : time }.

Record BotChannel := mkBotChannel {
  bc_BotID : uuid; bc_ChannelID : uuid; bc_Member : bool; bc_CheckedAt : time }.

Record TGSendResult := mkTGSendResult {
  up_MessageID : Z; up_FileID : string; up_FileUniqueID : string }.

(** ** Events, statistics, settings *)

Record Event := mkEvent {
  ev_ID : uuid; ev_TS : time; ev_Kind : string; ev_Message : string; ev_Ref : string }.

Definition EventBlobUnavailable := "blob_unavailable".
Definition EventBlobPermDeleted := "blob_perm_deleted".
Definition EventBlobCorrupt := "blob_corrupt".
Definition EventBlobReaped := "blob_reaped".
Definition EventCascadeDelete := "cascade_delete".
Definition EventBotDisabled := "bot_disabled".
Definition EventBotUnavailable := "bot_unavailable".
Definition EventChannelEvicted := "channel_evicted".
Definition EventChannelDisabled := "channel_disabled".
Definition EventUploadFailed := "upload_failed".

Record StatSample := mkStatSample {
  s_ID : uuid; s_TS : time; s_Metric : string; s_Label : string; s_Value : Z }.

Record Settings := mkSettings {
  BlobMaxSize : Z; WALIdleTimeout : Z; MaxFileSize : Z;
  DefaultEvictionThreshold : Z; UpdatedAt : time }.

Definition DefaultSettings : Settings :=
  mkSettings (19 * 1024 * 1024) (60 * Second) 0 900000 0.

#[global] Instance Node_eq_dec : EqDecision Node.
Proof. solve_decision. Defined.
#[global] Instance Extent_eq_dec : EqDecision Extent.
Proof. solve_decision. Defined.
#[global] Instance Blob_eq_dec : EqDecision Blob.
Proof. solve_decision. Defined.

(** ** The enumerations' round trips *)

Lemma NodeState_parse_string (s : NodeState) :
  ParseNodeState (NodeState_String (NodeState_int s)) = Some (NodeState_int s).
Proof. by destruct s. Qed.

Lemma BlobState_parse_string (s : BlobState) :
  ParseBlobState (BlobState_String (BlobState_int s)) = Some (BlobState_int s).
Proof. by destruct s. Qed.
