(* ===== verification/Sql.v ===== *)
(** * The database: db/migrations and internal/repository/sqlc

    [Db] is the contents of the tables of the initial migration, one finite map
    per table (keyed by its primary key), with their constraints enforced by the
    statements: primary keys, UNIQUE columns, foreign keys with CASCADE or
    RESTRICT, the range of [bigint].  Each statement of [internal/repository/sqlc]
    is one function of type [sql A]: it yields a Postgres error, or a result and
    the new tables.  A failed statement changes nothing. *)
From Stdlib Require Import ZArith Lia Strings.Byte Strings.String Strings.Ascii.
From stdpp Require Import base tactics list gmap sets sorting strings.
From S2P Require Import Prelude Model.
#[local] Open Scope string_scope.
#[local] Open Scope Z_scope.

(** ** Errors and tables *)

Inductive pgerr :=
| NoRows                (* pgx.ErrNoRows of a :one query *)
| UniqueViolation       (* 23505 *)
| ForeignKeyViolation   (* 23503 *)
| NumericOutOfRange.    (* 22003 *)

#[global] Instance pgerr_eq_dec : EqDecision pgerr.
Proof. solve_decision. Defined.

(** A row of [nodes]: the model's columns and the packer lease. *)
Record NodeRow := mkNodeRow {
  nr_node : Node; nr_lease_owner : string; nr_lease_until : option time }.

(** A row of [bots]: the token is stored encrypted, next to its digest. *)
Record BotRow := mkBotRow {
  br_ID : uuid; br_Username : string; br_TokenSha : string; br_TokenEnc : bytes;
  br_Enabled : bool; br_UnavailableUntil : option time; br_CreatedAt : time }.

(** The single row of [settings]: the idle timeout is in milliseconds. *)
Record SettingsRow := mkSettingsRow {
  sr_blob_max_size : Z; sr_wal_idle_timeout_ms : Z; sr_max_file_size : Z;
  sr_default_eviction_threshold : Z; sr_updated_at : time }.

Record Db := mkDb {
  d_users : gmap uuid User;
  d_api_tokens : gmap uuid APIToken;
  d_bots : gmap uuid BotRow;
  d_channels : gmap uuid Channel;
  d_bot_channel : gmap (uuid * uuid) BotChannel;
  d_blobs : gmap uuid Blob;
  d_blob_bot_files : gmap (uuid * uuid) BlobBotFile;
  d_nodes : gmap uuid NodeRow;
  d_extents : gmap uuid Extent;
  d_wal_chunks : gmap uuid WALChunk;
  d_events : list Event;
  d_stat_samples : list StatSample;
  d_settings : option SettingsRow }.

Definition empty_db : Db := mkDb ∅ ∅ ∅ ∅ ∅ ∅ ∅ ∅ ∅ ∅ [] [] None.

Definition set_users x (d : Db) := mkDb x (d_api_tokens d) (d_bots d) (d_channels d) (d_bot_channel d) (d_blobs d) (d_blob_bot_files d) (d_nodes d) (d_extents d) (d_wal_chunks d) (d_events d) (d_stat_samples d) (d_settings d).
Definition set_api_tokens x (d : Db) := mkDb (d_users d) x (d_bots d) (d_channels d) (d_bot_channel d) (d_blobs d) (d_blob_bot_files d) (d_nodes d) (d_extents d) (d_wal_chunks d) (d_events d) (d_stat_samples d) (d_settings d).
Definition set_bots x (d : Db) := mkDb (d_users d) (d_api_tokens d) x (d_channels d) (d_bot_channel d) (d_blobs d) (d_blob_bot_files d) (d_nodes d) (d_extents d) (d_wal_chunks d) (d_events d) (d_stat_samples d) (d_settings d).
Definition set_channels x (d : Db) := mkDb (d_users d) (d_api_tokens d) (d_bots d) x (d_bot_channel d) (d_blobs d) (d_blob_bot_files d) (d_nodes d) (d_extents d) (d_wal_chunks d) (d_events d) (d_stat_samples d) (d_settings d).
Definition set_bot_channel x (d : Db) := mkDb (d_users d) (d_api_tokens d) (d_bots d) (d_channels d) x (d_blobs d) (d_blob_bot_files d) (d_nodes d) (d_extents d) (d_wal_chunks d) (d_events d) (d_stat_samples d) (d_settings d).
Definition set_blobs x (d : Db) := mkDb (d_users d) (d_api_tokens d) (d_bots d) (d_channels d) (d_bot_channel d) x (d_blob_bot_files d) (d_nodes d) (d_extents d) (d_wal_chunks d) (d_events d) (d_stat_samples d) (d_settings d).
Definition set_blob_bot_files x (d : Db) := mkDb (d_users d) (d_api_tokens d) (d_bots d) (d_channels d) (d_bot_channel d) (d_blobs d) x (d_nodes d) (d_extents d) (d_wal_chunks d) (d_events d) (d_stat_samples d) (d_settings d).
Definition set_nodes x (d : Db) := mkDb (d_users d) (d_api_tokens d) (d_bots d) (d_channels d) (d_bot_channel d) (d_blobs d) (d_blob_bot_files d) x (d_extents d) (d_wal_chunks d) (d_events d) (d_stat_samples d) (d_settings d).
Definition set_extents x (d : Db) := mkDb (d_users d) (d_api_tokens d) (d_bots d) (d_channels d) (d_bot_channel d) (d_blobs d) (d_blob_bot_files d) (d_nodes d) x (d_wal_chunks d) (d_events d) (d_stat_samples d) (d_settings d).
Definition set_wal_chunks x (d : Db) := mkDb (d_users d) (d_api_tokens d) (d_bots d) (d_channels d) (d_bot_channel d) (d_blobs d) (d_blob_bot_files d) (d_nodes d) (d_extents d) x (d_events d) (d_stat_samples d) (d_settings d).
Definition set_events x (d : Db) := mkDb (d_users d) (d_api_tokens d) (d_bots d) (d_channels d) (d_bot_channel d) (d_blobs d) (d_blob_bot_files d) (d_nodes d) (d_extents d) (d_wal_chunks d) x (d_stat_samples d) (d_settings d).
Definition set_stat_samples x (d : Db) := mkDb (d_users d) (d_api_tokens d) (d_bots d) (d_channels d) (d_bot_channel d) (d_blobs d) (d_blob_bot_files d) (d_nodes d) (d_extents d) (d_wal_chunks d) (d_events d) x (d_settings d).
Definition set_settings x (d : Db) := mkDb (d_users d) (d_api_tokens d) (d_bots d) (d_channels d) (d_bot_channel d) (d_blobs d) (d_blob_bot_files d) (d_nodes d) (d_extents d) (d_wal_chunks d) (d_events d) (d_stat_samples d) x.

(** A statement. *)
Inductive sqlres (A : Type) := SqlErr (e : pgerr) | SqlOk (a : A) (d : Db).
Arguments SqlErr {A}. Arguments SqlOk {A}.
Definition sql (A : Type) : Type := Db → sqlres A.

(** The rows of a table that a WHERE clause keeps, in an unspecified order. *)
Definition rows {K A} `{Countable K} (P : A → bool) (m : gmap K A) : list A :=
  List.filter P (map_to_list m).*2.

(** [:one]: the first row, or [ErrNoRows]. *)
Definition one {A} (l : list A) : sql A :=
  λ d, match l with a :: _ => SqlOk a d | [] => SqlErr NoRows end.

Definition one_opt {A} (o : option A) : sql A :=
  λ d, match o with Some a => SqlOk a d | None => SqlErr NoRows end.

Definition many {A} (l : list A) : sql (list A) := λ d, SqlOk l d.

(** Some row of a table satisfies [P]. *)
Definition row_exists {K A} `{Countable K} (P : A → bool) (m : gmap K A) : bool :=
  existsb P (map_to_list m).*2.

Definition bigint_ok (z : Z) : bool := in_int64 z.

(** LIMIT. *)
Definition limit {A} (n : Z) (l : list A) : list A := take (Z.to_nat n) l.

(** ** node.sql.go *)

Definition path_taken (d : Db) (self user : uuid) (path : string) : bool :=
  row_exists (λ r, N.eqb (n_UserID (nr_node r)) user && String.eqb (n_Path (nr_node r)) path
                   && negb (N.eqb (n_ID (nr_node r)) self)) (d_nodes d).

Definition parent_fk (d : Db) (self : uuid) (p : option uuid) : bool :=
  match p with
  | None => true
  | Some q => N.eqb q self || bool_decide (is_Some (d_nodes d !! q))
  end.

Definition CreateNode (n : Node) : sql unit := λ d,
  if bool_decide (is_Some (d_nodes d !! n_ID n)) then SqlErr UniqueViolation
  else if path_taken d (n_ID n) (n_UserID n) (n_Path n) then SqlErr UniqueViolation
  else if negb (bool_decide (is_Some (d_users d !! n_UserID n)))
       || negb (parent_fk d (n_ID n) (n_ParentID n)) then SqlErr ForeignKeyViolation
  else SqlOk tt (set_nodes (<[n_ID n := mkNodeRow n "" None]> (d_nodes d)) d).

(** The columns of [UPDATE nodes SET ..]: everything but the id, the user, the
    creation time and the lease. *)
Definition updated_node (old n : Node) : Node :=
  mkNode (n_ID old) (n_UserID old) (n_ParentID n) (n_Name n) (n_Path n) (n_IsDir n)
    (n_Size n) (n_ContentHash n) (n_ETag n) (n_ContentType n) (n_State n)
    (n_CreatedAt old) (n_ModifiedAt n).

Definition UpdateNode (n : Node) : sql Z := λ d,
  match d_nodes d !! n_ID n with
  | None => SqlOk 0 d
  | Some r =>
      if path_taken d (n_ID n) (n_UserID (nr_node r)) (n_Path n) then SqlErr UniqueViolation
      else if negb (parent_fk d (n_ID n) (n_ParentID n)) then SqlErr ForeignKeyViolation
      else SqlOk 1 (set_nodes (<[n_ID n := mkNodeRow (updated_node (nr_node r) n)
                                (nr_lease_owner r) (nr_lease_until r)]> (d_nodes d)) d)
  end.

(** ON DELETE CASCADE of [nodes.parent_id]: the rows below a set of rows. *)
Definition parent_in (S : gset uuid) (r : NodeRow) : bool :=
  match n_ParentID (nr_node r) with Some p => bool_decide (p ∈ S) | None => false end.

Definition child_rows (nodes : gmap uuid NodeRow) (S : gset uuid) : gset uuid :=
  dom (filter (λ kv : uuid * NodeRow, parent_in S kv.2 = true) nodes).

Fixpoint cascade (fuel : nat) (nodes : gmap uuid NodeRow) (S : gset uuid) : gset uuid :=
  match fuel with
  | O => S
  | Datatypes.S k =>
      let S' := S ∪ child_rows nodes S in
      if decide (S' = S) then S else cascade k nodes S'
  end.

Definition cascade_set (nodes : gmap uuid NodeRow) (S : gset uuid) : gset uuid :=
  cascade (size (dom nodes ∪ S)) nodes S.

(** Deleting a set of nodes takes their subtrees, extents and WAL chunks along. *)
Definition delete_nodes (S : gset uuid) (d : Db) : Db :=
  let D := cascade_set (d_nodes d) S in
  set_nodes (filter (λ kv : uuid * NodeRow, kv.1 ∉ D) (d_nodes d))
    (set_extents (filter (λ kv : uuid * Extent, e_NodeID kv.2 ∉ D) (d_extents d))
      (set_wal_chunks (filter (λ kv : uuid * WALChunk, c_NodeID kv.2 ∉ D) (d_wal_chunks d)) d)).

Definition DeleteNode (id : uuid) : sql Z := λ d,
  match d_nodes d !! id with
  | None => SqlOk 0 d
  | Some _ => SqlOk 1 (delete_nodes {[id]} d)
  end.

Definition GetNodeByID (id : uuid) : sql NodeRow := λ d, one_opt (d_nodes d !! id) d.

Definition at_path (user : uuid) (path : string) (r : NodeRow) : bool :=
  N.eqb (n_UserID (nr_node r)) user && String.eqb (n_Path (nr_node r)) path.

Definition GetNodeByPath (user : uuid) (path : string) : sql NodeRow := λ d,
  one (rows (at_path user path) (d_nodes d)) d.

Definition child_of (user parent : uuid) (r : NodeRow) : bool :=
  N.eqb (n_UserID (nr_node r)) user && bool_decide (n_ParentID (nr_node r) = Some parent).

Definition ListChildren (user parent : uuid) : sql (list NodeRow) := λ d,
  many (sort_by_str (λ r, n_Name (nr_node r)) (rows (child_of user parent) (d_nodes d))) d.

(** [s LIKE p ESCAPE '\'] on byte strings. *)
Fixpoint like (p s : string) : bool :=
  match p with
  | EmptyString => match s with EmptyString => true | _ => false end
  | String c p' =>
      if Ascii.eqb c "%" then
        (fix any (t : string) : bool :=
           like p' t || match t with EmptyString => false | String _ t' => any t' end) s
      else if Ascii.eqb c "_" then
        match s with EmptyString => false | String _ s' => like p' s' end
      else if Ascii.eqb c "\" then
        match p' with
        | EmptyString => false
        | String c' p'' =>
            match s with
            | EmptyString => false
            | String a s' => Ascii.eqb a c' && like p'' s'
            end
        end
      else match s with
           | EmptyString => false
           | String a s' => Ascii.eqb a c && like p' s'
           end
  end.

Definition subtree_row (user : uuid) (path pat : string) (r : NodeRow) : bool :=
  N.eqb (n_UserID (nr_node r)) user
  && (String.eqb (n_Path (nr_node r)) path || like pat (n_Path (nr_node r))).

Definition ListSubtree (user : uuid) (path pat : string) : sql (list NodeRow) := λ d,
  many (sort_by_str (λ r, n_Path (nr_node r)) (rows (subtree_row user path pat) (d_nodes d))) d.

Definition CountChildren (parent : uuid) : sql Z := λ d,
  SqlOk (blen (rows (λ r, bool_decide (n_ParentID (nr_node r) = Some parent)) (d_nodes d))) d.

(** [SUM(size)] is [numeric]; the cast to [bigint] fails out of range. *)
Definition user_file_bytes (user : uuid) (d : Db) : Z :=
  sum_list_with_Z (λ r, n_Size (nr_node r))
    (rows (λ r, N.eqb (n_UserID (nr_node r)) user && negb (n_IsDir (nr_node r))) (d_nodes d)).

Definition SumSizeByUser (user : uuid) : sql Z := λ d,
  let s := user_file_bytes user d in
  if bigint_ok s then SqlOk s d else SqlErr NumericOutOfRange.

Definition lease_free (now : time) (r : NodeRow) : bool :=
  match nr_lease_until r with None => true | Some t => t <? now end.

Definition claimable (now : time) (r : NodeRow) : bool :=
  bool_decide (n_State (nr_node r) = NodeStateBuffered) && lease_free now r.

Definition set_lease (owner : string) (till : option time) (r : NodeRow) : NodeRow :=
  mkNodeRow (nr_node r) owner till.

(** [now] is the statement's [now()]. *)
Definition ClaimBufferedForPacking (now : time) (owner : string) (till : time) (lim : Z)
    : sql (list NodeRow) := λ d,
  let picked := limit lim (sort_by (λ r, n_ModifiedAt (nr_node r))
                             (rows (claimable now) (d_nodes d))) in
  let claimed := set_lease owner (Some till) <$> picked in
  SqlOk claimed
    (set_nodes (foldr (λ r m, <[n_ID (nr_node r) := r]> m) (d_nodes d) claimed) d).

Definition ReleaseLease (id : uuid) : sql Z := λ d,
  match d_nodes d !! id with
  | None => SqlOk 0 d
  | Some r => SqlOk 1 (set_nodes (<[id := set_lease "" None r]> (d_nodes d)) d)
  end.

Definition set_node_state (s : NodeState) (n : Node) : Node :=
  mkNode (n_ID n) (n_UserID n) (n_ParentID n) (n_Name n) (n_Path n) (n_IsDir n) (n_Size n)
    (n_ContentHash n) (n_ETag n) (n_ContentType n) s (n_CreatedAt n) (n_ModifiedAt n).

Definition MarkStoredIfOwner (id : uuid) (owner : string) : sql uuid := λ d,
  match d_nodes d !! id with
  | Some r =>
      if bool_decide (n_State (nr_node r) = NodeStateBuffered)
         && String.eqb (nr_lease_owner r) owner
      then SqlOk id (set_nodes (<[id := mkNodeRow (set_node_state NodeStateStored (nr_node r))
                                  "" None]> (d_nodes d)) d)
      else SqlErr NoRows
  | None => SqlErr NoRows
  end.

(** ** extent.sql.go *)

Definition extent_fk (d : Db) (e : Extent) : bool :=
  bool_decide (is_Some (d_nodes d !! e_NodeID e)) && bool_decide (is_Some (d_blobs d !! e_BlobID e)).

(** COPY: all the rows or none. *)
Fixpoint CreateExtents (es : list Extent) : sql Z := λ d,
  match es with
  | [] => SqlOk 0 d
  | e :: rest =>
      if bool_decide (is_Some (d_extents d !! e_ID e)) then SqlErr UniqueViolation
      else if negb (extent_fk d e) then SqlErr ForeignKeyViolation
      else match CreateExtents rest (set_extents (<[e_ID e := e]> (d_extents d)) d) with
           | SqlErr err => SqlErr err
           | SqlOk n d' => SqlOk (n + 1) d'
           end
  end.

Definition extents_of (node : uuid) (d : Db) : list Extent :=
  rows (λ e, N.eqb (e_NodeID e) node) (d_extents d).

Definition ListExtentsByNode (node : uuid) : sql (list Extent) := λ d,
  many (sort_by e_Seq (extents_of node d)) d.

Definition DeleteExtentsByNode (node : uuid) : sql unit := λ d,
  SqlOk tt (set_extents (filter (λ kv : uuid * Extent, e_NodeID kv.2 ≠ node) (d_extents d)) d).

Definition ListBlobIDsByNode (node : uuid) : sql (list uuid) := λ d,
  many (remove_dups (e_BlobID <$> extents_of node d)) d.

(** [gen i] is the [i]-th [gen_random_uuid()] of the statement. *)
Definition copied_extent (dst : uuid) (id : uuid) (e : Extent) : Extent :=
  mkExtent id dst (e_Seq e) (e_FileOffset e) (e_Length e) (e_BlobID e) (e_BlobOffset e).

Definition CopyExtentsForNode (gen : nat → uuid) (dst src : uuid) : sql unit := λ d,
  match CreateExtents (imap (λ i e, copied_extent dst (gen i) e) (extents_of src d)) d with
  | SqlErr e => SqlErr e
  | SqlOk _ d' => SqlOk tt d'
  end.

(** [GROUP BY node_id HAVING bool_and(blob_id = $1)]. *)
Definition ListNodesSolelyOnBlob (blob : uuid) : sql (list uuid) := λ d,
  let es := (map_to_list (d_extents d)).*2 in
  many (List.filter (λ n, forallb (λ e, negb (N.eqb (e_NodeID e) n) || N.eqb (e_BlobID e) blob) es)
          (remove_dups (e_NodeID <$> es))) d.

(** ** wal.sql.go *)

Definition AppendWALChunk (c : WALChunk) : sql unit := λ d,
  if bool_decide (is_Some (d_wal_chunks d !! c_ID c)) then SqlErr UniqueViolation
  else if row_exists (λ c', N.eqb (c_NodeID c') (c_NodeID c) && Z.eqb (c_Seq c') (c_Seq c))
            (d_wal_chunks d) then SqlErr UniqueViolation
  else if negb (bool_decide (is_Some (d_nodes d !! c_NodeID c))) then SqlErr ForeignKeyViolation
  else SqlOk tt (set_wal_chunks (<[c_ID c := c]> (d_wal_chunks d)) d).

Definition chunks_of (node : uuid) (d : Db) : list WALChunk :=
  rows (λ c, N.eqb (c_NodeID c) node) (d_wal_chunks d).

Definition ListWALChunksByNode (node : uuid) : sql (list WALChunk) := λ d,
  many (sort_by c_Seq (chunks_of node d)) d.

Definition ListWALChunksByNodeSeqRange (node : uuid) (first last : Z)
    : sql (list WALChunk) := λ d,
  many (sort_by c_Seq (rows (λ c, N.eqb (c_NodeID c) node && (first <=? c_Seq c)
                                  && (c_Seq c <=? last)) (d_wal_chunks d))) d.

Definition WALSizeByNode (node : uuid) : sql Z := λ d,
  SqlOk (sum_list_with_Z (λ c, blen (c_Data c)) (chunks_of node d)) d.

Definition DeleteWALChunksByNode (node : uuid) : sql unit := λ d,
  SqlOk tt (set_wal_chunks (filter (λ kv : uuid * WALChunk, c_NodeID kv.2 ≠ node)
                              (d_wal_chunks d)) d).

(** ** blob.sql.go *)

Definition CreateBlob (b : Blob) : sql unit := λ d,
  if bool_decide (is_Some (d_blobs d !! b_ID b)) then SqlErr UniqueViolation
  else if negb (bool_decide (is_Some (d_channels d !! b_ChannelID b)))
  then SqlErr ForeignKeyViolation
  else SqlOk tt (set_blobs (<[b_ID b := b]> (d_blobs d)) d).

Definition GetBlobByID (id : uuid) : sql Blob := λ d, one_opt (d_blobs d !! id) d.

(** [UPDATE blobs SET ..] leaves the id, the hash and the creation time. *)
Definition UpdateBlob (b : Blob) : sql Z := λ d,
  match d_blobs d !! b_ID b with
  | None => SqlOk 0 d
  | Some o =>
      if negb (bool_decide (is_Some (d_channels d !! b_ChannelID b)))
      then SqlErr ForeignKeyViolation
      else SqlOk 1 (set_blobs (<[b_ID b :=
             mkBlob (b_ID o) (b_ChannelID b) (b_MessageID b) (b_MessageSeq b) (b_Size b)
               (b_ContentHash o) (b_State b) (b_Refcount b) (b_CreatedAt o) (b_SealedAt b)]>
             (d_blobs d)) d)
  end.

Definition blob_with_state (s : BlobState) (b : Blob) : Blob :=
  mkBlob (b_ID b) (b_ChannelID b) (b_MessageID b) (b_MessageSeq b) (b_Size b)
    (b_ContentHash b) s (b_Refcount b) (b_CreatedAt b) (b_SealedAt b).

Definition blob_with_refcount (n : Z) (b : Blob) : Blob :=
  mkBlob (b_ID b) (b_ChannelID b) (b_MessageID b) (b_MessageSeq b) (b_Size b)
    (b_ContentHash b) (b_State b) n (b_CreatedAt b) (b_SealedAt b).

Definition SetBlobState (id : uuid) (s : BlobState) : sql Z := λ d,
  match d_blobs d !! id with
  | None => SqlOk 0 d
  | Some b => SqlOk 1 (set_blobs (<[id := blob_with_state s b]> (d_blobs d)) d)
  end.

Definition AddBlobRefcount (id : uuid) (delta : Z) : sql Z := λ d,
  match d_blobs d !! id with
  | None => SqlErr NoRows
  | Some b =>
      let n := b_Refcount b + delta in
      if bigint_ok n
      then SqlOk n (set_blobs (<[id := blob_with_refcount n b]> (d_blobs d)) d)
      else SqlErr NumericOutOfRange
  end.

(** The parallel arrays of ids and deltas are the entries of a Go map. *)
Definition add_delta (deltas : gmap uuid Z) (id : uuid) (b : Blob) : Blob :=
  match deltas !! id with
  | Some dl => blob_with_refcount (b_Refcount b + dl) b
  | None => b
  end.

Definition AddBlobRefcounts (deltas : gmap uuid Z) : sql unit := λ d,
  let blobs' := map_imap (λ id b, Some (add_delta deltas id b)) (d_blobs d) in
  if forallb (λ b, bigint_ok (b_Refcount b))
       (List.filter (λ b, bool_decide (is_Some (deltas !! b_ID b))) (map_to_list blobs').*2)
  then SqlOk tt (set_blobs blobs' d)
  else SqlErr NumericOutOfRange.

Definition ListBlobsByChannel (ch : uuid) : sql (list Blob) := λ d,
  many (sort_by b_MessageSeq (rows (λ b, N.eqb (b_ChannelID b) ch) (d_blobs d))) d.

Definition ListBlobsByState (s : BlobState) : sql (list Blob) := λ d,
  many (sort_by b_CreatedAt (rows (λ b, bool_decide (b_State b = s)) (d_blobs d))) d.

Definition collect_grace : Z := 10 * Minute.

Definition collectable (now : time) (s : BlobState) (b : Blob) : bool :=
  bool_decide (b_State b = s) && (b_Refcount b <=? 0)
  && (b_CreatedAt b <? now - collect_grace).

Definition ListCollectableBlobs (now : time) (s : BlobState) (lim : Z) : sql (list Blob) := λ d,
  many (limit lim (sort_by b_CreatedAt (rows (collectable now s) (d_blobs d)))) d.

(** An UPDATE of the blobs a WHERE clause selects. *)
Definition update_blobs (P : Blob → bool) (s : BlobState) (d : Db) : Db :=
  set_blobs ((λ b, if P b then blob_with_state s b else b) <$> d_blobs d) d.

Definition MarkChannelBlobsUnavailable (ch : uuid) (s s2 : BlobState) : sql unit := λ d,
  SqlOk tt (update_blobs (λ b, N.eqb (b_ChannelID b) ch && negb (bool_decide (b_State b = s2))) s d).

Definition MarkChannelBlobsAvailable (ch : uuid) (s s2 : BlobState) : sql unit := λ d,
  SqlOk tt (update_blobs (λ b, N.eqb (b_ChannelID b) ch && bool_decide (b_State b = s2)) s d).

Definition evictable (ch : uuid) (min_seq : Z) (s : BlobState) (b : Blob) : bool :=
  N.eqb (b_ChannelID b) ch && (b_MessageSeq b <? min_seq) && negb (bool_decide (b_State b = s)).

Definition EvictBlobsOlderThan (ch : uuid) (min_seq : Z) (s s2 : BlobState) : sql Z := λ d,
  SqlOk (blen (rows (evictable ch min_seq s) (d_blobs d)))
    (update_blobs (evictable ch min_seq s) s2 d).

Definition DeleteBlob (id : uuid) : sql Z := λ d,
  match d_blobs d !! id with
  | None => SqlOk 0 d
  | Some _ =>
      if row_exists (λ e, N.eqb (e_BlobID e) id) (d_extents d) then SqlErr ForeignKeyViolation
      else SqlOk 1
        (set_blobs (delete id (d_blobs d))
          (set_blob_bot_files (filter (λ kv : uuid * uuid * BlobBotFile, kv.1.1 ≠ id)
                                 (d_blob_bot_files d)) d))
  end.

Definition CountBlobs : sql Z := λ d, SqlOk (Z.of_nat (size (d_blobs d))) d.

(** ** blobbotfile.sql.go *)

Definition UpsertBlobBotFile (f : BlobBotFile) : sql unit := λ d,
  if bool_decide (is_Some (d_blobs d !! f_BlobID f)) && bool_decide (is_Some (d_bots d !! f_BotID f))
  then SqlOk tt (set_blob_bot_files (<[(f_BlobID f, f_BotID f) := f]> (d_blob_bot_files d)) d)
  else SqlErr ForeignKeyViolation.

Definition GetBlobBotFile (blob bot : uuid) : sql BlobBotFile := λ d,
  one_opt (d_blob_bot_files d !! (blob, bot)) d.

Definition ListBlobBotFilesByBlob (blob : uuid) : sql (list BlobBotFile) := λ d,
  many (rows (λ f, N.eqb (f_BlobID f) blob) (d_blob_bot_files d)) d.

Definition DeleteBlobBotFilesByBlob (blob : uuid) : sql unit := λ d,
  SqlOk tt (set_blob_bot_files (filter (λ kv : uuid * uuid * BlobBotFile, kv.1.1 ≠ blob)
                                  (d_blob_bot_files d)) d).

Definition DeleteBlobBotFilesByBot (bot : uuid) : sql unit := λ d,
  SqlOk tt (set_blob_bot_files (filter (λ kv : uuid * uuid * BlobBotFile, kv.1.2 ≠ bot)
                                  (d_blob_bot_files d)) d).

(** ** bot.sql.go *)

Definition CreateBot (b : BotRow) : sql unit := λ d,
  if bool_decide (is_Some (d_bots d !! br_ID b))
     || row_exists (λ o, String.eqb (br_TokenSha o) (br_TokenSha b)) (d_bots d)
  then SqlErr UniqueViolation
  else SqlOk tt (set_bots (<[br_ID b := b]> (d_bots d)) d).

Definition UpdateBot (b : BotRow) : sql Z := λ d,
  match d_bots d !! br_ID b with
  | None => SqlOk 0 d
  | Some o =>
      if row_exists (λ r, String.eqb (br_TokenSha r) (br_TokenSha b)
                          && negb (N.eqb (br_ID r) (br_ID b))) (d_bots d)
      then SqlErr UniqueViolation
      else SqlOk 1 (set_bots (<[br_ID b := mkBotRow (br_ID o) (br_Username b) (br_TokenSha b)
             (br_TokenEnc b) (br_Enabled b) (br_UnavailableUntil b) (br_CreatedAt o)]>
             (d_bots d)) d)
  end.

Definition DeleteBot (id : uuid) : sql Z := λ d,
  match d_bots d !! id with
  | None => SqlOk 0 d
  | Some _ => SqlOk 1
      (set_bots (delete id (d_bots d))
        (set_bot_channel (filter (λ kv : uuid * uuid * BotChannel, kv.1.1 ≠ id) (d_bot_channel d))
          (set_blob_bot_files (filter (λ kv : uuid * uuid * BlobBotFile, kv.1.2 ≠ id)
                                 (d_blob_bot_files d)) d)))
  end.

Definition GetBotByID (id : uuid) : sql BotRow := λ d, one_opt (d_bots d !! id) d.

Definition ListBotsByIDs (ids : list uuid) : sql (list BotRow) := λ d,
  many (rows (λ b, bool_decide (br_ID b ∈ ids)) (d_bots d)) d.

Definition GetBotByUsername (name : string) : sql BotRow := λ d,
  one (rows (λ b, String.eqb (br_Username b) name) (d_bots d)) d.

Definition ListBots : sql (list BotRow) := λ d,
  many (sort_by br_CreatedAt (rows (λ _, true) (d_bots d))) d.

Definition SetBotUnavailableUntil (id : uuid) (till : option time) : sql Z := λ d,
  match d_bots d !! id with
  | None => SqlOk 0 d
  | Some o => SqlOk 1 (set_bots (<[id := mkBotRow (br_ID o) (br_Username o) (br_TokenSha o)
                (br_TokenEnc o) (br_Enabled o) till (br_CreatedAt o)]> (d_bots d)) d)
  end.

(** ** botchannel.sql.go *)

Definition UpsertBotChannel (bc : BotChannel) : sql unit := λ d,
  if bool_decide (is_Some (d_bots d !! bc_BotID bc))
     && bool_decide (is_Some (d_channels d !! bc_ChannelID bc))
  then SqlOk tt (set_bot_channel (<[(bc_BotID bc, bc_ChannelID bc) := bc]> (d_bot_channel d)) d)
  else SqlErr ForeignKeyViolation.

Definition GetBotChannel (bot ch : uuid) : sql BotChannel := λ d,
  one_opt (d_bot_channel d !! (bot, ch)) d.

Definition ListBotChannelsByChannel (ch : uuid) : sql (list BotChannel) := λ d,
  many (rows (λ bc, N.eqb (bc_ChannelID bc) ch) (d_bot_channel d)) d.

Definition ListBotChannelsByBot (bot : uuid) : sql (list BotChannel) := λ d,
  many (rows (λ bc, N.eqb (bc_BotID bc) bot) (d_bot_channel d)) d.

Definition DeleteBotChannelsByBot (bot : uuid) : sql unit := λ d,
  SqlOk tt (set_bot_channel (filter (λ kv : uuid * uuid * BotChannel, kv.1.1 ≠ bot)
                               (d_bot_channel d)) d).

Definition DeleteBotChannelsByChannel (ch : uuid) : sql unit := λ d,
  SqlOk tt (set_bot_channel (filter (λ kv : uuid * uuid * BotChannel, kv.1.2 ≠ ch)
                               (d_bot_channel d)) d).

(** ** channel.sql.go *)

Definition chat_taken (d : Db) (self : uuid) (chat : Z) : bool :=
  row_exists (λ o, Z.eqb (ch_TGChatID o) chat && negb (N.eqb (ch_ID o) self)) (d_channels d).

Definition CreateChannel (c : Channel) : sql unit := λ d,
  if bool_decide (is_Some (d_channels d !! ch_ID c)) || chat_taken d (ch_ID c) (ch_TGChatID c)
  then SqlErr UniqueViolation
  else SqlOk tt (set_channels (<[ch_ID c := c]> (d_channels d)) d).

Definition UpdateChannel (c : Channel) : sql Z := λ d,
  match d_channels d !! ch_ID c with
  | None => SqlOk 0 d
  | Some o =>
      if chat_taken d (ch_ID c) (ch_TGChatID c) then SqlErr UniqueViolation
      else SqlOk 1 (set_channels (<[ch_ID c := mkChannel (ch_ID o) (ch_TGChatID c) (ch_Title c)
             (ch_MessageCounter c) (ch_EvictionThreshold c) (ch_Available c) (ch_CreatedAt o)]>
             (d_channels d)) d)
  end.

Definition DeleteChannel (id : uuid) : sql Z := λ d,
  match d_channels d !! id with
  | None => SqlOk 0 d
  | Some _ =>
      if row_exists (λ b, N.eqb (b_ChannelID b) id) (d_blobs d) then SqlErr ForeignKeyViolation
      else SqlOk 1 (set_channels (delete id (d_channels d))
             (set_bot_channel (filter (λ kv : uuid * uuid * BotChannel, kv.1.2 ≠ id)
                                 (d_bot_channel d)) d))
  end.

Definition GetChannelByID (id : uuid) : sql Channel := λ d, one_opt (d_channels d !! id) d.

Definition GetChannelByChatID (chat : Z) : sql Channel := λ d,
  one (rows (λ c, Z.eqb (ch_TGChatID c) chat) (d_channels d)) d.

Definition ListChannels : sql (list Channel) := λ d,
  many (sort_by ch_CreatedAt (rows (λ _, true) (d_channels d))) d.

Definition channel_with_counter (n : Z) (c : Channel) : Channel :=
  mkChannel (ch_ID c) (ch_TGChatID c) (ch_Title c) n (ch_EvictionThreshold c)
    (ch_Available c) (ch_CreatedAt c).

Definition IncrementChannelCounter (id : uuid) (delta : Z) : sql Z := λ d,
  match d_channels d !! id with
  | None => SqlErr NoRows
  | Some c =>
      let n := ch_MessageCounter c + delta in
      if bigint_ok n
      then SqlOk n (set_channels (<[id := channel_with_counter n c]> (d_channels d)) d)
      else SqlErr NumericOutOfRange
  end.

Definition SetChannelAvailable (id : uuid) (a : bool) : sql Z := λ d,
  match d_channels d !! id with
  | None => SqlOk 0 d
  | Some c => SqlOk 1 (set_channels (<[id := mkChannel (ch_ID c) (ch_TGChatID c) (ch_Title c)
                (ch_MessageCounter c) (ch_EvictionThreshold c) a (ch_CreatedAt c)]>
                (d_channels d)) d)
  end.

(** ** event.sql.go, stat.sql.go, settings.sql.go *)

Definition LogEvent (e : Event) : sql unit := λ d,
  if existsb (λ o, N.eqb (ev_ID o) (ev_ID e)) (d_events d) then SqlErr UniqueViolation
  else SqlOk tt (set_events (d_events d ++ [e])%list d).

Definition event_kind (kind : string) (e : Event) : bool :=
  String.eqb kind "" || String.eqb (ev_Kind e) kind.

Definition CountEvents (kind : string) : sql Z := λ d,
  SqlOk (blen (List.filter (event_kind kind) (d_events d))) d.

Definition ListEvents (kind : string) (row_limit row_offset : option Z) : sql (list Event) := λ d,
  let l := sort_by_desc ev_TS (List.filter (event_kind kind) (d_events d)) in
  let l := match row_offset with Some n => drop (Z.to_nat n) l | None => l end in
  many (match row_limit with Some n => limit n l | None => l end) d.

Definition RecordStat (s : StatSample) : sql unit := λ d,
  if existsb (λ o, N.eqb (s_ID o) (s_ID s)) (d_stat_samples d) then SqlErr UniqueViolation
  else SqlOk tt (set_stat_samples (d_stat_samples d ++ [s])%list d).

Definition stat_of (metric label : string) (s : StatSample) : bool :=
  String.eqb (s_Metric s) metric && String.eqb (s_Label s) label.

Definition QueryStats (metric label : string) (from to : time) : sql (list StatSample) := λ d,
  many (sort_by s_TS (List.filter (λ s, stat_of metric label s && (from <=? s_TS s)
                                        && (s_TS s <=? to)) (d_stat_samples d))) d.

Definition LatestStat (metric label : string) : sql StatSample := λ d,
  one (sort_by_desc s_TS (List.filter (stat_of metric label) (d_stat_samples d))) d.

Definition GetSettings : sql SettingsRow := λ d, one_opt (d_settings d) d.

Definition UpsertSettings (s : SettingsRow) : sql unit := λ d,
  SqlOk tt (set_settings (Some s) d).

(** ** token.sql.go, user.sql.go *)

Definition CreateAPIToken (t : APIToken) : sql unit := λ d,
  if bool_decide (is_Some (d_api_tokens d !! t_ID t))
     || row_exists (λ o, String.eqb (t_TokenHash o) (t_TokenHash t)) (d_api_tokens d)
  then SqlErr UniqueViolation
  else if negb (bool_decide (is_Some (d_users d !! t_UserID t))) then SqlErr ForeignKeyViolation
  else SqlOk tt (set_api_tokens (<[t_ID t := t]> (d_api_tokens d)) d).

Definition GetAPITokenByHash (h : string) : sql APIToken := λ d,
  one (rows (λ t, String.eqb (t_TokenHash t) h) (d_api_tokens d)) d.

Definition ListAPITokensByUser (user : uuid) : sql (list APIToken) := λ d,
  many (sort_by_desc t_CreatedAt (rows (λ t, N.eqb (t_UserID t) user) (d_api_tokens d))) d.

Definition DeleteAPIToken (id : uuid) : sql Z := λ d,
  match d_api_tokens d !! id with
  | None => SqlOk 0 d
  | Some _ => SqlOk 1 (set_api_tokens (delete id (d_api_tokens d)) d)
  end.

Definition TouchAPITokenLastUsed (id : uuid) (at_ : time) : sql Z := λ d,
  match d_api_tokens d !! id with
  | None => SqlOk 0 d
  | Some t => SqlOk 1 (set_api_tokens (<[id := mkAPIToken (t_ID t) (t_UserID t) (t_TokenHash t)
                (t_Name t) (t_CreatedAt t) (Some at_)]> (d_api_tokens d)) d)
  end.

Definition login_taken (d : Db) (self : uuid) (login : string) : bool :=
  row_exists (λ o, String.eqb (u_Login o) login && negb (N.eqb (u_ID o) self)) (d_users d).

Definition CreateUser (u : User) : sql unit := λ d,
  if bool_decide (is_Some (d_users d !! u_ID u)) || login_taken d (u_ID u) (u_Login u)
  then SqlErr UniqueViolation
  else SqlOk tt (set_users (<[u_ID u := u]> (d_users d)) d).

Definition UpdateUser (u : User) : sql Z := λ d,
  match d_users d !! u_ID u with
  | None => SqlOk 0 d
  | Some o =>
      if login_taken d (u_ID u) (u_Login u) then SqlErr UniqueViolation
      else SqlOk 1 (set_users (<[u_ID u := mkUser (u_ID o) (u_Login u) (u_PasswordHash u)
             (u_IsAdmin u) (u_QuotaBytes u) (u_BandwidthBPS u) (u_RatePerMin u)
             (u_CreatedAt o)]> (d_users d)) d)
  end.

(** The user's tokens and nodes go with the user, the nodes with their subtrees,
    extents and WAL chunks.  No blob row changes. *)
Definition DeleteUser (id : uuid) : sql Z := λ d,
  match d_users d !! id with
  | None => SqlOk 0 d
  | Some _ =>
      let own := dom (filter (λ kv : uuid * NodeRow, n_UserID (nr_node kv.2) = id) (d_nodes d)) in
      let d' := delete_nodes own d in
      SqlOk 1 (set_users (delete id (d_users d))
        (set_api_tokens (filter (λ kv : uuid * APIToken, t_UserID kv.2 ≠ id) (d_api_tokens d)) d'))
  end.

Definition GetUserByID (id : uuid) : sql User := λ d, one_opt (d_users d !! id) d.

Definition GetUserByLogin (login : string) : sql User := λ d,
  one (rows (λ u, String.eqb (u_Login u) login) (d_users d)) d.

Definition ListUsers : sql (list User) := λ d,
  many (sort_by u_CreatedAt (rows (λ _, true) (d_users d))) d.

Definition CountUsers : sql Z := λ d, SqlOk (Z.of_nat (size (d_users d))) d.
