(* ===== verification/World.v ===== *)
(** * The state a request runs in: internal/database and the effects of the code

    A Go function of the program becomes a function of type [M A]: it reads and
    writes a [World] and returns a value or an error, as [(A, error)] does.  The
    things the program cannot decide (the clock, fresh uuids, a statement that
    fails because the connection broke or the context was cancelled) are read off
    the schedules of the class [Env] at the world's event counter [w_step], so a
    theorem about every [Env] is about every such schedule.

    [WithTx] is [database.TxManager.WithTx]: it joins the active transaction or
    opens one, commits on success and restores the tables on an error.  A failed
    statement aborts the transaction it runs in, as Postgres does: every later
    statement fails, and so does the commit.  A commit that reports an error is
    taken to have rolled back. *)
From Stdlib Require Import ZArith Lia Strings.Byte Strings.String.
From stdpp Require Import base tactics list gmap sets.
From S2P Require Import Prelude Model Sql.
#[local] Open Scope string_scope.
#[local] Open Scope Z_scope.

(** ** Errors *)

(** The sentinels the code tests with [errors.Is]; a [%w] chain is its sentinel. *)
Inductive error :=
| ErrNotFound | ErrAlreadyExists            (* repository *)
| PgError (e : pgerr)                       (* any other SQLSTATE *)
| ErrTxAborted                              (* 25P02, a statement after a failed one *)
| ErrDriver                                 (* connection lost, context cancelled *)
| OsErrNotExist | OsErrExist | OsErrPermission | OsErrInvalid | OsErrClosed
| IoEOF | IoErrUnexpectedEOF
| ErrQuotaExceeded
| ErrUnauthorized | ErrForbidden | ErrNoBot | ErrBlobUnavailable
| ErrBlobCorrupt
| TgRateLimit (retry_after : Z) | TgMessageNotFound | TgForbidden | TgOther
| ErrNoSecretKey | ErrCipher
| ErrValidation (msg : string)
| ErrIo                                     (* a local file operation *)
| ErrOther (msg : string).

#[global] Instance error_eq_dec : EqDecision error.
Proof. solve_decision. Defined.

(** [(value, error)]. *)
Inductive res (A : Type) := Ok (a : A) | Err (e : error).
Arguments Ok {A}. Arguments Err {A}.

(** [errors.Is(err, target)]. *)
Definition errors_Is (e target : error) : bool := bool_decide (e = target).

Definition res_map {A B} (f : A → B) (r : res A) : res B :=
  match r with Ok a => Ok (f a) | Err e => Err e end.

(** ** Schedules *)

Class Env := {
  env_fault : nat → bool;         (* the n-th database round trip fails *)
  env_io_fault : nat → bool;      (* the n-th local file operation fails *)
  env_done : nat → bool;          (* ctx.Err() != nil at step n *)
  env_now : nat → time;           (* time.Now() *)
  env_dbnow : nat → time;         (* now() of the database *)
  env_uuid : nat → nat → uuid;    (* uuid.New(), gen_random_uuid() *)
  env_uuid_string : uuid → string;
  env_duration : Z → string;      (* time.Duration.String() *)
  env_nfc : string → string;      (* golang.org/x/text/unicode/norm NFC *)
  env_mime : string → string      (* mime.TypeByExtension: the host's tables *)
}.

(** No database round trip fails. *)
Definition no_faults {E : Env} : Prop := ∀ n, env_fault n = false.

(** ** The world *)

(** The counters of service.StatRecorder. *)
Record Counters := mkCounters {
  k_readBytes : Z; k_writeBytes : Z; k_readOps : Z; k_writeOps : Z;
  k_cacheHit : Z; k_cacheMiss : Z; k_telegramReq : Z }.

(** service/cache: an entry of the index, and the cache.  [ce_ptr] is the entry's
    identity (the code compares pointers), [ca_next] the next fresh one; [ca_lru]
    lists the ids from the most to the least recently used; [ca_files] is the
    directory, each file with its modification time. *)
Record CacheEntry := mkCacheEntry { ce_ptr : nat; ce_size : Z; ce_lastAccess : time }.
Record Cache := mkCache {
  ca_maxBytes : Z; ca_idleTTL : Z; ca_index : gmap uuid CacheEntry;
  ca_lru : list uuid; ca_total : Z; ca_files : gmap uuid (bytes * time); ca_next : nat }.

(** The transaction in flight: the tables before it and whether it is aborted. *)
Record Tx := mkTx { tx_snapshot : Db; tx_aborted : bool }.

(** service.bucket.  The limiter of golang.org/x/time/rate is known by what it was
    made with, [bk_ratePerMin], and the calls of [Allow] on it, newest first. *)
Record bucket := mkBucket { bk_ratePerMin : Z; bk_calls : list time; bk_lastSeen : time }.

Record World := mkWorld {
  w_db : Db;
  w_tx : option Tx;
  w_step : nat;
  w_rootReady : gset uuid;        (* FileSystem.rootReady *)
  w_cache : Cache;
  w_stats : Counters;
  w_rr : Z;                       (* BotService.rr *)
  w_rrc : Z;                      (* ChannelService.rr *)
  w_sent : gmap uuid time;        (* telegram.Client.bots: lastSent of each bot *)
  w_vc : gmap string time;        (* AuthService.vc: key to expiry *)
  w_buckets : gmap uuid bucket }. (* Limiter.buckets *)

Definition set_db (d : Db) (w : World) : World :=
  mkWorld d (w_tx w) (w_step w) (w_rootReady w) (w_cache w) (w_stats w) (w_rr w) (w_rrc w) (w_sent w) (w_vc w) (w_buckets w).
Definition set_tx (t : option Tx) (w : World) : World :=
  mkWorld (w_db w) t (w_step w) (w_rootReady w) (w_cache w) (w_stats w) (w_rr w) (w_rrc w) (w_sent w) (w_vc w) (w_buckets w).
Definition tick (w : World) : World :=
  mkWorld (w_db w) (w_tx w) (S (w_step w)) (w_rootReady w) (w_cache w) (w_stats w) (w_rr w) (w_rrc w) (w_sent w) (w_vc w) (w_buckets w).
Definition set_rootReady (s : gset uuid) (w : World) : World :=
  mkWorld (w_db w) (w_tx w) (w_step w) s (w_cache w) (w_stats w) (w_rr w) (w_rrc w) (w_sent w) (w_vc w) (w_buckets w).
Definition set_cache (c : Cache) (w : World) : World :=
  mkWorld (w_db w) (w_tx w) (w_step w) (w_rootReady w) c (w_stats w) (w_rr w) (w_rrc w) (w_sent w) (w_vc w) (w_buckets w).
Definition set_stats (k : Counters) (w : World) : World :=
  mkWorld (w_db w) (w_tx w) (w_step w) (w_rootReady w) (w_cache w) k (w_rr w) (w_rrc w) (w_sent w) (w_vc w) (w_buckets w).
Definition set_rr (z : Z) (w : World) : World :=
  mkWorld (w_db w) (w_tx w) (w_step w) (w_rootReady w) (w_cache w) (w_stats w) z (w_rrc w) (w_sent w) (w_vc w) (w_buckets w).
Definition set_rrc (z : Z) (w : World) : World :=
  mkWorld (w_db w) (w_tx w) (w_step w) (w_rootReady w) (w_cache w) (w_stats w) (w_rr w) z (w_sent w) (w_vc w) (w_buckets w).
Definition set_sent (m : gmap uuid time) (w : World) : World :=
  mkWorld (w_db w) (w_tx w) (w_step w) (w_rootReady w) (w_cache w) (w_stats w) (w_rr w) (w_rrc w) m (w_vc w) (w_buckets w).
Definition set_vc (m : gmap string time) (w : World) : World :=
  mkWorld (w_db w) (w_tx w) (w_step w) (w_rootReady w) (w_cache w) (w_stats w) (w_rr w) (w_rrc w) (w_sent w) m (w_buckets w).
Definition set_buckets (m : gmap uuid bucket) (w : World) : World :=
  mkWorld (w_db w) (w_tx w) (w_step w) (w_rootReady w) (w_cache w) (w_stats w) (w_rr w) (w_rrc w) (w_sent w) (w_vc w) m.

(** ** The monad *)

Definition M (A : Type) : Type := World → res A * World.

Definition ret {A} (a : A) : M A := λ w, (Ok a, w).
Definition fail {A} (e : error) : M A := λ w, (Err e, w).
(** A Go panic: the goroutine dies with it, or the Recoverer answers. *)
Definition panic {A} (msg : string) : M A := fail (ErrOther (String.append "panic: " msg)).
Definition is_panic (e : error) : bool :=
  match e with ErrOther msg => HasPrefix msg "panic: " | _ => false end.
Definition bind {A B} (m : M A) (k : A → M B) : M B := λ w,
  match m w with
  | (Ok a, w') => k a w'
  | (Err e, w') => (Err e, w')
  end.
(** [v, err := m]: continue with the pair, whatever it is. *)
Definition try {A B} (m : M A) (k : res A → M B) : M B := λ w,
  let '(r, w') := m w in k r w'.
Definition of_res {A} (r : res A) : M A := λ w, (r, w).
Definition modify (f : World → World) : M unit := λ w, (Ok tt, f w).
Definition gets {A} (f : World → A) : M A := λ w, (Ok (f w), w).

Declare Scope m_scope.
Delimit Scope m_scope with M.
Notation "'let!' x := m 'in' k" := (bind m (λ x, k))
  (at level 10, x name, m at level 200, k at level 200) : m_scope.
Notation "'let!' ' x := m 'in' k" := (bind m (λ x, k))
  (at level 10, x strict pattern, m at level 200, k at level 200) : m_scope.
Notation "'let?' x := m 'in' k" := (try m (λ x, k))
  (at level 10, x name, m at level 200, k at level 200) : m_scope.
Notation "'do!' m 'in' k" := (bind m (λ _, k))
  (at level 10, m at level 200, k at level 200) : m_scope.
Notation "'ignore!' m 'in' k" := (try m (λ _, k))
  (at level 10, m at level 200, k at level 200) : m_scope.
Open Scope m_scope.

(** [for _, x := range l { if err := f(x); err != nil { return err } }]. *)
Fixpoint for_each {A} (l : list A) (f : A → M unit) : M unit :=
  match l with
  | [] => ret tt
  | x :: rest => do! f x in for_each rest f
  end.

(** The same loop building a slice. *)
Fixpoint map_each {A B} (l : list A) (f : A → M B) : M (list B) :=
  match l with
  | [] => ret []
  | x :: rest => let! y := f x in let! ys := map_each rest f in ret (y :: ys)
  end.

(** ** Reading the schedules *)

Section effects.
Context {E : Env}.

Definition Now : M time := λ w, (Ok (env_now (w_step w)), tick w).
Definition uuid_New : M uuid := λ w, (Ok (env_uuid (w_step w) O), tick w).
Definition ctx_Err : M bool := λ w, (Ok (env_done (w_step w)), tick w).
Definition io_ok : M bool := λ w, (Ok (negb (env_io_fault (w_step w))), tick w).

(** ** Statements and transactions *)

Definition abort_tx (w : World) : World :=
  match w_tx w with
  | Some t => set_tx (Some (mkTx (tx_snapshot t) true)) w
  | None => w
  end.

Definition in_aborted (w : World) : bool :=
  match w_tx w with Some t => tx_aborted t | None => false end.

(** One round trip on the executor of [database.FromContext].  [q] also gets the
    database's clock and its source of random uuids. *)
Definition query {A} (q : time → (nat → uuid) → sql A) : M A := λ w,
  if in_aborted w then (Err ErrTxAborted, tick w)
  else if env_fault (w_step w) then (Err ErrDriver, tick (abort_tx w))
  else match q (env_dbnow (w_step w)) (env_uuid (w_step w)) (w_db w) with
       | SqlOk a d => (Ok a, tick (set_db d w))
       | SqlErr NoRows => (Err (PgError NoRows), tick w)
       | SqlErr e => (Err (PgError e), tick (abort_tx w))
       end.

Definition stmt {A} (q : sql A) : M A := query (λ _ _, q).

(** [TxManager.WithTx]. *)
Definition WithTx {A} (fn : M A) : M A := λ w,
  match w_tx w with
  | Some _ => fn w
  | None =>
      if env_fault (w_step w) then (Err ErrDriver, tick w)
      else
        let d0 := w_db w in
        let '(r, w1) := fn (set_tx (Some (mkTx d0 false)) (tick w)) in
        match r with
        | Err e => (Err e, tick (set_tx None (set_db d0 w1)))
        | Ok a =>
            if in_aborted w1 || env_fault (w_step w1)
            then (Err ErrDriver, tick (set_tx None (set_db d0 w1)))
            else (Ok a, tick (set_tx None w1))
        end
  end.

End effects.

(** [repository.translateError]. *)
Definition translateError (e : error) : error :=
  match e with
  | PgError NoRows => ErrNotFound
  | PgError UniqueViolation => ErrAlreadyExists
  | _ => e
  end.

(** [if err != nil { return fmt.Errorf("..: %w", translateError(err)) }]. *)
Definition translate {A} (m : M A) : M A := λ w,
  match m w with (Ok a, w') => (Ok a, w') | (Err e, w') => (Err (translateError e), w') end.

(** [if rows == 0 { return ErrNotFound }]. *)
Definition need_row (m : M Z) : M unit :=
  let! n := m in if n =? 0 then fail ErrNotFound else ret tt.

(** ** Running a computation *)

Section running.
Context {E : Env}.

Lemma bind_Ok {A B} (m : M A) (k : A → M B) w b w' :
  bind m k w = (Ok b, w') → ∃ a w1, m w = (Ok a, w1) ∧ k a w1 = (Ok b, w').
Proof. unfold bind. destruct (m w) as [[a|e] w1]; [|done]. by eexists _, _. Qed.

Lemma bind_run {A B} (m : M A) (k : A → M B) w a w1 : m w = (Ok a, w1) → bind m k w = k a w1.
Proof. unfold bind. by intros ->. Qed.

Lemma bind_cases {A B} (m : M A) (k : A → M B) w r w' :
  bind m k w = (r, w') →
  (∃ a w1, m w = (Ok a, w1) ∧ k a w1 = (r, w')) ∨ (∃ e, m w = (Err e, w') ∧ r = Err e).
Proof.
  unfold bind. destruct (m w) as [[a|e] w1]; intros H; [left|right]; [by eexists _, _|].
  simplify_eq. by exists e.
Qed.

Lemma try_run {A B} (m : M A) (k : res A → M B) w :
  try m k w = k (m w).1 (m w).2.
Proof. unfold try. by destruct (m w). Qed.

Lemma translate_Ok {A} (m : M A) w a w' : translate m w = (Ok a, w') ↔ m w = (Ok a, w').
Proof. unfold translate. destruct (m w) as [[?|?] ?]; split; intros; by simplify_eq. Qed.

Lemma translate_Err {A} (m : M A) w e w' :
  translate m w = (Err e, w') → ∃ e0, m w = (Err e0, w') ∧ e = translateError e0.
Proof. unfold translate. destruct (m w) as [[?|e0] ?]; intros; simplify_eq. by exists e0. Qed.

Lemma need_row_Ok (m : M Z) w u w' :
  need_row m w = (Ok u, w') → ∃ n, m w = (Ok n, w') ∧ n ≠ 0.
Proof.
  unfold need_row. intros (n & w1 & Hm & Hk)%bind_Ok.
  destruct (n =? 0) eqn:Hn; [done|]. unfold ret in Hk. simplify_eq.
  apply Z.eqb_neq in Hn. by exists n.
Qed.

(** What a statement that succeeded did. *)
Lemma query_Ok {A} (q : time → (nat → uuid) → sql A) w a w' :
  query q w = (Ok a, w') ↔
  in_aborted w = false ∧ env_fault (w_step w) = false ∧
  ∃ d, q (env_dbnow (w_step w)) (env_uuid (w_step w)) (w_db w) = SqlOk a d
       ∧ w' = tick (set_db d w).
Proof.
  unfold query. destruct (in_aborted w); [split; [done|by intros [? _]]|].
  destruct (env_fault (w_step w)); [split; [done|by intros (_ & ? & _)]|].
  destruct (q _ _ (w_db w)) as [e|a0 d] eqn:Hq.
  - split; [by destruct e|]. by intros (_ & _ & d & ? & _).
  - split.
    + intros. simplify_eq. split_and!; try done. by exists d.
    + intros (_ & _ & d' & H & ->). by simplify_eq.
Qed.

Lemma stmt_Ok {A} (q : sql A) w a w' :
  stmt q w = (Ok a, w') ↔
  in_aborted w = false ∧ env_fault (w_step w) = false ∧
  ∃ d, q (w_db w) = SqlOk a d ∧ w' = tick (set_db d w).
Proof. apply (query_Ok (λ _ _, q)). Qed.

Lemma stmt_runs {A} (q : sql A) w a d : no_faults → in_aborted w = false → q (w_db w) = SqlOk a d →
  stmt q w = (Ok a, tick (set_db d w)).
Proof. intros Hnf Hab Hq. apply stmt_Ok. split_and!; [done|apply Hnf|by exists d]. Qed.

(** The part of the world a computation that only touches the database leaves. *)
Record same_mem (w w' : World) : Prop := {
  sm_root : w_rootReady w' = w_rootReady w;
  sm_cache : w_cache w' = w_cache w;
  sm_stats : w_stats w' = w_stats w;
  sm_rr : w_rr w' = w_rr w;
  sm_tx : tx_snapshot <$> w_tx w' = tx_snapshot <$> w_tx w }.

#[global] Instance same_mem_preorder : PreOrder same_mem.
Proof.
  split.
  - intros w. by split.
  - intros w1 w2 w3 [] []. split; congruence.
Qed.

(** The errors of a statement other than "no row". *)
Definition hard_err (e : error) : Prop :=
  match e with ErrTxAborted | ErrDriver => True | PgError p => p ≠ NoRows | _ => False end.

Lemma translate_NotFound e :
  translateError e = ErrNotFound → e = PgError NoRows ∨ e = ErrNotFound.
Proof.
  intros H. destruct e; simpl in H; try done; [by right|].
  match type of H with context [match ?p with _ => _ end] => destruct p end; by left || done.
Qed.

Lemma hard_not_found e : hard_err e → translateError e ≠ ErrNotFound.
Proof. intros H [->| ->]%translate_NotFound; simpl in H; done. Qed.

(** What a statement that failed did: no row changed; either it found no row and
    the transaction goes on, or the transaction (if any) is aborted. *)
Lemma query_Err {A} (q : time → (nat → uuid) → sql A) w e w' :
  query q w = (Err e, w') →
  w_db w' = w_db w ∧ same_mem w w' ∧ (w_tx w = None → w_tx w' = None) ∧
  ((e = PgError NoRows ∧ in_aborted w = false ∧ w' = tick w
    ∧ q (env_dbnow (w_step w)) (env_uuid (w_step w)) (w_db w) = SqlErr NoRows)
   ∨ (hard_err e ∧ (w_tx w ≠ None → in_aborted w' = true))).
Proof.
  unfold query, in_aborted. destruct w as [d tx st rr ca ss r0 rc0 sn0 vc0 bk0]; simpl.
  destruct tx as [[sn [|]]|]; simpl; intros H;
    [by simplify_eq; (split_and!; [done|by split|done|right])|..];
    (destruct (env_fault st); [by simplify_eq; (split_and!; [done|by split|done|right])|]);
    (destruct (q _ _ d) as [[]|] eqn:Hq; simplify_eq; split_and!;
     first [done | by split | by right | left; by split_and!]).
Qed.

Lemma set_db_id w : set_db (w_db w) w = w.
Proof. by destruct w. Qed.

(** ** Transactions are atomic *)

Lemma WithTx_Err {A} (fn : M A) w e w' :
  w_tx w = None → WithTx fn w = (Err e, w') → w_db w' = w_db w ∧ w_tx w' = None.
Proof.
  unfold WithTx. intros Htx. rewrite Htx.
  destruct (env_fault (w_step w)); [intros; by simplify_eq|].
  destruct (fn _) as [[a|e1] w1]; [destruct (_ || _)|]; intros; by simplify_eq.
Qed.

Lemma WithTx_Ok {A} (fn : M A) w a w' :
  w_tx w = None → WithTx fn w = (Ok a, w') →
  ∃ w1, fn (set_tx (Some (mkTx (w_db w) false)) (tick w)) = (Ok a, w1)
        ∧ in_aborted w1 = false ∧ w' = tick (set_tx None w1).
Proof.
  unfold WithTx. intros Htx. rewrite Htx.
  destruct (env_fault (w_step w)); [done|].
  destruct (fn _) as [[a1|e1] w1] eqn:Hf; [|done]. destruct (_ || _) eqn:Hc; [done|].
  intros [= -> <-]. apply orb_false_iff in Hc as [Hc _]. by exists w1.
Qed.

End running.

(** One step of inverting a run that succeeded. *)
Ltac m_step :=
  match goal with
  | H : bind _ _ _ = (Ok _, _) |- _ =>
      let a := fresh "x" in let w := fresh "w" in let H1 := fresh "Hm" in
      apply bind_Ok in H as (a & w & H1 & H)
  | H : ret _ _ = (_, _) |- _ => unfold ret in H; simplify_eq/=
  | H : fail _ _ = (_, _) |- _ => unfold fail in H; simplify_eq/=
  | H : translate _ _ = (Ok _, _) |- _ => apply (proj1 (translate_Ok _ _ _ _)) in H
  | H : need_row _ _ = (Ok _, _) |- _ =>
      let n := fresh "n" in let Hn := fresh "Hn" in apply need_row_Ok in H as (n & H & Hn)
  | H : stmt _ _ = (Ok _, _) |- _ =>
      let Ha := fresh "Hab" in let Hf := fresh "Hfa" in let d := fresh "d" in
      let Hq := fresh "Hq" in apply (proj1 (stmt_Ok _ _ _ _)) in H as (Ha & Hf & d & Hq & ->)
  | H : query _ _ = (Ok _, _) |- _ =>
      let Ha := fresh "Hab" in let Hf := fresh "Hfa" in let d := fresh "d" in
      let Hq := fresh "Hq" in apply (proj1 (query_Ok _ _ _ _)) in H as (Ha & Hf & d & Hq & ->)
  | H : Now _ = (_, _) |- _ => unfold Now in H; simplify_eq/=
  | H : uuid_New _ = (_, _) |- _ => unfold uuid_New in H; simplify_eq/=
  end.
Ltac m_inv := repeat m_step.
