(* ===== verification/Repository.v ===== *)
(** * internal/repository

    One definition per repository method: the statement it runs, the translation
    of its error, the test of the affected-row count, the ids and timestamps it
    fills in.  The executor ([database.FromContext]) is the world itself: inside
    [WithTx] it is the transaction.  At the end: the nullable columns of the driver
    (convert.go) and the source of rows of COPY (sqlc/copyfrom.go). *)
From Stdlib Require Import ZArith Lia Strings.Byte Strings.String Strings.Ascii.
From stdpp Require Import base tactics list gmap sets sorting strings.
From S2P Require Import Prelude Model Sql World.
#[local] Open Scope string_scope.
#[local] Open Scope Z_scope.

Section repository.
Context {E : Env}.

(** [if x.ID == uuid.Nil { x.ID = uuid.New() }] and
    [if x.CreatedAt.IsZero() { x.CreatedAt = time.Now() }]. *)
Definition or_new (id : uuid) : M uuid := if N.eqb id uuid_Nil then uuid_New else ret id.
Definition or_now (t : time) : M time := if IsZero t then Now else ret t.

(** ** node.go *)

Definition NodeRepository_Create (n : Node) : M Node :=
  let! id := or_new (n_ID n) in
  let! now := Now in
  let n' := mkNode id (n_UserID n) (n_ParentID n) (n_Name n) (n_Path n) (n_IsDir n) (n_Size n)
              (n_ContentHash n) (n_ETag n) (n_ContentType n) (n_State n)
              (if IsZero (n_CreatedAt n) then now else n_CreatedAt n)
              (if IsZero (n_ModifiedAt n) then now else n_ModifiedAt n) in
  do! translate (stmt (CreateNode n')) in
  ret n'.

Definition NodeRepository_Update (n : Node) : M unit :=
  need_row (translate (stmt (UpdateNode n))).

Definition NodeRepository_Delete (id : uuid) : M unit :=
  need_row (translate (stmt (DeleteNode id))).

Definition NodeRepository_GetByID (id : uuid) : M Node :=
  let! r := translate (stmt (GetNodeByID id)) in ret (nr_node r).

Definition NodeRepository_GetByPath (user : uuid) (path : string) : M Node :=
  let! r := translate (stmt (GetNodeByPath user path)) in ret (nr_node r).

Definition NodeRepository_ListChildren (user parent : uuid) : M (list Node) :=
  let! rs := translate (stmt (ListChildren user parent)) in ret (nr_node <$> rs).

(** [strings.NewReplacer] with the three one-byte rules. *)
Fixpoint escapeLike (s : string) : string :=
  match s with
  | EmptyString => EmptyString
  | String c t =>
      if Ascii.eqb c "\" || Ascii.eqb c "%" || Ascii.eqb c "_"
      then String "\" (String c (escapeLike t))
      else String c (escapeLike t)
  end.

Definition subtree_pattern (prefix : string) : string := escapeLike prefix +:+ "/%".

Definition NodeRepository_ListSubtree (user : uuid) (prefix : string) : M (list Node) :=
  let! rs := translate (stmt (ListSubtree user prefix (subtree_pattern prefix))) in
  ret (nr_node <$> rs).

Definition NodeRepository_CountChildren (parent : uuid) : M Z :=
  translate (stmt (CountChildren parent)).

Definition NodeRepository_SumSizeByUser (user : uuid) : M Z :=
  translate (stmt (SumSizeByUser user)).

Definition NodeRepository_ClaimBufferedForPacking (owner : string) (lease_for lim : Z)
    : M (list Node) :=
  if lim <=? 0 then ret []
  else
    let! now := Now in
    let! rs := translate (query (λ dbnow _,
                 ClaimBufferedForPacking dbnow owner (now + lease_for) (int32_of lim))) in
    ret (nr_node <$> rs).

Definition NodeRepository_ReleaseLease (id : uuid) : M unit :=
  need_row (translate (stmt (ReleaseLease id))).

(** No row is the expected negative outcome. *)
Definition NodeRepository_MarkStoredIfOwner (id : uuid) (owner : string) : M bool :=
  let? r := stmt (MarkStoredIfOwner id owner) in
  match r with
  | Ok _ => ret true
  | Err e => if errors_Is e (PgError NoRows) then ret false else fail (translateError e)
  end.

(** ** extent.go *)

Definition extent_with_id (id : uuid) (e : Extent) : Extent :=
  mkExtent id (e_NodeID e) (e_Seq e) (e_FileOffset e) (e_Length e) (e_BlobID e) (e_BlobOffset e).

Definition extentRepository_CreateBatch (es : list Extent) : M unit :=
  match es with
  | [] => ret tt
  | _ =>
      let! es' := map_each es (λ e, let! id := or_new (e_ID e) in ret (extent_with_id id e)) in
      do! translate (stmt (CreateExtents es')) in
      ret tt
  end.

Definition extentRepository_ListByNode (node : uuid) : M (list Extent) :=
  translate (stmt (ListExtentsByNode node)).

Definition extentRepository_DeleteByNode (node : uuid) : M unit :=
  translate (stmt (DeleteExtentsByNode node)).

Definition extentRepository_ListBlobIDsByNode (node : uuid) : M (list uuid) :=
  translate (stmt (ListBlobIDsByNode node)).

Definition extentRepository_CopyForNode (src dst : uuid) : M unit :=
  translate (query (λ _ gen, CopyExtentsForNode gen dst src)).

Definition extentRepository_ListNodesSolelyOnBlob (blob : uuid) : M (list uuid) :=
  translate (stmt (ListNodesSolelyOnBlob blob)).

(** ** wal.go *)

Definition WALRepository_AppendChunk (c : WALChunk) : M unit :=
  let! id := or_new (c_ID c) in
  let! created := or_now (c_CreatedAt c) in
  translate (stmt (AppendWALChunk (mkWALChunk id (c_NodeID c) (c_Seq c) (c_Data c) created))).

(** The callback may run statements of its own and stop the iteration. *)
Definition WALRepository_EachChunk (node : uuid) (fn : WALChunk → M unit) : M unit :=
  let! cs := translate (stmt (ListWALChunksByNode node)) in
  for_each cs fn.

(** [end := offset + length] and the products wrap like the [int64]s they are. *)
Definition read_window (offset length : Z) (chunks : list bytes) : bytes :=
  let end_ := wrap64 (offset + length) in
  let first := Z.quot offset WALChunkSize in
  let base := first * WALChunkSize in
  let assembled := concat chunks in
  let from := offset - base in
  let to0 := wrap64 (end_ - base) in
  let to := if to0 >? blen assembled then blen assembled else to0 in
  if from >=? to then [] else slice from to assembled.

Definition WALRepository_ReadRange (node : uuid) (offset length : Z) : M bytes :=
  if (length <=? 0) || (offset <? 0) then ret []
  else
    let end_ := wrap64 (offset + length) in
    let first := Z.quot offset WALChunkSize in
    let last := Z.quot (wrap64 (end_ - 1)) WALChunkSize in
    let! cs := translate (stmt (ListWALChunksByNodeSeqRange node first last)) in
    ret (read_window offset length (c_Data <$> cs)).

Definition WALRepository_SizeByNode (node : uuid) : M Z := translate (stmt (WALSizeByNode node)).

Definition WALRepository_DeleteByNode (node : uuid) : M unit :=
  translate (stmt (DeleteWALChunksByNode node)).

(** ** blob.go *)

(** [content_hash] is a byte slice here, so a nil hash is already the empty one. *)
Definition blobRepository_Create (b : Blob) : M Blob :=
  let! id := or_new (b_ID b) in
  let! created := or_now (b_CreatedAt b) in
  let b' := mkBlob id (b_ChannelID b) (b_MessageID b) (b_MessageSeq b) (b_Size b)
              (b_ContentHash b) (b_State b) (b_Refcount b) created (b_SealedAt b) in
  do! translate (stmt (CreateBlob b')) in
  ret b'.

Definition blobRepository_GetByID (id : uuid) : M Blob := translate (stmt (GetBlobByID id)).

Definition blobRepository_Update (b : Blob) : M unit :=
  need_row (translate (stmt (UpdateBlob b))).

Definition blobRepository_SetState (id : uuid) (s : BlobState) : M unit :=
  need_row (translate (stmt (SetBlobState id s))).

Definition blobRepository_AddRefcount (id : uuid) (delta : Z) : M unit :=
  do! translate (stmt (AddBlobRefcount id delta)) in ret tt.

Definition blobRepository_AddRefcounts (deltas : gmap uuid Z) : M unit :=
  if decide (deltas = ∅) then ret tt else translate (stmt (AddBlobRefcounts deltas)).

Definition blobRepository_ListByChannel (ch : uuid) : M (list Blob) :=
  translate (stmt (ListBlobsByChannel ch)).

Definition blobRepository_ListByState (s : BlobState) : M (list Blob) :=
  translate (stmt (ListBlobsByState s)).

Definition MaxInt32 : Z := 2 ^ 31 - 1.

Definition blobRepository_ListCollectable (lim : Z) : M (list Blob) :=
  let lim' := if lim <=? 0 then MaxInt32 else int32_of lim in
  translate (query (λ dbnow _, ListCollectableBlobs dbnow BlobStateStored lim')).

Definition blobRepository_MarkChannelUnavailable (ch : uuid) : M unit :=
  translate (stmt (MarkChannelBlobsUnavailable ch BlobStateUnavailable BlobStatePermUnavailable)).

Definition blobRepository_MarkChannelAvailable (ch : uuid) : M unit :=
  translate (stmt (MarkChannelBlobsAvailable ch BlobStateStored BlobStateUnavailable)).

Definition blobRepository_EvictOlderThan (ch : uuid) (min_seq : Z) : M Z :=
  translate (stmt (EvictBlobsOlderThan ch min_seq BlobStatePermUnavailable BlobStateUnavailable)).

Definition blobRepository_Delete (id : uuid) : M unit :=
  need_row (translate (stmt (DeleteBlob id))).

Definition blobRepository_Count : M Z := translate (stmt CountBlobs).

End repository.

(** ** convert.go and sqlc/copyfrom.go: the glue of the driver

    The nullable columns of the driver and the pointers of the models, and the source
    of rows the generated code hands to COPY. *)

(** ** convert.go *)

(** [pgtype.UUID] and [pgtype.Timestamptz]: a value and whether it is one. *)
Record pgUUID := mkPgUUID { pu_Bytes : uuid; pu_Valid : bool }.
Record pgTimestamptz := mkPgTimestamptz { pt_Time : time; pt_Valid : bool }.

Definition uuidToPtr (v : pgUUID) : option uuid := if negb (pu_Valid v) then None else Some (pu_Bytes v).
Definition ptrToUUID (p : option uuid) : pgUUID :=
  match p with None => mkPgUUID 0 false | Some id => mkPgUUID id true end.
Definition timeToPtr (v : pgTimestamptz) : option time := if negb (pt_Valid v) then None else Some (pt_Time v).
Definition ptrToTime (p : option time) : pgTimestamptz :=
  match p with None => mkPgTimestamptz 0 false | Some t => mkPgTimestamptz t true end.

(** A model goes to the database and comes back the same. *)
Lemma uuid_roundtrip p : uuidToPtr (ptrToUUID p) = p.
Proof. by destruct p. Qed.
Lemma time_roundtrip p : timeToPtr (ptrToTime p) = p.
Proof. by destruct p. Qed.

(** The other way the value under a NULL is lost, and nothing else. *)
Lemma column_roundtrip v : pu_Valid v = true → ptrToUUID (uuidToPtr v) = v.
Proof. destruct v as [b []]; [done|]. done. Qed.
Lemma null_column v : pu_Valid v = false → uuidToPtr v = None.
Proof. by destruct v as [b []]. Qed.

(** The source of rows. *)

Record iteratorForCreateExtents := mkIterator { it_rows : list Extent; it_skippedFirstNextCall : bool }.

Definition it_Next (r : iteratorForCreateExtents) : iteratorForCreateExtents * bool :=
  if (length (it_rows r) =? 0)%nat then (r, false)
  else if negb (it_skippedFirstNextCall r) then (mkIterator (it_rows r) true, true)
  else
    let rows := tail (it_rows r) in
    (mkIterator rows (it_skippedFirstNextCall r), (0 <? length rows)%nat).

(** The values of a row in the order of the columns of the COPY. *)
Inductive column := ColUUID (id : uuid) | ColInt (n : Z).

(** [r.rows[0]] panics when there is none. *)
Definition it_Values (r : iteratorForCreateExtents) : option (list column) :=
  match it_rows r with
  | [] => None
  | e :: _ => Some [ColUUID (e_ID e); ColUUID (e_NodeID e); ColInt (e_Seq e); ColInt (e_FileOffset e);
                    ColInt (e_Length e); ColUUID (e_BlobID e); ColInt (e_BlobOffset e)]
  end.

Definition extents_columns : list string :=
  ["id"; "node_id"; "seq"; "file_offset"; "length"; "blob_id"; "blob_offset"]%string.

(** What a reader of the source gets that calls [Values] after each [Next] that is
    true, as pgx does: [None] for a panic or for more than [fuel] calls. *)
Fixpoint drain (fuel : nat) (r : iteratorForCreateExtents) : option (list (list column)) :=
  match fuel with
  | O => None
  | S fuel =>
      match it_Next r with
      | (_, false) => Some []
      | (r', true) => vs ← it_Values r'; rest ← drain fuel r'; Some (vs :: rest)
      end
  end.

(** The row a list of values makes. *)
Definition row_of (vs : list column) : option Extent :=
  match vs with
  | [ColUUID id; ColUUID node; ColInt seq; ColInt off; ColInt len; ColUUID blob; ColInt boff] =>
      Some (mkExtent id node seq off len blob boff)
  | _ => None
  end.

Lemma drain_rest rows fuel : (length rows < fuel)%nat → ∀ e, ∃ vss,
  drain fuel (mkIterator (e :: rows) true) = Some vss ∧ mapM row_of vss = Some rows.
Proof.
  revert fuel. induction rows as [|e' rows IH]; intros [|fuel] Hf e; cbn in Hf; try lia; [by exists []|].
  destruct (IH fuel ltac:(lia) e') as (vss & Hd & Hv). eexists. split.
  - cbn [drain it_Next]. unfold it_Next. cbn. rewrite Hd. reflexivity.
  - cbn. rewrite Hv. by destruct e'.
Qed.

(** The source yields the rows, each once and in order, whole, and then ends; it never
    panics. *)
Lemma drain_yields_rows rows : ∃ vss,
  drain (S (S (length rows))) (mkIterator rows false) = Some vss ∧ mapM row_of vss = Some rows.
Proof.
  destruct rows as [|e rows]; [by exists []|].
  destruct (drain_rest rows (S (S (length rows))) ltac:(lia) e) as (vss & Hd & Hv). eexists. split.
  - cbn [length]. revert Hd. generalize (S (S (length rows))). intros k Hd.
    cbn [drain]. unfold it_Next. cbn. rewrite Hd. reflexivity.
  - cbn. rewrite Hv. by destruct e.
Qed.

(** [CreateExtents] over a source: the rows it yields are inserted, all or none. *)
Definition CopyFrom (r : iteratorForCreateExtents) : option (sql Z) :=
  vss ← drain (S (S (length (it_rows r)))) r; rows ← mapM row_of vss; Some (CreateExtents rows).

Lemma CopyFrom_rows rows : CopyFrom (mkIterator rows false) = Some (CreateExtents rows).
Proof. unfold CopyFrom. cbn [it_rows]. destruct (drain_yields_rows rows) as (vss & -> & H). cbn. by rewrite H. Qed.
