(* ===== verification/Crypto.v ===== *)
(** * crypto/sha256 and encoding/hex of Go's standard library

    SHA-256 as FIPS 180-4 defines it, on 32-bit words as [Z], and lower-case
    hexadecimal.  Both are executable; the examples are the standard's vectors. *)
From Stdlib Require Import ZArith Lia Strings.Byte Strings.String Strings.Ascii.
From stdpp Require Import base tactics list strings.
From S2P Require Import Prelude.
#[local] Open Scope string_scope.
#[local] Open Scope Z_scope.

(** ** Words and bytes *)

Definition w32 (z : Z) : Z := Z.land z 4294967295.
Definition add32 (a b : Z) : Z := w32 (a + b).
Definition rotr (n x : Z) : Z := Z.lor (Z.shiftr x n) (w32 (Z.shiftl x (32 - n))).
Definition not32 (x : Z) : Z := Z.lxor x 4294967295.

Definition byte_to_Z (b : Byte.byte) : Z := Z.of_N (Byte.to_N b).
Definition byte_of_Z (z : Z) : Byte.byte :=
  match Byte.of_N (Z.to_N (Z.land z 255)) with Some b => b | None => Byte.x00 end.

(** The [n] low bytes of [z], most significant first. *)
Fixpoint be_bytes (n : nat) (z : Z) : list Byte.byte :=
  match n with
  | O => []
  | S k => byte_of_Z (Z.shiftr z (8 * Z.of_nat k)) :: be_bytes k z
  end.

Definition be_word (bs : list Byte.byte) : Z :=
  foldl (λ acc b, acc * 256 + byte_to_Z b) 0 bs.

(** ** The compression function *)

Definition sha_k : list Z :=
  [1116352408; 1899447441; 3049323471; 3921009573; 961987163; 1508970993; 2453635748;
   2870763221; 3624381080; 310598401; 607225278; 1426881987; 1925078388; 2162078206;
   2614888103; 3248222580; 3835390401; 4022224774; 264347078; 604807628; 770255983;
   1249150122; 1555081692; 1996064986; 2554220882; 2821834349; 2952996808; 3210313671;
   3336571891; 3584528711; 113926993; 338241895; 666307205; 773529912; 1294757372;
   1396182291; 1695183700; 1986661051; 2177026350; 2456956037; 2730485921; 2820302411;
   3259730800; 3345764771; 3516065817; 3600352804; 4094571909; 275423344; 430227734;
   506948616; 659060556; 883997877; 958139571; 1322822218; 1537002063; 1747873779;
   1955562222; 2024104815; 2227730452; 2361852424; 2428436474; 2756734187; 3204031479;
   3329325298].

Definition sha_h0 : list Z :=
  [1779033703; 3144134277; 1013904242; 2773480762; 1359893119; 2600822924; 528734635;
   1541459225].

Definition sigma0 (x : Z) : Z := Z.lxor (Z.lxor (rotr 7 x) (rotr 18 x)) (Z.shiftr x 3).
Definition sigma1 (x : Z) : Z := Z.lxor (Z.lxor (rotr 17 x) (rotr 19 x)) (Z.shiftr x 10).
Definition Sigma0 (x : Z) : Z := Z.lxor (Z.lxor (rotr 2 x) (rotr 13 x)) (rotr 22 x).
Definition Sigma1 (x : Z) : Z := Z.lxor (Z.lxor (rotr 6 x) (rotr 11 x)) (rotr 25 x).
Definition Ch (x y z : Z) : Z := Z.lxor (Z.land x y) (Z.land (not32 x) z).
Definition Maj (x y z : Z) : Z := Z.lxor (Z.lxor (Z.land x y) (Z.land x z)) (Z.land y z).

Definition nthZ (l : list Z) (i : nat) : Z := nth i l 0.

(** The message schedule, the latest word first. *)
Fixpoint schedule (n : nat) (rev_w : list Z) : list Z :=
  match n with
  | O => rev_w
  | S k =>
      let w := add32 (add32 (sigma1 (nthZ rev_w 1)) (nthZ rev_w 6))
                     (add32 (sigma0 (nthZ rev_w 14)) (nthZ rev_w 15)) in
      schedule k (w :: rev_w)
  end.

Definition sha_round (s : list Z) (kw : Z * Z) : list Z :=
  match s with
  | [a; b; c; d; e; f; g; h] =>
      let t1 := add32 (add32 h (Sigma1 e)) (add32 (Ch e f g) (add32 kw.1 kw.2)) in
      let t2 := add32 (Sigma0 a) (Maj a b c) in
      [add32 t1 t2; a; b; c; add32 d t1; e; f; g]
  | _ => s
  end.

Fixpoint words_of (n : nat) (bs : list Byte.byte) : list Z :=
  match n with O => [] | S k => be_word (take 4 bs) :: words_of k (drop 4 bs) end.

Definition sha_block (h : list Z) (blk : list Byte.byte) : list Z :=
  let w := reverse (schedule 48 (reverse (words_of 16 blk))) in
  zip_with add32 h (foldl sha_round h (zip sha_k w)).

(** Padding to a multiple of 64 bytes: 0x80, zeros, the bit length. *)
Definition sha_pad (m : list Byte.byte) : list Byte.byte :=
  let n := length m in
  let z := ((119 - n mod 64) mod 64)%nat in
  (m ++ [Byte.x80] ++ repeat Byte.x00 z ++ be_bytes 8 (8 * Z.of_nat n))%list.

Fixpoint sha_blocks (n : nat) (h : list Z) (m : list Byte.byte) : list Z :=
  match n with O => h | S k => sha_blocks k (sha_block h (take 64 m)) (drop 64 m) end.

(** [sha256.Sum256]. *)
Definition sha256 (m : list Byte.byte) : list Byte.byte :=
  let p := sha_pad m in
  concat (be_bytes 4 <$> sha_blocks (length p / 64) sha_h0 p).

(** A digest has 32 bytes. *)
Lemma sha_round_length s kw : length s = 8%nat → length (sha_round s kw) = 8%nat.
Proof. by do 9 (destruct s as [|? s]; try done). Qed.

Lemma sha_block_length h blk : length h = 8%nat → length (sha_block h blk) = 8%nat.
Proof.
  intros Hh. unfold sha_block. generalize (zip sha_k (reverse (schedule 48 (reverse (words_of 16 blk))))). intros l.
  rewrite length_zip_with, Hh. assert (∀ s, length s = 8%nat → length (foldl sha_round s l) = 8%nat) as ->; [|done|done].
  induction l as [|kw l IH]; intros s Hs; [done|]. by apply IH, sha_round_length.
Qed.

Lemma sha_blocks_length n h m : length h = 8%nat → length (sha_blocks n h m) = 8%nat.
Proof. revert h m. induction n as [|n IH]; intros h m Hh; [done|]. by apply IH, sha_block_length. Qed.

Lemma sha256_length m : length (sha256 m) = 32%nat.
Proof.
  unfold sha256. pose proof (sha_blocks_length (length (sha_pad m) / 64) sha_h0 (sha_pad m) eq_refl) as H.
  destruct (sha_blocks _ _ _) as [|? l]; [done|]. by do 8 (destruct l as [|? l]; try done).
Qed.

(** ** encoding/hex *)

Definition hex_digit (z : Z) : ascii :=
  match Z.to_nat z with
  | 0%nat => "0" | 1%nat => "1" | 2%nat => "2" | 3%nat => "3" | 4%nat => "4" | 5%nat => "5"
  | 6%nat => "6" | 7%nat => "7" | 8%nat => "8" | 9%nat => "9" | 10%nat => "a" | 11%nat => "b"
  | 12%nat => "c" | 13%nat => "d" | 14%nat => "e" | _ => "f"
  end%char.

(** [hex.EncodeToString]. *)
Fixpoint hex_encode (bs : list Byte.byte) : string :=
  match bs with
  | [] => EmptyString
  | b :: t =>
      String (hex_digit (Z.shiftr (byte_to_Z b) 4))
        (String (hex_digit (Z.land (byte_to_Z b) 15)) (hex_encode t))
  end.

(** [[]byte(s)] and [string(b)]. *)
Definition bytes_of (s : string) : list Byte.byte := String.list_byte_of_string s.
Definition string_of (b : list Byte.byte) : string := String.string_of_list_byte b.

Lemma string_of_bytes_of (s : string) : string_of (bytes_of s) = s.
Proof. apply String.string_of_list_byte_of_string. Qed.

Lemma bytes_of_string_of (b : list Byte.byte) : bytes_of (string_of b) = b.
Proof. apply String.list_byte_of_string_of_list_byte. Qed.

(** FIPS 180-4: the digests of the empty message and of "abc". *)
Lemma sha256_empty :
  hex_encode (sha256 []) =
    "e3b0c44298fc1c149afbf4c8996fb92427ae41e4649b934ca495991b7852b855".
Proof. vm_compute. reflexivity. Qed.

Lemma sha256_abc :
  hex_encode (sha256 (bytes_of "abc")) =
    "ba7816bf8f01cfea414140de5dae2223b00361a396177a9cb410ff61f20015ad".
Proof. vm_compute. reflexivity. Qed.

Lemma length_be_bytes n z : length (be_bytes n z) = n.
Proof. induction n; simpl; congruence. Qed.

Lemma length_hex_encode bs : String.length (hex_encode bs) = (2 * length bs)%nat.
Proof. induction bs as [|b bs IH]; simpl; [done|]. rewrite IH. lia. Qed.

(** Distinct byte strings have distinct hexadecimal forms. *)
Lemma hex_digit_inj a b : 0 ≤ a < 16 → 0 ≤ b < 16 → hex_digit a = hex_digit b → a = b.
Proof.
  intros Ha Hb.
  assert (∃ n, a = Z.of_nat n ∧ (n < 16)%nat) as (n & -> & Hn) by (exists (Z.to_nat a); lia).
  assert (∃ m, b = Z.of_nat m ∧ (m < 16)%nat) as (m & -> & Hm) by (exists (Z.to_nat b); lia).
  unfold hex_digit. rewrite !Nat2Z.id.
  do 16 (destruct n as [|n]; [do 16 (destruct m as [|m]; [first [done | discriminate]|]); lia|]).
  lia.
Qed.

Lemma byte_to_Z_range b : 0 ≤ byte_to_Z b < 256.
Proof. unfold byte_to_Z. pose proof (Byte.to_N_bounded b). lia. Qed.

Lemma byte_to_Z_inj a b : byte_to_Z a = byte_to_Z b → a = b.
Proof.
  unfold byte_to_Z. intros H%N2Z.inj.
  assert (Some a = Some b) as [= ->]; [|done].
  by rewrite <- (Byte.of_to_N a), <- (Byte.of_to_N b), H.
Qed.

Lemma hex_encode_inj a b : hex_encode a = hex_encode b → a = b.
Proof.
  revert b. induction a as [|x a IH]; intros [|y b] H; try discriminate; [done|].
  simpl in H. injection H as H1 H2 H3.
  pose proof (byte_to_Z_range x) as Hx. pose proof (byte_to_Z_range y) as Hy.
  rewrite !Z.shiftr_div_pow2 in H1 by lia.
  change 15 with (Z.ones 4) in H2. rewrite !Z.land_ones in H2 by lia.
  change (2 ^ 4) with 16 in *.
  pose proof (Z.div_mod (byte_to_Z x) 16 ltac:(lia)). pose proof (Z.div_mod (byte_to_Z y) 16 ltac:(lia)).
  apply hex_digit_inj in H1; [|Z.to_euclidean_division_equations; lia..].
  apply hex_digit_inj in H2; [|Z.to_euclidean_division_equations; lia..].
  f_equal; [apply byte_to_Z_inj; lia | by apply IH].
Qed.
