(* ===== verification/Text.v ===== *)
(** * Text functions of Go's standard library that the services and handlers use

    [strings.Cut], [Split], [TrimSpace], [EqualFold] on ASCII, [encoding/base64]
    (the standard alphabet, with and without padding) and the part of [fmt.Sscanf]
    that reads literals and unsigned decimals; with the round trip of base64. *)
From Stdlib Require Import ZArith Lia Strings.Byte Strings.String Strings.Ascii.
From stdpp Require Import base tactics list gmap strings.
From S2P Require Import Prelude Model Sql World Crypto.
#[local] Open Scope string_scope.
#[local] Open Scope Z_scope.

(** ** strings *)

(** [strings.Cut(s, sep)] for a one-byte separator. *)
Fixpoint Cut (sep : ascii) (s : string) : string * string * bool :=
  match s with
  | EmptyString => (EmptyString, EmptyString, false)
  | String c t => if Ascii.eqb c sep then (EmptyString, t, true)
                  else let '(a, b, ok) := Cut sep t in (String c a, b, ok)
  end.

(** [strings.Split(s, sep)] for a one-byte separator. *)
Fixpoint Split (sep : ascii) (s : string) : list string :=
  match s with
  | EmptyString => [EmptyString]
  | String c t =>
      if Ascii.eqb c sep then EmptyString :: Split sep t
      else match Split sep t with
           | [] => [String c EmptyString]
           | w :: ws => String c w :: ws
           end
  end.

Fixpoint StringHas (c : ascii) (s : string) : bool :=
  match s with EmptyString => false | String d t => Ascii.eqb d c || StringHas c t end.

(** ASCII white space and the other code points of [unicode.IsSpace], in UTF-8. *)
Definition space_codes : list (list nat) :=
  [[9]; [10]; [11]; [12]; [13]; [32]; [194; 133]; [194; 160]; [225; 154; 128]; [226; 128; 128]; [226; 128; 129];
   [226; 128; 130]; [226; 128; 131]; [226; 128; 132]; [226; 128; 133]; [226; 128; 134]; [226; 128; 135];
   [226; 128; 136]; [226; 128; 137]; [226; 128; 138]; [226; 128; 168]; [226; 128; 169]; [226; 128; 175];
   [226; 129; 159]; [227; 128; 128]]%nat.

Fixpoint strip_code (code : list nat) (s : string) : option string :=
  match code, s with
  | [], _ => Some s
  | n :: code, String c t => if Nat.eqb (nat_of_ascii c) n then strip_code code t else None
  | _ :: _, EmptyString => None
  end.

(** One leading space character, when there is one. *)
Definition strip_space (s : string) : option string :=
  foldr (λ code r, match strip_code code s with Some t => Some t | None => r end) None space_codes.

Fixpoint TrimSpaceLeft_ (fuel : nat) (s : string) : string :=
  match fuel with
  | O => s
  | S k => match strip_space s with Some t => TrimSpaceLeft_ k t | None => s end
  end.
Definition TrimSpaceLeft (s : string) : string := TrimSpaceLeft_ (String.length s) s.

(** A string of nothing but space characters. *)
Definition blank (s : string) : bool := String.eqb (TrimSpaceLeft s) "".

(** The longest prefix after which there are only space characters. *)
Fixpoint TrimSpaceRight (s : string) : string :=
  match s with
  | EmptyString => EmptyString
  | String c t => if blank s then EmptyString else String c (TrimSpaceRight t)
  end.

Definition TrimSpace (s : string) : string := TrimSpaceRight (TrimSpaceLeft s).

(** Case folding on ASCII letters. *)
Definition fold_ascii (c : ascii) : ascii :=
  let n := nat_of_ascii c in
  if (65 <=? n)%nat && (n <=? 90)%nat then ascii_of_nat (n + 32) else c.
Fixpoint EqualFold (a b : string) : bool :=
  match a, b with
  | EmptyString, EmptyString => true
  | String c s, String d t => Ascii.eqb (fold_ascii c) (fold_ascii d) && EqualFold s t
  | _, _ => false
  end.

(** ** encoding/base64 *)

Definition b64_alphabet : list ascii :=
  list_ascii_of_string "ABCDEFGHIJKLMNOPQRSTUVWXYZabcdefghijklmnopqrstuvwxyz0123456789+/".
Definition b64_char (z : Z) : ascii := nth (Z.to_nat z) b64_alphabet "A"%char.
Fixpoint b64_index (l : list ascii) (c : ascii) : option Z :=
  match l with
  | [] => None
  | d :: t => if Ascii.eqb d c then Some 0 else (λ i, i + 1) <$> b64_index t c
  end.
Definition b64_value (c : ascii) : option Z := b64_index b64_alphabet c.

(** [RawStdEncoding.EncodeToString]: three bytes are four sextets. *)
Fixpoint RawEncode (bs : bytes) : string :=
  match bs with
  | [] => EmptyString
  | [a] =>
      let v := byte_to_Z a * 16 in
      String (b64_char (v / 64)) (String (b64_char (v mod 64)) EmptyString)
  | [a; b] =>
      let v := (byte_to_Z a * 256 + byte_to_Z b) * 4 in
      String (b64_char (v / 4096)) (String (b64_char (v / 64 mod 64)) (String (b64_char (v mod 64)) EmptyString))
  | a :: b :: c :: rest =>
      let v := byte_to_Z a * 65536 + byte_to_Z b * 256 + byte_to_Z c in
      String (b64_char (v / 262144)) (String (b64_char (v / 4096 mod 64))
        (String (b64_char (v / 64 mod 64)) (String (b64_char (v mod 64)) (RawEncode rest))))
  end.

(** Line ends are skipped wherever they stand. *)
Fixpoint skip_newlines (s : string) : string :=
  match s with
  | EmptyString => EmptyString
  | String c t => if Ascii.eqb c "010" || Ascii.eqb c "013" then skip_newlines t else String c (skip_newlines t)
  end.

Definition two (x y : ascii) : option bytes :=
  match b64_value x, b64_value y with
  | Some a, Some b => Some [byte_of_Z ((a * 64 + b) / 16)] | _, _ => None end.
Definition three (x y z : ascii) : option bytes :=
  match b64_value x, b64_value y, b64_value z with
  | Some a, Some b, Some c =>
      let v := (a * 4096 + b * 64 + c) / 4 in Some [byte_of_Z (v / 256); byte_of_Z (v mod 256)]
  | _, _, _ => None
  end.
Definition four (x y z t : ascii) : option bytes :=
  match b64_value x, b64_value y, b64_value z, b64_value t with
  | Some a, Some b, Some c, Some d =>
      let v := a * 262144 + b * 4096 + c * 64 + d in
      Some [byte_of_Z (v / 65536); byte_of_Z (v / 256 mod 256); byte_of_Z (v mod 256)]
  | _, _, _, _ => None
  end.

Definition opt_app (a b : option bytes) : option bytes :=
  match a, b with Some x, Some y => Some (x ++ y)%list | _, _ => None end.

(** [RawStdEncoding.DecodeString], not strict about the unused bits. *)
Fixpoint raw_decode (s : string) : option bytes :=
  match s with
  | EmptyString => Some []
  | String x (String y EmptyString) => two x y
  | String x (String y (String z EmptyString)) => three x y z
  | String x (String y (String z (String t rest))) => opt_app (four x y z t) (raw_decode rest)
  | _ => None
  end.
Definition RawDecode (s : string) : option bytes := raw_decode (skip_newlines s).

(** [StdEncoding.DecodeString]: groups of four, the last one padded with [=]. *)
Fixpoint std_decode (s : string) : option bytes :=
  match s with
  | EmptyString => Some []
  | String x (String y (String z (String t rest))) =>
      if Ascii.eqb z "=" then
        if Ascii.eqb t "=" && String.eqb rest "" then two x y else None
      else if Ascii.eqb t "=" then if String.eqb rest "" then three x y z else None
      else opt_app (four x y z t) (std_decode rest)
  | _ => None
  end.
Definition StdDecode (s : string) : option bytes := std_decode (skip_newlines s).

(** ** fmt.Sscanf *)

(** A literal of the format. *)
Fixpoint scan_lit (lit s : string) : option string :=
  match lit, s with
  | EmptyString, _ => Some s
  | String a l, String b t => if Ascii.eqb a b then scan_lit l t else None
  | String _ _, EmptyString => None
  end.

Definition scan_digit (c : ascii) : option Z :=
  let n := Z.of_nat (nat_of_ascii c) in
  if (48 <=? n) && (n <=? 57) then Some (n - 48) else None.

Fixpoint scan_digits (acc : Z) (s : string) : Z * string :=
  match s with
  | String c t => match scan_digit c with Some d => scan_digits (10 * acc + d) t | None => (acc, s) end
  | EmptyString => (acc, s)
  end.

(** Before [%d], white space is skipped; a newline is an error. *)
Fixpoint scan_spaces_ (fuel : nat) (s : string) : option string :=
  match fuel with
  | O => Some s
  | S k =>
      match s with
      | String "013" (String "010" _) => None
      | String "010" _ => None
      | _ => match strip_space s with Some t => scan_spaces_ k t | None => Some s end
      end
  end.
Definition scan_spaces (s : string) : option string := scan_spaces_ (String.length s) s.

(** [%d] into an unsigned integer of [bits] bits. *)
Definition scan_uint (bits : Z) (s : string) : option (Z * string) :=
  match scan_spaces s with
  | Some (String c t) =>
      match scan_digit c with
      | Some d => let '(n, rest) := scan_digits d t in if n <? 2 ^ bits then Some (n, rest) else None
      | None => None
      end
  | _ => None
  end.

(** [%d] into an [int]: an optional sign. *)
Definition scan_int (s : string) : option (Z * string) :=
  match scan_spaces s with
  | Some s =>
      let '(neg, t) := match s with
                       | String "+" t => (false, t) | String "-" t => (true, t) | _ => (false, s) end in
      match t with
      | String c t =>
          match scan_digit c with
          | Some d => let '(n, rest) := scan_digits d t in
                      let z := if neg : bool then - n else n in
                      if in_int64 z then Some (z, rest) else None
          | None => None
          end
      | EmptyString => None
      end
  | None => None
  end.

(** ** Base64 round trip *)

Lemma b64_value_char z : 0 <= z < 64 -> b64_value (b64_char z) = Some z.
Proof.
  intros Hz. assert (forallb (λ n, bool_decide (b64_value (b64_char (Z.of_nat n)) = Some (Z.of_nat n))) (seq 0 64) = true)
    as H by (vm_compute; reflexivity).
  rewrite forallb_forall in H. specialize (H (Z.to_nat z)). rewrite Z2Nat.id in H by lia.
  apply bool_decide_eq_true in H; [done|]. apply in_seq. lia.
Qed.

(** No character of the alphabet is a line end, a dollar or a padding. *)
Lemma b64_char_plain z c : b64_value c = None → Ascii.eqb (b64_char z) c = false.
Proof.
  intros Hc. destruct (Ascii.eqb_spec (b64_char z) c) as [<-|]; [|done]. exfalso.
  assert (∃ n, b64_char z = b64_char n ∧ 0 <= n < 64) as (n & Hn & Hb).
  { unfold b64_char. destruct (decide (0 <= z < 64)) as [|Ho]; [by exists z|].
    destruct (decide (z < 0)); [exists 0; split; [by rewrite Z2Nat.nonpos by lia|lia]|]. exists 0. split; [|lia].
    rewrite (nth_overflow b64_alphabet) by (simpl; lia). done. }
  rewrite Hn, b64_value_char in Hc by done. done.
Qed.

Lemma RawEncode_has c bs : b64_value c = None → StringHas c (RawEncode bs) = false.
Proof.
  intros Hc. induction bs as [bs IH] using (induction_ltof1 _ (@length _)); unfold ltof in IH.
  destruct bs as [|a [|b [|x rest]]]; cbn [RawEncode StringHas]; rewrite ?b64_char_plain by done; [done..|].
  simpl. apply IH. simpl. lia.
Qed.

Lemma skip_newlines_plain s : StringHas "010" s = false → StringHas "013" s = false → skip_newlines s = s.
Proof.
  induction s as [|c s IH]; [done|]. cbn [StringHas skip_newlines]. intros [H1 H2]%orb_false_iff [H3 H4]%orb_false_iff.
  rewrite H1, H3. simpl. by rewrite IH.
Qed.

Lemma byte_range b : 0 <= byte_to_Z b < 256.
Proof. unfold byte_to_Z. pose proof (Byte.to_N_bounded b). lia. Qed.

Lemma byte_of_to b : byte_of_Z (byte_to_Z b) = b.
Proof. destruct b; reflexivity. Qed.

Lemma raw_decode_encode bs : raw_decode (RawEncode bs) = Some bs.
Proof.
  induction bs as [bs IH] using (induction_ltof1 _ (@length _)); unfold ltof in IH.
  destruct bs as [|a [|b [|x rest]]]; [done|..]; cbn [RawEncode raw_decode].
  - pose proof (byte_range a). unfold two. rewrite !b64_value_char by (Z.div_mod_to_equations; lia).
    do 2 f_equal. rewrite <- (byte_of_to a) at 3. f_equal. Z.div_mod_to_equations. lia.
  - pose proof (byte_range a). pose proof (byte_range b). unfold three.
    rewrite !b64_value_char by (Z.div_mod_to_equations; lia).
    set (v := byte_to_Z a * 256 + byte_to_Z b).
    replace ((v * 4 / 4096 * 4096 + v * 4 / 64 mod 64 * 64 + v * 4 mod 64) / 4) with v by (Z.div_mod_to_equations; lia).
    unfold v. rewrite <- (byte_of_to a) at 3. rewrite <- (byte_of_to b) at 3.
    do 2 f_equal; [|f_equal]; f_equal; Z.div_mod_to_equations; lia.
  - pose proof (byte_range a). pose proof (byte_range b). pose proof (byte_range x). unfold four.
    rewrite !b64_value_char by (Z.div_mod_to_equations; lia). rewrite IH by (simpl; lia). cbn [opt_app app].
    set (v := byte_to_Z a * 65536 + byte_to_Z b * 256 + byte_to_Z x).
    replace (v / 262144 * 262144 + v / 4096 mod 64 * 4096 + v / 64 mod 64 * 64 + v mod 64) with v
      by (Z.div_mod_to_equations; lia).
    unfold v. rewrite <- (byte_of_to a) at 4. rewrite <- (byte_of_to b) at 4. rewrite <- (byte_of_to x) at 4.
    do 2 f_equal; [|f_equal; [|f_equal]]; f_equal; Z.div_mod_to_equations; lia.
Qed.

Lemma RawDecode_RawEncode bs : RawDecode (RawEncode bs) = Some bs.
Proof.
  unfold RawDecode. rewrite skip_newlines_plain by (by apply RawEncode_has). apply raw_decode_encode.
Qed.

(** ** Splitting *)

Lemma StringHas_app c a b : StringHas c (a +:+ b) = StringHas c a || StringHas c b.
Proof. induction a as [|d a IH]; [done|]. cbn. by rewrite IH, orb_assoc. Qed.

Lemma Split_plain c a : StringHas c a = false → Split c a = [a].
Proof.
  induction a as [|d a IH]; [done|]. cbn. intros [H1 H2]%orb_false_iff. by rewrite H1, IH.
Qed.

Lemma Split_app c a b : StringHas c a = false → Split c (a +:+ String c b) = a :: Split c b.
Proof.
  induction a as [|d a IH]; cbn; [by rewrite Ascii.eqb_refl|]. intros [H1 H2]%orb_false_iff. by rewrite H1, IH.
Qed.

Lemma Cut_spec c s a b : Cut c s = (a, b, true) → s = a +:+ String c b ∧ StringHas c a = false.
Proof.
  revert a. induction s as [|d s IH]; intros a; [done|]. cbn. destruct (Ascii.eqb_spec d c) as [->|Hne].
  - intros [= <- <-]. done.
  - destruct (Cut c s) as [[a' b'] ok] eqn:Hc. intros [= <- <- ->]. destruct (IH a' eq_refl) as [-> Hh].
    split; [done|]. cbn. by rewrite Hh, (proj2 (Ascii.eqb_neq d c)).
Qed.
