(* ===== verification/Number.v ===== *)
(** * Numbers in text: strconv.ParseFloat and the float64 operations of the code

    A [float64] is a sign, an integer significand and a power of two, or one of the
    values that are not finite.  Rounding is to the nearest, ties to even; parsing
    computes the exact rational and rounds once, as strconv does. *)
From Stdlib Require Import ZArith Lia Strings.Byte Strings.String Strings.Ascii.
From stdpp Require Import base tactics list strings pretty.
From S2P Require Import Prelude Model Sql World Crypto Text.
#[local] Open Scope string_scope.
#[local] Open Scope Z_scope.

(** ** float64 *)

(** [F_fin neg m e] is (-1)^neg * m * 2^e, with m not negative. *)
Inductive float64 := F_fin (neg : bool) (m e : Z) | F_inf (neg : bool) | F_nan.

(** Integers and fractions of powers of two: m * 2^e as a quotient. *)
Definition scale_num (m e : Z) : Z := m * 2 ^ Z.max e 0.
Definition scale_den (e : Z) : Z := 2 ^ Z.max (- e) 0.

(** The quotient [n/d], rounded to an integer, ties to even. *)
Definition round_quot (n d : Z) : Z :=
  let q := n / d in
  let r := n mod d in
  if (d <? 2 * r) || ((2 * r =? d) && Z.odd q) then q + 1 else q.

(** The exponent of the last place of the float nearest to [n/d], 53 bits below its
    first and not below that of the smallest denormal. *)
Definition last_place (n d : Z) : Z :=
  let k := Z.log2 n - Z.log2 d - 52 in
  let k := if scale_num n (- k) <? 2 ^ 52 * (d * scale_den (- k)) then k - 1 else k in
  Z.max k (-1074).

(** The float nearest to (-1)^neg * n/d, for n not negative and d positive. *)
Definition round64 (neg : bool) (n d : Z) : float64 :=
  if n =? 0 then F_fin neg 0 0
  else
    let e := last_place n d in
    let m := round_quot (scale_num n (- e)) (d * scale_den (- e)) in
    if 2 ^ 1024 <=? scale_num m e then F_inf neg else F_fin neg m e.

(** [x * float64(k)], for a positive integer [k] below 2^53. *)
Definition mul64 (x : float64) (k : Z) : float64 :=
  match x with
  | F_fin neg m e => round64 neg (scale_num (m * k) e) (scale_den e)
  | _ => x
  end.

(** [x < 0]. *)
Definition is_neg64 (x : float64) : bool :=
  match x with F_fin neg m _ => neg && (0 <? m) | F_inf neg => neg | F_nan => false end.

(** The integer part, of a finite value. *)
Definition trunc64 (x : float64) : option Z :=
  match x with
  | F_fin neg m e => let z := scale_num m e / scale_den e in Some (if neg then - z else z)
  | _ => None
  end.

(** What the processor makes of a conversion to [int64] that is out of range; the
    language leaves it open. *)
Class Arch := { arch_int64 : float64 → Z; arch_int64_range : ∀ x, in_int64 (arch_int64 x) = true }.

(** [int64(x)]. *)
Definition int64_of_float `{Arch} (x : float64) : Z :=
  match trunc64 x with
  | Some z => if in_int64 z then z else arch_int64 x
  | None => arch_int64 x
  end.

(** ** strconv.ParseFloat *)

Definition lower (c : ascii) : ascii := fold_ascii c.

(** A digit of the base. *)
Definition digit_of (hex : bool) (c : ascii) : option Z :=
  match scan_digit c with
  | Some d => Some d
  | None =>
      let n := Z.of_nat (nat_of_ascii (lower c)) in
      if hex && (97 <=? n) && (n <=? 102) then Some (n - 87) else None
  end.

(** The digits with at most one dot: the digits read so far as an integer, how many
    of them follow the dot, and whether there was a dot, a digit, an underscore. *)
Record mantissa := mkMantissa {
  mt_value : Z; mt_frac : Z; mt_dot : bool; mt_digits : bool; mt_under : bool }.

Fixpoint read_mantissa (hex : bool) (s : string) (a : mantissa) : mantissa * string :=
  match s with
  | EmptyString => (a, s)
  | String c t =>
      if Ascii.eqb c "_" then
        read_mantissa hex t (mkMantissa (mt_value a) (mt_frac a) (mt_dot a) (mt_digits a) true)
      else if Ascii.eqb c "." then
        if mt_dot a then (a, s)
        else read_mantissa hex t (mkMantissa (mt_value a) (mt_frac a) true (mt_digits a) (mt_under a))
      else match digit_of hex c with
           | Some d =>
               read_mantissa hex t
                 (mkMantissa (mt_value a * (if hex then 16 else 10) + d)
                    (if mt_dot a then mt_frac a + 1 else mt_frac a) (mt_dot a) true (mt_under a))
           | None => (a, s)
           end
  end.

(** The digits of an exponent, which stops growing at ten thousand. *)
Fixpoint read_exp (s : string) (e : Z) (under : bool) : Z * bool * string :=
  match s with
  | EmptyString => (e, under, s)
  | String c t =>
      if Ascii.eqb c "_" then read_exp t e true
      else match scan_digit c with
           | Some d => read_exp t (if e <? 10000 then e * 10 + d else e) under
           | None => (e, under, s)
           end
  end.

(** The exponent, when there is one; [None] for a marker without digits. *)
Definition read_exponent (marker : ascii) (s : string) (under : bool) : option (Z * bool * string) :=
  match s with
  | String c t =>
      if Ascii.eqb (lower c) marker then
        let '(neg, t) := match t with
                         | String "+" t => (false, t) | String "-" t => (true, t) | _ => (false, t) end in
        match t with
        | String d _ =>
            match scan_digit d with
            | Some _ => let '(e, under, rest) := read_exp t 0 under in
                        Some (if neg : bool then - e else e, under, rest)
            | None => None
            end
        | EmptyString => None
        end
      else Some (0, under, s)
  | EmptyString => Some (0, under, s)
  end.

(** [underscoreOK]: the last character seen is a digit, an underscore, another one
    or none. *)
Inductive seen := SeenDigit | SeenUnderscore | SeenOther | SeenNone.

Fixpoint underscores_ok (hex : bool) (s : string) (saw : seen) : bool :=
  match s with
  | EmptyString => match saw with SeenUnderscore => false | _ => true end
  | String c t =>
      match digit_of hex c with
      | Some _ => underscores_ok hex t SeenDigit
      | None =>
          if Ascii.eqb c "_" then match saw with SeenDigit => underscores_ok hex t SeenUnderscore | _ => false end
          else match saw with SeenUnderscore => false | _ => underscores_ok hex t SeenOther end
      end
  end.

(** The value: digits * base^(-fraction digits) * (10 or 2)^exponent. *)
Definition value64 (neg hex : bool) (m : mantissa) (e : Z) : float64 :=
  if hex then
    let x := e - 4 * mt_frac m in round64 neg (scale_num (mt_value m) x) (scale_den x)
  else
    let x := e - mt_frac m in round64 neg (mt_value m * 10 ^ Z.max x 0) (10 ^ Z.max (- x) 0).

Definition parse_sign (s : string) : bool * string :=
  match s with String "+" t => (false, t) | String "-" t => (true, t) | _ => (false, s) end.

(** The words for infinities and for what is not a number. *)
Definition special (s : string) : option float64 :=
  let '(neg, t) := parse_sign s in
  if EqualFold t "inf" || EqualFold t "infinity" then Some (F_inf neg)
  else if EqualFold s "nan" then Some F_nan else None.

(** The prefix of a hexadecimal number, followed by something. *)
Definition hex_prefix (s : string) : option string :=
  match s with
  | String "0" (String x (String c t)) => if Ascii.eqb (lower x) "x" then Some (String c t) else None
  | _ => None
  end.

(** [strconv.ParseFloat(s, 64)]: [None] for a syntax error and for a value out of
    range. *)
Definition ParseFloat (s : string) : option float64 :=
  match special s with
  | Some x => Some x
  | None =>
      let '(neg, body) := parse_sign s in
      let '(hex, digits) := match hex_prefix body with Some t => (true, t) | None => (false, body) end in
      let '(m, rest) := read_mantissa hex digits (mkMantissa 0 0 false false false) in
      if negb (mt_digits m) then None
      else if hex && match rest with String c _ => negb (Ascii.eqb (lower c) "p") | EmptyString => true end then None
      else match read_exponent (if hex then "p" else "e") rest (mt_under m) with
      | Some (e, under, EmptyString) =>
          if under && negb (underscores_ok hex digits (if hex then SeenDigit else SeenNone)) then None
          else match value64 neg hex m e with F_inf _ => None | x => Some x end
      | _ => None
      end
  end.

Example parse_floats : (trunc64 <$> ParseFloat "1_23.50_0_0e+1_2" = Some (Some 123500000000000))
  ∧ ParseFloat "0x_1_2.3_4_5p+1_2" = Some (F_fin false (74565 * 2 ^ 36) (-36))
  ∧ ParseFloat "1e400" = None ∧ ParseFloat "1__0" = None ∧ ParseFloat "-.5" = Some (F_fin true (2 ^ 52) (-53))
  ∧ ParseFloat "." = None ∧ ParseFloat "1e" = None ∧ ParseFloat "INF" = Some (F_inf false) ∧ ParseFloat "+nan" = None.
Proof. vm_compute. done. Qed.
