(* ===== verification/Password.v ===== *)
(** * internal/service/password.go: argon2id hashes as PHC strings

    The key derivation is golang.org/x/crypto/argon2, an abstract function of
    password, salt and parameters; what is modelled is the encoding, its parser and
    the comparison. *)
From Stdlib Require Import ZArith Lia Strings.Byte Strings.String Strings.Ascii.
From stdpp Require Import base tactics list gmap strings pretty.
From S2P Require Import Prelude Model Sql World Crypto Text.
#[local] Open Scope string_scope.
#[local] Open Scope Z_scope.
Open Scope m_scope.

(** golang.org/x/crypto/argon2 and [crypto/rand.Read].  [IDKey] takes the password,
    the salt, the passes, the memory, the lanes and the key length; [None] is the
    panic on zero passes or lanes. *)
Class Kdf := {
  IDKey : bytes → bytes → Z → Z → Z → Z → option bytes;
  rand_read : nat → Z → option bytes           (* n bytes at a step *) }.

(** Their documented behaviour: a key of the length asked for, and as many random
    bytes as asked for. *)
Definition kdf_ok {K : Kdf} : Prop :=
  (∀ pw salt t m p n, 1 ≤ t → 1 ≤ p → 0 ≤ n → ∃ k, IDKey pw salt t m p n = Some k ∧ blen k = n)
  ∧ ∀ i n b, rand_read i n = Some b → blen b = n.

Definition argonTime : Z := 1.
Definition argonMemory : Z := 64 * 1024.
Definition argonThreads : Z := 4.
Definition argonKeyLen : Z := 32.
Definition argonSaltLen : Z := 16.
Definition argon2_Version : Z := 19.

Definition errMalformedHash : error := ErrOther "auth: malformed argon2id hash".

Section password.
Context {E : Env} {K : Kdf}.

Definition encodePHC (salt hash : bytes) : string :=
  "$argon2id$v=" +:+ pretty argon2_Version +:+ "$m=" +:+ pretty argonMemory +:+ ",t=" +:+ pretty argonTime
  +:+ ",p=" +:+ pretty argonThreads +:+ "$" +:+ RawEncode salt +:+ "$" +:+ RawEncode hash.

Definition HashPassword (pw : string) : M string := λ w,
  match rand_read (w_step w) argonSaltLen with
  | None => (Err (ErrOther "auth: read salt"), tick w)
  | Some salt =>
      match IDKey (bytes_of pw) salt argonTime argonMemory argonThreads argonKeyLen with
      | Some hash => (Ok (encodePHC salt hash), tick w)
      | None => (Err (ErrOther "panic"), tick w)
      end
  end.

Record phc := mkPhc { p_memory : Z; p_time : Z; p_threads : Z; p_salt : bytes; p_hash : bytes }.

Definition parsePHC (encoded : string) : res phc :=
  match Split "$" encoded with
  | [p0; p1; p2; p3; p4; p5] =>
      if negb (String.eqb p0 "") then Err errMalformedHash
      else if negb (String.eqb p1 "argon2id") then Err errMalformedHash
      else
        match s ← scan_lit "v=" p2; scan_int s with
        | Some (version, _) =>
            if negb (version =? argon2_Version) then Err errMalformedHash
            else
              match s ← scan_lit "m=" p3; '(memory, s) ← scan_uint 32 s;
                    s ← scan_lit ",t=" s; '(time, s) ← scan_uint 32 s;
                    s ← scan_lit ",p=" s; '(threads, _) ← scan_uint 8 s;
                    Some (memory, time, threads) with
              | Some (memory, time, threads) =>
                  match RawDecode p4, RawDecode p5 with
                  | Some salt, Some hash =>
                      if (blen salt =? 0) || (blen hash =? 0) then Err errMalformedHash
                      else Ok (mkPhc memory time threads salt hash)
                  | _, _ => Err errMalformedHash
                  end
              | None => Err errMalformedHash
              end
        | None => Err errMalformedHash
        end
  | _ => Err errMalformedHash
  end.

(** [None]: the derivation panics. *)
Definition VerifyPassword (encoded pw : string) : option (res bool) :=
  match parsePHC encoded with
  | Err e => Some (Err e)
  | Ok p =>
      match IDKey (bytes_of pw) (p_salt p) (p_time p) (p_memory p) (p_threads p) (blen (p_hash p) mod 2 ^ 32) with
      | None => None
      | Some got => Some (Ok (bool_decide (got = p_hash p)))
      end
  end.

(** ** Facts *)

Lemma parse_encode salt hash : salt ≠ [] → hash ≠ [] →
  parsePHC (encodePHC salt hash) = Ok (mkPhc argonMemory argonTime argonThreads salt hash).
Proof.
  intros Hs Hh. unfold parsePHC.
  assert (Split "$" (encodePHC salt hash) = [""; "argon2id"; "v=19"; "m=65536,t=1,p=4"; RawEncode salt; RawEncode hash]) as ->.
  { change (encodePHC salt hash) with ("" +:+ String "$" ("argon2id" +:+ String "$" ("v=19" +:+ String "$"
      ("m=65536,t=1,p=4" +:+ String "$" (RawEncode salt +:+ String "$" (RawEncode hash)))))).
    rewrite !Split_app by (done || by apply RawEncode_has). by rewrite Split_plain by (by apply RawEncode_has). }
  replace (s ← scan_lit "v=" "v=19"; scan_int s) with (Some (19, "")) by (vm_compute; reflexivity).
  replace (s ← scan_lit "m=" "m=65536,t=1,p=4"; '(memory, s) ← scan_uint 32 s; s ← scan_lit ",t=" s;
           '(time, s) ← scan_uint 32 s; s ← scan_lit ",p=" s; '(threads, _) ← scan_uint 8 s; Some (memory, time, threads))
    with (Some (65536, 1, 4)) by (vm_compute; reflexivity).
  rewrite !RawDecode_RawEncode. simpl.
  destruct (blen salt =? 0) eqn:H1; [apply Z.eqb_eq in H1; unfold blen in H1; destruct salt; simpl in *; [done|lia]|].
  destruct (blen hash =? 0) eqn:H2; [apply Z.eqb_eq in H2; unfold blen in H2; destruct hash; simpl in *; [done|lia]|].
  done.
Qed.

(** A hash never contains a NUL or a dollar beyond its fields. *)
Lemma encode_no_nul salt hash : StringHas "000" (encodePHC salt hash) = false.
Proof.
  change (encodePHC salt hash) with ("$argon2id$v=19$m=65536,t=1,p=4$" +:+ (RawEncode salt +:+ ("$" +:+ RawEncode hash))).
  rewrite !StringHas_app, !RawEncode_has by done. done.
Qed.

(** What [HashPassword] produced. *)
Lemma HashPassword_Ok pw w h w' : HashPassword pw w = (Ok h, w') → w' = tick w ∧ ∃ salt hash,
  rand_read (w_step w) argonSaltLen = Some salt
  ∧ IDKey (bytes_of pw) salt argonTime argonMemory argonThreads argonKeyLen = Some hash ∧ h = encodePHC salt hash.
Proof.
  unfold HashPassword. destruct (rand_read _ _) as [salt|] eqn:Hs; [|done].
  destruct (IDKey _ _ _ _ _ _) as [hash|] eqn:Hh; [|done]. intros [= <- <-]. split; [done|]. by exists salt, hash.
Qed.

(** The verdict on a hash just made is whether the two passwords derive the same key. *)
Lemma verify_hashed pw h w w' : kdf_ok → HashPassword pw w = (Ok h, w') →
  ∃ salt key, h = encodePHC salt key
  ∧ IDKey (bytes_of pw) salt argonTime argonMemory argonThreads argonKeyLen = Some key
  ∧ ∀ pw', VerifyPassword h pw' = (λ got, Ok (bool_decide (got = key))) <$>
      IDKey (bytes_of pw') salt argonTime argonMemory argonThreads argonKeyLen.
Proof.
  intros [Hk Hr] (_ & salt & key & Hs & Hh & ->)%HashPassword_Ok. exists salt, key. split_and!; [done..|]. intros pw'.
  destruct (Hk (bytes_of pw) salt argonTime argonMemory argonThreads argonKeyLen) as (k & Hk' & Hlen); [done..|].
  rewrite Hh in Hk'. injection Hk' as <-. apply Hr in Hs. unfold VerifyPassword. rewrite parse_encode.
  - simpl. rewrite Hlen. by destruct (IDKey _ _ _ _ _ _).
  - intros ->. done.
  - intros ->. done.
Qed.

End password.
