(* ===== verification/Accounts.v ===== *)
(** * internal/repository: bots, channels, users, tokens, settings, events, stats

    The repositories that do not hold file content.  [BotRepository] keeps a
    token only as AES-256-GCM ciphertext and a SHA-256 digest; the cipher is the
    class [Aead], whose one law is that [Open] undoes [Seal]. *)
From Stdlib Require Import ZArith Lia Strings.Byte Strings.String Strings.Ascii.
From stdpp Require Import base tactics list gmap sets sorting strings.
From S2P Require Import Prelude Model Sql World Repository Crypto.
#[local] Open Scope string_scope.
#[local] Open Scope Z_scope.

(** crypto/aes and crypto/cipher: AES-256-GCM with its 12-byte nonce, and
    [crypto/rand], which may fail. *)
Class Aead := {
  gcm_seal : bytes → bytes → bytes → bytes;          (* key, nonce, plaintext *)
  gcm_open : bytes → bytes → bytes → option bytes;   (* key, nonce, ciphertext *)
  rand_bytes : nat → option bytes                    (* twelve bytes at step n *)
}.

Definition NonceSize : Z := 12.

(** The documented behaviour the repository relies on. *)
Definition aead_ok {C : Aead} : Prop :=
  (∀ k n p, gcm_open k n (gcm_seal k n p) = Some p)
  ∧ (∀ i b, rand_bytes i = Some b → blen b = NonceSize).

Section accounts.
Context {E : Env} {C : Aead}.

(** ** bot.go *)

(** The [aead] field: the key, when one of the right length was configured. *)
Record BotRepository := mkBotRepository { aead : option bytes }.

Definition NewBotRepository (secretKey : bytes) : BotRepository :=
  if blen secretKey =? 32 then mkBotRepository (Some secretKey) else mkBotRepository None.

Definition tokenSHA (token : string) : string := hex_encode (sha256 (bytes_of token)).

Definition encryptToken (r : BotRepository) (token : string) : M bytes := λ w,
  match aead r with
  | None => (Err ErrNoSecretKey, w)
  | Some key =>
      match rand_bytes (w_step w) with
      | None => (Err ErrCipher, tick w)
      | Some nonce => (Ok (nonce ++ gcm_seal key nonce (bytes_of token))%list, tick w)
      end
  end.

Definition decryptToken (r : BotRepository) (enc : bytes) : res string :=
  match aead r with
  | None => Err ErrNoSecretKey
  | Some key =>
      if blen enc <? NonceSize then Err ErrCipher
      else match gcm_open key (take (Z.to_nat NonceSize) enc) (drop (Z.to_nat NonceSize) enc) with
           | Some pt => Ok (string_of pt)
           | None => Err ErrCipher
           end
  end.

Definition hydrate (r : BotRepository) (m : BotRow) : res Bot :=
  match decryptToken r (br_TokenEnc m) with
  | Err e => Err e
  | Ok token => Ok (mkBot (br_ID m) (br_Username m) token (br_Enabled m)
                      (br_UnavailableUntil m) (br_CreatedAt m))
  end.

Definition BotRepository_Create (r : BotRepository) (b : Bot) : M Bot :=
  let! id := or_new (bot_ID b) in
  let! created := or_now (bot_CreatedAt b) in
  let! enc := encryptToken r (bot_Token b) in
  do! translate (stmt (CreateBot (mkBotRow id (bot_Username b) (tokenSHA (bot_Token b)) enc
        (bot_Enabled b) (bot_UnavailableUntil b) created))) in
  ret (mkBot id (bot_Username b) (bot_Token b) (bot_Enabled b) (bot_UnavailableUntil b) created).

Definition BotRepository_Update (r : BotRepository) (b : Bot) : M unit :=
  let! enc := encryptToken r (bot_Token b) in
  need_row (translate (stmt (UpdateBot (mkBotRow (bot_ID b) (bot_Username b)
    (tokenSHA (bot_Token b)) enc (bot_Enabled b) (bot_UnavailableUntil b) (bot_CreatedAt b))))).

Definition BotRepository_Delete (id : uuid) : M unit := need_row (translate (stmt (DeleteBot id))).

Definition BotRepository_GetByID (r : BotRepository) (id : uuid) : M Bot :=
  let! m := translate (stmt (GetBotByID id)) in of_res (hydrate r m).

Definition BotRepository_GetByUsername (r : BotRepository) (name : string) : M Bot :=
  let! m := translate (stmt (GetBotByUsername name)) in of_res (hydrate r m).

Definition BotRepository_List (r : BotRepository) : M (list Bot) :=
  let! ms := translate (stmt ListBots) in map_each ms (λ m, of_res (hydrate r m)).

Definition BotRepository_ListByIDs (r : BotRepository) (ids : list uuid) : M (list Bot) :=
  match ids with
  | [] => ret []
  | _ => let! ms := translate (stmt (ListBotsByIDs ids)) in
         map_each ms (λ m, of_res (hydrate r m))
  end.

Definition BotRepository_SetUnavailableUntil (id : uuid) (till : option time) : M unit :=
  need_row (translate (stmt (SetBotUnavailableUntil id till))).

(** ** botchannel.go, blobbotfile.go *)

Definition BotChannelRepository_Upsert (bc : BotChannel) : M unit :=
  let! t := or_now (bc_CheckedAt bc) in
  translate (stmt (UpsertBotChannel (mkBotChannel (bc_BotID bc) (bc_ChannelID bc)
                                       (bc_Member bc) t))).

Definition BotChannelRepository_Get (bot ch : uuid) : M BotChannel :=
  translate (stmt (GetBotChannel bot ch)).

Definition BotChannelRepository_ListByChannel (ch : uuid) : M (list BotChannel) :=
  translate (stmt (ListBotChannelsByChannel ch)).

Definition BotChannelRepository_ListByBot (bot : uuid) : M (list BotChannel) :=
  translate (stmt (ListBotChannelsByBot bot)).

Definition BotChannelRepository_DeleteByBot (bot : uuid) : M unit :=
  translate (stmt (DeleteBotChannelsByBot bot)).

Definition BotChannelRepository_DeleteByChannel (ch : uuid) : M unit :=
  translate (stmt (DeleteBotChannelsByChannel ch)).

Definition BlobBotFileRepository_Upsert (f : BlobBotFile) : M unit :=
  let! t := or_now (f_FetchedAt f) in
  translate (stmt (UpsertBlobBotFile (mkBlobBotFile (f_BlobID f) (f_BotID f) (f_FileID f)
                                        (f_FileUniqueID f) t))).

Definition BlobBotFileRepository_Get (blob bot : uuid) : M BlobBotFile :=
  translate (stmt (GetBlobBotFile blob bot)).

Definition BlobBotFileRepository_ListByBlob (blob : uuid) : M (list BlobBotFile) :=
  translate (stmt (ListBlobBotFilesByBlob blob)).

Definition BlobBotFileRepository_DeleteByBlob (blob : uuid) : M unit :=
  translate (stmt (DeleteBlobBotFilesByBlob blob)).

Definition BlobBotFileRepository_DeleteByBot (bot : uuid) : M unit :=
  translate (stmt (DeleteBlobBotFilesByBot bot)).

(** ** channel.go *)

Definition ChannelRepository_Create (c : Channel) : M Channel :=
  let! id := or_new (ch_ID c) in
  let! created := or_now (ch_CreatedAt c) in
  let c' := mkChannel id (ch_TGChatID c) (ch_Title c) (ch_MessageCounter c)
              (ch_EvictionThreshold c) (ch_Available c) created in
  do! translate (stmt (CreateChannel c')) in ret c'.

Definition ChannelRepository_Update (c : Channel) : M unit :=
  need_row (translate (stmt (UpdateChannel c))).

Definition ChannelRepository_Delete (id : uuid) : M unit :=
  need_row (translate (stmt (DeleteChannel id))).

Definition ChannelRepository_GetByID (id : uuid) : M Channel :=
  translate (stmt (GetChannelByID id)).

Definition ChannelRepository_GetByChatID (chat : Z) : M Channel :=
  translate (stmt (GetChannelByChatID chat)).

Definition ChannelRepository_List : M (list Channel) := translate (stmt ListChannels).

Definition ChannelRepository_IncrementCounter (id : uuid) (delta : Z) : M Z :=
  translate (stmt (IncrementChannelCounter id delta)).

Definition ChannelRepository_SetAvailable (id : uuid) (a : bool) : M unit :=
  need_row (translate (stmt (SetChannelAvailable id a))).

(** ** event.go, stat.go, settings.go *)

Definition EventRepository_Log (kind message ref : string) : M unit :=
  let! id := uuid_New in
  let! now := Now in
  translate (stmt (LogEvent (mkEvent id now kind message ref))).

Definition EventRepository_List (kind : string) (limit offset : Z) : M (list Event * Z) :=
  let! total := translate (stmt (CountEvents kind)) in
  let row_limit := if 0 <? limit then Some (int32_of limit) else None in
  let row_offset := if 0 <? offset then Some (int32_of offset) else None in
  let! rs := translate (stmt (ListEvents kind row_limit row_offset)) in
  ret (rs, total).

Definition StatRepository_Record (metric label : string) (value : Z) : M unit :=
  let! id := uuid_New in
  let! now := Now in
  translate (stmt (RecordStat (mkStatSample id now metric label value))).

Definition StatRepository_Query (metric label : string) (from to : time) : M (list StatSample) :=
  translate (stmt (QueryStats metric label from to)).

Definition StatRepository_Latest (metric label : string) : M StatSample :=
  translate (stmt (LatestStat metric label)).

(** The defaults replace a zero, except for [MaxFileSize]; the product wraps. *)
Definition settings_of_row (row : SettingsRow) : Settings :=
  let idle := wrap64 (sr_wal_idle_timeout_ms row * Millisecond) in
  mkSettings
    (if sr_blob_max_size row =? 0 then BlobMaxSize DefaultSettings else sr_blob_max_size row)
    (if idle =? 0 then WALIdleTimeout DefaultSettings else idle)
    (sr_max_file_size row)
    (if sr_default_eviction_threshold row =? 0
     then DefaultEvictionThreshold DefaultSettings else sr_default_eviction_threshold row)
    (sr_updated_at row).

Definition SettingsRepository_Get : M Settings :=
  let? r := stmt GetSettings in
  match r with
  | Err e => if errors_Is e (PgError NoRows) then ret DefaultSettings
             else fail (translateError e)
  | Ok row => ret (settings_of_row row)
  end.

Definition Milliseconds (d : Z) : Z := Z.quot d Millisecond.

Definition SettingsRepository_Update (s : Settings) : M unit :=
  let! now := Now in
  translate (stmt (UpsertSettings (mkSettingsRow (BlobMaxSize s) (Milliseconds (WALIdleTimeout s))
    (MaxFileSize s) (DefaultEvictionThreshold s) now))).

(** ** token.go, user.go *)

Definition TokenRepository_Create (t : APIToken) : M APIToken :=
  let! id := or_new (t_ID t) in
  let! created := or_now (t_CreatedAt t) in
  let t' := mkAPIToken id (t_UserID t) (t_TokenHash t) (t_Name t) created (t_LastUsedAt t) in
  do! translate (stmt (CreateAPIToken t')) in ret t'.

Definition TokenRepository_GetByHash (h : string) : M APIToken :=
  translate (stmt (GetAPITokenByHash h)).

Definition TokenRepository_ListByUser (user : uuid) : M (list APIToken) :=
  translate (stmt (ListAPITokensByUser user)).

Definition TokenRepository_Delete (id : uuid) : M unit :=
  need_row (translate (stmt (DeleteAPIToken id))).

Definition TokenRepository_TouchLastUsed (id : uuid) (at_ : time) : M unit :=
  need_row (translate (stmt (TouchAPITokenLastUsed id at_))).

Definition user_with_rate (u : User) (id : uuid) (created : time) : User :=
  mkUser id (u_Login u) (u_PasswordHash u) (u_IsAdmin u) (u_QuotaBytes u) (u_BandwidthBPS u)
    (int32_of (u_RatePerMin u)) created.

Definition UserRepository_Create (u : User) : M User :=
  let! id := or_new (u_ID u) in
  let! created := or_now (u_CreatedAt u) in
  do! translate (stmt (CreateUser (user_with_rate u id created))) in
  ret (mkUser id (u_Login u) (u_PasswordHash u) (u_IsAdmin u) (u_QuotaBytes u)
         (u_BandwidthBPS u) (u_RatePerMin u) created).

Definition UserRepository_Update (u : User) : M unit :=
  need_row (translate (stmt (UpdateUser (user_with_rate u (u_ID u) (u_CreatedAt u))))).

Definition UserRepository_Delete (id : uuid) : M unit :=
  need_row (translate (stmt (DeleteUser id))).

Definition UserRepository_GetByID (id : uuid) : M User := translate (stmt (GetUserByID id)).

Definition UserRepository_GetByLogin (login : string) : M User :=
  translate (stmt (GetUserByLogin login)).

Definition UserRepository_List : M (list User) := translate (stmt ListUsers).

Definition UserRepository_Count : M Z := translate (stmt CountUsers).

End accounts.
