(* ===== verification/Identity.v ===== *)
(** * internal/service/auth.go, user.go: who a request acts for; the first administrator

    Basic and bearer authentication with the cache of recent verifications, and the
    management of users and their API tokens. *)
From Stdlib Require Import ZArith Lia Strings.Byte Strings.String Strings.Ascii.
From stdpp Require Import base tactics list gmap strings.
From S2P Require Import Prelude Model Sql World Repository Crypto Text Password Accounts.
#[local] Open Scope string_scope.
#[local] Open Scope Z_scope.
Open Scope m_scope.

Definition verifyCacheTTL : Z := 30 * Second.

Definition decoyPasswordHash : string :=
  "$argon2id$v=19$m=65536,t=1,p=4$a+F+q6BJpooDXaEZpElung$/DPMn8Z+G5x553RSdYsslDlkU169ThOtw6vCo3T96s8".

Definition NUL : string := String "000" EmptyString.

Definition verifyCacheKey (login hash password : string) : string :=
  hex_encode (sha256 (bytes_of (login +:+ NUL +:+ hash +:+ NUL +:+ password))).

(** [hex(sha256(token))]: the same in [AuthenticateBearer]. *)
Definition hashAPIToken (token : string) : string := hex_encode (sha256 (bytes_of token)).

Section identity.
Context {E : Env} {K : Kdf}.

(** ** The verification cache *)

Definition verifiedRecently (key : string) : M bool :=
  let! vc := gets w_vc in
  match vc !! key with
  | None => ret false
  | Some exp =>
      let! now := Now in
      if After now exp then do! modify (λ w, set_vc (delete key (w_vc w)) w) in ret false
      else ret true
  end.

Definition vc_prune (now : time) (vc : gmap string time) : gmap string time :=
  if 4096 <? Z.of_nat (size vc) then filter (λ ke : string * time, After now ke.2 = false) vc else vc.

Definition markVerified (key : string) : M unit :=
  let! now := Now in
  modify (λ w, set_vc (<[key := now + verifyCacheTTL]> (vc_prune now (w_vc w))) w).

(** ** AuthService *)

Definition lookupAndVerify (login password : string) : M User :=
  let? r := UserRepository_GetByLogin login in
  match r with
  | Err e =>
      if errors_Is e ErrNotFound then
        match VerifyPassword decoyPasswordHash password with
        | None => panic "argon2"
        | Some _ => fail ErrUnauthorized
        end
      else fail e
  | Ok user =>
      let key := verifyCacheKey login (u_PasswordHash user) password in
      let! recent := verifiedRecently key in
      if recent then ret user
      else match VerifyPassword (u_PasswordHash user) password with
           | None => panic "argon2"
           | Some (Err _) => fail ErrUnauthorized
           | Some (Ok ok) => if negb ok then fail ErrUnauthorized
                             else do! markVerified key in ret user
           end
  end.

Definition authenticateImpersonation (adminLogin targetLogin password : string) : M Principal :=
  let! admin := lookupAndVerify adminLogin password in
  if negb (u_IsAdmin admin) then fail ErrForbidden
  else
    let? r := UserRepository_GetByLogin targetLogin in
    match r with
    | Err e => if errors_Is e ErrNotFound then fail ErrUnauthorized else fail e
    | Ok target => ret (mkPrincipal (Some target) (Some admin))
    end.

Definition AuthenticateBasic (username password : string) : M Principal :=
  let '(adminLogin, targetLogin, ok) := Cut "/" username in
  if ok then authenticateImpersonation adminLogin targetLogin password
  else let! user := lookupAndVerify username password in
       ret (mkPrincipal (Some user) (Some user)).

Definition AuthenticateBearer (token : string) : M User :=
  let? r := TokenRepository_GetByHash (hashAPIToken token) in
  match r with
  | Err e => if errors_Is e ErrNotFound then fail ErrUnauthorized else fail e
  | Ok tok =>
      let? u := UserRepository_GetByID (t_UserID tok) in
      match u with
      | Err e => if errors_Is e ErrNotFound then fail ErrUnauthorized else fail e
      | Ok user =>
          let! now := Now in
          ignore! TokenRepository_TouchLastUsed (t_ID tok) now in
          ret user
      end
  end.

(** ** UserService *)

Record CreateUserParams := mkCreateUserParams {
  cp_Login : string; cp_Password : string; cp_IsAdmin : bool;
  cp_QuotaBytes : Z; cp_BandwidthBPS : Z; cp_RatePerMin : Z }.

Definition User_Create (p : CreateUserParams) : M User :=
  let! hash := HashPassword (cp_Password p) in
  let! id := uuid_New in
  let! now := Now in
  UserRepository_Create (mkUser id (cp_Login p) hash (cp_IsAdmin p) (cp_QuotaBytes p)
    (cp_BandwidthBPS p) (cp_RatePerMin p) now).

Definition User_List : M (list User) := UserRepository_List.
Definition User_Get (id : uuid) : M User := UserRepository_GetByID id.
Definition User_Delete (id : uuid) : M unit := UserRepository_Delete id.

Definition SetPassword (id : uuid) (newPassword : string) : M unit :=
  let! u := UserRepository_GetByID id in
  let! hash := HashPassword newPassword in
  UserRepository_Update (mkUser (u_ID u) (u_Login u) hash (u_IsAdmin u) (u_QuotaBytes u)
    (u_BandwidthBPS u) (u_RatePerMin u) (u_CreatedAt u)).

Definition ListTokens (user : uuid) : M (list APIToken) :=
  do! UserRepository_GetByID user in TokenRepository_ListByUser user.

Definition generateAPIToken : M string := λ w,
  match rand_read (w_step w) 32 with
  | Some buf => (Ok (hex_encode buf), tick w)
  | None => (Err (ErrOther "generate token"), tick w)
  end.

Definition CreateToken (user : uuid) (name : string) : M (string * APIToken) :=
  do! UserRepository_GetByID user in
  let! plaintext := generateAPIToken in
  let! id := uuid_New in
  let! now := Now in
  let! tok := TokenRepository_Create (mkAPIToken id user (hashAPIToken plaintext) name now None) in
  ret (plaintext, tok).

Definition DeleteToken (user token : uuid) : M unit :=
  let! tokens := TokenRepository_ListByUser user in
  if negb (existsb (λ t, N.eqb (t_ID t) token) tokens) then fail ErrNotFound
  else TokenRepository_Delete token.

(** ** cmd/tgwebdav: the first administrator *)

Definition firstUserParts (firstUser : string) : string * string * bool :=
  if String.eqb firstUser "" then ("", "", false)
  else let '(login, password, _) := Cut ":" firstUser in
       (login, password, negb (String.eqb login "") && negb (String.eqb password "")).

(** At startup; failures are logged. *)
Definition bootstrapAdmin (firstUser : string) : M unit :=
  let? users := User_List in
  match users with
  | Err _ => ret tt
  | Ok l =>
      if 0 <? blen l then ret tt
      else
        let '(login, password, ok) := firstUserParts firstUser in
        if negb ok then ret tt
        else ignore! User_Create (mkCreateUserParams login password true 0 0 0) in ret tt
  end.

End identity.
