(* ===== verification/Limiter.v ===== *)
(** * internal/service/limits.go (requests), stats.go, event.go

    The per-user token buckets over the limiter of golang.org/x/time/rate, the
    statistics recorder and the event listing.  The pacing of reads is in [File.v]. *)
From Stdlib Require Import ZArith Lia Strings.Byte Strings.String.
From stdpp Require Import base tactics list gmap strings.
From S2P Require Import Prelude Model Sql World Repository Crypto Accounts.
#[local] Open Scope string_scope.
#[local] Open Scope Z_scope.
Open Scope m_scope.

(** A [rate.Limiter] made with [per_min]/60 tokens per second and a burst: does
    [Allow] at an instant succeed, after the given calls (newest first)? *)
Class RateLib := { limiter_Allow : Z → Z → list time → time → bool }.

Definition bucketIdleTTL : Z := 10 * Minute.
Definition maxBucketInt (a b : Z) : Z := if b <? a then a else b.

(** The names of the counters, from model.Metric*. *)
Definition counter_samples (k : Counters) : list (string * Z) :=
  [("read_bytes", k_readBytes k); ("write_bytes", k_writeBytes k); ("read_ops", k_readOps k);
   ("write_ops", k_writeOps k); ("cache_hit", k_cacheHit k); ("cache_miss", k_cacheMiss k);
   ("telegram_req", k_telegramReq k)].

(** [float64(n)]: the nearest multiple of the last place, ties to even. *)
Definition float64_of_int (z : Z) : Z :=
  let m := Z.abs z in
  if m <? 2 ^ 53 then z
  else
    let ulp := 2 ^ (Z.log2 m - 52) in
    let q := m / ulp in
    let r := m mod ulp in
    let q' := if (ulp <? 2 * r) || ((2 * r =? ulp) && Z.odd q) then q + 1 else q in
    Z.sgn z * (q' * ulp).

Section limiter.
Context {E : Env} {R : RateLib}.

(** ** Limiter *)

(** The user's bucket, made anew when there is none or the rate has changed. *)
Definition bucket_of (user : uuid) (ratePerMin : Z) (buckets : gmap uuid bucket) : bucket :=
  match buckets !! user with
  | Some b => if bk_ratePerMin b =? ratePerMin then b else mkBucket ratePerMin [] 0
  | None => mkBucket ratePerMin [] 0
  end.

(** A call that reads the clock at [seen], for the bucket, and at [now], in the
    limiter: whether a token was left, and the buckets. *)
Definition take_token (user : uuid) (ratePerMin : Z) (seen now : time) (buckets : gmap uuid bucket)
    : bool * gmap uuid bucket :=
  let b := bucket_of user ratePerMin buckets in
  (limiter_Allow ratePerMin (maxBucketInt 1 ratePerMin) (bk_calls b) now,
   <[user := mkBucket ratePerMin (now :: bk_calls b) seen]> buckets).

Definition Allow (user : uuid) (ratePerMin : Z) : M bool :=
  if ratePerMin <=? 0 then ret true
  else
    let! seen := Now in
    let! now := Now in
    let! buckets := gets w_buckets in
    let '(ok, buckets) := take_token user ratePerMin seen now buckets in
    do! modify (set_buckets buckets) in
    ret ok.

(** The buckets used since [cutoff]. *)
Definition drop_idle (cutoff : time) (buckets : gmap uuid bucket) : gmap uuid bucket :=
  filter (λ kb : uuid * bucket, Before (bk_lastSeen kb.2) cutoff = false) buckets.

(** [sweep], one tick of [Start]. *)
Definition limiter_sweep : M unit :=
  let! now := Now in
  modify (λ w, set_buckets (drop_idle (now - bucketIdleTTL) (w_buckets w)) w).

(** ** StatRecorder *)

(** Each counter is swapped to zero before its sample is recorded; nothing between
    the swaps touches the counters, so they are swapped together here.  Errors are
    logged. *)
Definition zero_counters : Counters := mkCounters 0 0 0 0 0 0 0.

Fixpoint record_counters (l : list (string * Z)) : M unit :=
  match l with
  | [] => ret tt
  | (metric, delta) :: rest =>
      if delta =? 0 then record_counters rest
      else ignore! StatRepository_Record metric "" (float64_of_int delta) in record_counters rest
  end.

(** The registered gauges: metric, label and the sampled function. *)
Definition gauge : Type := string * string * M Z.

Fixpoint record_gauges (gs : list gauge) : M unit :=
  match gs with
  | [] => ret tt
  | (metric, label, fn) :: rest =>
      let! v := fn in
      ignore! StatRepository_Record metric label v in record_gauges rest
  end.

Definition flush (gs : list gauge) : M unit :=
  let! k := gets w_stats in
  do! modify (set_stats zero_counters) in
  do! record_counters (counter_samples k) in
  record_gauges gs.

Definition Stats_Query (metric label : string) (from to : time) : M (list StatSample) :=
  StatRepository_Query metric label from to.
Definition Stats_Latest (metric label : string) : M StatSample := StatRepository_Latest metric label.

(** ** EventService *)

Definition Events_List (kind : string) (limit offset : Z) : M (list Event * Z) :=
  EventRepository_List kind limit offset.

End limiter.
