(* ===== verification/Path.v ===== *)
(** * Paths: package path of Go's standard library and webdavfs.normalize

    [Clean], [Base], [Dir] and [Join] on slash-separated byte strings, the
    normalisation of a request's name, and the correspondence the rest of the
    development uses: a normalised path is [render segs] for a list of proper
    segments, being below a path is being an extension of its list, and
    [ListSubtree] returns exactly the rows at or below its argument. *)
From Stdlib Require Import ZArith Lia Strings.Byte Strings.String Strings.Ascii.
From stdpp Require Import base tactics list gmap sets sorting strings.
From S2P Require Import Prelude Model Sql World Repository.
#[local] Open Scope string_scope.
#[local] Open Scope Z_scope.

(** ** Definitions *)

Definition slash : ascii := "/".

(** [strings.Split(s, "/")]. *)
Fixpoint split_slash (s : string) : list string :=
  match s with
  | EmptyString => [EmptyString]
  | String c t =>
      if Ascii.eqb c slash then EmptyString :: split_slash t
      else match split_slash t with
           | [] => [String c EmptyString]
           | w :: ws => String c w :: ws
           end
  end.

(** ["/a/b"] for [["a"; "b"]], and [""] for no segment. *)
Fixpoint raw (segs : list string) : string :=
  match segs with [] => EmptyString | s :: t => String slash (s +:+ raw t) end.

Definition render (segs : list string) : string :=
  match segs with [] => "/" | _ => raw segs end.

(** The elimination of empty, "." and ".." elements of a rooted path: [acc] is
    the output so far, the last element first; ".." at the root goes nowhere. *)
Fixpoint clean_segs (acc : list string) (segs : list string) : list string :=
  match segs with
  | [] => reverse acc
  | s :: t =>
      if String.eqb s "" || String.eqb s "." then clean_segs acc t
      else if String.eqb s ".." then clean_segs (tail acc) t
      else clean_segs (s :: acc) t
  end.

(** [path.Clean] of a path that begins with a slash. *)
Definition Clean (s : string) : string := render (clean_segs [] (split_slash s)).

(** [strings.TrimLeft(s, "/")] and the trailing counterpart. *)
Fixpoint TrimLeftSlash (s : string) : string :=
  match s with
  | String c t => if Ascii.eqb c slash then TrimLeftSlash t else s
  | EmptyString => EmptyString
  end.

Fixpoint TrimRightSlash (s : string) : string :=
  match s with
  | EmptyString => EmptyString
  | String c t =>
      match TrimRightSlash t with
      | EmptyString => if Ascii.eqb c slash then EmptyString else String c EmptyString
      | t' => String c t'
      end
  end.

(** The text after the last slash, and the text up to and including it. *)
Definition after_last_slash (s : string) : string := List.last (split_slash s) "".

Fixpoint upto_last_slash (s : string) : string :=
  match s with
  | EmptyString => EmptyString
  | String c t =>
      match upto_last_slash t with
      | EmptyString => if Ascii.eqb c slash then String c EmptyString else EmptyString
      | t' => String c t'
      end
  end.

(** [path.Base]. *)
Definition Base (s : string) : string :=
  if String.eqb s "" then "."
  else let b := after_last_slash (TrimRightSlash s) in
       if String.eqb b "" then "/" else b.

(** [path.Dir] of a path that begins with a slash. *)
Definition Dir (s : string) : string := Clean (upto_last_slash s).

(** [webdavfs.normalize]. *)
Definition normalize `{Env} (name : string) : string :=
  Clean ("/" +:+ TrimLeftSlash (env_nfc name)).

(** [webdavfs.pathHasPrefix]: [child] is at or under [parent]; the byte after the
    common prefix must be a slash. *)
Definition pathHasPrefix (child parent : string) : bool :=
  String.eqb child parent
  || ((slen parent <? slen child)
      && match CutPrefix child parent with
         | Some (String c _) => Ascii.eqb c slash
         | _ => false
         end).

(** ** Proper segments *)

Fixpoint no_slash (s : string) : bool :=
  match s with EmptyString => true | String c t => negb (Ascii.eqb c slash) && no_slash t end.

Definition seg_ok (s : string) : bool :=
  no_slash s && negb (String.eqb s "") && negb (String.eqb s ".") && negb (String.eqb s "..").

Definition segs_ok (l : list string) : Prop := Forall (λ s, seg_ok s = true) l.

(** The segments of a normalised path. *)
Definition path_segs (p : string) : list string := clean_segs [] (split_slash p).

(** ** Normalisation *)

Lemma raw_app a b : raw (a ++ b)%list = raw a +:+ raw b.
Proof. induction a as [|s a IH]; simpl; [done|]. by rewrite IH, str_app_assoc. Qed.

Lemma seg_ok_no_slash s : seg_ok s = true → no_slash s = true.
Proof. unfold seg_ok. rewrite !andb_true_iff. tauto. Qed.

Lemma split_slash_cons s : ∃ w ws, split_slash s = w :: ws.
Proof.
  destruct s as [|c s]; simpl; [by eexists _, _|].
  destruct (Ascii.eqb c slash); [by eexists _, _|].
  destruct (split_slash s); by eexists _, _.
Qed.

Lemma split_slash_app s u :
  no_slash s = true →
  split_slash (s +:+ u) = match split_slash u with [] => [s] | w :: ws => (s +:+ w) :: ws end.
Proof.
  induction s as [|c s IH]; simpl; intros H.
  { by destruct (split_slash_cons u) as (w & ws & ->). }
  apply andb_true_iff in H as [Hc Hs]. apply negb_true_iff in Hc. rewrite Hc, IH by done.
  by destruct (split_slash u).
Qed.

Lemma split_slash_raw l : segs_ok l → split_slash (raw l) = "" :: l.
Proof.
  induction 1 as [|s l Hs _ IH]; simpl; [done|].
  rewrite split_slash_app by by apply seg_ok_no_slash. rewrite IH. by rewrite str_app_nil_r.
Qed.

Lemma split_slash_no_slash s : Forall (λ x, no_slash x = true) (split_slash s).
Proof.
  induction s as [|c s IH]; simpl; [by repeat constructor|].
  destruct (Ascii.eqb c slash) eqn:Hc; [by constructor|].
  destruct (split_slash s) as [|w ws]; [constructor; [|done]; simpl; by rewrite Hc|].
  inversion IH; subst. constructor; [|done]. simpl. by rewrite Hc.
Qed.

Lemma clean_segs_ok acc l :
  segs_ok acc → Forall (λ x, no_slash x = true) l → segs_ok (clean_segs acc l).
Proof.
  revert acc. induction l as [|s l IH]; intros acc Ha Hl; simpl.
  - by apply Forall_reverse.
  - inversion Hl; subst.
    destruct (String.eqb s "") eqn:E1; simpl; [by apply IH|].
    destruct (String.eqb s ".") eqn:E2; simpl; [by apply IH|].
    destruct (String.eqb s "..") eqn:E3; apply IH; try done.
    + destruct Ha; [constructor|]; done.
    + constructor; [|done]. unfold seg_ok. by rewrite E1, E2, E3, H1.
Qed.

Lemma clean_segs_id acc l : segs_ok l → clean_segs acc l = (reverse acc ++ l)%list.
Proof.
  revert acc. induction l as [|s l IH]; intros acc Hl; simpl; [by rewrite app_nil_r|].
  inversion Hl as [|? ? Hs Hl']; subst. unfold seg_ok in Hs.
  rewrite !andb_true_iff, !negb_true_iff in Hs. destruct Hs as [[[_ ->] ->] ->]. simpl.
  rewrite IH by done. by rewrite reverse_cons, <- app_assoc.
Qed.

Lemma path_segs_ok s : segs_ok (path_segs s).
Proof. apply clean_segs_ok; [constructor|apply split_slash_no_slash]. Qed.

Lemma path_segs_raw l : segs_ok l → path_segs (raw l) = l.
Proof.
  intros H. unfold path_segs. rewrite split_slash_raw by done. simpl. by rewrite clean_segs_id.
Qed.

Lemma path_segs_render l : segs_ok l → path_segs (render l) = l.
Proof. intros H. destruct l; [done|]. by apply path_segs_raw. Qed.

Lemma render_inj a b : segs_ok a → segs_ok b → render a = render b → a = b.
Proof. intros Ha Hb H. by rewrite <- (path_segs_render a), <- (path_segs_render b), H. Qed.

(** A name is normalised once: the canonical path of a canonical path is itself. *)
Lemma Clean_render l : segs_ok l → Clean (render l) = render l.
Proof. intros H. unfold Clean. by rewrite (path_segs_render l H : clean_segs _ _ = _). Qed.

Lemma Clean_canonical s : Clean s = render (path_segs s).
Proof. done. Qed.

Lemma normalize_canonical `{Env} name :
  ∃ l, segs_ok l ∧ normalize name = render l.
Proof. eexists. split; [apply path_segs_ok|]. apply Clean_canonical. Qed.

(** ** Base and Dir of a canonical path *)

Lemma TrimRightSlash_seg s : no_slash s = true → s ≠ "" → TrimRightSlash s = s.
Proof.
  induction s as [|c s IH]; [done|]. simpl. intros [Hc Hs]%andb_true_iff _.
  apply negb_true_iff in Hc. rewrite Hc. destruct s; [done|]. by rewrite IH.
Qed.

Lemma TrimRightSlash_app u s : s ≠ "" → TrimRightSlash s = s →
  TrimRightSlash (u +:+ s) = u +:+ s.
Proof.
  intros Hs H. induction u as [|c u IH]; simpl; [done|]. rewrite IH.
  destruct (u +:+ s) eqn:Hu; [|done]. by destruct u, s.
Qed.

Lemma upto_last_slash_no_slash s : no_slash s = true → upto_last_slash s = "".
Proof.
  induction s as [|c s IH]; simpl; [done|]. intros [Hc Hs]%andb_true_iff.
  apply negb_true_iff in Hc. by rewrite IH, Hc.
Qed.

Lemma upto_last_slash_app u s : no_slash s = true →
  upto_last_slash (u +:+ String slash s) = u +:+ "/".
Proof.
  intros Hs. induction u as [|c u IH]; simpl; [by rewrite upto_last_slash_no_slash|].
  rewrite IH. by destruct u.
Qed.

Lemma raw_snoc l x : raw (l ++ [x])%list = raw l +:+ String slash x.
Proof. rewrite raw_app. simpl. by rewrite str_app_nil_r. Qed.

Lemma render_snoc l x : render (l ++ [x])%list = raw (l ++ [x])%list.
Proof. by destruct l. Qed.

Lemma seg_ok_nonempty s : seg_ok s = true → s ≠ "".
Proof. by intros H ->. Qed.

Lemma segs_ok_snoc l x : segs_ok (l ++ [x])%list ↔ segs_ok l ∧ seg_ok x = true.
Proof. unfold segs_ok. by rewrite Forall_app, Forall_singleton. Qed.

Lemma Base_render l x : segs_ok (l ++ [x])%list → Base (render (l ++ [x])%list) = x.
Proof.
  intros H. pose proof H as [Hl Hx]%segs_ok_snoc. pose proof (seg_ok_nonempty _ Hx).
  rewrite render_snoc. unfold Base.
  assert (String.eqb (raw (l ++ [x])%list) "" = false) as -> by by destruct l.
  assert (TrimRightSlash (raw (l ++ [x])%list) = raw (l ++ [x])%list) as ->.
  { rewrite raw_snoc. change (String slash x) with ("/" +:+ x). rewrite str_app_assoc.
    apply TrimRightSlash_app; [done|]. apply TrimRightSlash_seg; [by apply seg_ok_no_slash|done]. }
  unfold after_last_slash. rewrite split_slash_raw by done.
  change ("" :: l ++ [x])%list with (("" :: l) ++ [x])%list. rewrite last_last.
  by apply String.eqb_neq in H0 as ->.
Qed.

Lemma Dir_render l x : segs_ok (l ++ [x])%list → Dir (render (l ++ [x])%list) = render l.
Proof.
  intros [Hl Hx]%segs_ok_snoc. rewrite render_snoc, raw_snoc. unfold Dir.
  rewrite upto_last_slash_app by by apply seg_ok_no_slash.
  unfold Clean. f_equal.
  assert (split_slash (raw l +:+ "/") = ("" :: l) ++ [""])%list as ->.
  { clear Hx x. induction Hl as [|s l Hs _ IH]; [done|]. simpl.
    rewrite <- str_app_assoc, split_slash_app by by apply seg_ok_no_slash.
    rewrite IH. simpl. by rewrite str_app_nil_r. }
  simpl. assert (∀ acc, clean_segs acc (l ++ [""])%list = reverse acc ++ l)%list as ->; [|done].
  induction Hl as [|s l Hs _ IH]; intros acc; simpl; [by rewrite app_nil_r|].
  unfold seg_ok in Hs. rewrite !andb_true_iff, !negb_true_iff in Hs.
  destruct Hs as [[[_ ->] ->] ->]. simpl. rewrite IH. by rewrite reverse_cons, <- app_assoc.
Qed.

(** ** Being at or below a path *)

Lemma no_slash_head s c t : no_slash s = true → s = String c t → Ascii.eqb c slash = false.
Proof. intros H ->. simpl in H. apply andb_true_iff in H as [H _]. by apply negb_true_iff in H. Qed.

(** Two paths that agree up to a slash agree on the segment before it. *)
Lemma seg_cut s t u v :
  no_slash s = true → no_slash t = true →
  s +:+ String slash u = t +:+ String slash v → s = t ∧ u = v.
Proof.
  revert t. induction s as [|c s IH]; intros t Hs Ht H.
  - destruct t as [|d t]; simpl in *; [by simplify_eq|]. injection H as <- _. done.
  - destruct t as [|d t]; simpl in *.
    + injection H as -> _. done.
    + injection H as -> H. apply andb_true_iff in Hs as [_ Hs]. apply andb_true_iff in Ht as [_ Ht].
      destruct (IH t Hs Ht H). by subst.
Qed.

Definition below (a b : list string) : Prop := ∃ c, b = (a ++ c)%list.

Lemma raw_slash l : ∃ u, raw l +:+ "/" = String slash u.
Proof. destruct l; simpl; by eexists. Qed.

Lemma raw_cut a b r : segs_ok a → segs_ok b →
  raw b +:+ "/" = (raw a +:+ "/") +:+ r → below a b.
Proof.
  intros Ha. revert b. induction Ha as [|s a Hs Ha IH]; intros b Hb H; [by exists b|].
  destruct Hb as [|t b Ht Hb].
  - exfalso. simpl in H. injection H as H. destruct s; [by apply seg_ok_nonempty in Hs|done].
  - simpl in H. injection H as H. rewrite <- !str_app_assoc in H.
    destruct (raw_slash b) as [v Hv]. destruct (raw_slash a) as [u Hu].
    rewrite Hv in H. rewrite (str_app_assoc (raw a) "/" r), Hu in H. simpl in H.
    apply seg_cut in H as [-> ->]; [|by apply seg_ok_no_slash..].
    destruct (IH b Hb) as [c ->]; [|by exists c].
    by rewrite Hv, Hu.
Qed.

Lemma below_HasPrefix a b : segs_ok a → segs_ok b →
  HasPrefix (raw b +:+ "/") (raw a +:+ "/") = true ↔ below a b.
Proof.
  intros Ha Hb. rewrite HasPrefix_spec. split.
  - intros [r H]. by eapply raw_cut.
  - intros [c ->]. rewrite raw_app, <- str_app_assoc. destruct (raw_slash c) as [u Hu].
    rewrite Hu. exists u. by rewrite <- str_app_assoc.
Qed.

Lemma render_raw l : l ≠ [] → render l = raw l.
Proof. by destruct l. Qed.

(** The self-move guard of [Rename]. *)
Lemma rename_guard_spec a b : segs_ok a → segs_ok b → a ≠ [] → b ≠ [] →
  HasPrefix (render b +:+ "/") (render a +:+ "/") = true ↔ below a b.
Proof. intros. rewrite !render_raw by done. by apply below_HasPrefix. Qed.

Lemma strictly_below_spec a b : segs_ok a → segs_ok b →
  (∃ r, raw b = (raw a +:+ "/") +:+ r) ↔ ∃ x c, b = (a ++ x :: c)%list.
Proof.
  intros Ha Hb. split.
  - intros [r H]. destruct (raw_cut a b (r +:+ "/")) as [c ->]; [done..| |].
    { by rewrite H, <- !str_app_assoc. }
    destruct c as [|x c]; [|by exists x, c].
    exfalso. rewrite app_nil_r, <- str_app_assoc, <- (str_app_nil_r (raw a)), <- str_app_assoc in H.
    by apply str_app_inj_l in H.
  - intros (x & c & ->). rewrite raw_app. simpl. eexists. rewrite <- str_app_assoc. by f_equal.
Qed.

(** The self-copy guard of [Copy] decides the same relation as [Rename]'s. *)
Lemma pathHasPrefix_raw c p : 
  pathHasPrefix c p = true ↔ c = p ∨ ∃ r, c = (p +:+ "/") +:+ r.
Proof.
  unfold pathHasPrefix. rewrite orb_true_iff, String.eqb_eq, andb_true_iff.
  split; (intros [H|H]; [by left|right]).
  - destruct H as [_ H]. destruct (CutPrefix c p) as [[|d r]|] eqn:Hc; try done.
    apply Ascii.eqb_eq in H as ->. exists r. apply CutPrefix_Some in Hc as ->.
    by rewrite <- str_app_assoc.
  - destruct H as [r ->]. rewrite <- str_app_assoc, CutPrefix_app. simpl. split; [|done].
    apply Z.ltb_lt. unfold slen. rewrite str_length_app. simpl. lia.
Qed.

Lemma pathHasPrefix_below a b : segs_ok a → segs_ok b → a ≠ [] → b ≠ [] →
  pathHasPrefix (render b) (render a) = true ↔ below a b.
Proof.
  intros Ha Hb Ha' Hb'. rewrite pathHasPrefix_raw, !render_raw, strictly_below_spec by done.
  split.
  - intros [H|(x & c & ->)]; [|by eexists].
    exists []. rewrite app_nil_r. apply render_inj; [done..|]. by rewrite !render_raw.
  - intros [[|x c] ->]; [left; by rewrite app_nil_r | right; by exists x, c].
Qed.

(** ** LIKE *)

Lemma like_any s : like "%" s = true.
Proof. induction s as [|c s IH]; [done|]. exact IH. Qed.

Lemma like_escape p q s :
  like (escapeLike p +:+ q) s = match CutPrefix s p with Some r => like q r | None => false end.
Proof.
  revert s. induction p as [|c p IH]; intros s; [done|].
  change (escapeLike (String c p)) with
    (if Ascii.eqb c "\" || Ascii.eqb c "%" || Ascii.eqb c "_"
     then String "\" (String c (escapeLike p)) else String c (escapeLike p)).
  destruct (Ascii.eqb c "\" || Ascii.eqb c "%" || Ascii.eqb c "_") eqn:H.
  - simpl. destruct s as [|a s]; [done|]. destruct (Ascii.eqb a c); simpl; [apply IH|done].
  - apply orb_false_iff in H as [[H1 H2]%orb_false_iff H3].
    simpl. rewrite H2, H3, H1. destruct s as [|a s]; [done|].
    destruct (Ascii.eqb a c); simpl; [apply IH|done].
Qed.

(** The pattern of [ListSubtree] matches exactly the strings that extend the
    prefix by a slash, whatever metacharacters the prefix contains. *)
Lemma like_subtree_pattern p s :
  like (subtree_pattern p) s = true ↔ ∃ r, s = (p +:+ "/") +:+ r.
Proof.
  unfold subtree_pattern. rewrite like_escape.
  destruct (CutPrefix s p) as [t|] eqn:H.
  - apply CutPrefix_Some in H as ->. split.
    + intros Hl. destruct t as [|c t]; [done|]. simpl in Hl.
      apply andb_true_iff in Hl as [Hc _]. apply Ascii.eqb_eq in Hc as ->.
      exists t. by rewrite <- str_app_assoc.
    + intros [r Hr]. rewrite <- str_app_assoc in Hr. apply str_app_inj_l in Hr as ->.
      exact (like_any r).
  - split; [done|]. intros [r ->]. by rewrite <- str_app_assoc, CutPrefix_app in H.
Qed.

Lemma subtree_row_spec user a r l : segs_ok a → segs_ok l → a ≠ [] →
  n_Path (nr_node r) = render l →
  subtree_row user (render a) (subtree_pattern (render a)) r = true
  ↔ n_UserID (nr_node r) = user ∧ below a l.
Proof.
  intros Ha Hl Ha' Hp. unfold subtree_row.
  rewrite andb_true_iff, orb_true_iff, N.eqb_eq, String.eqb_eq, like_subtree_pattern, Hp.
  rewrite (render_raw a) by done.
  assert ((render l = raw a ∨ (∃ r0, render l = (raw a +:+ "/") +:+ r0)) ↔ below a l) as ->; [|done].
  destruct l as [|s l].
  - split.
    + intros [H|[r0 H]]; destruct a as [|t a]; try done; exfalso; inversion Ha as [|? ? Ht]; subst;
        apply seg_ok_nonempty in Ht; simpl in H; by destruct t.
    + intros [c H]. by destruct a.
  - rewrite <- (pathHasPrefix_below a (s :: l)), pathHasPrefix_raw, !render_raw by done. done.
Qed.

(** [dst + strings.TrimPrefix(child.Path, src)]. *)
Lemma rename_path a b c : segs_ok (a ++ c)%list → a ≠ [] → b ≠ [] →
  render b +:+ TrimPrefix (render (a ++ c)%list) (render a) = render (b ++ c)%list.
Proof.
  intros H Ha Hb. rewrite !render_raw by (by destruct a, b || by destruct a || by destruct b).
  by rewrite !raw_app, TrimPrefix_app.
Qed.
