(* ===== verification/FileSystem.v ===== *)
(** * internal/service/webdavfs/fs.go: the filesystem a request sees

    [acting] resolves the principal; every operation runs in the acting user's
    namespace.  The request's context is the optional principal it carries. *)
From Stdlib Require Import ZArith Lia Strings.Byte Strings.String Strings.Ascii.
From stdpp Require Import base tactics list gmap sets sorting strings.
From S2P Require Import Prelude Model Sql World Repository Crypto Path.
#[local] Open Scope string_scope.
#[local] Open Scope Z_scope.
Open Scope m_scope.

(** ** Open files *)

Record dirFile := mkDirFile {
  df_node : Node; df_user : uuid; df_children : list Node; df_loaded : bool; df_pos : Z }.

Record walReader := mkWalReader {
  wr_nodeID : uuid; wr_pos : Z; wr_size : Z; wr_buf : bytes }.

Record extentReader := mkExtentReader {
  er_extents : list Extent; er_pos : Z; er_size : Z;
  er_cur : option (uuid * bytes) }.       (* haveBlob, curBlob, curBytes *)

Inductive contentReader := RWal (r : walReader) | RExtent (r : extentReader).

Record readFile := mkReadFile {
  rf_node : Node; rf_extents : list Extent; rf_loaded : bool; rf_bps : Z;
  rf_pos : Z; rf_src : option contentReader }.

(** [wf_hashed] is what the running hash has absorbed. *)
Record writeFile := mkWriteFile {
  wf_node : Node; wf_user : User; wf_hashed : bytes; wf_buf : bytes;
  wf_seq : Z; wf_size : Z; wf_closed : bool }.

Inductive File := FDir (f : dirFile) | FRead (f : readFile) | FWrite (f : writeFile).

Record fileInfo := mkFileInfo {
  fi_name : string; fi_size : Z; fi_modTime : time; fi_isDir : bool;
  fi_etag : string; fi_contentType : string }.

Definition infoFromNode (n : Node) : fileInfo :=
  mkFileInfo (n_Name n) (n_Size n) (n_ModifiedAt n) (n_IsDir n) (n_ETag n) (n_ContentType n).

(** The mode bits of package io/fs. *)
Definition ModeDir : Z := 2 ^ 31.
Definition fileInfo_Mode (fi : fileInfo) : Z :=
  if fi_isDir fi then Z.lor ModeDir 493 (* 0o755 *) else 420. (* 0o644 *)

(** [None] is [webdav.ErrNotImplemented]: the library then makes an ETag of its own. *)
Definition fileInfo_ETag (fi : fileInfo) : option string :=
  if String.eqb (fi_etag fi) "" then None else Some (fi_etag fi).
Definition fileInfo_ContentType (fi : fileInfo) : string :=
  if String.eqb (fi_contentType fi) "" then "application/octet-stream" else fi_contentType fi.

(** [flag] bits of package os. *)
Definition O_WRONLY : Z := 1.
Definition O_RDWR : Z := 2.
Definition O_EXCL : Z := 128.

Definition dirType : string := "httpd/unix-directory".

Section filesystem.
Context {E : Env}.

(** ** Helpers *)

Definition acting (ctx : option Principal) : res User :=
  match ctx with
  | Some p => match Acting p with Some u => Ok u | None => Err OsErrPermission end
  | None => Err OsErrPermission
  end.

Definition toFSErr (e : error) : error :=
  if errors_Is e ErrNotFound then OsErrNotExist
  else if errors_Is e ErrAlreadyExists then OsErrExist
  else e.

Definition with_fs_err {A} (m : M A) : M A :=
  let? r := m in match r with Ok a => ret a | Err e => fail (toFSErr e) end.

Definition rootReady_Store (user : uuid) : M unit :=
  modify (λ w, set_rootReady ({[user]} ∪ w_rootReady w) w).

Definition root_node (id user : uuid) (now : time) : Node :=
  mkNode id user None "" "/" true 0 "" "" dirType NodeStateStored now now.

Definition ensureRoot (user : uuid) : M Node :=
  let? r := NodeRepository_GetByPath user "/" in
  match r with
  | Ok root => do! rootReady_Store user in ret root
  | Err e =>
      if negb (errors_Is e ErrNotFound) then fail e
      else
        let! now := Now in
        let! id := uuid_New in
        let? c := NodeRepository_Create (root_node id user now) in
        match c with
        | Err e' =>
            if errors_Is e' ErrAlreadyExists
            then do! rootReady_Store user in NodeRepository_GetByPath user "/"
            else fail e'
        | Ok root => do! rootReady_Store user in ret root
        end
  end.

Definition ensureRootExists (user : uuid) : M unit :=
  let! known := gets (λ w, bool_decide (user ∈ w_rootReady w)) in
  if known then ret tt else do! ensureRoot user in ret tt.

(** ** Stat and Mkdir *)

Definition Stat (ctx : option Principal) (name : string) : M fileInfo :=
  let! user := of_res (acting ctx) in
  let p := normalize name in
  let? r := NodeRepository_GetByPath (u_ID user) p in
  match r with
  | Err e =>
      if errors_Is e ErrNotFound && String.eqb p "/"
      then let! root := ensureRoot (u_ID user) in ret (infoFromNode root)
      else fail (toFSErr e)
  | Ok node => ret (infoFromNode node)
  end.

Definition dir_node (id user parent : uuid) (p : string) (now : time) : Node :=
  mkNode id user (Some parent) (Base p) p true 0 "" "" dirType NodeStateStored now now.

Definition Mkdir (ctx : option Principal) (name : string) : M unit :=
  let! user := of_res (acting ctx) in
  let p := normalize name in
  if String.eqb p "/" then fail OsErrExist
  else
    do! ensureRootExists (u_ID user) in
    let? r := NodeRepository_GetByPath (u_ID user) p in
    match r with
    | Ok _ => fail OsErrExist
    | Err e =>
        if negb (errors_Is e ErrNotFound) then fail e
        else
          let! parent := with_fs_err (NodeRepository_GetByPath (u_ID user) (Dir p)) in
          if negb (n_IsDir parent) then fail OsErrNotExist
          else
            let! now := Now in
            let! id := uuid_New in
            do! with_fs_err (NodeRepository_Create (dir_node id (u_ID user) (n_ID parent) p now)) in
            ret tt
    end.

(** ** OpenFile *)

Definition newWriter (user : User) (node : Node) : File :=
  FWrite (mkWriteFile node user [] [] 0 0 false).

(** [deltas[e.BlobID] += k] over a node's extents. *)
Definition blob_deltas (k : Z) (es : list Extent) : gmap uuid Z :=
  foldl (λ m e, <[e_BlobID e := default 0 (m !! e_BlobID e) + k]> m) ∅ es.

Definition releaseExtents (node : uuid) : M unit :=
  let! es := extentRepository_ListByNode node in
  match es with
  | [] => ret tt
  | _ => blobRepository_AddRefcounts (blob_deltas (-1) es)
  end.

Definition reset_node (n : Node) (now : time) : Node :=
  mkNode (n_ID n) (n_UserID n) (n_ParentID n) (n_Name n) (n_Path n) (n_IsDir n) 0 "" ""
    (n_ContentType n) NodeStateWriting (n_CreatedAt n) now.

Definition truncateNode (node : Node) : M unit :=
  WithTx (
    do! releaseExtents (n_ID node) in
    do! extentRepository_DeleteByNode (n_ID node) in
    do! WALRepository_DeleteByNode (n_ID node) in
    let! fresh := NodeRepository_GetByID (n_ID node) in
    let! now := Now in
    NodeRepository_Update (reset_node fresh now)).

Definition openRead (user : User) (p : string) : M File :=
  let? r := NodeRepository_GetByPath (u_ID user) p in
  match r with
  | Err e =>
      if errors_Is e ErrNotFound && String.eqb p "/"
      then let! root := ensureRoot (u_ID user) in
           ret (FDir (mkDirFile root (u_ID user) [] false 0))
      else fail (toFSErr e)
  | Ok node =>
      if n_IsDir node then ret (FDir (mkDirFile node (u_ID user) [] false 0))
      else ret (FRead (mkReadFile node [] false (u_BandwidthBPS user) 0 None))
  end.

Definition file_node (id user parent : uuid) (p : string) (now : time) : Node :=
  mkNode id user (Some parent) (Base p) p false 0 "" "" "" NodeStateWriting now now.

Definition openWrite (user : User) (p : string) (flag : Z) : M File :=
  if String.eqb p "/" then fail OsErrInvalid
  else
    let! parent := with_fs_err (NodeRepository_GetByPath (u_ID user) (Dir p)) in
    if negb (n_IsDir parent) then fail OsErrNotExist
    else
      let? r := NodeRepository_GetByPath (u_ID user) p in
      match r with
      | Ok existing =>
          if n_IsDir existing then fail OsErrInvalid
          else if negb (Z.land flag O_EXCL =? 0) then fail OsErrExist
          else do! truncateNode existing in ret (newWriter user existing)
      | Err e =>
          if errors_Is e ErrNotFound then
            let! now := Now in
            let! id := uuid_New in
            let node := file_node id (u_ID user) (n_ID parent) p now in
            let! node := with_fs_err (NodeRepository_Create node) in
            ret (newWriter user node)
          else fail e
      end.

Definition OpenFile (ctx : option Principal) (name : string) (flag : Z) : M File :=
  let! user := of_res (acting ctx) in
  let p := normalize name in
  if Z.land flag (Z.lor O_WRONLY O_RDWR) =? 0 then openRead user p
  else do! ensureRootExists (u_ID user) in openWrite user p flag.

(** ** RemoveAll *)

(** The loop over a listed subtree: the files' extents are released. *)
Definition release_files (subtree : list Node) : M unit :=
  for_each subtree (λ n, if n_IsDir n then ret tt else releaseExtents (n_ID n)).

Definition remove_listed (node : Node) (subtree : list Node) : M unit :=
  let subtree := match subtree with [] => [node] | _ => subtree end in
  do! release_files subtree in
  NodeRepository_Delete (n_ID node).

Definition removeWithin (user : uuid) (node : Node) : M unit :=
  let! subtree := NodeRepository_ListSubtree user (n_Path node) in
  remove_listed node subtree.

Definition RemoveAll (ctx : option Principal) (name : string) : M unit :=
  let! user := of_res (acting ctx) in
  let p := normalize name in
  if String.eqb p "/" then fail OsErrPermission
  else
    let! node := with_fs_err (NodeRepository_GetByPath (u_ID user) p) in
    WithTx (
      let! subtree := NodeRepository_ListSubtree (u_ID user) p in
      remove_listed node subtree).

(** ** Rename *)

Definition moved_node (n : Node) (parent : option uuid) (name path : string) (now : time) : Node :=
  mkNode (n_ID n) (n_UserID n) parent name path (n_IsDir n) (n_Size n) (n_ContentHash n)
    (n_ETag n) (n_ContentType n) (n_State n) (n_CreatedAt n) now.

(** The rewrite of one row of the subtree; the top row also changes parents. *)
Definition move_child (top parent : uuid) (src dst : string) (child : Node) : M unit :=
  let new_path := dst +:+ TrimPrefix (n_Path child) src in
  let is_top := N.eqb (n_ID child) top in
  let! now := Now in
  NodeRepository_Update
    (moved_node child (if is_top then Some parent else n_ParentID child)
       (if is_top then Base dst else n_Name child) new_path now).

(** [if existing, err := GetByPath(..); err == nil { k } else if !NotFound { return err }]. *)
Definition if_exists (user : uuid) (p : string) (k : Node → M unit) : M unit :=
  let? r := NodeRepository_GetByPath user p in
  match r with
  | Ok existing => k existing
  | Err e => if errors_Is e ErrNotFound then ret tt else fail e
  end.

Definition rename_tx (user : uuid) (src dst : string) : M unit :=
  let! node := with_fs_err (NodeRepository_GetByPath user src) in
  let! parent := with_fs_err (NodeRepository_GetByPath user (Dir dst)) in
  if negb (n_IsDir parent) then fail OsErrNotExist
  else
    do! if_exists user dst (removeWithin user) in
    if n_IsDir node then
      let! subtree := NodeRepository_ListSubtree user src in
      for_each subtree (move_child (n_ID node) (n_ID parent) src dst)
    else
      let! now := Now in
      NodeRepository_Update (moved_node node (Some (n_ID parent)) (Base dst) dst now).

Definition Rename (ctx : option Principal) (oldName newName : string) : M unit :=
  let! user := of_res (acting ctx) in
  let src := normalize oldName in
  let dst := normalize newName in
  if String.eqb src "/" || String.eqb dst "/" then fail OsErrPermission
  else if String.eqb src dst then ret tt
  else if HasPrefix (dst +:+ "/") (src +:+ "/") then fail OsErrInvalid
  else WithTx (rename_tx (u_ID user) src dst).

(** ** CheckQuota *)

Definition CheckQuota (ctx : option Principal) (p : string) (additional : Z) : M unit :=
  let! user := of_res (acting ctx) in
  if (u_QuotaBytes user <=? 0) || (additional <=? 0) then ret tt
  else
    let! used := NodeRepository_SumSizeByUser (u_ID user) in
    let? r := NodeRepository_GetByPath (u_ID user) (normalize p) in
    let decide_ used :=
      if u_QuotaBytes user <? wrap64 (used + additional) then fail ErrQuotaExceeded
      else ret tt in
    match r with
    | Ok existing =>
        decide_ (if negb (n_IsDir existing) then wrap64 (used - n_Size existing) else used)
    | Err e => if negb (errors_Is e ErrNotFound) then fail e else decide_ used
    end.

End filesystem.
