(* ===== verification/File.v ===== *)
(** * internal/service/webdavfs/file.go: open files

    A method that changes the handle even when it fails returns the new handle
    next to its result: [M (handle * res bytes)].  [Read] gets the length of the
    caller's buffer and returns the bytes it put there; none of the readers ever
    returns bytes together with an error.  Blob bytes come from the interface
    [BlobService], which [BlobReader.v] implements. *)
From Stdlib Require Import ZArith Lia Strings.Byte Strings.String Strings.Ascii.
From stdpp Require Import base tactics list gmap sets sorting strings.
From S2P Require Import Prelude Model Sql World Repository Crypto Path FileSystem.
#[local] Open Scope string_scope.
#[local] Open Scope Z_scope.
Open Scope m_scope.

(** webdavfs.blobReader: what a file asks of the blob service. *)
Class BlobService := {
  blob_ReadBlob : uuid → M bytes;
  blob_Prefetch : list uuid → M unit
}.

(** ** Helpers *)

(** A double-quoted string: [fmt.Sprintf("%q", s)] of a hexadecimal [s]. *)
Definition quote : string := String (Ascii.ascii_of_nat 34) EmptyString.
Definition quoted (s : string) : string := quote +:+ s +:+ quote.

Definition etagOf (hashed : bytes) : string := quoted (hex_encode (sha256 hashed)).

(** [path.Ext]: from the last dot of the last element. *)
Fixpoint Ext (s : string) : string :=
  match s with
  | EmptyString => EmptyString
  | String c t =>
      let e := Ext t in
      if String.eqb e "" then
        if Ascii.eqb c "." && no_slash t then String c t else EmptyString
      else e
  end.

(** [copy(p, buf)] into a buffer of [plen] bytes: what is copied, what remains. *)
Definition copy_out (plen : Z) (buf : bytes) : bytes * bytes :=
  (take (Z.to_nat plen) buf, drop (Z.to_nat plen) buf).

(** [sync/atomic] counters of the stat recorder. *)
Definition IncReadOps : M unit := modify (λ w, let k := w_stats w in
  set_stats (mkCounters (k_readBytes k) (k_writeBytes k) (wrap64 (k_readOps k + 1)) (k_writeOps k)
    (k_cacheHit k) (k_cacheMiss k) (k_telegramReq k)) w).
Definition IncWriteOps : M unit := modify (λ w, let k := w_stats w in
  set_stats (mkCounters (k_readBytes k) (k_writeBytes k) (k_readOps k) (wrap64 (k_writeOps k + 1))
    (k_cacheHit k) (k_cacheMiss k) (k_telegramReq k)) w).
Definition AddReadBytes (n : Z) : M unit := modify (λ w, let k := w_stats w in
  set_stats (mkCounters (wrap64 (k_readBytes k + n)) (k_writeBytes k) (k_readOps k) (k_writeOps k)
    (k_cacheHit k) (k_cacheMiss k) (k_telegramReq k)) w).

(** ** Read-ahead *)

(** The index of a blob in the list built so far. *)
Fixpoint note_blob (id : uuid) (off : Z) (l : list (uuid * Z)) : list (uuid * Z) :=
  match l with
  | [] => [(id, off)]
  | (i, s) :: t => if N.eqb i id then (i, if off <? s then off else s) :: t
                   else (i, s) :: note_blob id off t
  end.

Definition planBlobs (es : list Extent) : list (uuid * Z) :=
  sort_by snd (foldl (λ l e, note_blob (e_BlobID e) (e_FileOffset e) l) [] es).

Fixpoint blobIndexFor (starts : list Z) (cur : Z) : nat :=
  match starts with
  | _ :: (s :: _) as t => if s <=? cur then S (blobIndexFor t cur) else O
  | _ => O
  end.

(** One turn of the loop of [readAhead]: the blobs to prefetch at a cursor. *)
Definition readAhead_turn (plan : list (uuid * Z)) (size cur : Z) : option (list uuid) :=
  if size <=? cur then None
  else Some (drop (blobIndexFor (plan.*2) cur) (plan.*1)).

Section file.
Context {E : Env} {B : BlobService}.

Definition contentTypeFor (name : string) : string :=
  let ct := env_mime (Ext name) in
  if String.eqb ct "" then "application/octet-stream" else ct.

(** ** Directories *)

Definition dirFile_Readdir (d : dirFile) (count : Z) : M (dirFile * res (list fileInfo)) :=
  let list_rest (d : dirFile) : M (dirFile * res (list fileInfo)) :=
    let n := blen (df_children d) in
    if n <=? df_pos d
    then ret (d, if count <=? 0 then Ok [] else Err IoEOF)
    else
      let end_ := if (0 <? count) && (df_pos d + count <? n) then df_pos d + count else n in
      ret (mkDirFile (df_node d) (df_user d) (df_children d) (df_loaded d) end_,
           Ok (infoFromNode <$> slice (df_pos d) end_ (df_children d))) in
  if df_loaded d then list_rest d
  else
    let? r := NodeRepository_ListChildren (df_user d) (n_ID (df_node d)) in
    match r with
    | Err e => ret (d, Err e)
    | Ok kids => list_rest (mkDirFile (df_node d) (df_user d) kids true (df_pos d))
    end.

(** ** Content readers *)

Definition walReadBlock : Z := 256 * 1024.

Definition walReader_Read (w : walReader) (plen : Z) : M (walReader * res bytes) :=
  let serve (w : walReader) :=
    let '(out, rest) := copy_out plen (wr_buf w) in
    ret (mkWalReader (wr_nodeID w) (wr_pos w) (wr_size w) rest, Ok out) in
  if blen (wr_buf w) =? 0 then
    if wr_size w <=? wr_pos w then ret (w, Err IoEOF)
    else
      let n := if wr_size w <? wrap64 (wr_pos w + walReadBlock) then wr_size w - wr_pos w
               else walReadBlock in
      let? r := WALRepository_ReadRange (wr_nodeID w) (wr_pos w) n in
      match r with
      | Err e => ret (w, Err e)
      | Ok data =>
          if blen data =? 0 then ret (w, Err IoEOF)
          else serve (mkWalReader (wr_nodeID w) (wrap64 (wr_pos w + blen data)) (wr_size w) data)
      end
  else serve w.

Definition extentAt (es : list Extent) (pos : Z) : option Extent :=
  find_first (λ e, (e_FileOffset e <=? pos) && (pos <? e_FileOffset e + e_Length e)) es.

(** The bytes served at [pos] out of a blob's [data]. *)
Definition extent_avail (e : Extent) (pos : Z) (data : bytes) : Z :=
  let within := pos - e_FileOffset e in
  let blobPos := e_BlobOffset e + within in
  let avail := e_Length e - within in
  if blen data <? blobPos + avail then blen data - blobPos else avail.

(** The rest of [Read] once the blob's bytes are at hand. *)
Definition extent_serve (ext : Extent) (plen : Z) (r : extentReader) (data : bytes)
    : M (extentReader * res bytes) :=
  let blobPos := e_BlobOffset ext + (er_pos r - e_FileOffset ext) in
  let avail := extent_avail ext (er_pos r) data in
  if avail <=? 0 then ret (r, Err IoErrUnexpectedEOF)
  else
    let out := (copy_out plen (slice blobPos (blobPos + avail) data)).1 in
    ret (mkExtentReader (er_extents r) (er_pos r + blen out) (er_size r) (er_cur r), Ok out).

(** The blob is fetched unless it is the one at hand. *)
Definition extent_fetch (ext : Extent) (plen : Z) (r : extentReader)
    : M (extentReader * res bytes) :=
  let? d := blob_ReadBlob (e_BlobID ext) in
  match d with
  | Err e => ret (r, Err e)
  | Ok data => extent_serve ext plen (mkExtentReader (er_extents r) (er_pos r) (er_size r)
                                        (Some (e_BlobID ext, data))) data
  end.

Definition extentReader_Read (r : extentReader) (plen : Z) : M (extentReader * res bytes) :=
  if er_size r <=? er_pos r then ret (r, Err IoEOF)
  else
    match extentAt (er_extents r) (er_pos r) with
    | None => ret (r, Err IoEOF)
    | Some ext =>
        match er_cur r with
        | Some (b, data) =>
            if N.eqb b (e_BlobID ext) then extent_serve ext plen r data
            else extent_fetch ext plen r
        | None => extent_fetch ext plen r
        end
    end.

Definition newContentReader (node : Node) (es : list Extent) (start : Z) : contentReader :=
  match n_State node with
  | NodeStateBuffered | NodeStateWriting => RWal (mkWalReader (n_ID node) start (n_Size node) [])
  | NodeStateStored => RExtent (mkExtentReader es start (n_Size node) None)
  end.

Definition contentReader_Read (r : contentReader) (plen : Z) : M (contentReader * res bytes) :=
  match r with
  | RWal w => let! '(w', x) := walReader_Read w plen in ret (RWal w', x)
  | RExtent e => let! '(e', x) := extentReader_Read e plen in ret (RExtent e', x)
  end.

(** [throttledReader.Read]: the pacing only blocks; what it changes is the size
    of the read, at most one second's worth of bytes. *)
Definition throttled_Read (bps : Z) (r : contentReader) (plen : Z)
    : M (contentReader * res bytes) :=
  if bps <=? 0 then contentReader_Read r plen
  else if plen =? 0 then ret (r, Ok [])
  else contentReader_Read r (Z.min plen bps).

(** ** Reading a file *)

Definition ensureExtents (r : readFile) : M (readFile * res unit) :=
  if rf_loaded r || negb (bool_decide (n_State (rf_node r) = NodeStateStored))
  then ret (r, Ok tt)
  else
    let? x := extentRepository_ListByNode (n_ID (rf_node r)) in
    match x with
    | Err e => ret (r, Err e)
    | Ok es => ret (mkReadFile (rf_node r) es true (rf_bps r) (rf_pos r) (rf_src r), Ok tt)
    end.

Definition readFile_Seek (r : readFile) (offset whence : Z) : readFile * res Z :=
  let go abs :=
    if abs <? 0 then (r, Err OsErrInvalid)
    else (mkReadFile (rf_node r) (rf_extents r) (rf_loaded r) (rf_bps r) abs None, Ok abs) in
  if whence =? 0 then go offset
  else if whence =? 1 then go (wrap64 (rf_pos r + offset))
  else if whence =? 2 then go (wrap64 (n_Size (rf_node r) + offset))
  else (r, Err OsErrInvalid).

Definition readFile_Read (r : readFile) (plen : Z) : M (readFile * res bytes) :=
  if n_Size (rf_node r) <=? rf_pos r then ret (r, Err IoEOF)
  else
    let! '(r, x) := ensureExtents r in
    match x with
    | Err e => ret (r, Err e)
    | Ok _ =>
        let! src := match rf_src r with
                    | Some s => ret s
                    | None => do! IncReadOps in
                              ret (newContentReader (rf_node r) (rf_extents r) (rf_pos r))
                    end in
        let! '(s', out) := throttled_Read (rf_bps r) src plen in
        let n := match out with Ok b => blen b | Err _ => 0 end in
        do! (if 0 <? n then AddReadBytes n else ret tt) in
        ret (mkReadFile (rf_node r) (rf_extents r) (rf_loaded r) (rf_bps r) (rf_pos r + n)
               (Some s'), out)
    end.

(** ** Writing a file *)

Definition flushChunk (w : writeFile) (data : bytes) : M unit :=
  let! id := uuid_New in
  WALRepository_AppendChunk (mkWALChunk id (n_ID (wf_node w)) (wf_seq w) data 0).

Definition wf_flushed (w : writeFile) (rest : bytes) : writeFile :=
  mkWriteFile (wf_node w) (wf_user w) (wf_hashed w) rest (wf_seq w + 1) (wf_size w) (wf_closed w).

(** The loop of [Write]: [fuel] is at least the number of full chunks. *)
Fixpoint flush_full (fuel : nat) (w : writeFile) : M (writeFile * res unit) :=
  match fuel with
  | O => ret (w, Ok tt)
  | S k =>
      if WALChunkSize <=? blen (wf_buf w) then
        let? r := flushChunk w (take (Z.to_nat WALChunkSize) (wf_buf w)) in
        match r with
        | Err e => ret (w, Err e)
        | Ok _ => flush_full k (wf_flushed w (drop (Z.to_nat WALChunkSize) (wf_buf w)))
        end
      else ret (w, Ok tt)
  end.

Definition writeFile_Write (w : writeFile) (p : bytes) : M (writeFile * res Z) :=
  if wf_closed w then ret (w, Err OsErrClosed)
  else
    let w1 := mkWriteFile (wf_node w) (wf_user w) (wf_hashed w ++ p)%list (wf_buf w ++ p)%list
                (wf_seq w) (wrap64 (wf_size w + blen p)) (wf_closed w) in
    let! '(w2, r) := flush_full (Z.to_nat (blen (wf_buf w1) / WALChunkSize)) w1 in
    ret (w2, res_map (λ _, blen p) r).

Definition writeFile_Stat (w : writeFile) : M fileInfo :=
  let! now := Now in
  ret (mkFileInfo (n_Name (wf_node w)) (wf_size w) now false (etagOf (wf_hashed w))
         (contentTypeFor (n_Name (wf_node w)))).

Definition finished_node (n : Node) (w : writeFile) (now : time) : Node :=
  let sum := hex_encode (sha256 (wf_hashed w)) in
  mkNode (n_ID n) (n_UserID n) (n_ParentID n) (n_Name n) (n_Path n) (n_IsDir n) (wf_size w)
    sum (quoted sum) (contentTypeFor (n_Name n)) NodeStateBuffered (n_CreatedAt n) now.

(** The transaction of [Close]. *)
Definition close_tx (w : writeFile) (now : time) : M unit :=
  do! (if 0 <? u_QuotaBytes (wf_user w) then
         let! used := NodeRepository_SumSizeByUser (u_ID (wf_user w)) in
         if u_QuotaBytes (wf_user w) <? wrap64 (used + wf_size w) then fail ErrQuotaExceeded
         else ret tt
       else ret tt) in
  let! n := NodeRepository_GetByID (n_ID (wf_node w)) in
  NodeRepository_Update (finished_node n w now).

Definition close_rollback (w : writeFile) : M unit :=
  WithTx (
    ignore! WALRepository_DeleteByNode (n_ID (wf_node w)) in
    NodeRepository_Delete (n_ID (wf_node w))).

Definition wf_close (w : writeFile) (buf : bytes) (seq : Z) : writeFile :=
  mkWriteFile (wf_node w) (wf_user w) (wf_hashed w) buf seq (wf_size w) true.

Definition writeFile_Close (w : writeFile) : M (writeFile * res unit) :=
  if wf_closed w then ret (w, Ok tt)
  else
    let? f := if blen (wf_buf w) =? 0 then ret tt else flushChunk w (wf_buf w) in
    match f with
    | Err e => ret (wf_close w (wf_buf w) (wf_seq w), Err e)
    | Ok _ =>
        let w' := if blen (wf_buf w) =? 0 then wf_close w (wf_buf w) (wf_seq w)
                  else wf_close w [] (wf_seq w + 1) in
        let! now := Now in
        let? r := WithTx (close_tx w' now) in
        match r with
        | Err e => ignore! close_rollback w' in ret (w', Err e)
        | Ok _ => do! IncWriteOps in ret (w', Ok tt)
        end
    end.

(** ** The methods of [webdav.File] *)

Definition File_Close (f : File) : M (File * res unit) :=
  match f with
  | FWrite w => let! '(w', r) := writeFile_Close w in ret (FWrite w', r)
  | _ => ret (f, Ok tt)
  end.

Definition File_Read (f : File) (plen : Z) : M (File * res bytes) :=
  match f with
  | FDir _ => ret (f, Err OsErrInvalid)
  | FRead r => let! '(r', x) := readFile_Read r plen in ret (FRead r', x)
  | FWrite _ => ret (f, Err OsErrPermission)
  end.

Definition File_Write (f : File) (p : bytes) : M (File * res Z) :=
  match f with
  | FWrite w => let! '(w', x) := writeFile_Write w p in ret (FWrite w', x)
  | _ => ret (f, Err OsErrPermission)
  end.

Definition File_Seek (f : File) (offset whence : Z) : File * res Z :=
  match f with
  | FRead r => let '(r', x) := readFile_Seek r offset whence in (FRead r', x)
  | _ => (f, Err OsErrInvalid)
  end.

Definition File_Readdir (f : File) (count : Z) : M (File * res (list fileInfo)) :=
  match f with
  | FDir d => let! '(d', x) := dirFile_Readdir d count in ret (FDir d', x)
  | _ => ret (f, Err OsErrInvalid)
  end.

Definition File_Stat (f : File) : M fileInfo :=
  match f with
  | FDir d => ret (infoFromNode (df_node d))
  | FRead r => ret (infoFromNode (rf_node r))
  | FWrite w => writeFile_Stat w
  end.

End file.
