(* ===== verification/Throttle.v ===== *)
(** * internal/service/limits.go: the pacing of reads

    [ThrottledReader] slows a download down to the user's bandwidth with a limiter of
    golang.org/x/time/rate.  [File.throttled_Read] has what that changes in the bytes
    read (the size of a read); this file has the time: the limiter's [WaitN] is a
    parameter that says when it returns, and the theorem bounds the bytes delivered in
    any stretch of time. *)
From Stdlib Require Import ZArith Lia Strings.Byte Strings.String.
From stdpp Require Import base tactics list gmap strings.
From S2P Require Import Prelude Model Sql World Repository Path FileSystem File Limiter.
#[local] Open Scope string_scope.
#[local] Open Scope Z_scope.

(** [rate.Limiter.WaitN] of a limiter of [rate] tokens a second and a burst, after some
    calls (newest first: when each returned and its tokens), for a call at [now]: when
    it returns, or [None] for an error.  The context is the background one. *)
Class PaceLib := { WaitN : Z → Z → list (time * Z) → time → Z → option time }.

Record throttledReader := mkThrottledReader {
  tr_rate : Z; tr_burst : Z; tr_calls : list (time * Z) }.

(** [ThrottledReader]: [None] is the reader itself. *)
Definition ThrottledReader (bps : Z) : option throttledReader :=
  if bps <=? 0 then None
  else
    let burst := if bps <? 1 then 1 else bps in
    Some (mkThrottledReader (float64_of_int bps) burst []).

(** The largest read passed on. *)
Definition capped (t : throttledReader) (plen : Z) : Z := if tr_burst t <? plen then tr_burst t else plen.

Section reader.
Context {P : PaceLib}.

(** [throttledReader.Read] over a reader that is given the length of the buffer and
    answers the number of bytes and an error, at time [now]: the reader, the number of
    bytes, the error, and the time of the return. *)
Definition throttledReader_Read (t : throttledReader) (under : Z → Z * option error) (plen : Z) (now : time)
    : throttledReader * Z * option error * time :=
  if plen =? 0 then (t, 0, None, now)
  else
    let '(n, err) := under (capped t plen) in
    if 0 <? n then
      match WaitN (tr_rate t) (tr_burst t) (tr_calls t) now n with
      | Some at_ => (mkThrottledReader (tr_rate t) (tr_burst t) ((at_, n) :: tr_calls t), n, err, at_)
      | None => (t, n, match err with None => Some (ErrOther "rate: Wait") | Some e => Some e end, now)
      end
    else (t, n, err, now).

(** A read of a download: what the reader below answers, the buffer, and when that
    answer is there. *)
Record read := mkRead { rd_under : Z → Z * option error; rd_plen : Z; rd_now : time }.

(** The reads of a download one after the other: what each delivers and when, and the
    errors, newest first. *)
Fixpoint run_reads (t : throttledReader) (rs : list read) (done : list (time * Z * option error))
    : list (time * Z * option error) :=
  match rs with
  | [] => done
  | r :: rs =>
      let '(t', n, err, at_) := throttledReader_Read t (rd_under r) (rd_plen r) (rd_now r) in
      run_reads t' rs ((at_, n, err) :: done)
  end.

End reader.

(** ** The documented behaviour of the limiter *)

(** The tokens in the bucket at [t], in units of a token times a nanosecond over a
    second: the bucket is full at first and holds [burst] tokens, a call takes its
    tokens, and [rate] tokens come in every second. *)
Fixpoint level (rate burst : Z) (calls : list (time * Z)) (t : time) : Z :=
  match calls with
  | [] => burst * Second
  | (t0, n) :: calls => Z.min (burst * Second) (level rate burst calls t0 - n * Second + rate * (t - t0))
  end.

(** [WaitN] of no more than the burst blocks until the tokens are there. *)
Definition PaceLaw `{PaceLib} : Prop := ∀ rate burst calls now n, 0 < rate → 0 ≤ n ≤ burst →
  ∃ t, WaitN rate burst calls now n = Some t ∧ now ≤ t ∧ n * Second ≤ level rate burst calls t.

(** ** What a bucket lets through *)

(** Calls in the order of time, each with its tokens there. *)
Fixpoint allowed (rate burst : Z) (calls : list (time * Z)) : Prop :=
  match calls with
  | [] => True
  | (t, n) :: calls' => allowed rate burst calls' ∧ 0 ≤ n ∧ n * Second ≤ level rate burst calls' t
      ∧ match calls' with (t0, _) :: _ => t0 ≤ t | [] => True end
  end.

Definition within (a b : time) (c : time * Z) : bool := (a <=? c.1) && (c.1 <=? b).
Definition tokens_in (a b : time) (calls : list (time * Z)) : Z :=
  sum_list_with_Z (λ c, if within a b c then c.2 else 0) calls.

Lemma tokens_in_cons a b c calls : tokens_in a b (c :: calls) = (if within a b c then c.2 else 0) + tokens_in a b calls.
Proof. reflexivity. Qed.

Lemma within_spec a b t n : within a b (t, n) = true ↔ a ≤ t ≤ b.
Proof. unfold within. cbn. by rewrite andb_true_iff, !Z.leb_le. Qed.

Lemma within_not a b t n : t < a → within a b (t, n) = false.
Proof. intros H. apply not_true_iff_false. rewrite within_spec. lia. Qed.

Lemma level_full rate burst calls t : level rate burst calls t ≤ burst * Second.
Proof. destruct calls as [|[t0 n] calls]; cbn; lia. Qed.

Lemma allowed_sorted rate burst t n calls : allowed rate burst ((t, n) :: calls) → ∀ c, c ∈ calls → c.1 ≤ t.
Proof.
  revert t n. induction calls as [|[t' n'] calls IH]; intros t n H c Hc; [by apply not_elem_of_nil in Hc|].
  destruct H as (H & _ & _ & Ht). apply elem_of_cons in Hc as [->|Hc]; [done|]. specialize (IH _ _ H _ Hc). lia.
Qed.

Lemma tokens_before rate burst a b t n calls : allowed rate burst ((t, n) :: calls) → t < a → tokens_in a b calls = 0.
Proof.
  intros H Ha. assert (∀ c, c ∈ calls → c.1 < a) as Hc by (intros c Hin; specialize (allowed_sorted _ _ _ _ _ H c Hin); lia).
  clear H. induction calls as [|[t' n'] calls IH]; [done|]. rewrite tokens_in_cons, IH by (intros; apply Hc; set_solver).
  by rewrite within_not by apply (Hc (t', n') ltac:(set_solver)).
Qed.

(** With the tokens left after the last call, those taken since [a] are no more than a
    full bucket and what came in. *)
Lemma taken_since rate burst a b t n calls : 0 ≤ rate → allowed rate burst ((t, n) :: calls) → a ≤ t ≤ b →
  tokens_in a b ((t, n) :: calls) * Second + (level rate burst calls t - n * Second) ≤ burst * Second + rate * (t - a).
Proof.
  intros Hr. revert t n. induction calls as [|[t' n'] calls IH]; intros t n H Ht.
  - rewrite tokens_in_cons, (proj2 (within_spec a b t n)) by lia. cbn. nia.
  - pose proof (level_full rate burst ((t', n') :: calls) t). destruct H as (H & Hn & Hl & Hle).
    rewrite tokens_in_cons, (proj2 (within_spec a b t n)) by lia. cbn [snd].
    destruct (Z.lt_ge_cases t' a) as [Hlt|Hge].
    + rewrite tokens_in_cons, within_not, (tokens_before _ _ _ b _ _ _ H Hlt) by done. nia.
    + specialize (IH t' n' H ltac:(lia)). cbn [level] in *. nia.
Qed.

Lemma taken_within rate burst a b calls : 0 ≤ rate → 0 ≤ burst → a ≤ b → allowed rate burst calls →
  tokens_in a b calls * Second ≤ burst * Second + rate * (b - a).
Proof.
  intros Hr Hb Hab. induction calls as [|[t n] calls IH]; intros H.
  - unfold tokens_in. cbn. unfold Second, Millisecond. nia.
  - destruct (within a b (t, n)) eqn:Hw.
    + apply within_spec in Hw. pose proof (taken_since _ _ a b _ _ _ Hr H Hw). destruct H as (_ & _ & ? & _). nia.
    + rewrite tokens_in_cons, Hw. apply IH, H.
Qed.

(** ** The reader *)

Section pacing.
Context {P : PaceLib} (law : PaceLaw).

(** The reader below keeps to its buffer, and a read begins when the one before has
    returned. *)
Fixpoint orderly (t : throttledReader) (last : time) (rs : list read) : Prop :=
  match rs with
  | [] => True
  | r :: rs =>
      last ≤ rd_now r ∧ 0 ≤ rd_plen r ∧ (∀ k, 0 ≤ k → 0 ≤ (rd_under r k).1 ≤ k)
      ∧ let '(t', _, _, at_) := throttledReader_Read t (rd_under r) (rd_plen r) (rd_now r) in orderly t' at_ rs
  end.

(** The error of a delivery is one of the reader below. *)
Definition from_below (rs : list read) (err : option error) : Prop :=
  err = None ∨ ∃ r k, r ∈ rs ∧ (rd_under r k).2 = err.

(** The state of the reader between reads: what its limiter has let through is what it
    has delivered. *)
Record paced (t : throttledReader) (last : time) (done : list (time * Z * option error)) : Prop := {
  pc_rate : 0 < tr_rate t; pc_burst : 0 ≤ tr_burst t;
  pc_allowed : allowed (tr_rate t) (tr_burst t) (tr_calls t);
  pc_last : match tr_calls t with (t0, _) :: _ => t0 ≤ last | [] => True end;
  pc_done : ∀ a b, tokens_in a b (done.*1) = tokens_in a b (tr_calls t) }.

Lemma paced_idle t last at_ err done : paced t last done → last ≤ at_ → paced t at_ ((at_, 0, err) :: done).
Proof using Type.
  intros [? ? ? Hl Hd] Hat. split; try done; [destruct (tr_calls t) as [|[? ?] ?]; [done|lia]|].
  intros a b. cbn [fmap list_fmap fst]. rewrite tokens_in_cons. cbn [snd]. rewrite <- Hd. by destruct (within _ _ _).
Qed.

Lemma Read_paced t last done under plen now t' n err at_ : paced t last done → last ≤ now → 0 ≤ plen →
  (∀ k, 0 ≤ k → 0 ≤ (under k).1 ≤ k) → throttledReader_Read t under plen now = (t', n, err, at_) →
  paced t' at_ ((at_, n, err) :: done) ∧ tr_rate t' = tr_rate t ∧ tr_burst t' = tr_burst t
  ∧ (err = None ∨ ∃ k, (under k).2 = err).
Proof using law.
  intros Hp Hl Hlen Hu H. unfold throttledReader_Read in H. destruct (plen =? 0).
  { injection H as <- <- <- <-. split_and!; [by eapply paced_idle|done|done|by left]. }
  assert (0 ≤ capped t plen ≤ tr_burst t) as Hc.
  { pose proof (pc_burst _ _ _ Hp). unfold capped. destruct (Z.ltb_spec (tr_burst t) plen); lia. }
  specialize (Hu (capped t plen) ltac:(lia)). destruct (under (capped t plen)) as [m e] eqn:Hun. cbn in Hu.
  destruct (Z.ltb_spec 0 m) as [Hm|Hm].
  - destruct (law (tr_rate t) (tr_burst t) (tr_calls t) now m) as (u & Hw & Hnu & Hlv); [apply Hp|lia|].
    rewrite Hw in H. injection H as <- <- <- <-. split_and!; [|done|done|right; by exists (capped t plen); rewrite Hun].
    destruct Hp as [? ? ? Hlast Hd]. split; cbn [tr_rate tr_burst tr_calls]; [done|done| |done|].
    + cbn [allowed]. split_and!; [done|lia|done|]. destruct (tr_calls t) as [|[? ?] ?]; [done|lia].
    + intros a b. cbn [fmap list_fmap fst]. rewrite !tokens_in_cons. by rewrite Hd.
  - injection H as <- <- <- <-. assert (m = 0) as -> by lia.
    split_and!; [by eapply paced_idle|done|done|right; by exists (capped t plen); rewrite Hun].
Qed.

Lemma run_reads_paced rs t last done : paced t last done → orderly t last rs →
  ∃ t' last', paced t' last' (run_reads t rs done) ∧ tr_rate t' = tr_rate t ∧ tr_burst t' = tr_burst t
    ∧ ∀ c err, (c, err) ∈ run_reads t rs done → (c, err) ∈ done ∨ from_below rs err.
Proof using law.
  revert t last done. induction rs as [|r rs IH]; intros t last done Hp Ho.
  { exists t, last. split_and!; [done..|]. intros c err Hin. by left. }
  cbn [orderly run_reads] in *. destruct Ho as (Hn & Hl & Hu & Ho).
  destruct (throttledReader_Read t _ _ _) as [[[t1 n] e] at_] eqn:Hr.
  destruct (Read_paced _ _ _ _ _ _ _ _ _ _ Hp Hn Hl Hu Hr) as (Hp1 & Hr1 & Hb1 & He).
  destruct (IH _ _ _ Hp1 Ho) as (t' & last' & Hp' & Hr' & Hb' & Hin). exists t', last'.
  split_and!; [done|congruence|congruence|]. intros c err [Hc|[->|(r' & k & Hr2 & Hk)]]%Hin.
  - apply elem_of_cons in Hc as [[= -> ->]|Hc]; [right|by left].
    destruct He as [->|[k Hk]]; [by left|right]. exists r, k. split; [by left|done].
  - right. by left.
  - right. right. exists r', k. split; [by right|done].
Qed.

(** C37: A throttled download keeps to the user's bandwidth.  Whatever sizes are asked for
    and whatever the reader below answers and when, in any stretch of time the reads
    deliver no more than one second's worth of bytes beyond the bandwidth times its
    length; and the pacing makes no read fail: every error is one of the reader below. *)
Theorem throttle_bounds bps t start rs a b : ThrottledReader bps = Some t → orderly t start rs → a ≤ b →
  tokens_in a b ((run_reads t rs []).*1) * Second ≤ bps * Second + float64_of_int bps * (b - a)
  ∧ (bps < 2 ^ 53 → float64_of_int bps = bps)
  ∧ ∀ c err, (c, err) ∈ run_reads t rs [] → from_below rs err.
Proof using law.
  intros Ht Ho Hab. unfold ThrottledReader in Ht. destruct (Z.leb_spec bps 0) as [|Hpos]; [done|].
  assert ((if bps <? 1 then 1 else bps) = bps) as Hb by (destruct (Z.ltb_spec bps 1); lia). rewrite Hb in Ht.
  injection Ht as <-. assert (0 < float64_of_int bps) as Hr.
  { unfold float64_of_int. destruct (Z.ltb_spec (Z.abs bps) (2 ^ 53)) as [|Hbig]; [lia|].
    assert (53 ≤ Z.log2 (Z.abs bps)) by (apply Z.log2_le_pow2; lia).
    pose proof (Z.log2_spec (Z.abs bps) ltac:(lia)) as [Hlo _].
    rewrite Z.sgn_pos by lia. set (u := 2 ^ (Z.log2 (Z.abs bps) - 52)). assert (0 < u) by (apply Z.pow_pos_nonneg; lia).
    assert (1 ≤ Z.abs bps / u).
    { apply Z.div_le_lower_bound; [done|]. etransitivity; [|exact Hlo]. unfold u. rewrite Z.mul_1_r. apply Z.pow_le_mono_r; lia. }
    destruct (_ || _); nia. }
  assert (paced (mkThrottledReader (float64_of_int bps) bps []) start []) as Hp by (split; cbn; try done; lia).
  destruct (run_reads_paced rs _ _ _ Hp Ho) as (t' & last' & [_ _ Hal _ Hd] & Hrt & Hbt & He). split_and!.
  - rewrite Hd. rewrite <- Hrt, <- Hbt at 1. cbn in Hrt, Hbt. rewrite Hrt, Hbt in *. apply taken_within; [lia|lia|done|done].
  - intros Hs. unfold float64_of_int. destruct (Z.ltb_spec (Z.abs bps) (2 ^ 53)); [done|lia].
  - intros c err Hin. destruct (He c err Hin) as [Hn|]; [by apply not_elem_of_nil in Hn|done].
Qed.

End pacing.

(** The size of a read is that of [File.throttled_Read]. *)
Lemma throttled_Read_capped {E : Env} {B : BlobService} bps r plen : throttled_Read bps r plen =
  match ThrottledReader bps with
  | None => contentReader_Read r plen
  | Some t => if plen =? 0 then ret (r, Ok []) else contentReader_Read r (capped t plen)
  end.
Proof.
  unfold throttled_Read, ThrottledReader. destruct (Z.leb_spec bps 0); [done|]. destruct (plen =? 0); [done|].
  unfold capped. cbn. f_equal. destruct (Z.ltb_spec bps 1); [lia|]. destruct (Z.ltb_spec bps plen); lia.
Qed.

(** ** A download *)

(** A token bucket, exactly: the call returns when its tokens are there. *)
#[local] Instance exact_bucket : PaceLib := {
  WaitN := λ rate burst calls now n,
    if burst <? n then None
    else Some (match calls with
               | [] => now
               | (t0, m) :: calls => Z.max now (t0 - (- (n * Second - (level rate burst calls t0 - m * Second))) / rate)
               end) }.

Lemma exact_bucket_law : PaceLaw.
Proof.
  intros rate burst calls now n Hr Hn. cbn. destruct (Z.ltb_spec burst n); [lia|]. eexists. split; [done|].
  assert (0 < Second) by (unfold Second, Millisecond; lia).
  destruct calls as [|[t0 m] calls]; cbn [level]; [split; [lia|nia]|]. split; [lia|].
  set (x := n * Second - (level rate burst calls t0 - m * Second)).
  pose proof (Z.mul_div_le (- x) rate Hr). set (q := - x / rate) in *. apply Z.min_glb; [nia|].
  assert (- q ≤ Z.max now (t0 - q) - t0) by lia. unfold x in *. nia.
Qed.

(** A file of 250 bytes at 100 bytes a second, read into a large buffer. *)
Definition demo_reads : list read :=
  (λ nt : Z * Z, mkRead (λ k, (Z.min k nt.1, None)) 32768 nt.2) <$> [(250, 5); (150, 10); (50, Second + 10); (0, 2 * Second)].
Definition demo_throttled : throttledReader := default (mkThrottledReader 0 0 []) (ThrottledReader 100).

(** A hundred bytes at once, a hundred a second later, and the rest half a second later. *)
Example demo_deliveries : (run_reads demo_throttled demo_reads []).*1
  = [(2 * Second, 0); (Second + Second / 2 + 5, 50); (Second + 5, 100); (5, 100)].
Proof. vm_compute. reflexivity. Qed.

(** [orderly], for the next of some concrete reads. *)
Ltac orderly_read :=
  cbn [orderly]; split; [vm_compute; discriminate|split; [vm_compute; discriminate|split; [intros k Hk; cbn; lia|]]];
  match goal with |- context [throttledReader_Read ?t ?u ?p ?n] =>
    let x := eval vm_compute in (throttledReader_Read t u p n) in change (throttledReader_Read t u p n) with x end;
  cbv iota beta.

Lemma throttle_witness :
  tokens_in 5 (Second + 5) ((run_reads demo_throttled demo_reads []).*1) * Second ≤ 100 * Second + float64_of_int 100 * Second
  ∧ tokens_in 5 (Second + 5) ((run_reads demo_throttled demo_reads []).*1) = 200.
Proof.
  split; [|vm_compute; reflexivity].
  refine (proj1 (throttle_bounds exact_bucket_law 100 demo_throttled 0 demo_reads 5 (Second + 5) _ _ _)).
  - reflexivity.
  - unfold demo_reads. cbn [fmap list_fmap]. do 4 orderly_read. exact I.
  - unfold Second, Millisecond. lia.
Defined.
