(* ===== verification/Copy.v ===== *)
(** * internal/service/webdavfs/copy.go: COPY

    Stored files share their blobs: extents are duplicated and refcounts bumped.
    Buffered files have their WAL bytes re-chunked.  The recursion of [copyNode]
    and the copying loop are bounded by fuel; [Copy] supplies the number of nodes
    and the file's size, which the theorems show to be enough. *)
From Stdlib Require Import ZArith Lia Strings.Byte Strings.String Strings.Ascii.
From stdpp Require Import base tactics list gmap sets sorting strings.
From S2P Require Import Prelude Model Sql World Repository Crypto Path FileSystem.
#[local] Open Scope string_scope.
#[local] Open Scope Z_scope.
Open Scope m_scope.

Section copy.
Context {E : Env}.

(** [lo.SumBy] over the file nodes; the sum wraps. *)
Definition sum_sizes (nodes : list Node) : Z :=
  foldl (λ s n, wrap64 (s + n_Size n)) 0 (List.filter (λ n, negb (n_IsDir n)) nodes).

Definition subtreeSize (user : uuid) (p : string) : M Z :=
  let! nodes := NodeRepository_ListSubtree user p in ret (sum_sizes nodes).

Definition copy_block : Z := 1048576.

Fixpoint copy_wal (fuel : nat) (src dst : uuid) (size off seq : Z) : M unit :=
  match fuel with
  | O => ret tt
  | S k =>
      if off <? size then
        let n := if size <? wrap64 (off + copy_block) then size - off else copy_block in
        let! data := WALRepository_ReadRange src off n in
        if blen data =? 0 then ret tt
        else
          let! id := uuid_New in
          do! WALRepository_AppendChunk (mkWALChunk id dst seq data 0) in
          copy_wal k src dst size (wrap64 (off + blen data)) (seq + 1)
      else ret tt
  end.

Definition copied_node (s : Node) (id user : uuid) (parent : option uuid) (path : string)
    (st : NodeState) (now : time) : Node :=
  mkNode id user parent (Base path) path (n_IsDir s) (n_Size s) (n_ContentHash s) (n_ETag s)
    (n_ContentType s) st now now.

(** A stored file: extents duplicated, every blob bumped once per extent. *)
Definition copy_stored (src dst : uuid) : M unit :=
  let! es := extentRepository_ListByNode src in
  do! extentRepository_CopyForNode src dst in
  match es with
  | [] => ret tt
  | _ => blobRepository_AddRefcounts (blob_deltas 1 es)
  end.

Fixpoint copyNode (fuel : nat) (user : uuid) (src : Node) (dstPath : string)
    (dstParent : option uuid) (recursive : bool) : M unit :=
  match fuel with
  | O => ret tt
  | S k =>
      let! now := Now in
      let! newID := uuid_New in
      let node st := copied_node src newID user dstParent dstPath st now in
      if n_IsDir src then
        do! with_fs_err (NodeRepository_Create (node NodeStateStored)) in
        if negb recursive then ret tt
        else
          let! children := NodeRepository_ListChildren user (n_ID src) in
          for_each children (λ child,
            copyNode k user child (dstPath +:+ "/" +:+ n_Name child) (Some newID) recursive)
      else if bool_decide (n_State src = NodeStateStored) then
        do! with_fs_err (NodeRepository_Create (node NodeStateStored)) in
        copy_stored (n_ID src) newID
      else
        do! with_fs_err (NodeRepository_Create (node NodeStateBuffered)) in
        copy_wal (Z.to_nat (n_Size src)) (n_ID src) newID (n_Size src) 0 0
  end.

(** The quota test of [Copy]: the source's size, less what the target frees. *)
Definition copy_quota (user : User) (s d : string) : M unit :=
  if u_QuotaBytes user <=? 0 then ret tt
  else
    let! used := NodeRepository_SumSizeByUser (u_ID user) in
    let! add := subtreeSize (u_ID user) s in
    let? r := NodeRepository_GetByPath (u_ID user) d in
    let! add := match r with
                | Ok existing =>
                    let! freed := subtreeSize (u_ID user) (n_Path existing) in
                    ret (wrap64 (add - freed))
                | Err e => if errors_Is e ErrNotFound then ret add else fail e
                end in
    if u_QuotaBytes user <? wrap64 (used + add) then fail ErrQuotaExceeded else ret tt.

Definition copy_tx (user : User) (s d : string) (recursive overwrite : bool) : M unit :=
  let! srcNode := with_fs_err (NodeRepository_GetByPath (u_ID user) s) in
  let! parent := with_fs_err (NodeRepository_GetByPath (u_ID user) (Dir d)) in
  if negb (n_IsDir parent) then fail OsErrNotExist
  else
    do! copy_quota user s d in
    do! if_exists (u_ID user) d (λ existing,
          if negb overwrite then fail OsErrExist else removeWithin (u_ID user) existing) in
    let! n := gets (λ w, size (d_nodes (w_db w))) in
    copyNode (S n) (u_ID user) srcNode d (Some (n_ID parent)) recursive.

Definition Copy (ctx : option Principal) (src dst : string) (recursive overwrite : bool) : M unit :=
  let! user := of_res (acting ctx) in
  let s := normalize src in
  let d := normalize dst in
  if String.eqb s "/" || String.eqb d "/" then fail OsErrPermission
  else if String.eqb s d then ret tt
  else if pathHasPrefix d s then fail OsErrInvalid
  else
    do! ensureRoot (u_ID user) in
    WithTx (copy_tx user s d recursive overwrite).

End copy.
