(* ===== verification/WebDav.v ===== *)
(** * internal/handler/http/webdav.go, middleware/auth.go: the WebDAV endpoint

    Basic authentication, the rate limit, the quota check of PUT and the COPY
    handler.  golang.org/x/net/webdav, which serves every other method over the
    filesystem, and the parsing of the Destination URL are parameters; a panic is
    answered by chi's Recoverer.  Request ids and logging are not modelled. *)
From Stdlib Require Import ZArith Lia Strings.Byte Strings.String Strings.Ascii.
From stdpp Require Import base tactics list gmap strings.
From S2P Require Import Prelude Model Sql World Repository Crypto Text Password Accounts Identity Limiter.
From S2P Require Import Path FileSystem File Copy.
#[local] Open Scope string_scope.
#[local] Open Scope Z_scope.
Open Scope m_scope.

(** What the handlers read of a request; an absent header is the empty string. *)
Record httpReq := mkHttpReq {
  rq_Method : string; rq_Path : string; rq_Authorization : string; rq_ContentLength : Z;
  rq_Destination : string; rq_Overwrite : string; rq_Depth : string }.

(** A response with a short text, or none, for a body. *)
Record httpResp := mkHttpResp { rs_Status : Z; rs_Header : list (string * string); rs_Body : string }.

Definition text_resp (status : Z) (body : string) : httpResp := mkHttpResp status [] body.

(** [url.Parse(s)], reduced to the path; golang.org/x/net/webdav's handler over the
    filesystem, with the principal of the request's context. *)
Class WebLib := {
  url_Path : string → option string;
  dav_ServeHTTP : option Principal → httpReq → M httpResp }.

(** ** Credentials *)

(** [r.BasicAuth()]. *)
Definition BasicCredentials (authorization : string) : option (string * string) :=
  if (slen authorization <? 6) || negb (EqualFold (substring 0 6 authorization) "Basic ") then None
  else match StdDecode (substring 6 (String.length authorization - 6) authorization) with
       | None => None
       | Some c => let '(username, password, ok) := Cut ":" (string_of c) in
                   if ok then Some (username, password) else None
       end.

Definition bearerToken (header : string) : option string :=
  if (slen header <? 7) || negb (EqualFold (substring 0 7 header) "Bearer ") then None
  else let token := TrimSpace (substring 7 (String.length header - 7) header) in
       if String.eqb token "" then None else Some token.

Definition quoted (s : string) : string := String "034" (s +:+ String "034" EmptyString).

Definition webdavUnauthorized : httpResp :=
  mkHttpResp 401 [("WWW-Authenticate", "Basic realm=" +:+ quoted "tgwebdav")] "unauthorized".

Section webdav.
Context {E : Env} {K : Kdf} {R : RateLib} {W : WebLib}.

(** ** Middleware *)

(** A panic inside [m] is answered with 500. *)
Definition Recoverer (m : M httpResp) : M httpResp :=
  let? r := m in match r with Ok x => ret x | Err _ => ret (text_resp 500 "") end.

Definition BasicAuth (next : option Principal → M httpResp) (r : httpReq) : M httpResp :=
  match BasicCredentials (rq_Authorization r) with
  | None => ret webdavUnauthorized
  | Some (username, password) =>
      let? p := AuthenticateBasic username password in
      match p with
      | Err (ErrOther msg) => if HasPrefix msg "panic: " then fail (ErrOther msg) else ret webdavUnauthorized
      | Err e => if errors_Is e ErrForbidden then ret (text_resp 403 "forbidden") else ret webdavUnauthorized
      | Ok principal => next (Some principal)
      end
  end.

Definition rateLimit (next : option Principal → M httpResp) (p : option Principal) : M httpResp :=
  match p with
  | Some pr =>
      match Acting pr with
      | Some u =>
          let! ok := Allow (u_ID u) (u_RatePerMin u) in
          if ok then next p else ret (mkHttpResp 429 [("Retry-After", "1")] "too many requests")
      | None => next p
      end
  | None => next p
  end.

(** ** COPY *)

Definition copy_status (existed : bool) (r : res unit) : httpResp :=
  match r with
  | Ok _ => mkHttpResp (if existed then 204 else 201) [] ""
  | Err e =>
      if errors_Is e ErrQuotaExceeded then text_resp 507 "insufficient storage"
      else if errors_Is e OsErrExist then text_resp 412 "destination exists"
      else if errors_Is e OsErrNotExist then text_resp 409 "conflict"
      else if errors_Is e OsErrPermission then text_resp 403 "forbidden"
      else text_resp 500 "internal error"
  end.

Definition handleCopy (ctx : option Principal) (r : httpReq) : M httpResp :=
  if String.eqb (rq_Destination r) "" then ret (text_resp 400 "missing Destination")
  else match url_Path (rq_Destination r) with
       | None => ret (text_resp 400 "bad Destination")
       | Some dstPath =>
           let overwrite := negb (EqualFold (rq_Overwrite r) "F") in
           let recursive := negb (String.eqb (rq_Depth r) "0") in
           let? src := Stat ctx (rq_Path r) in
           match src with
           | Err _ => ret (text_resp 404 "not found")
           | Ok _ =>
               let? dest := Stat ctx dstPath in
               let destExisted := match dest with Ok _ => true | Err _ => false end in
               let? x := Copy ctx (rq_Path r) dstPath recursive overwrite in
               ret (copy_status destExisted x)
           end
       end.

(** ** The endpoint *)

Definition router (r : httpReq) (ctx : option Principal) : M httpResp :=
  if String.eqb (rq_Method r) "COPY" then handleCopy ctx r
  else if String.eqb (rq_Method r) "PUT" && (0 <? rq_ContentLength r) then
    let? q := CheckQuota ctx (rq_Path r) (rq_ContentLength r) in
    match q with
    | Err e => if errors_Is e ErrQuotaExceeded then ret (text_resp 507 "insufficient storage")
               else ret (text_resp 500 "internal error")
    | Ok _ => dav_ServeHTTP ctx r
    end
  else dav_ServeHTTP ctx r.

Definition WebDAVHandler (r : httpReq) : M httpResp := Recoverer (BasicAuth (rateLimit (router r)) r).

End webdav.
