(* ===== verification/SqlFacts.v ===== *)
(** * Facts on the tables: selections, counts, cascades, reference counts

    [rows] and [refs] turn the statements of [Sql.v] into equations; [cascade_set]
    is shown to be the least set closed under "child of"; [conserves] is the
    law the filesystem keeps between extents and reference counts. *)
From Stdlib Require Import ZArith Lia Strings.Byte Strings.String Strings.Ascii.
From stdpp Require Import base tactics list gmap sets sorting strings.
From S2P Require Import Prelude Model Sql.
#[local] Open Scope string_scope.
#[local] Open Scope Z_scope.

(** ** Selections *)

Section rows.
Context {K A : Type} `{Countable K}.
Implicit Types (m : gmap K A) (P Q : A → bool).

Lemma elem_of_Lfilter P (l : list A) x : x ∈ List.filter P l ↔ x ∈ l ∧ P x = true.
Proof. rewrite !list_elem_of_In. apply filter_In. Qed.

Lemma elem_of_rows P m x : x ∈ rows P m ↔ ∃ k, m !! k = Some x ∧ P x = true.
Proof.
  unfold rows. rewrite elem_of_Lfilter, list_elem_of_fmap. split.
  - intros [([k y] & -> & Hy%elem_of_map_to_list) HP]. by exists k.
  - intros (k & Hk & HP). split; [|done]. exists (k, x). split; [done|].
    by apply elem_of_map_to_list.
Qed.

Lemma Lfilter_perm P (l1 l2 : list A) : l1 ≡ₚ l2 → List.filter P l1 ≡ₚ List.filter P l2.
Proof.
  induction 1 as [|x l1 l2 _ IH|x y l|l1 l2 l3 _ IH1 _ IH2]; simpl; try done.
  - destruct (P x); [by constructor|done].
  - destruct (P x), (P y); try done. constructor.
  - by etrans.
Qed.

Lemma rows_insert P m k x : m !! k = None →
  rows P (<[k:=x]> m) ≡ₚ (if P x then x :: rows P m else rows P m).
Proof.
  intros Hk. unfold rows.
  rewrite (Lfilter_perm P _ (x :: (map_to_list m).*2)); [done|].
  by rewrite map_to_list_insert.
Qed.

Lemma rows_filter P (Q : K * A → Prop) `{∀ kv, Decision (Q kv)} (q : A → bool) m :
  (∀ k x, q x = true ↔ Q (k, x)) →
  rows P (filter Q m) ≡ₚ rows (λ x, P x && q x) m.
Proof.
  intros Hq. induction m as [|k x m Hk IH] using map_ind; [done|].
  rewrite map_filter_insert. simpl. destruct (decide (Q (k, x))) as [HQ|HQ].
  - rewrite !rows_insert; [|done|by apply map_lookup_filter_None; left].
    apply Hq in HQ. rewrite HQ, andb_true_r. destruct (P x); by rewrite IH.
  - rewrite delete_id by done. rewrite rows_insert by done.
    rewrite <- Hq in HQ. apply not_true_is_false in HQ. by rewrite HQ, andb_false_r.
Qed.

Lemma rows_ext P Q m : (∀ k x, m !! k = Some x → P x = Q x) → rows P m = rows Q m.
Proof.
  intros Hx. unfold rows. assert (∀ x, x ∈ (map_to_list m).*2 → P x = Q x) as Hl.
  { intros x ([k y] & -> & Hy%elem_of_map_to_list)%list_elem_of_fmap. by apply (Hx k). }
  induction ((map_to_list m).*2) as [|x l IH]; [done|]. simpl.
  rewrite (Hl x) by set_solver. rewrite IH; [done|]. set_solver.
Qed.

Lemma rows_nil P m : rows P m = [] ↔ ∀ k x, m !! k = Some x → P x = false.
Proof.
  split.
  - intros Hn k x Hk. destruct (P x) eqn:HP; [|done].
    assert (x ∈ rows P m) as Hi by (apply elem_of_rows; by exists k).
    rewrite Hn in Hi. by apply not_elem_of_nil in Hi.
  - intros Hn. apply elem_of_nil_inv. intros x (k & Hk & HP)%elem_of_rows.
    rewrite (Hn k x Hk) in HP. done.
Qed.

Lemma row_exists_false P m : row_exists P m = false ↔ ∀ k x, m !! k = Some x → P x = false.
Proof.
  unfold row_exists. split.
  - intros Hn k x Hk. destruct (P x) eqn:HP; [|done].
    assert (existsb P (map_to_list m).*2 = true) as Hc; [|by rewrite Hc in Hn].
    apply existsb_exists. exists x. split; [|done]. apply list_elem_of_In.
    apply list_elem_of_fmap. exists (k, x). split; [done|]. by apply elem_of_map_to_list.
  - intros Hn. apply not_true_is_false. intros (x & Hx & HP)%existsb_exists.
    apply list_elem_of_In, list_elem_of_fmap in Hx as ([k y] & -> & Hy%elem_of_map_to_list).
    simpl in HP. by rewrite (Hn k y Hy) in HP.
Qed.

Lemma row_exists_true P m : row_exists P m = true ↔ ∃ k x, m !! k = Some x ∧ P x = true.
Proof.
  unfold row_exists. rewrite existsb_exists. split.
  - intros (x & Hx & HP). apply list_elem_of_In, list_elem_of_fmap in Hx
      as ([k y] & -> & Hy%elem_of_map_to_list). simpl in HP. by exists k, y.
  - intros (k & x & Hk & HP). exists x. split; [|done]. apply list_elem_of_In, list_elem_of_fmap.
    exists (k, x). split; [done|]. by apply elem_of_map_to_list.
Qed.

(** The number of rows a WHERE clause keeps. *)
Definition cnt P m : Z := blen (rows P m).

Lemma cnt_perm (l1 l2 : list A) : l1 ≡ₚ l2 → blen l1 = blen l2.
Proof. unfold blen. by intros ->. Qed.

Lemma cnt_insert P m k x : m !! k = None →
  cnt P (<[k:=x]> m) = cnt P m + (if P x then 1 else 0).
Proof.
  intros Hk. unfold cnt. rewrite (cnt_perm _ _ (rows_insert P m k x Hk)).
  destruct (P x); blen_lia.
Qed.

Lemma cnt_ext P Q m : (∀ k x, m !! k = Some x → P x = Q x) → cnt P m = cnt Q m.
Proof. intros Hx. unfold cnt. by rewrite (rows_ext P Q). Qed.

Lemma cnt_filter P (Q : K * A → Prop) `{∀ kv, Decision (Q kv)} (q : A → bool) m :
  (∀ k x, q x = true ↔ Q (k, x)) →
  cnt P (filter Q m) = cnt (λ x, P x && q x) m.
Proof. intros Hq. by apply cnt_perm, rows_filter. Qed.

Lemma cnt_split P Q m : cnt P m = cnt (λ x, P x && Q x) m + cnt (λ x, P x && negb (Q x)) m.
Proof.
  unfold cnt, rows, blen. induction ((map_to_list m).*2) as [|x l IH]; [done|].
  simpl. destruct (P x), (Q x); simpl; lia.
Qed.

Lemma cnt_zero P m : (∀ k x, m !! k = Some x → P x = false) → cnt P m = 0.
Proof. intros Hz%rows_nil. unfold cnt. by rewrite Hz. Qed.

Lemma cnt_nonneg P m : 0 ≤ cnt P m.
Proof. unfold cnt, blen. lia. Qed.

(** Fewer rows: the count goes down, and not at all if no row that counts goes. *)
Lemma cnt_sub P m m' : m' ⊆ m →
  cnt P m' ≤ cnt P m ∧ ((∀ k x, m !! k = Some x → m' !! k = None → P x = false) → cnt P m' = cnt P m).
Proof.
  revert m'. induction m as [|k x m Hk IH] using map_ind; intros m' Hs.
  - assert (m' = ∅) as -> by (apply map_eq; intros i; rewrite lookup_empty; destruct (m' !! i) as [y|] eqn:Hy; [|done];
      by apply (lookup_weaken _ ∅) in Hy; [rewrite lookup_empty in Hy|]). done.
  - assert (delete k m' ⊆ m) as Hd.
    { apply map_subseteq_spec. intros i y. rewrite lookup_delete_Some. intros [Hne Hy].
      apply (lookup_weaken _ (<[k:=x]> m)) in Hy; [|done]. by rewrite lookup_insert_ne in Hy. }
    destruct (IH _ Hd) as [Hle Heq]. rewrite cnt_insert by done. destruct (m' !! k) as [y|] eqn:Hy.
    + pose proof Hy as Hy'. apply (lookup_weaken _ (<[k:=x]> m)) in Hy'; [|done]. rewrite lookup_insert_eq in Hy'. injection Hy' as ->.
      rewrite <- (insert_delete_id m' k y Hy). rewrite cnt_insert by apply lookup_delete_eq. split; [lia|]. intros Hx.
      rewrite Heq; [lia|]. intros i z Hi Hn. apply (Hx i); [|].
      * rewrite lookup_insert_ne; [done|]. intros <-. congruence.
      * destruct (decide (i = k)) as [->|Hne]; [by rewrite Hi in Hk|]. by rewrite insert_delete_id, lookup_delete_ne in * by done.
    + rewrite delete_id in * by done. split; [destruct (P x); lia|]. intros Hx. rewrite (Hx k x); [|by rewrite lookup_insert_eq|done].
      rewrite Heq; [lia|]. intros i z Hi. apply Hx. rewrite lookup_insert_ne; [done|]. intros <-. congruence.
Qed.

End rows.

(** ** ORDER BY only reorders *)

Lemma sort_by_perm {A} (key : A → Z) l : sort_by key l ≡ₚ l.
Proof. apply merge_sort_Permutation. Qed.

Lemma sort_by_str_perm {A} (key : A → string) l : sort_by_str key l ≡ₚ l.
Proof. apply merge_sort_Permutation. Qed.

Lemma sort_by_sorted {A} (key : A → Z) l : Sorted (key_le key) (sort_by key l).
Proof. apply Sorted_merge_sort. apply _. Qed.

(** ** Cascades *)

Lemma elem_of_child_rows nodes S id :
  id ∈ child_rows nodes S ↔ ∃ r, nodes !! id = Some r ∧ parent_in S r = true.
Proof.
  unfold child_rows. rewrite elem_of_dom. unfold is_Some.
  setoid_rewrite map_lookup_filter_Some. done.
Qed.

Definition child_closed (nodes : gmap uuid NodeRow) (S : gset uuid) : Prop :=
  child_rows nodes S ⊆ S.

Lemma child_rows_dom nodes S : child_rows nodes S ⊆ dom nodes.
Proof. intros id (r & Hr & _)%elem_of_child_rows. by apply elem_of_dom_2 in Hr. Qed.

Lemma child_rows_mono nodes S T : S ⊆ T → child_rows nodes S ⊆ child_rows nodes T.
Proof.
  intros Hs id (r & Hr & Hp)%elem_of_child_rows. apply elem_of_child_rows. exists r.
  split; [done|]. unfold parent_in in *. destruct (n_ParentID _); [|done].
  apply bool_decide_eq_true in Hp. apply bool_decide_eq_true. set_solver.
Qed.

Lemma cascade_incl fuel nodes S : S ⊆ cascade fuel nodes S.
Proof.
  revert S. induction fuel as [|k IH]; intros S; simpl; [done|].
  destruct (decide _); [done|]. etrans; [|apply IH]. set_solver.
Qed.

(** With as much fuel as there are rows outside the set, the fixpoint is reached. *)
Lemma cascade_closed fuel nodes S :
  (size (dom nodes ∪ S) - size S ≤ fuel)%nat → child_closed nodes (cascade fuel nodes S).
Proof.
  revert S. induction fuel as [|k IH]; intros S Hf; simpl.
  - unfold child_closed. assert (dom nodes ∪ S ≡ S) as Heq.
    { symmetry. apply set_subseteq_size_equiv; [set_solver|].
      pose proof (subseteq_size S (dom nodes ∪ S)). set_solver by lia. }
    pose proof (child_rows_dom nodes S). set_solver.
  - destruct (decide (S ∪ child_rows nodes S = S)) as [He|Hne].
    + unfold child_closed. set_solver.
    + apply IH. pose proof (child_rows_dom nodes S) as Hd.
      assert (dom nodes ∪ (S ∪ child_rows nodes S) = dom nodes ∪ S) as -> by set_solver.
      assert (size S < size (S ∪ child_rows nodes S))%nat; [|lia].
      apply subset_size. split; [set_solver|]. intros Hc. apply Hne. set_solver.
Qed.

Lemma cascade_least fuel nodes S T :
  S ⊆ T → child_closed nodes T → cascade fuel nodes S ⊆ T.
Proof.
  revert S. induction fuel as [|k IH]; intros S Hs Hc; simpl; [done|].
  destruct (decide _); [done|]. apply IH; [|done].
  pose proof (child_rows_mono nodes S T Hs). unfold child_closed in Hc. set_solver.
Qed.

Lemma cascade_set_closed nodes S : child_closed nodes (cascade_set nodes S).
Proof. apply cascade_closed. lia. Qed.

Lemma cascade_set_incl nodes S : S ⊆ cascade_set nodes S.
Proof. apply cascade_incl. Qed.

Lemma cascade_set_least nodes S T : S ⊆ T → child_closed nodes T → cascade_set nodes S ⊆ T.
Proof. apply cascade_least. Qed.

(** ** Reference counts *)

(** How many extents point into a blob, among the extents a test keeps. *)
Definition refs_if (P : Extent → bool) (id : uuid) (d : Db) : Z :=
  cnt (λ e, N.eqb (e_BlobID e) id && P e) (d_extents d).
Definition refs (id : uuid) (d : Db) : Z := refs_if (λ _, true) id d.

(** The count of a blob moves with the extents that point into it, and nothing
    else of a blob changes. *)
Definition conserves (d d' : Db) : Prop :=
  ∀ id, d_blobs d' !! id =
        (λ b, blob_with_refcount (b_Refcount b + (refs id d' - refs id d)) b) <$> d_blobs d !! id.

Lemma blob_with_refcount_id b : blob_with_refcount (b_Refcount b) b = b.
Proof. by destruct b. Qed.

#[global] Instance conserves_preorder : PreOrder conserves.
Proof.
  split.
  - intros d id. destruct (d_blobs d !! id) as [b|]; [|done]. simpl. f_equal.
    rewrite Z.sub_diag, Z.add_0_r. by rewrite blob_with_refcount_id.
  - intros d1 d2 d3 H12 H23 id. rewrite H23, H12. destruct (d_blobs d1 !! id) as [b|]; [|done].
    simpl. f_equal. unfold blob_with_refcount; simpl. f_equal. lia.
Qed.

Lemma conserves_frame d d' :
  d_blobs d' = d_blobs d → d_extents d' = d_extents d → conserves d d'.
Proof.
  intros Hb He id. rewrite Hb. unfold refs, refs_if. rewrite He. rewrite Z.sub_diag.
  destruct (d_blobs d !! id) as [b|]; [|done]. simpl. f_equal.
  by rewrite Z.add_0_r, blob_with_refcount_id.
Qed.

Lemma refs_pos k e d : d_extents d !! k = Some e → 0 < refs (e_BlobID e) d.
Proof.
  intros He. unfold refs, refs_if, cnt. assert (e ∈ rows (λ x, N.eqb (e_BlobID x) (e_BlobID e) && true) (d_extents d)) as Hin.
  { apply elem_of_rows. exists k. by rewrite N.eqb_refl. }
  destruct (rows _ _) as [|x l]; [by apply elem_of_nil in Hin|]. unfold blen. simpl. lia.
Qed.

(** Every live blob's count is the number of its extents. *)
Definition refcount_ok (d : Db) : Prop :=
  ∀ id b, d_blobs d !! id = Some b → b_Refcount b = refs id d.

Lemma conserves_refcount_ok d d' : conserves d d' → refcount_ok d → refcount_ok d'.
Proof.
  intros Hc Hok id b'. rewrite Hc. destruct (d_blobs d !! id) as [b|] eqn:Hb; [|done].
  simpl. intros [= <-]. simpl. rewrite (Hok _ _ Hb). lia.
Qed.
