(* ===== verification/Schema.v ===== *)
(** * The constraints of the schema

    The statements of [Sql] check the constraints that db/migrations declares, where
    PostgreSQL would; here is what they amount to: [schema_ok], the primary keys, the
    UNIQUE columns and the foreign keys of the tables as a whole.  [issue] is one
    statement of internal/repository/sqlc that changes a table, with any parameters;
    every one keeps the schema, in any tables, so any interleaving of the statements of
    any transactions does. *)
From Stdlib Require Import ZArith Lia Strings.Byte Strings.String.
From stdpp Require Import base tactics list gmap sets sorting strings relations.
From S2P Require Import Prelude Model Sql SqlFacts.
#[local] Open Scope string_scope.
#[local] Open Scope Z_scope.

(** ** Tables *)

Section tables.
Context {K A B J X : Type} `{Countable K} `{Countable J}.
Implicit Types (m : gmap K A).

(** PRIMARY KEY: a row is found under its key. *)
Definition keyed (key : A → K) m : Prop := ∀ k x, m !! k = Some x → key x = k.
(** UNIQUE. *)
Definition unique (f : A → X) m : Prop := ∀ i j x y, m !! i = Some x → m !! j = Some y → f x = f y → i = j.
(** REFERENCES, of a column that may be NULL. *)
Definition refers (f : A → option J) m (t : gmap J B) : Prop := ∀ k x i, m !! k = Some x → f x = Some i → is_Some (t !! i).

(** The same rows, up to columns. *)
Definition same_rows (P : relation A) m m' : Prop := ∀ k,
  match m !! k, m' !! k with Some x, Some y => P x y | None, None => True | _, _ => False end.

Lemma same_rows_back P m m' k y : same_rows P m m' → m' !! k = Some y → ∃ x, m !! k = Some x ∧ P x y.
Proof. intros Hs Hy. specialize (Hs k). rewrite Hy in Hs. destruct (m !! k) as [x|]; [by exists x|done]. Qed.

Lemma same_rows_fmap (P : relation A) g m : (∀ x, P x (g x)) → same_rows P m (g <$> m).
Proof. intros Hg k. rewrite lookup_fmap. by destruct (m !! k); cbn. Qed.

Lemma same_rows_imap (P : relation A) (g : K → A → A) m : (∀ k x, P x (g k x)) → same_rows P m (map_imap (λ k x, Some (g k x)) m).
Proof. intros Hg k. rewrite map_lookup_imap. by destruct (m !! k); cbn. Qed.

Lemma same_rows_update (P : relation A) m k x y : Reflexive P → m !! k = Some x → P x y → same_rows P m (<[k := y]> m).
Proof.
  intros HR Hx Hp i. destruct (decide (i = k)) as [->|Hne]; [by rewrite lookup_insert_eq, Hx|].
  rewrite lookup_insert_ne by done. by destruct (m !! i).
Qed.

Lemma keyed_insert key m k x : keyed key m → key x = k → keyed key (<[k := x]> m).
Proof. intros Hm Hk i y [(<- & <-)|(? & Hy)]%lookup_insert_Some; [done|by apply Hm]. Qed.
Lemma keyed_subseteq key m m' : keyed key m → m' ⊆ m → keyed key m'.
Proof. intros Hm Hs i y Hy. apply Hm. by eapply lookup_weaken. Qed.
Lemma keyed_same key m m' : keyed key m → same_rows (λ x y, key x = key y) m m' → keyed key m'.
Proof. intros Hm Hs i y Hy. destruct (same_rows_back _ _ _ _ _ Hs Hy) as (x & Hx & <-). by apply Hm. Qed.

Lemma unique_insert f m k x : unique f m → (∀ j y, m !! j = Some y → f y = f x → j = k) → unique f (<[k := x]> m).
Proof.
  intros Hm Hx i j y z [(<- & <-)|(Hi & Hy)]%lookup_insert_Some [(<- & <-)|(Hj & Hz)]%lookup_insert_Some Hf; [done|..].
  - symmetry. by eapply Hx.
  - by eapply Hx.
  - by eapply Hm.
Qed.
Lemma unique_subseteq f m m' : unique f m → m' ⊆ m → unique f m'.
Proof. intros Hm Hs i j x y Hx Hy. by eapply Hm; eapply lookup_weaken. Qed.
Lemma unique_same f m m' : unique f m → same_rows (λ x y, f x = f y) m m' → unique f m'.
Proof.
  intros Hm Hs i j x y Hx Hy Hf. destruct (same_rows_back _ _ _ _ _ Hs Hx) as (x0 & Hx0 & E1).
  destruct (same_rows_back _ _ _ _ _ Hs Hy) as (y0 & Hy0 & E2). eapply Hm; [done..|congruence].
Qed.

Lemma refers_insert f m t k x : refers f m t → (∀ i, f x = Some i → is_Some (t !! i)) → refers f (<[k := x]> m) t.
Proof. intros Hm Hx j y i [(<- & <-)|(? & Hy)]%lookup_insert_Some; [apply Hx|by apply (Hm j)]. Qed.
Lemma refers_subseteq f m m' t : refers f m t → m' ⊆ m → refers f m' t.
Proof. intros Hm Hs j y i Hy. apply (Hm j). by eapply lookup_weaken. Qed.
Lemma refers_same f m m' t : refers f m t → same_rows (λ x y, f x = f y) m m' → refers f m' t.
Proof. intros Hm Hs j y i Hy Hi. destruct (same_rows_back _ _ _ _ _ Hs Hy) as (x & Hx & Hf). eapply Hm; [done|congruence]. Qed.

(** The table referred to grows, or loses rows nothing refers to. *)
Lemma refers_grow f m t k y : refers f m t → refers f m (<[k := y]> t).
Proof. intros Hm j x i Hx Hi. destruct (decide (i = k)) as [->|]; [rewrite lookup_insert_eq|rewrite lookup_insert_ne by done]; eauto. Qed.
Lemma refers_shrink f m t t' : refers f m t → (∀ k x i, m !! k = Some x → f x = Some i → is_Some (t !! i) → is_Some (t' !! i)) → refers f m t'.
Proof. intros Hm Ht k x i Hx Hi. eapply Ht; eauto. Qed.
End tables.

Lemma refers_rows {K A B J : Type} `{Countable K} `{Countable J} (P : relation B) (f : A → option J) (m : gmap K A) (t t' : gmap J B) :
  refers f m t → same_rows P t t' → refers f m t'.
Proof.
  intros Hm Hs k x i Hx Hi. destruct (Hm k x i Hx Hi) as [y Hy]. specialize (Hs i). rewrite Hy in Hs. by destruct (t' !! i).
Qed.

Lemma refers_delete {K A B J : Type} `{Countable K} `{Countable J} (f : A → option J) (m : gmap K A) (t : gmap J B) id :
  refers f m t → (∀ k x, m !! k = Some x → f x ≠ Some id) → refers f m (delete id t).
Proof.
  intros Hm Hn k x i Hx Hi. destruct (decide (i = id)) as [->|Hne]; [by destruct (Hn k x Hx)|]. rewrite lookup_delete_ne by done. eauto.
Qed.

(** ** The schema *)

Record schema_ok (d : Db) : Prop := {
  sc_user : keyed u_ID (d_users d);
  sc_login : unique u_Login (d_users d);
  sc_token : keyed t_ID (d_api_tokens d);
  sc_token_hash : unique t_TokenHash (d_api_tokens d);
  sc_token_user : refers (Some ∘ t_UserID) (d_api_tokens d) (d_users d);
  sc_bot : keyed br_ID (d_bots d);
  sc_bot_sha : unique br_TokenSha (d_bots d);
  sc_channel : keyed ch_ID (d_channels d);
  sc_chat : unique ch_TGChatID (d_channels d);
  sc_member : keyed (λ x, (bc_BotID x, bc_ChannelID x)) (d_bot_channel d);
  sc_member_bot : refers (Some ∘ bc_BotID) (d_bot_channel d) (d_bots d);
  sc_member_channel : refers (Some ∘ bc_ChannelID) (d_bot_channel d) (d_channels d);
  sc_blob : keyed b_ID (d_blobs d);
  sc_blob_channel : refers (Some ∘ b_ChannelID) (d_blobs d) (d_channels d);
  sc_file : keyed (λ x, (f_BlobID x, f_BotID x)) (d_blob_bot_files d);
  sc_file_blob : refers (Some ∘ f_BlobID) (d_blob_bot_files d) (d_blobs d);
  sc_file_bot : refers (Some ∘ f_BotID) (d_blob_bot_files d) (d_bots d);
  sc_node : keyed (n_ID ∘ nr_node) (d_nodes d);
  sc_path : unique (λ r, (n_UserID (nr_node r), n_Path (nr_node r))) (d_nodes d);
  sc_node_user : refers (Some ∘ n_UserID ∘ nr_node) (d_nodes d) (d_users d);
  sc_node_parent : refers (n_ParentID ∘ nr_node) (d_nodes d) (d_nodes d);
  sc_extent : keyed e_ID (d_extents d);
  sc_extent_node : refers (Some ∘ e_NodeID) (d_extents d) (d_nodes d);
  sc_extent_blob : refers (Some ∘ e_BlobID) (d_extents d) (d_blobs d);
  sc_chunk : keyed c_ID (d_wal_chunks d);
  sc_chunk_seq : unique (λ c, (c_NodeID c, c_Seq c)) (d_wal_chunks d);
  sc_chunk_node : refers (Some ∘ c_NodeID) (d_wal_chunks d) (d_nodes d);
  sc_events : NoDup (ev_ID <$> d_events d);
  sc_samples : NoDup (s_ID <$> d_stat_samples d) }.

(** Some statement of internal/repository/sqlc changed the tables. *)
Definition does {A} (q : sql A) (d d' : Db) : Prop := ∃ a, q d = SqlOk a d'.

Inductive issue : relation Db :=
  | ICreateNode n d d' : does (CreateNode n) d d' → issue d d'
  | IUpdateNode n d d' : does (UpdateNode n) d d' → issue d d'
  | IDeleteNode id d d' : does (DeleteNode id) d d' → issue d d'
  | IClaim now owner till lim d d' : does (ClaimBufferedForPacking now owner till lim) d d' → issue d d'
  | IReleaseLease id d d' : does (ReleaseLease id) d d' → issue d d'
  | IMarkStored id owner d d' : does (MarkStoredIfOwner id owner) d d' → issue d d'
  | ICreateExtents es d d' : does (CreateExtents es) d d' → issue d d'
  | IDeleteExtents node d d' : does (DeleteExtentsByNode node) d d' → issue d d'
  | ICopyExtents gen dst src d d' : does (CopyExtentsForNode gen dst src) d d' → issue d d'
  | IAppendChunk c d d' : does (AppendWALChunk c) d d' → issue d d'
  | IDeleteChunks node d d' : does (DeleteWALChunksByNode node) d d' → issue d d'
  | ICreateBlob b d d' : does (CreateBlob b) d d' → issue d d'
  | IUpdateBlob b d d' : does (UpdateBlob b) d d' → issue d d'
  | ISetBlobState id s d d' : does (SetBlobState id s) d d' → issue d d'
  | IAddRefcount id delta d d' : does (AddBlobRefcount id delta) d d' → issue d d'
  | IAddRefcounts deltas d d' : does (AddBlobRefcounts deltas) d d' → issue d d'
  | IMarkUnavailable ch s s2 d d' : does (MarkChannelBlobsUnavailable ch s s2) d d' → issue d d'
  | IMarkAvailable ch s s2 d d' : does (MarkChannelBlobsAvailable ch s s2) d d' → issue d d'
  | IEvict ch seq s s2 d d' : does (EvictBlobsOlderThan ch seq s s2) d d' → issue d d'
  | IDeleteBlob id d d' : does (DeleteBlob id) d d' → issue d d'
  | IUpsertFile f d d' : does (UpsertBlobBotFile f) d d' → issue d d'
  | IDeleteFilesBlob blob d d' : does (DeleteBlobBotFilesByBlob blob) d d' → issue d d'
  | IDeleteFilesBot bot d d' : does (DeleteBlobBotFilesByBot bot) d d' → issue d d'
  | ICreateBot b d d' : does (CreateBot b) d d' → issue d d'
  | IUpdateBot b d d' : does (UpdateBot b) d d' → issue d d'
  | IDeleteBot id d d' : does (DeleteBot id) d d' → issue d d'
  | IParkBot id till d d' : does (SetBotUnavailableUntil id till) d d' → issue d d'
  | IUpsertMember bc d d' : does (UpsertBotChannel bc) d d' → issue d d'
  | IDeleteMembersBot bot d d' : does (DeleteBotChannelsByBot bot) d d' → issue d d'
  | IDeleteMembersChannel ch d d' : does (DeleteBotChannelsByChannel ch) d d' → issue d d'
  | ICreateChannel c d d' : does (CreateChannel c) d d' → issue d d'
  | IUpdateChannel c d d' : does (UpdateChannel c) d d' → issue d d'
  | IDeleteChannel id d d' : does (DeleteChannel id) d d' → issue d d'
  | IIncrement id delta d d' : does (IncrementChannelCounter id delta) d d' → issue d d'
  | ISetAvailable id a d d' : does (SetChannelAvailable id a) d d' → issue d d'
  | ILogEvent e d d' : does (LogEvent e) d d' → issue d d'
  | IRecordStat s d d' : does (RecordStat s) d d' → issue d d'
  | IUpsertSettings s d d' : does (UpsertSettings s) d d' → issue d d'
  | ICreateToken t d d' : does (CreateAPIToken t) d d' → issue d d'
  | IDeleteToken id d d' : does (DeleteAPIToken id) d d' → issue d d'
  | ITouchToken id at_ d d' : does (TouchAPITokenLastUsed id at_) d d' → issue d d'
  | ICreateUser u d d' : does (CreateUser u) d d' → issue d d'
  | IUpdateUser u d d' : does (UpdateUser u) d d' → issue d d'
  | IDeleteUser id d d' : does (DeleteUser id) d d' → issue d d'.

(** ** Tactics *)

(** The tables a statement leaves keep what they had. *)
Ltac untouched Hok := destruct Hok; split; cbn; try assumption.

(** One row replaced by one with the same columns. *)
Ltac replaced Hx :=
  try apply refers_grow;
  first [eassumption
    | eapply keyed_same; [eassumption|eapply same_rows_update; [intros ?; reflexivity|exact Hx|reflexivity]]
    | eapply unique_same; [eassumption|eapply same_rows_update; [intros ?; reflexivity|exact Hx|reflexivity]]
    | eapply refers_same; [eassumption|eapply same_rows_update; [intros ?; reflexivity|exact Hx|reflexivity]]].

(** Rows taken away. *)
Ltac fewer Hs :=
  first [eassumption | eapply keyed_subseteq; [eassumption|Hs] | eapply unique_subseteq; [eassumption|Hs]
    | eapply refers_subseteq; [eassumption|Hs]].

(** Every row changed in other columns. *)
Ltac mapped Hs :=
  first [eassumption
    | eapply keyed_same; [eassumption|Hs] | eapply unique_same; [eassumption|Hs]
    | eapply refers_same; [eassumption|Hs] | eapply refers_rows; [eassumption|Hs]].

(** ** Files *)

Lemma CreateNode_schema n d a d' : CreateNode n d = SqlOk a d' → schema_ok d → schema_ok d'.
Proof.
  unfold CreateNode. case_bool_decide as Hn; [done|]. destruct (path_taken _ _ _ _) eqn:Hp; [done|].
  destruct (negb _ || _) eqn:Hf; [done|]. intros [= _ <-] Hok. apply orb_false_iff in Hf as [Hu%negb_false_iff Hq%negb_false_iff].
  apply bool_decide_eq_true in Hu. apply eq_None_not_Some in Hn. unfold path_taken in Hp. rewrite row_exists_false in Hp.
  untouched Hok.
  - by apply keyed_insert.
  - apply unique_insert; [done|]. cbn. intros j y Hj [= E1 E2]. specialize (Hp j y Hj).
    rewrite E1, E2, N.eqb_refl, String.eqb_refl in Hp. cbn in Hp. apply negb_false_iff, N.eqb_eq in Hp.
    by rewrite <- (sc_node0 j y Hj).
  - apply refers_insert; [done|]. by intros i [= <-].
  - unfold parent_fk in Hq. intros k x i [(<- & <-)|(Hk & Hx)]%lookup_insert_Some Hi; cbn in Hi.
    + rewrite Hi in Hq. apply orb_true_iff in Hq as [->%N.eqb_eq|Hq%bool_decide_eq_true]; [by rewrite lookup_insert_eq|].
      destruct (decide (i = n_ID n)) as [->|]; [by rewrite lookup_insert_eq|by rewrite lookup_insert_ne].
    + destruct (decide (i = n_ID n)) as [->|]; [by rewrite lookup_insert_eq|rewrite lookup_insert_ne by done; by eapply sc_node_parent0].
  - by apply refers_grow.
  - by apply refers_grow.
Qed.

Lemma UpdateNode_schema n d a d' : UpdateNode n d = SqlOk a d' → schema_ok d → schema_ok d'.
Proof.
  unfold UpdateNode. destruct (d_nodes d !! n_ID n) as [r|] eqn:Hr; [|by intros [= _ <-]].
  destruct (path_taken _ _ _ _) eqn:Hp; [done|]. destruct (negb _) eqn:Hf; [done|]. intros [= _ <-] Hok.
  apply negb_false_iff in Hf. unfold path_taken in Hp. rewrite row_exists_false in Hp. pose proof (sc_node _ Hok _ _ Hr) as Hid. cbn in Hid.
  untouched Hok.
  - by apply keyed_insert.
  - apply unique_insert; [done|]. cbn. intros j y Hj [= E1 E2]. specialize (Hp j y Hj).
    rewrite E1, E2, N.eqb_refl, String.eqb_refl in Hp. cbn in Hp. apply negb_false_iff, N.eqb_eq in Hp.
    by rewrite <- (sc_node0 j y Hj).
  - apply refers_insert; [done|]. intros i Hi. by eapply (sc_node_user0 _ _ _ Hr).
  - unfold parent_fk in Hf. intros k x i [(<- & <-)|(Hk & Hx)]%lookup_insert_Some Hi; cbn in Hi.
    + rewrite Hi in Hf. apply orb_true_iff in Hf as [->%N.eqb_eq|Hq%bool_decide_eq_true]; [by rewrite lookup_insert_eq|].
      destruct (decide (i = n_ID n)) as [->|]; [by rewrite lookup_insert_eq|by rewrite lookup_insert_ne].
    + destruct (decide (i = n_ID n)) as [->|]; [by rewrite lookup_insert_eq|rewrite lookup_insert_ne by done; by eapply sc_node_parent0].
  - by apply refers_grow.
  - by apply refers_grow.
Qed.

(** ON DELETE CASCADE takes along all that refers to what it deletes. *)
Lemma delete_nodes_schema S d : schema_ok d → schema_ok (delete_nodes S d).
Proof.
  intros Hok. unfold delete_nodes. set (D := cascade_set (d_nodes d) S).
  assert (∀ i x, d_nodes d !! i = Some x → i ∉ D → is_Some (filter (λ kv : uuid * NodeRow, kv.1 ∉ D) (d_nodes d) !! i)) as Hkeep.
  { intros i x Hx Hi. exists x. by apply map_lookup_filter_Some. }
  untouched Hok; try fewer ltac:(apply map_filter_subseteq).
  - intros k x i Hx Hi. apply map_lookup_filter_Some in Hx as [Hx Hk]. cbn in Hk, Hi. destruct (sc_node_parent0 k x i Hx Hi) as [p Hp].
    eapply Hkeep; [exact Hp|]. intros HiD. apply Hk, cascade_set_closed, elem_of_child_rows. exists x. split; [done|].
    unfold parent_in. rewrite Hi. by apply bool_decide_eq_true.
  - intros k x i Hx [= <-]. apply map_lookup_filter_Some in Hx as [Hx Hk]. destruct (sc_extent_node0 k x _ Hx eq_refl) as [p Hp]. by eapply Hkeep.
  - intros k x i Hx [= <-]. apply map_lookup_filter_Some in Hx as [Hx Hk]. destruct (sc_chunk_node0 k x _ Hx eq_refl) as [p Hp]. by eapply Hkeep.
Qed.

Lemma DeleteNode_schema id d a d' : DeleteNode id d = SqlOk a d' → schema_ok d → schema_ok d'.
Proof. unfold DeleteNode. destruct (d_nodes d !! id); intros [= _ <-] Hok; [by apply delete_nodes_schema|done]. Qed.

Lemma nodes_same_schema (ns : gmap uuid NodeRow) d :
  same_rows (λ x y, n_ID (nr_node x) = n_ID (nr_node y) ∧ n_UserID (nr_node x) = n_UserID (nr_node y)
    ∧ n_Path (nr_node x) = n_Path (nr_node y) ∧ n_ParentID (nr_node x) = n_ParentID (nr_node y)) (d_nodes d) ns →
  schema_ok d → schema_ok (set_nodes ns d).
Proof.
  intros Hs Hok.
  assert (∀ (P : relation NodeRow), (∀ x y, n_ID (nr_node x) = n_ID (nr_node y) ∧ n_UserID (nr_node x) = n_UserID (nr_node y)
    ∧ n_Path (nr_node x) = n_Path (nr_node y) ∧ n_ParentID (nr_node x) = n_ParentID (nr_node y) → P x y) → same_rows P (d_nodes d) ns) as HP.
  { intros P HPq k. specialize (Hs k). destruct (d_nodes d !! k), (ns !! k); try done. by apply HPq. }
  untouched Hok; try (eapply refers_rows; [|exact Hs]);
    mapped ltac:(apply HP; cbn; intuition congruence).
Qed.

Lemma Claim_schema now owner till lim d a d' : ClaimBufferedForPacking now owner till lim d = SqlOk a d' → schema_ok d → schema_ok d'.
Proof.
  unfold ClaimBufferedForPacking. intros [= _ <-] Hok. apply nodes_same_schema; [|done].
  assert (∀ r, r ∈ limit lim (sort_by (λ r, n_ModifiedAt (nr_node r)) (rows (claimable now) (d_nodes d))) →
    d_nodes d !! n_ID (nr_node r) = Some r) as Hin.
  { intros r Hr. unfold limit in Hr. apply elem_of_take in Hr as (i & Hr & _). apply list_elem_of_lookup_2 in Hr.
    rewrite sort_by_perm, elem_of_rows in Hr. destruct Hr as (k & Hk & _). pose proof (sc_node _ Hok k r Hk) as Hid. cbn in Hid. by rewrite Hid. }
  revert Hin. induction (limit _ _) as [|r l IH]; intros Hin k; [cbn; by destruct (d_nodes d !! k)|]. cbn [fmap list_fmap foldr].
  change (nr_node (set_lease owner (Some till) r)) with (nr_node r). destruct (decide (k = n_ID (nr_node r))) as [->|Hne].
  - by rewrite lookup_insert_eq, (Hin r) by by left.
  - rewrite lookup_insert_ne by done. apply IH. intros r' Hr'. apply Hin. by right.
Qed.

Lemma ReleaseLease_schema id d a d' : ReleaseLease id d = SqlOk a d' → schema_ok d → schema_ok d'.
Proof.
  unfold ReleaseLease. destruct (d_nodes d !! id) as [r|] eqn:Hr; intros [= _ <-]; [|done]. apply nodes_same_schema.
  by apply same_rows_update with r; [intros ?| |].
Qed.

Lemma MarkStored_schema id owner d a d' : MarkStoredIfOwner id owner d = SqlOk a d' → schema_ok d → schema_ok d'.
Proof.
  unfold MarkStoredIfOwner. destruct (d_nodes d !! id) as [r|] eqn:Hr; [|done]. destruct (_ && _); [|done]. intros [= _ <-].
  apply nodes_same_schema. by apply same_rows_update with r; [intros ?| |].
Qed.

(** ** The layout of files *)

Lemma CreateExtents_schema es d a d' : CreateExtents es d = SqlOk a d' → schema_ok d → schema_ok d'.
Proof.
  revert d a. induction es as [|e es IH]; intros d a; cbn [CreateExtents]; [by intros [= _ <-]|].
  case_bool_decide as Hn; [done|]. destruct (negb _) eqn:Hf; [done|]. apply negb_false_iff in Hf.
  unfold extent_fk in Hf. apply andb_true_iff in Hf as [Hnode%bool_decide_eq_true Hblob%bool_decide_eq_true].
  destruct (CreateExtents es _) as [|n d1] eqn:He; [done|]. intros [= _ <-] Hok. eapply IH; [exact He|].
  untouched Hok; [by apply keyed_insert|..]; (apply refers_insert; [done|by intros i [= <-]]).
Qed.

Lemma DeleteExtents_schema node d a d' : DeleteExtentsByNode node d = SqlOk a d' → schema_ok d → schema_ok d'.
Proof. intros [= _ <-] Hok. untouched Hok; fewer ltac:(apply map_filter_subseteq). Qed.

Lemma CopyExtents_schema gen dst src d a d' : CopyExtentsForNode gen dst src d = SqlOk a d' → schema_ok d → schema_ok d'.
Proof.
  unfold CopyExtentsForNode. destruct (CreateExtents _ d) as [|n d1] eqn:He; [done|]. intros [= _ <-]. by eapply CreateExtents_schema.
Qed.

Lemma AppendChunk_schema c d a d' : AppendWALChunk c d = SqlOk a d' → schema_ok d → schema_ok d'.
Proof.
  unfold AppendWALChunk. case_bool_decide as Hn; [done|]. destruct (row_exists _ _) eqn:Hr; [done|].
  destruct (negb _) eqn:Hf; [done|]. intros [= _ <-] Hok. apply negb_false_iff, bool_decide_eq_true in Hf.
  rewrite row_exists_false in Hr. untouched Hok.
  - by apply keyed_insert.
  - apply unique_insert; [done|]. intros j y Hj [= E1 E2]. specialize (Hr j y Hj). by rewrite E1, E2, N.eqb_refl, Z.eqb_refl in Hr.
  - apply refers_insert; [done|by intros i [= <-]].
Qed.

Lemma DeleteChunks_schema node d a d' : DeleteWALChunksByNode node d = SqlOk a d' → schema_ok d → schema_ok d'.
Proof. intros [= _ <-] Hok. untouched Hok; fewer ltac:(apply map_filter_subseteq). Qed.

(** ** Blobs *)

Lemma CreateBlob_schema b d a d' : CreateBlob b d = SqlOk a d' → schema_ok d → schema_ok d'.
Proof.
  unfold CreateBlob. case_bool_decide as Hn; [done|]. destruct (negb _) eqn:Hf; [done|]. intros [= _ <-] Hok.
  apply negb_false_iff, bool_decide_eq_true in Hf.
  untouched Hok; [by apply keyed_insert|apply refers_insert; [done|by intros i [= <-]]|by apply refers_grow..].
Qed.

Lemma UpdateBlob_schema b d a d' : UpdateBlob b d = SqlOk a d' → schema_ok d → schema_ok d'.
Proof.
  unfold UpdateBlob. destruct (d_blobs d !! b_ID b) as [o|] eqn:Ho; [|by intros [= _ <-]]. destruct (negb _) eqn:Hf; [done|].
  intros [= _ <-] Hok. apply negb_false_iff, bool_decide_eq_true in Hf. pose proof (sc_blob _ Hok _ _ Ho).
  untouched Hok; [by apply keyed_insert|apply refers_insert; [done|by intros i [= <-]]|by apply refers_grow..].
Qed.

Lemma blobs_same_schema (bs : gmap uuid Blob) d :
  same_rows (λ x y, b_ID x = b_ID y ∧ b_ChannelID x = b_ChannelID y) (d_blobs d) bs → schema_ok d → schema_ok (set_blobs bs d).
Proof.
  intros Hs Hok.
  assert (∀ (P : relation Blob), (∀ x y, b_ID x = b_ID y ∧ b_ChannelID x = b_ChannelID y → P x y) → same_rows P (d_blobs d) bs) as HP.
  { intros P HPq k. specialize (Hs k). destruct (d_blobs d !! k), (bs !! k); try done. by apply HPq. }
  untouched Hok; first [by eapply refers_rows|mapped ltac:(apply HP; cbn; intuition congruence)].
Qed.

Lemma SetBlobState_schema id s d a d' : SetBlobState id s d = SqlOk a d' → schema_ok d → schema_ok d'.
Proof.
  unfold SetBlobState. destruct (d_blobs d !! id) as [b|] eqn:Hb; intros [= _ <-]; [|done]. apply blobs_same_schema.
  by apply same_rows_update with b; [intros ?| |].
Qed.

Lemma AddRefcount_schema id delta d a d' : AddBlobRefcount id delta d = SqlOk a d' → schema_ok d → schema_ok d'.
Proof.
  unfold AddBlobRefcount. destruct (d_blobs d !! id) as [b|] eqn:Hb; [|done]. destruct (bigint_ok _); [|done]. intros [= _ <-].
  apply blobs_same_schema. by apply same_rows_update with b; [intros ?| |].
Qed.

Lemma AddRefcounts_schema deltas d a d' : AddBlobRefcounts deltas d = SqlOk a d' → schema_ok d → schema_ok d'.
Proof.
  unfold AddBlobRefcounts. destruct (forallb _ _); [|done]. intros [= _ <-]. apply blobs_same_schema.
  apply same_rows_imap. intros k x. unfold add_delta. by destruct (deltas !! k).
Qed.

Lemma update_blobs_schema P s d : schema_ok d → schema_ok (update_blobs P s d).
Proof. apply blobs_same_schema, same_rows_fmap. intros x. by destruct (P x). Qed.

Lemma DeleteBlob_schema id d a d' : DeleteBlob id d = SqlOk a d' → schema_ok d → schema_ok d'.
Proof.
  unfold DeleteBlob. destruct (d_blobs d !! id); [|by intros [= _ <-]]. destruct (row_exists _ _) eqn:Hr; [done|].
  intros [= _ <-] Hok. rewrite row_exists_false in Hr.
  untouched Hok; try fewer ltac:(first [apply map_filter_subseteq|apply delete_subseteq]).
  - apply refers_delete; [by eapply refers_subseteq; [|apply map_filter_subseteq]|].
    intros k x [Hx Hk]%map_lookup_filter_Some [= E]. cbn in Hk. apply Hk. by rewrite <- (sc_file0 k x Hx).
  - apply refers_delete; [done|]. intros k x Hx [= E]. specialize (Hr k x Hx). by rewrite E, N.eqb_refl in Hr.
Qed.

Lemma UpsertFile_schema f d a d' : UpsertBlobBotFile f d = SqlOk a d' → schema_ok d → schema_ok d'.
Proof.
  unfold UpsertBlobBotFile. destruct (_ && _) eqn:Hf; [|done]. intros [= _ <-] Hok.
  apply andb_true_iff in Hf as [Hb%bool_decide_eq_true Ht%bool_decide_eq_true].
  untouched Hok; [by apply keyed_insert|..]; (apply refers_insert; [done|by intros i [= <-]]).
Qed.

Lemma DeleteFilesBlob_schema blob d a d' : DeleteBlobBotFilesByBlob blob d = SqlOk a d' → schema_ok d → schema_ok d'.
Proof. intros [= _ <-] Hok. untouched Hok; fewer ltac:(apply map_filter_subseteq). Qed.
Lemma DeleteFilesBot_schema bot d a d' : DeleteBlobBotFilesByBot bot d = SqlOk a d' → schema_ok d → schema_ok d'.
Proof. intros [= _ <-] Hok. untouched Hok; fewer ltac:(apply map_filter_subseteq). Qed.

(** ** Bots and channels *)

Lemma CreateBot_schema b d a d' : CreateBot b d = SqlOk a d' → schema_ok d → schema_ok d'.
Proof.
  unfold CreateBot. destruct (_ || _) eqn:Hf; [done|]. intros [= _ <-] Hok.
  apply orb_false_iff in Hf as [_ Hr]. rewrite row_exists_false in Hr.
  untouched Hok; [by apply keyed_insert| |by apply refers_grow..].
  apply unique_insert; [done|]. intros j y Hj E. specialize (Hr j y Hj). by rewrite E, String.eqb_refl in Hr.
Qed.

Lemma UpdateBot_schema b d a d' : UpdateBot b d = SqlOk a d' → schema_ok d → schema_ok d'.
Proof.
  unfold UpdateBot. destruct (d_bots d !! br_ID b) as [o|] eqn:Ho; [|by intros [= _ <-]]. destruct (row_exists _ _) eqn:Hr; [done|].
  intros [= _ <-] Hok. rewrite row_exists_false in Hr. pose proof (sc_bot _ Hok _ _ Ho).
  untouched Hok; [by apply keyed_insert| |by apply refers_grow..].
  apply unique_insert; [done|]. intros j y Hj E. specialize (Hr j y Hj). cbn in E. rewrite E, String.eqb_refl in Hr.
  cbn in Hr. apply negb_false_iff, N.eqb_eq in Hr. by rewrite <- (sc_bot0 j y Hj).
Qed.

Lemma DeleteBot_schema id d a d' : DeleteBot id d = SqlOk a d' → schema_ok d → schema_ok d'.
Proof.
  unfold DeleteBot. destruct (d_bots d !! id); intros [= _ <-] Hok; [|done].
  untouched Hok; try fewer ltac:(first [apply map_filter_subseteq|apply delete_subseteq]).
  - apply refers_delete; [by eapply refers_subseteq; [|apply map_filter_subseteq]|].
    intros k x [Hx Hk]%map_lookup_filter_Some [= E]. cbn in Hk. apply Hk. by rewrite <- (sc_member0 k x Hx).
  - apply refers_delete; [by eapply refers_subseteq; [|apply map_filter_subseteq]|].
    intros k x [Hx Hk]%map_lookup_filter_Some [= E]. cbn in Hk. apply Hk. by rewrite <- (sc_file0 k x Hx).
Qed.

Lemma ParkBot_schema id till d a d' : SetBotUnavailableUntil id till d = SqlOk a d' → schema_ok d → schema_ok d'.
Proof.
  unfold SetBotUnavailableUntil. destruct (d_bots d !! id) as [o|] eqn:Ho; intros [= _ <-] Hok; [|done].
  untouched Hok; replaced Ho.
Qed.

Lemma UpsertMember_schema bc d a d' : UpsertBotChannel bc d = SqlOk a d' → schema_ok d → schema_ok d'.
Proof.
  unfold UpsertBotChannel. destruct (_ && _) eqn:Hf; [|done]. intros [= _ <-] Hok.
  apply andb_true_iff in Hf as [Hb%bool_decide_eq_true Hc%bool_decide_eq_true].
  untouched Hok; [by apply keyed_insert|..]; (apply refers_insert; [done|by intros i [= <-]]).
Qed.

Lemma DeleteMembersBot_schema bot d a d' : DeleteBotChannelsByBot bot d = SqlOk a d' → schema_ok d → schema_ok d'.
Proof. intros [= _ <-] Hok. untouched Hok; fewer ltac:(apply map_filter_subseteq). Qed.
Lemma DeleteMembersChannel_schema ch d a d' : DeleteBotChannelsByChannel ch d = SqlOk a d' → schema_ok d → schema_ok d'.
Proof. intros [= _ <-] Hok. untouched Hok; fewer ltac:(apply map_filter_subseteq). Qed.

Lemma chat_free d c : keyed ch_ID (d_channels d) → chat_taken d (ch_ID c) (ch_TGChatID c) = false →
  ∀ j y, d_channels d !! j = Some y → ch_TGChatID y = ch_TGChatID c → j = ch_ID c.
Proof.
  unfold chat_taken. rewrite row_exists_false. intros Hk Hr j y Hj E. specialize (Hr j y Hj).
  rewrite E, Z.eqb_refl in Hr. cbn in Hr. apply negb_false_iff, N.eqb_eq in Hr. by rewrite <- (Hk j y Hj).
Qed.

Lemma CreateChannel_schema c d a d' : CreateChannel c d = SqlOk a d' → schema_ok d → schema_ok d'.
Proof.
  unfold CreateChannel. destruct (_ || _) eqn:Hf; [done|]. intros [= _ <-] Hok. apply orb_false_iff in Hf as [_ Hr].
  untouched Hok; [by apply keyed_insert|apply unique_insert; [done|by apply (chat_free d c)]|by apply refers_grow..].
Qed.

Lemma UpdateChannel_schema c d a d' : UpdateChannel c d = SqlOk a d' → schema_ok d → schema_ok d'.
Proof.
  unfold UpdateChannel. destruct (d_channels d !! ch_ID c) as [o|] eqn:Ho; [|by intros [= _ <-]]. destruct (chat_taken _ _ _) eqn:Hr; [done|].
  intros [= _ <-] Hok. pose proof (sc_channel _ Hok _ _ Ho).
  untouched Hok; [by apply keyed_insert|apply unique_insert; [done|by apply (chat_free d c)]|by apply refers_grow..].
Qed.

Lemma DeleteChannel_schema id d a d' : DeleteChannel id d = SqlOk a d' → schema_ok d → schema_ok d'.
Proof.
  unfold DeleteChannel. destruct (d_channels d !! id); [|by intros [= _ <-]]. destruct (row_exists _ _) eqn:Hr; [done|].
  intros [= _ <-] Hok. rewrite row_exists_false in Hr.
  untouched Hok; try fewer ltac:(first [apply map_filter_subseteq|apply delete_subseteq]).
  - apply refers_delete; [by eapply refers_subseteq; [|apply map_filter_subseteq]|].
    intros k x [Hx Hk]%map_lookup_filter_Some [= E]. cbn in Hk. apply Hk. by rewrite <- (sc_member0 k x Hx).
  - apply refers_delete; [done|]. intros k x Hx [= E]. specialize (Hr k x Hx). by rewrite E, N.eqb_refl in Hr.
Qed.

Lemma Increment_schema id delta d a d' : IncrementChannelCounter id delta d = SqlOk a d' → schema_ok d → schema_ok d'.
Proof.
  unfold IncrementChannelCounter. destruct (d_channels d !! id) as [c|] eqn:Hc; [|done]. destruct (bigint_ok _); [|done].
  intros [= _ <-] Hok. untouched Hok; replaced Hc.
Qed.

Lemma SetAvailable_schema id av d a d' : SetChannelAvailable id av d = SqlOk a d' → schema_ok d → schema_ok d'.
Proof.
  unfold SetChannelAvailable. destruct (d_channels d !! id) as [c|] eqn:Hc; intros [= _ <-] Hok; [|done]. untouched Hok; replaced Hc.
Qed.

(** ** Events, samples, settings *)

Lemma NoDup_appended {A} (f : A → uuid) l x : existsb (λ o, N.eqb (f o) (f x)) l = false → NoDup (f <$> l) → NoDup (f <$> (l ++ [x]))%list.
Proof.
  intros He Hl. rewrite fmap_app. apply NoDup_app. split_and!; [done| |apply NoDup_singleton].
  intros y (o & -> & Ho)%list_elem_of_fmap Hy%list_elem_of_singleton. apply not_true_iff_false in He. apply He, existsb_exists.
  exists o. split; [by apply list_elem_of_In|by apply N.eqb_eq].
Qed.

Lemma LogEvent_schema e d a d' : LogEvent e d = SqlOk a d' → schema_ok d → schema_ok d'.
Proof. unfold LogEvent. destruct (existsb _ _) eqn:He; [done|]. intros [= _ <-] Hok. untouched Hok. by apply NoDup_appended. Qed.
Lemma RecordStat_schema s d a d' : RecordStat s d = SqlOk a d' → schema_ok d → schema_ok d'.
Proof. unfold RecordStat. destruct (existsb _ _) eqn:He; [done|]. intros [= _ <-] Hok. untouched Hok. by apply NoDup_appended. Qed.
Lemma UpsertSettings_schema s d a d' : UpsertSettings s d = SqlOk a d' → schema_ok d → schema_ok d'.
Proof. intros [= _ <-] Hok. untouched Hok. Qed.

(** ** Users and tokens *)

Lemma CreateToken_schema t d a d' : CreateAPIToken t d = SqlOk a d' → schema_ok d → schema_ok d'.
Proof.
  unfold CreateAPIToken. destruct (_ || _) eqn:Hf; [done|]. destruct (negb _) eqn:Hu; [done|]. intros [= _ <-] Hok.
  apply orb_false_iff in Hf as [_ Hr]. rewrite row_exists_false in Hr. apply negb_false_iff, bool_decide_eq_true in Hu.
  untouched Hok; [by apply keyed_insert| |apply refers_insert; [done|by intros i [= <-]]].
  apply unique_insert; [done|]. intros j y Hj E. specialize (Hr j y Hj). by rewrite E, String.eqb_refl in Hr.
Qed.

Lemma DeleteToken_schema id d a d' : DeleteAPIToken id d = SqlOk a d' → schema_ok d → schema_ok d'.
Proof.
  unfold DeleteAPIToken. destruct (d_api_tokens d !! id); intros [= _ <-] Hok; [|done]. untouched Hok; fewer ltac:(apply delete_subseteq).
Qed.

Lemma TouchToken_schema id at_ d a d' : TouchAPITokenLastUsed id at_ d = SqlOk a d' → schema_ok d → schema_ok d'.
Proof.
  unfold TouchAPITokenLastUsed. destruct (d_api_tokens d !! id) as [t|] eqn:Ht; intros [= _ <-] Hok; [|done]. untouched Hok; replaced Ht.
Qed.

Lemma login_free d u : keyed u_ID (d_users d) → login_taken d (u_ID u) (u_Login u) = false →
  ∀ j y, d_users d !! j = Some y → u_Login y = u_Login u → j = u_ID u.
Proof.
  unfold login_taken. rewrite row_exists_false. intros Hk Hr j y Hj E. specialize (Hr j y Hj).
  rewrite E, String.eqb_refl in Hr. cbn in Hr. apply negb_false_iff, N.eqb_eq in Hr. by rewrite <- (Hk j y Hj).
Qed.

Lemma CreateUser_schema u d a d' : CreateUser u d = SqlOk a d' → schema_ok d → schema_ok d'.
Proof.
  unfold CreateUser. destruct (_ || _) eqn:Hf; [done|]. intros [= _ <-] Hok. apply orb_false_iff in Hf as [_ Hr].
  untouched Hok; [by apply keyed_insert|apply unique_insert; [done|by apply (login_free d u)]|by apply refers_grow..].
Qed.

Lemma UpdateUser_schema u d a d' : UpdateUser u d = SqlOk a d' → schema_ok d → schema_ok d'.
Proof.
  unfold UpdateUser. destruct (d_users d !! u_ID u) as [o|] eqn:Ho; [|by intros [= _ <-]]. destruct (login_taken _ _ _) eqn:Hr; [done|].
  intros [= _ <-] Hok. pose proof (sc_user _ Hok _ _ Ho).
  untouched Hok; [by apply keyed_insert|apply unique_insert; [done|by apply (login_free d u)]|by apply refers_grow..].
Qed.

Lemma DeleteUser_schema id d a d' : DeleteUser id d = SqlOk a d' → schema_ok d → schema_ok d'.
Proof.
  unfold DeleteUser. destruct (d_users d !! id); intros [= _ <-] Hok; [|done].
  set (own := dom (filter (λ kv : uuid * NodeRow, n_UserID (nr_node kv.2) = id) (d_nodes d))).
  pose proof (delete_nodes_schema own d Hok) as Hd.
  assert (∀ k x, d_nodes (delete_nodes own d) !! k = Some x → n_UserID (nr_node x) ≠ id) as Hu.
  { intros k x [Hx Hk]%map_lookup_filter_Some E. apply Hk, cascade_set_incl, elem_of_dom. exists x. by apply map_lookup_filter_Some. }
  untouched Hd; try fewer ltac:(first [apply map_filter_subseteq|apply delete_subseteq]).
  - apply refers_delete; [by eapply refers_subseteq; [|apply map_filter_subseteq]|].
    by intros k x [Hx Hk]%map_lookup_filter_Some [= E].
  - apply refers_delete; [done|]. intros k x Hx [= E]. by apply (Hu k x).
Qed.

(** ** All statements *)

Create HintDb schema.
#[export] Hint Resolve CreateNode_schema UpdateNode_schema DeleteNode_schema Claim_schema ReleaseLease_schema MarkStored_schema
  CreateExtents_schema DeleteExtents_schema CopyExtents_schema AppendChunk_schema DeleteChunks_schema CreateBlob_schema
  UpdateBlob_schema SetBlobState_schema AddRefcount_schema AddRefcounts_schema DeleteBlob_schema UpsertFile_schema
  DeleteFilesBlob_schema DeleteFilesBot_schema CreateBot_schema UpdateBot_schema DeleteBot_schema ParkBot_schema
  UpsertMember_schema DeleteMembersBot_schema DeleteMembersChannel_schema CreateChannel_schema UpdateChannel_schema
  DeleteChannel_schema Increment_schema SetAvailable_schema LogEvent_schema RecordStat_schema UpsertSettings_schema
  CreateToken_schema DeleteToken_schema TouchToken_schema CreateUser_schema UpdateUser_schema DeleteUser_schema : schema.

Lemma issue_schema d d' : issue d d' → schema_ok d → schema_ok d'.
Proof.
  intros Hi Hok. destruct Hi; match goal with H : does _ _ _ |- _ => destruct H as [? H] end; eauto with schema;
    (injection H as _ <-; by apply update_blobs_schema).
Qed.

Lemma empty_schema : schema_ok empty_db.
Proof. split; cbn; try apply NoDup_nil_2; by intros ???. Qed.
