(* ===== verification/Keeps.v ===== *)
(** * Relations that computations keep

    [Keeps R m]: whatever [m] does to a world is in [R].  The combinators of [M] keep
    every [Frame], a preorder on worlds that asks nothing of the clocks and the
    services' memory but of the cache; [leaves] makes one of a preorder on tables,
    which transactions keep too.  The hint database [keeps] holds what always does. *)
From Stdlib Require Import ZArith Lia Strings.Byte Strings.String.
From stdpp Require Import base tactics list gmap sets strings.
From S2P Require Import Prelude Model Sql World Repository.
#[local] Open Scope Z_scope.
Open Scope m_scope.

Definition Keeps (R : relation World) {A} (m : M A) : Prop := ∀ w r w', m w = (r, w') → R w w'.

(** The same tables before the transaction. *)
Abbreviation same_tx w w' := (tx_snapshot <$> w_tx w' = tx_snapshot <$> w_tx w) (only parsing).

Class Frame (R : relation World) := {
  frame_preorder :: PreOrder R;
  frame_mem w w' : w_db w' = w_db w → w_cache w' = w_cache w → same_tx w w' → R w w' }.

Create HintDb keeps.

Lemma same_tx_None w w' : same_tx w w' → w_tx w = None → w_tx w' = None.
Proof. intros H Ht. rewrite Ht in H. by destruct (w_tx w'). Qed.

Section combinators.
Context {E : Env} (R : relation World) `{!Frame R}.

Lemma Keeps_same {A} (m : M A) : (∀ w r w', m w = (r, w') → w_db w' = w_db w ∧ w_cache w' = w_cache w ∧ same_tx w w') → Keeps R m.
Proof. intros Hm w r w' (? & ? & ?)%Hm. by apply frame_mem. Qed.

Lemma Keeps_ret {A} (a : A) : Keeps R (ret a).
Proof. by apply Keeps_same; intros w r w' [= _ <-]. Qed.

Lemma Keeps_fail {A} e : Keeps R (fail (A := A) e).
Proof. by apply Keeps_same; intros w r w' [= _ <-]. Qed.

Lemma Keeps_panic {A} msg : Keeps R (panic (A := A) msg).
Proof. apply Keeps_fail. Qed.

Lemma Keeps_of_res {A} (x : res A) : Keeps R (of_res x).
Proof. by apply Keeps_same; intros w r w' [= _ <-]. Qed.

Lemma Keeps_gets {A} (f : World → A) : Keeps R (gets f).
Proof. by apply Keeps_same; intros w r w' [= _ <-]. Qed.

Lemma Keeps_Now : Keeps R Now.
Proof. by apply Keeps_same; intros w r w' [= _ <-]. Qed.
Lemma Keeps_uuid : Keeps R uuid_New.
Proof. by apply Keeps_same; intros w r w' [= _ <-]. Qed.
Lemma Keeps_ctx : Keeps R ctx_Err.
Proof. by apply Keeps_same; intros w r w' [= _ <-]. Qed.
Lemma Keeps_io : Keeps R io_ok.
Proof. by apply Keeps_same; intros w r w' [= _ <-]. Qed.

(** The memory of the services. *)
Lemma Keeps_stats f : Keeps R (modify (λ w, set_stats (f w) w)).
Proof. by apply Keeps_same; intros w r w' [= _ <-]. Qed.
Lemma Keeps_sent f : Keeps R (modify (λ w, set_sent (f w) w)).
Proof. by apply Keeps_same; intros w r w' [= _ <-]. Qed.
Lemma Keeps_vc f : Keeps R (modify (λ w, set_vc (f w) w)).
Proof. by apply Keeps_same; intros w r w' [= _ <-]. Qed.
Lemma Keeps_buckets f : Keeps R (modify (λ w, set_buckets (f w) w)).
Proof. by apply Keeps_same; intros w r w' [= _ <-]. Qed.

Lemma Keeps_bind {A B} (m : M A) (k : A → M B) : Keeps R m → (∀ a, Keeps R (k a)) → Keeps R (bind m k).
Proof.
  intros Hm Hk w r w' [(a & w1 & H1 & H2)|(e & H1 & _)]%bind_cases; [|by eapply Hm].
  etrans; [by eapply Hm|by eapply Hk].
Qed.

Lemma Keeps_try {A B} (m : M A) (k : res A → M B) : Keeps R m → (∀ r, Keeps R (k r)) → Keeps R (try m k).
Proof.
  intros Hm Hk w r w' H. rewrite try_run in H. destruct (m w) as [x w1] eqn:H1.
  etrans; [by eapply Hm|by eapply Hk].
Qed.

Lemma Keeps_if {A} (b : bool) (m1 m2 : M A) : Keeps R m1 → Keeps R m2 → Keeps R (if b then m1 else m2).
Proof. by destruct b. Qed.

Lemma Keeps_translate {A} (m : M A) : Keeps R m → Keeps R (translate m).
Proof.
  intros Hm w r w' H. unfold translate in H. destruct (m w) as [[a|e] w1] eqn:H1; simplify_eq; by eapply Hm.
Qed.

Lemma Keeps_need_row m : Keeps R m → Keeps R (need_row m).
Proof. intros Hm. apply Keeps_bind; [done|]. intros n. destruct (n =? 0); [apply Keeps_fail|apply Keeps_ret]. Qed.

Lemma Keeps_map_each {A B} (l : list A) (f : A → M B) : (∀ x, Keeps R (f x)) → Keeps R (map_each l f).
Proof.
  intros Hf. induction l as [|x l IH]; simpl; [apply Keeps_ret|].
  apply Keeps_bind; [done|]. intros y. apply Keeps_bind; [done|]. intros ys. apply Keeps_ret.
Qed.

Lemma Keeps_for_each {A} (l : list A) (f : A → M unit) : (∀ x, Keeps R (f x)) → Keeps R (for_each l f).
Proof. intros Hf. induction l as [|x l IH]; simpl; [apply Keeps_ret|by apply Keeps_bind]. Qed.

Lemma Keeps_or_new id : Keeps R (or_new id).
Proof. unfold or_new. apply Keeps_if; [apply Keeps_uuid|apply Keeps_ret]. Qed.
Lemma Keeps_or_now t : Keeps R (or_now t).
Proof. unfold or_now. apply Keeps_if; [apply Keeps_Now|apply Keeps_ret]. Qed.

(** A statement keeps what its rows keep. *)
Lemma Keeps_query {A} (q : time → (nat → uuid) → sql A) :
  (∀ t g w a d', q t g (w_db w) = SqlOk a d' → R w (set_db d' w)) → Keeps R (query q).
Proof.
  intros Hq w r w' H. destruct r as [a|e].
  - apply query_Ok in H as (_ & _ & d & Hd & ->). etrans; [by eapply Hq|]. by apply frame_mem.
  - apply query_Err in H as (Hdb & [_ Hc _ _ Ht] & _). by apply frame_mem.
Qed.

Lemma Keeps_stmt {A} (q : sql A) : (∀ w a d', q (w_db w) = SqlOk a d' → R w (set_db d' w)) → Keeps R (stmt q).
Proof. intros Hq. apply (Keeps_query _). intros _ _. apply Hq. Qed.

End combinators.

#[export] Hint Extern 0 (Frame _) => exact _ : keeps.
#[export] Hint Resolve Keeps_ret Keeps_fail Keeps_panic Keeps_of_res Keeps_gets Keeps_Now Keeps_uuid Keeps_ctx Keeps_io
  Keeps_stats Keeps_sent Keeps_vc Keeps_buckets Keeps_bind Keeps_try Keeps_if Keeps_translate Keeps_need_row
  Keeps_map_each Keeps_for_each Keeps_or_new Keeps_or_now : keeps.

(** ** Relations on the tables *)

(** The cache holds no new bytes. *)
Definition culled (w w' : World) : Prop := ∀ b data t,
  ca_files (w_cache w') !! b = Some (data, t) → ∃ t', ca_files (w_cache w) !! b = Some (data, t').

#[global] Instance culled_preorder : PreOrder culled.
Proof.
  split; [by intros w b data t Hb; exists t|]. intros w1 w2 w3 H1 H2 b data t Hb.
  destruct (H2 b data t Hb) as [t2 Hb2]. by eapply H1.
Qed.

Lemma culled_same w w' : w_cache w' = w_cache w → culled w w'.
Proof. intros H b data t Hb. rewrite H in Hb. by exists t. Qed.

Record leaves (R : relation Db) (w w' : World) : Prop := {
  lv_db : R (w_db w) (w_db w');
  lv_tx : same_tx w w';
  lv_cache : culled w w' }.

#[global] Instance leaves_frame (R : relation Db) `{!PreOrder R} : Frame (leaves R).
Proof.
  split.
  - split; [intros w; split; done|]. intros a b c [D1 T1 C1] [D2 T2 C2]. split; [by etrans|congruence|by etrans].
  - intros w w' Hd Hc Ht. split; [by rewrite Hd|done|by apply culled_same].
Qed.

Section tables.
Context {E : Env} (R : relation Db) `{!PreOrder R}.

Lemma leaves_query {A} (q : time → (nat → uuid) → sql A) :
  (∀ t g d a d', q t g d = SqlOk a d' → R d d') → Keeps (leaves R) (query q).
Proof. intros Hq. apply (Keeps_query _). intros t g w a d' H. split; [by eapply Hq|done|by apply culled_same]. Qed.

Lemma leaves_stmt {A} (q : sql A) : (∀ d a d', q d = SqlOk a d' → R d d') → Keeps (leaves R) (stmt q).
Proof. intros Hq. apply leaves_query. intros _ _. apply Hq. Qed.

(** A transaction leaves what its body does, or nothing. *)
Lemma leaves_WithTx {A} (fn : M A) : Keeps (leaves R) fn → Keeps (leaves R) (WithTx fn).
Proof.
  intros Hf w r w' H. destruct (w_tx w) as [t|] eqn:Ht.
  { unfold WithTx in H. rewrite Ht in H. by eapply Hf. }
  destruct r as [a|e].
  - apply WithTx_Ok in H as (w1 & H1 & _ & ->); [|done]. apply Hf in H1 as [Hd _ Hc]. split; [exact Hd|by rewrite Ht|exact Hc].
  - pose proof H as [Hd Hn]%WithTx_Err; [|done]. split; [by rewrite Hd|by rewrite Ht, Hn|].
    unfold WithTx in H. rewrite Ht in H. destruct (env_fault _); [injection H as _ <-; by apply culled_same|].
    destruct (fn _) as [x w1] eqn:H1. apply Hf in H1 as [_ _ Hc]. destruct x; [destruct (_ || _)|]; by injection H as _ <-.
Qed.

Lemma leaves_sub (R' : relation Db) {A} (m : M A) : subrelation R' R → Keeps (leaves R') m → Keeps (leaves R) m.
Proof. intros Hs Hm w r w' [Hd Ht Hc]%Hm. split; [by apply Hs|done|done]. Qed.

End tables.

#[export] Hint Resolve leaves_WithTx : keeps.

(** Nothing is asked of the tables: what a computation puts into the cache. *)
Definition whatever : relation Db := λ _ _, True.
#[global] Instance whatever_preorder : PreOrder whatever.
Proof. done. Qed.

Lemma whatever_query {E : Env} {A} (q : time → (nat → uuid) → sql A) : Keeps (leaves whatever) (query q).
Proof. by apply (leaves_query _). Qed.
Lemma whatever_stmt {E : Env} {A} (q : sql A) : Keeps (leaves whatever) (stmt q).
Proof. by apply (leaves_stmt _). Qed.
#[export] Hint Resolve whatever_query whatever_stmt : keeps.

(** A composed computation: split it and its matches, then search. *)
Ltac keeps_auto :=
  repeat first
    [ progress auto with keeps
    | match goal with
      | |- Keeps _ (bind _ _) => apply (Keeps_bind _); [|intros ?]
      | |- Keeps _ (try _ _) => apply (Keeps_try _); [|intros ?]
      | |- Keeps _ (for_each _ _) => apply (Keeps_for_each _); intros ?
      | |- Keeps _ (map_each _ _) => apply (Keeps_map_each _); intros ?
      | |- Keeps _ (WithTx _) => apply (leaves_WithTx _)
      | |- Keeps _ (need_row _) => apply (Keeps_need_row _)
      | |- Keeps _ (translate _) => apply (Keeps_translate _)
      end
    | case_match ].
