(* ===== verification/Tree.v ===== *)
(** * The invariant of the namespace

    [tree_ok]: the rows of [nodes] form one rooted tree per user whose shape is
    the shape of their paths; only files have extents, and only files wait to be packed.  The lemmas relate the
    cascade of a DELETE and the rows of [ListSubtree] to the paths below a node. *)
From Stdlib Require Import ZArith Lia Strings.Byte Strings.String Strings.Ascii.
From stdpp Require Import base tactics list gmap sets sorting strings.
From S2P Require Import Prelude Model Sql SqlFacts World Repository Path FileSystem.
#[local] Open Scope string_scope.
#[local] Open Scope Z_scope.

Definition rsegs (r : NodeRow) : list string := path_segs (n_Path (nr_node r)).
Definition ruser (r : NodeRow) : uuid := n_UserID (nr_node r).
Definition rdir (r : NodeRow) : bool := n_IsDir (nr_node r).
Definition rparent (r : NodeRow) : option uuid := n_ParentID (nr_node r).

Record tree_ok (d : Db) : Prop := {
  tk_id : ∀ id r, d_nodes d !! id = Some r → n_ID (nr_node r) = id;
  tk_canon : ∀ id r, d_nodes d !! id = Some r → n_Path (nr_node r) = render (rsegs r);
  tk_root : ∀ id r, d_nodes d !! id = Some r → rsegs r = [] → rparent r = None ∧ rdir r = true;
  tk_parent : ∀ id r l x, d_nodes d !! id = Some r → rsegs r = (l ++ [x])%list →
    n_Name (nr_node r) = x ∧
    ∃ p rp, rparent r = Some p ∧ d_nodes d !! p = Some rp ∧ rsegs rp = l
            ∧ ruser rp = ruser r ∧ rdir rp = true;
  tk_uniq : ∀ i j r s, d_nodes d !! i = Some r → d_nodes d !! j = Some s →
    ruser r = ruser s → rsegs r = rsegs s → i = j;
  tk_extent : ∀ k e, d_extents d !! k = Some e →
    ∃ r, d_nodes d !! e_NodeID e = Some r ∧ rdir r = false;
  tk_wal : ∀ k c, d_wal_chunks d !! k = Some c → is_Some (d_nodes d !! c_NodeID c);
  tk_blob : ∀ k b, d_blobs d !! k = Some b → b_ID b = k;
  tk_files : ∀ id r, d_nodes d !! id = Some r → n_State (nr_node r) = NodeStateBuffered → rdir r = false }.

Lemma rsegs_ok r : segs_ok (rsegs r).
Proof. apply path_segs_ok. Qed.

#[global] Instance below_dec a b : Decision (below a b).
Proof.
  destruct (decide (a `prefix_of` b)) as [H|H]; [left|right]; done.
Defined.

Lemma below_refl a : below a a.
Proof. exists []. by rewrite app_nil_r. Qed.

Lemma below_trans a b c : below a b → below b c → below a c.
Proof. intros [x ->] [y ->]. exists (x ++ y)%list. by rewrite app_assoc. Qed.

Lemma below_snoc a l x : below a (l ++ [x])%list → a = (l ++ [x])%list ∨ below a l.
Proof.
  intros [c Hc]. destruct c as [|y c _] using rev_ind; [left; by rewrite app_nil_r in Hc|right].
  rewrite app_assoc in Hc. apply app_inj_tail in Hc as [-> _]. by exists c.
Qed.

Section tree.
Context (d : Db) (Hd : tree_ok d).

(** The nodes of [r]'s subtree, by path. *)
Definition in_subtree (r s : NodeRow) : Prop := ruser s = ruser r ∧ below (rsegs r) (rsegs s).

Lemma subtree_closed id r :
  d_nodes d !! id = Some r →
  child_closed (d_nodes d)
    (dom (filter (λ kv : uuid * NodeRow, ruser kv.2 = ruser r ∧ below (rsegs r) (rsegs kv.2))
            (d_nodes d))).
Proof.
  intros Hr j (s & Hs & Hp)%elem_of_child_rows. unfold parent_in in Hp.
  destruct (n_ParentID (nr_node s)) as [p|] eqn:Hpar; [|done].
  apply bool_decide_eq_true, elem_of_dom in Hp as [sp Hsp].
  apply map_lookup_filter_Some in Hsp as [Hsp [Hu Hb]]. simpl in *.
  apply elem_of_dom. exists s. apply map_lookup_filter_Some. split; [done|]. simpl.
  destruct (rsegs s) as [|x l _] eqn:Hl using rev_ind.
  { destruct (tk_root d Hd j s Hs Hl) as [Hn _]. unfold rparent in Hn. congruence. }
  destruct (tk_parent d Hd j s l x Hs Hl) as (_ & q & rq & Hq & Hrq & Hlq & Huq & _).
  unfold rparent in Hq. rewrite Hpar in Hq. simplify_eq.
  split; [congruence|]. eapply below_trans; [exact Hb|]. by exists [x].
Qed.

(** A DELETE removes exactly the rows of the user at or below the node. *)
Lemma cascade_tree id r j :
  d_nodes d !! id = Some r →
  j ∈ cascade_set (d_nodes d) {[id]} ↔ ∃ s, d_nodes d !! j = Some s ∧ in_subtree r s.
Proof.
  intros Hr. split.
  - intros Hj. pose proof (subtree_closed id r Hr) as Hc.
    apply (cascade_set_least _ {[id]} _) in Hc.
    + apply Hc, elem_of_dom in Hj as [s [Hs ?]%map_lookup_filter_Some]. by exists s.
    + apply singleton_subseteq_l, elem_of_dom. exists r. apply map_lookup_filter_Some.
      split; [done|]. simpl. split; [done|apply below_refl].
  - intros (s & Hs & Hu & [c Hc]). revert j s Hs Hu Hc.
    induction c as [|x c IH] using rev_ind; intros j s Hs Hu Hc.
    + rewrite app_nil_r in Hc. rewrite (tk_uniq d Hd j id s r Hs Hr Hu Hc).
      apply cascade_set_incl. set_solver.
    + rewrite app_assoc in Hc.
      destruct (tk_parent d Hd j s _ x Hs Hc) as (_ & p & rp & Hp & Hrp & Hl & Hup & _).
      apply cascade_set_closed, elem_of_child_rows. exists s. split; [done|].
      unfold parent_in, rparent in *. rewrite Hp. apply bool_decide_eq_true.
      apply (IH p rp Hrp); congruence.
Qed.

Lemma cascade_tree_incl id r : d_nodes d !! id = Some r → id ∈ cascade_set (d_nodes d) {[id]}.
Proof. intros _. apply cascade_set_incl. set_solver. Qed.

(** Every ancestor path of a row's path is a row's path. *)
Lemma ancestor_exists id r l m :
  d_nodes d !! id = Some r → rsegs r = (l ++ m)%list →
  ∃ j s, d_nodes d !! j = Some s ∧ ruser s = ruser r ∧ rsegs s = l.
Proof.
  revert id r. induction m as [|x m IH] using rev_ind; intros id r Hr Hl.
  - rewrite app_nil_r in Hl. by exists id, r.
  - rewrite app_assoc in Hl. destruct (tk_parent d Hd id r _ x Hr Hl)
      as (_ & p & rp & _ & Hrp & Hlp & Hup & _).
    destruct (IH p rp Hrp Hlp) as (j & s & Hs & Hu & Hls). exists j, s. by rewrite Hu.
Qed.

(** ** The rows of the listings *)

Lemma get_by_path_Ok u l r d' : segs_ok l →
  GetNodeByPath u (render l) d = SqlOk r d' →
  d' = d ∧ ∃ id, d_nodes d !! id = Some r ∧ n_ID (nr_node r) = id ∧ ruser r = u ∧ rsegs r = l.
Proof.
  intros Hl. unfold GetNodeByPath, one. destruct (rows _ _) as [|r0 rs] eqn:Hrows; [done|].
  intros [= -> <-]. split; [done|].
  assert (r ∈ rows (at_path u (render l)) (d_nodes d)) as Hin by (rewrite Hrows; set_solver).
  apply elem_of_rows in Hin as (id & Hid & Hat). unfold at_path in Hat.
  apply andb_true_iff in Hat as [Hu%N.eqb_eq Hp%String.eqb_eq].
  exists id. split_and!; [done|by eapply tk_id|done|].
  unfold rsegs. rewrite Hp. by apply path_segs_render.
Qed.

Lemma get_by_path_Err u l e : segs_ok l →
  GetNodeByPath u (render l) d = SqlErr e →
  e = NoRows ∧ ∀ id r, d_nodes d !! id = Some r → ruser r = u → rsegs r ≠ l.
Proof.
  intros Hl. unfold GetNodeByPath, one. destruct (rows _ _) as [|r0 rs] eqn:Hrows; [|done].
  intros [= <-]. split; [done|]. intros id r Hr Hu Hs.
  rewrite rows_nil in Hrows. specialize (Hrows id r Hr). unfold at_path in Hrows.
  rewrite (tk_canon d Hd id r Hr), Hs in Hrows. unfold ruser in Hu. subst u.
  by rewrite N.eqb_refl, String.eqb_refl in Hrows.
Qed.

Lemma elem_of_subtree u a r : segs_ok a → a ≠ [] →
  r ∈ sort_by_str (λ r, n_Path (nr_node r))
        (rows (subtree_row u (render a) (subtree_pattern (render a))) (d_nodes d))
  ↔ ∃ id, d_nodes d !! id = Some r ∧ ruser r = u ∧ below a (rsegs r).
Proof.
  intros Ha Hne. rewrite sort_by_str_perm, elem_of_rows.
  split; intros (id & Hid & H); exists id; (split; [done|]); revert H;
    rewrite (subtree_row_spec u a r (rsegs r)) by (done || apply rsegs_ok || by eapply tk_canon); done.
Qed.

(** No row is listed twice, and an id determines its row. *)
Lemma NoDup_Lfilter {A} (P : A → bool) (l : list A) : NoDup l → NoDup (List.filter P l).
Proof. intros H. apply NoDup_ListNoDup, List.NoDup_filter. by apply NoDup_ListNoDup. Qed.

Lemma nodes_NoDup : NoDup ((λ r, n_ID (nr_node r)) <$> (map_to_list (d_nodes d)).*2).
Proof.
  rewrite <- list_fmap_compose.
  rewrite (list_fmap_ext _ fst).
  - apply NoDup_fst_map_to_list.
  - intros i [k r] Hk. simpl. apply (tk_id d Hd).
    apply elem_of_map_to_list. by eapply list_elem_of_lookup_2.
Qed.

Lemma NoDup_fmap_filter {A B} (f : A → B) (P : A → bool) (l : list A) :
  NoDup (f <$> l) → NoDup (f <$> List.filter P l).
Proof.
  induction l as [|x l IH]; simpl; [done|]. intros [Hx Hl]%NoDup_cons.
  destruct (P x); simpl; [|by apply IH]. apply NoDup_cons. split; [|by apply IH].
  intros (y & Hy & Hin)%list_elem_of_fmap. apply Hx. apply list_elem_of_fmap. exists y.
  split; [done|]. by apply elem_of_Lfilter in Hin as [? _].
Qed.

Lemma subtree_NoDup P :
  NoDup (n_ID ∘ nr_node <$> sort_by_str (λ r, n_Path (nr_node r)) (rows P (d_nodes d))).
Proof. rewrite sort_by_str_perm. apply NoDup_fmap_filter, nodes_NoDup. Qed.

End tree.

(** ** The namespace as a function of paths *)

(** The row of a user at a path: the abstract state the protocol speaks about. *)
Definition view (d : Db) (u : uuid) (l : list string) : option NodeRow :=
  head (rows (λ r, N.eqb (ruser r) u && bool_decide (rsegs r = l)) (d_nodes d)).

Lemma view_Some d u l r : tree_ok d →
  view d u l = Some r ↔ ∃ id, d_nodes d !! id = Some r ∧ ruser r = u ∧ rsegs r = l.
Proof.
  intros Hd. unfold view. split.
  - destruct (rows _ _) as [|r0 t] eqn:Hrows; [done|]. intros [= ->].
    assert (r ∈ r :: t) as Hin by by left. rewrite <- Hrows in Hin.
    apply elem_of_rows in Hin as (id & Hid & [Hu%N.eqb_eq Hl%bool_decide_eq_true]%andb_true_iff).
    by exists id.
  - intros (id & Hid & Hu & Hl).
    assert (r ∈ rows (λ r, N.eqb (ruser r) u && bool_decide (rsegs r = l)) (d_nodes d)) as Hin.
    { apply elem_of_rows. exists id. split; [done|].
      by rewrite Hu, N.eqb_refl, bool_decide_eq_true_2. }
    destruct (rows _ _) as [|r0 t] eqn:Hrows; [by apply not_elem_of_nil in Hin|]. simpl. f_equal.
    assert (r0 ∈ r0 :: t) as Hin0 by by left. rewrite <- Hrows in Hin0.
    apply elem_of_rows in Hin0 as (i & Hi & [Hui%N.eqb_eq Hli%bool_decide_eq_true]%andb_true_iff).
    assert (i = id) as -> by (eapply (tk_uniq d Hd); [done..|congruence|congruence]). congruence.
Qed.

Lemma view_None d u l : tree_ok d →
  view d u l = None ↔ ∀ id r, d_nodes d !! id = Some r → ruser r = u → rsegs r ≠ l.
Proof.
  intros Hd. split.
  - intros Hv id r Hr Hu Hl. assert (view d u l = Some r) as Hs; [|congruence].
    apply view_Some; [done|]. by exists id.
  - intros Hn. destruct (view d u l) as [r|] eqn:Hv; [|done].
    apply view_Some in Hv as (id & Hr & Hu & Hl); [|done]. by destruct (Hn id r Hr Hu).
Qed.

Lemma view_ext d d' u l : tree_ok d → tree_ok d' →
  (∀ r, (∃ id, d_nodes d !! id = Some r ∧ ruser r = u ∧ rsegs r = l)
        ↔ (∃ id, d_nodes d' !! id = Some r ∧ ruser r = u ∧ rsegs r = l)) →
  view d u l = view d' u l.
Proof.
  intros Hd Hd' H. apply option_eq. intros r. rewrite !view_Some by done. apply H.
Qed.

(** ** The invariant is decidable *)

Definition row_okb (d : Db) (kr : uuid * NodeRow) : bool :=
  let '(k, r) := kr in
  N.eqb (n_ID (nr_node r)) k
  && String.eqb (n_Path (nr_node r)) (render (rsegs r))
  && match reverse (rsegs r) with
     | [] => bool_decide (rparent r = None) && rdir r
     | x :: rl =>
         String.eqb (n_Name (nr_node r)) x
         && match rparent r with
            | None => false
            | Some p =>
                match d_nodes d !! p with
                | None => false
                | Some rp => bool_decide (rsegs rp = reverse rl) && N.eqb (ruser rp) (ruser r)
                             && rdir rp
                end
            end
     end
  && forallb (λ js : uuid * NodeRow, let '(j, s) := js in
       N.eqb j k || negb (N.eqb (ruser s) (ruser r)) || negb (bool_decide (rsegs s = rsegs r)))
       (map_to_list (d_nodes d)).

Definition tree_okb (d : Db) : bool :=
  forallb (row_okb d) (map_to_list (d_nodes d))
  && forallb (λ ke : uuid * Extent, match d_nodes d !! e_NodeID ke.2 with
                                    | Some r => negb (rdir r) | None => false end)
       (map_to_list (d_extents d))
  && forallb (λ kc : uuid * WALChunk, bool_decide (is_Some (d_nodes d !! c_NodeID kc.2)))
       (map_to_list (d_wal_chunks d))
  && forallb (λ kb : uuid * Blob, N.eqb (b_ID kb.2) kb.1) (map_to_list (d_blobs d))
  && forallb (λ kr : uuid * NodeRow, negb (bool_decide (n_State (nr_node kr.2) = NodeStateBuffered)) || negb (rdir kr.2))
       (map_to_list (d_nodes d)).

Lemma forallb_map_to_list {K A} `{Countable K} (P : K * A → bool) (m : gmap K A) :
  forallb P (map_to_list m) = true ↔ ∀ k x, m !! k = Some x → P (k, x) = true.
Proof.
  rewrite forallb_forall. split.
  - intros HP k x Hk. apply HP, list_elem_of_In, elem_of_map_to_list. done.
  - intros HP [k x] Hin. apply HP. by apply elem_of_map_to_list, list_elem_of_In.
Qed.

Lemma row_okb_sound d k r : row_okb d (k, r) = true →
  n_ID (nr_node r) = k ∧ n_Path (nr_node r) = render (rsegs r)
  ∧ (rsegs r = [] → rparent r = None ∧ rdir r = true)
  ∧ (∀ l x, rsegs r = (l ++ [x])%list → n_Name (nr_node r) = x ∧
      ∃ p rp, rparent r = Some p ∧ d_nodes d !! p = Some rp ∧ rsegs rp = l
              ∧ ruser rp = ruser r ∧ rdir rp = true)
  ∧ (∀ j s, d_nodes d !! j = Some s → ruser s = ruser r → rsegs s = rsegs r → j = k).
Proof.
  unfold row_okb. rewrite !andb_true_iff. intros [[[H1 H2] H3] H4].
  apply N.eqb_eq in H1. apply String.eqb_eq in H2. split_and!; [done..| | |].
  - intros Hn. rewrite Hn in H3. simpl in H3. apply andb_true_iff in H3 as [?%bool_decide_eq_true ?].
    done.
  - intros l x Hl. rewrite Hl, reverse_app in H3. simpl in H3.
    apply andb_true_iff in H3 as [H3%String.eqb_eq H5]. split; [done|].
    destruct (rparent r) as [p|]; [|done]. destruct (d_nodes d !! p) as [rp|] eqn:Hrp; [|done].
    apply andb_true_iff in H5 as [[H5%bool_decide_eq_true H6%N.eqb_eq]%andb_true_iff H7].
    rewrite reverse_involutive in H5. by exists p, rp.
  - intros j s Hj Hu Hs. rewrite forallb_map_to_list in H4. specialize (H4 j s Hj). simpl in H4.
    rewrite Hu, Hs, N.eqb_refl, bool_decide_eq_true_2 in H4 by done. simpl in H4.
    rewrite !orb_false_r in H4. by apply N.eqb_eq.
Qed.

Lemma tree_okb_sound d : tree_okb d = true → tree_ok d.
Proof.
  unfold tree_okb. rewrite !andb_true_iff, !forallb_map_to_list. intros [[[[H1 H2] H4] H3] H5].
  split; intros id r.
  1-4: intros; by apply (row_okb_sound d id r); auto.
  - intros r' s Hr Hs Hu Hl. symmetry.
    destruct (row_okb_sound d id r' (H1 _ _ Hr)) as (_ & _ & _ & _ & Hq). by eapply Hq.
  - intros He. specialize (H2 _ _ He). simpl in H2.
    destruct (d_nodes d !! e_NodeID r) as [s|]; [|done]. apply negb_true_iff in H2. by exists s.
  - intros Hc. by apply (bool_decide_eq_true _), (H4 _ _ Hc).
  - intros Hb. apply (N.eqb_eq _ _), (H3 _ _ Hb).
  - intros Hr Hs. specialize (H5 _ _ Hr). cbn [snd] in H5. rewrite bool_decide_eq_true_2 in H5 by done. by apply negb_true_iff.
Qed.
