(* ===== verification/FsFacts.v ===== *)
(** * Facts on the filesystem operations: reference counts and removal *)
From Stdlib Require Import ZArith Lia Strings.Byte Strings.String Strings.Ascii.
From stdpp Require Import base tactics list gmap sets sorting strings.
From S2P Require Import Prelude Model Sql SqlFacts World Repository Path FileSystem Tree.
#[local] Open Scope string_scope.
#[local] Open Scope Z_scope.

(** ** Batched reference counts *)

Lemma blob_deltas_default k es id :
  default 0 (blob_deltas k es !! id) = k * blen (List.filter (λ e, N.eqb (e_BlobID e) id) es).
Proof.
  unfold blob_deltas.
  assert (∀ m : gmap uuid Z,
    default 0 (foldl (λ m e, <[e_BlobID e := default 0 (m !! e_BlobID e) + k]> m) m es !! id)
    = default 0 (m !! id) + k * blen (List.filter (λ e, N.eqb (e_BlobID e) id) es)) as Hgen.
  { induction es as [|e es IH]; intros m; simpl; [blen_lia|]. rewrite IH.
    destruct (N.eqb_spec (e_BlobID e) id) as [->|Hne].
    - rewrite lookup_insert_eq. unfold blen. simpl. rewrite Nat2Z.inj_succ. ring.
    - by rewrite lookup_insert_ne. }
  by rewrite Hgen.
Qed.

Definition rebased (f : uuid → Z) (bl bl' : gmap uuid Blob) : Prop :=
  ∀ id, bl' !! id = (λ b, blob_with_refcount (b_Refcount b + f id) b) <$> bl !! id.

Lemma rebased_id bl : rebased (λ _, 0) bl bl.
Proof.
  intros id. destruct (bl !! id); [|done]. simpl. by rewrite Z.add_0_r, blob_with_refcount_id.
Qed.

Lemma rebased_trans f g b1 b2 b3 :
  rebased f b1 b2 → rebased g b2 b3 → rebased (λ id, f id + g id) b1 b3.
Proof.
  intros H1 H2 id. rewrite H2, H1. destruct (b1 !! id); [|done]. simpl. f_equal.
  unfold blob_with_refcount. simpl. f_equal. lia.
Qed.

Lemma rebased_ext f g b1 b2 : (∀ id, f id = g id) → rebased f b1 b2 → rebased g b1 b2.
Proof. intros He H id. rewrite H. destruct (b1 !! id); [|done]. simpl. by rewrite He. Qed.

Lemma AddBlobRefcounts_Ok ds d u d' :
  AddBlobRefcounts ds d = SqlOk u d' →
  ∃ bl, d' = set_blobs bl d ∧ rebased (λ id, default 0 (ds !! id)) (d_blobs d) bl.
Proof.
  unfold AddBlobRefcounts. destruct (forallb _ _); [|done]. intros [= <-].
  eexists. split; [done|]. intros id. rewrite map_lookup_imap.
  destruct (d_blobs d !! id) as [b|]; [|done]. simpl. unfold add_delta.
  destruct (ds !! id); simpl; [done|]. by rewrite Z.add_0_r, blob_with_refcount_id.
Qed.

(** Extents of one node, by blob. *)
Definition of_node (n : uuid) (e : Extent) : bool := N.eqb (e_NodeID e) n.

Lemma count_extents_of n id d :
  blen (List.filter (λ e, N.eqb (e_BlobID e) id) (sort_by e_Seq (extents_of n d)))
  = refs_if (of_node n) id d.
Proof.
  unfold refs_if, cnt. rewrite (cnt_perm _ _ (Lfilter_perm _ _ _ (sort_by_perm e_Seq _))).
  unfold extents_of, rows, of_node. induction (map_to_list (d_extents d)).*2 as [|e l IH]; [done|].
  simpl. destruct (N.eqb (e_NodeID e) n); simpl; destruct (N.eqb (e_BlobID e) id); simpl;
    blen_lia.
Qed.

Section release.
Context {E : Env}.

Lemma AddRefcounts_Ok ds w u w' :
  blobRepository_AddRefcounts ds w = (Ok u, w') →
  ∃ bl, w_db w' = set_blobs bl (w_db w) ∧ rebased (λ id, default 0 (ds !! id)) (d_blobs (w_db w)) bl.
Proof.
  unfold blobRepository_AddRefcounts. destruct (decide (ds = ∅)) as [->|Hne]; intros H; m_inv.
  - exists (d_blobs (w_db w')). split; [by destruct (w_db w')|]. apply rebased_id.
  - apply AddBlobRefcounts_Ok in Hq as (bl & -> & Hbl). by exists bl.
Qed.

(** Releasing a node's extents takes from each blob the number of the node's
    extents in it, and changes nothing else. *)
Lemma releaseExtents_Ok n w u w' :
  releaseExtents n w = (Ok u, w') →
  ∃ bl, w_db w' = set_blobs bl (w_db w)
        ∧ rebased (λ id, - refs_if (of_node n) id (w_db w)) (d_blobs (w_db w)) bl.
Proof.
  unfold releaseExtents, extentRepository_ListByNode. intros H. m_inv.
  unfold ListExtentsByNode, many in Hq. simplify_eq.
  destruct (sort_by e_Seq (extents_of n (w_db w))) as [|e es] eqn:Hes.
  - m_inv. exists (d_blobs (w_db w)). split; [by destruct (w_db w)|].
    eapply rebased_ext; [|apply rebased_id]. intros id. simpl.
    by rewrite <- count_extents_of, Hes.
  - apply AddRefcounts_Ok in H as (bl & -> & Hbl). exists bl. split; [done|].
    eapply rebased_ext; [|exact Hbl]. intros id. simpl.
    rewrite blob_deltas_default, <- Hes, count_extents_of. lia.
Qed.

(** The extents of the nodes in a list. *)
Definition of_nodes (ns : list uuid) (e : Extent) : bool := bool_decide (e_NodeID e ∈ ns).

Lemma of_nodes_nil e : of_nodes [] e = false.
Proof. apply bool_decide_eq_false. apply not_elem_of_nil. Qed.

Lemma of_nodes_cons n ns e : of_nodes (n :: ns) e = of_node n e || of_nodes ns e.
Proof.
  unfold of_nodes, of_node. destruct (N.eqb_spec (e_NodeID e) n) as [->|Hne]; simpl.
  - apply bool_decide_eq_true. by left.
  - apply bool_decide_ext. rewrite elem_of_cons. naive_solver.
Qed.

Lemma of_node_notin n ns e : n ∉ ns → of_node n e = true → of_nodes ns e = false.
Proof. unfold of_nodes, of_node. intros Hn ->%N.eqb_eq. by apply bool_decide_eq_false. Qed.

Lemma refs_if_cons n ns id d : n ∉ ns →
  refs_if (of_nodes (n :: ns)) id d = refs_if (of_node n) id d + refs_if (of_nodes ns) id d.
Proof.
  intros Hn. unfold refs_if. rewrite (cnt_split _ (of_node n)).
  f_equal; apply cnt_ext; intros k e _; rewrite of_nodes_cons;
    pose proof (of_node_notin n ns e Hn) as Hx;
    destruct (N.eqb (e_BlobID e) id), (of_node n e), (of_nodes ns e); simpl; try done;
    by specialize (Hx eq_refl).
Qed.

Lemma refs_if_set_blobs P id bl d : refs_if P id (set_blobs bl d) = refs_if P id d.
Proof. done. Qed.

Definition file_ids (l : list Node) : list uuid := n_ID <$> List.filter (λ n, negb (n_IsDir n)) l.

Lemma file_ids_cons n l :
  file_ids (n :: l) = if n_IsDir n then file_ids l else n_ID n :: file_ids l.
Proof. unfold file_ids. simpl. by destruct (n_IsDir n). Qed.

Lemma release_files_Ok l w u w' :
  NoDup (n_ID <$> l) → release_files l w = (Ok u, w') →
  ∃ bl, w_db w' = set_blobs bl (w_db w)
        ∧ rebased (λ id, - refs_if (of_nodes (file_ids l)) id (w_db w)) (d_blobs (w_db w)) bl.
Proof.
  revert w. induction l as [|n l IH]; intros w Hnd H.
  - unfold release_files in H. simpl in H. m_inv. exists (d_blobs (w_db w')).
    split; [by destruct (w_db w')|]. eapply rebased_ext; [|apply rebased_id].
    intros id. simpl. unfold refs_if. rewrite cnt_zero; [done|].
    intros k e _. change (file_ids []) with (@nil uuid). by rewrite of_nodes_nil, andb_false_r.
  - rewrite fmap_cons in Hnd. apply NoDup_cons in Hnd as [Hn Hnd].
    unfold release_files in H. simpl in H. m_step. change (release_files l w0 = (Ok u, w')) in H.
    rewrite file_ids_cons. destruct (n_IsDir n).
    + m_inv. by apply IH.
    + apply releaseExtents_Ok in Hm as (bl1 & Hw & Hb1). apply IH in H as (bl & Hw' & Hb); [|done].
      exists bl. rewrite Hw', Hw. split; [by destruct (w_db w)|].
      rewrite Hw in Hb. simpl in Hb.
      eapply rebased_ext; [|by eapply rebased_trans]. intros id. simpl.
      rewrite refs_if_cons, refs_if_set_blobs; [lia|].
      intros (m & Hm & Hin)%list_elem_of_fmap. apply Hn. apply elem_of_Lfilter in Hin as [Hin _].
      apply list_elem_of_fmap. by exists m.
Qed.

End release.

(** ** Deleting nodes keeps the namespace a tree *)

Lemma delete_nodes_lookup S d j s :
  d_nodes (delete_nodes S d) !! j = Some s ↔
  d_nodes d !! j = Some s ∧ j ∉ cascade_set (d_nodes d) S.
Proof. unfold delete_nodes. simpl. rewrite map_lookup_filter_Some. done. Qed.

Lemma delete_extents_lookup S d k e :
  d_extents (delete_nodes S d) !! k = Some e ↔
  d_extents d !! k = Some e ∧ e_NodeID e ∉ cascade_set (d_nodes d) S.
Proof. unfold delete_nodes. simpl. rewrite map_lookup_filter_Some. done. Qed.

Lemma delete_wal_lookup S d k c :
  d_wal_chunks (delete_nodes S d) !! k = Some c ↔
  d_wal_chunks d !! k = Some c ∧ c_NodeID c ∉ cascade_set (d_nodes d) S.
Proof. unfold delete_nodes. simpl. rewrite map_lookup_filter_Some. done. Qed.

Lemma tree_ok_delete S d : tree_ok d → tree_ok (delete_nodes S d).
Proof.
  intros Hd. split.
  - intros id r [Hr _]%delete_nodes_lookup. by eapply tk_id.
  - intros id r [Hr _]%delete_nodes_lookup. by eapply tk_canon.
  - intros id r [Hr _]%delete_nodes_lookup. by eapply tk_root.
  - intros id r l x [Hr Hn]%delete_nodes_lookup Hl.
    destruct (tk_parent d Hd id r l x Hr Hl) as (Hname & p & rp & Hp & Hrp & ? & ? & ?).
    split; [done|]. exists p, rp. split_and!; try done.
    apply delete_nodes_lookup. split; [done|]. intros Hin. apply Hn.
    apply cascade_set_closed, elem_of_child_rows. exists r. split; [done|].
    unfold parent_in, rparent in *. rewrite Hp. by apply bool_decide_eq_true.
  - intros i j r s [Hr _]%delete_nodes_lookup [Hs _]%delete_nodes_lookup. by eapply tk_uniq.
  - intros k e [He Hn]%delete_extents_lookup. destruct (tk_extent d Hd k e He) as (r & Hr & ?).
    exists r. split; [|done]. by apply delete_nodes_lookup.
  - intros k c [Hc Hn]%delete_wal_lookup. destruct (tk_wal d Hd k c Hc) as [r Hr].
    exists r. by apply delete_nodes_lookup.
  - intros k b Hb. by eapply (tk_blob d Hd).
  - intros id r [Hr _]%delete_nodes_lookup. by eapply tk_files.
Qed.

Lemma tree_ok_rebased f bl d : tree_ok d → rebased f (d_blobs d) bl → tree_ok (set_blobs bl d).
Proof.
  intros Hd Hf. split; simpl; try by apply Hd.
  intros k b'. rewrite Hf. intros (b & Hb & ->)%fmap_Some. simpl. by eapply (tk_blob d Hd).
Qed.

(** ** Removal of a subtree *)

(** What is left once the rows of user [u] at and below [l] are gone. *)
Record cleared (u : uuid) (l : list string) (d d' : Db) : Prop := {
  rm_nodes : ∀ j s, d_nodes d' !! j = Some s ↔
    d_nodes d !! j = Some s ∧ ¬ (ruser s = u ∧ below l (rsegs s));
  rm_extents : ∀ k e, d_extents d' !! k = Some e ↔
    d_extents d !! k = Some e ∧ is_Some (d_nodes d' !! e_NodeID e);
  rm_wal : ∀ k c, is_Some (d_nodes d' !! c_NodeID c) →
    d_wal_chunks d' !! k = Some c ↔ d_wal_chunks d !! k = Some c;
  rm_users : d_users d' = d_users d;
  rm_conserves : conserves d d' }.

Definition removed (r : NodeRow) : Db → Db → Prop := cleared (ruser r) (rsegs r).

Lemma cleared_refl u l d :
  tree_ok d → (∀ j s, d_nodes d !! j = Some s → ruser s = u → ¬ below l (rsegs s)) →
  cleared u l d d.
Proof.
  intros Hd Hn. split; try done.
  - intros j s. split; [|by intros [? _]]. intros Hs. split; [done|]. intros [Hu Hb]. by eapply Hn.
  - intros k e. split; [|by intros [? _]]. intros He. split; [done|].
    destruct (tk_extent d Hd k e He) as (s & Hs & _). by exists s.
Qed.

(** The view after the rows at and below a path are gone. *)
Lemma cleared_view u l d d' v q : tree_ok d → tree_ok d' → cleared u l d d' →
  view d' v q = if decide (v = u ∧ below l q) then None else view d v q.
Proof.
  intros Hd Hd' Hc. destruct (decide (v = u ∧ below l q)) as [[-> Hb]|Hn].
  - apply view_None; [done|]. intros id r [_ Hr]%(rm_nodes _ _ _ _ Hc) Hu Hq. apply Hr.
    by rewrite Hq.
  - apply view_ext; [done..|]. intros r. split; intros (id & Hr & Hu & Hq); exists id.
    + by apply (rm_nodes _ _ _ _ Hc) in Hr as [? _].
    + split; [|done]. apply (rm_nodes _ _ _ _ Hc). split; [done|]. by rewrite Hu, Hq.
Qed.

Definition listed (u : uuid) (a : list string) (d : Db) : list Node :=
  nr_node <$> sort_by_str (λ r, n_Path (nr_node r))
                (rows (subtree_row u (render a) (subtree_pattern (render a))) (d_nodes d)).

Section removal.
Context (d : Db) (Hd : tree_ok d).

Lemma listed_elem u a n : a ≠ [] → segs_ok a →
  n ∈ listed u a d ↔
  ∃ r, d_nodes d !! n_ID n = Some r ∧ nr_node r = n ∧ ruser r = u ∧ below a (rsegs r).
Proof.
  intros Hne Ha. unfold listed. rewrite list_elem_of_fmap. split.
  - intros (r & -> & (id & Hr & ? & ?)%elem_of_subtree); [|done..].
    exists r. by rewrite (tk_id d Hd id r Hr).
  - intros (r & Hr & <- & ? & ?). exists r. split; [done|].
    apply elem_of_subtree; [done..|]. by eexists.
Qed.

Lemma listed_NoDup u a : NoDup (n_ID <$> listed u a d).
Proof. unfold listed. rewrite <- list_fmap_compose. by apply subtree_NoDup. Qed.

Lemma listed_files id r e k : d_nodes d !! id = Some r → rsegs r ≠ [] →
  d_extents d !! k = Some e →
  e_NodeID e ∈ file_ids (listed (ruser r) (rsegs r) d) ↔
  e_NodeID e ∈ cascade_set (d_nodes d) {[id]}.
Proof.
  intros Hr Hne He. rewrite (cascade_tree d Hd id r) by done.
  destruct (tk_extent d Hd k e He) as (s & Hs & Hfile).
  unfold file_ids. rewrite list_elem_of_fmap. split.
  - intros (n & Hn & [(s' & Hs' & <- & ? & ?)%listed_elem _]%elem_of_Lfilter); [|done|apply rsegs_ok].
    rewrite Hn. by exists s'.
  - intros (s' & Hs' & Hu & Hb). simplify_eq. exists (nr_node s).
    split; [symmetry; by eapply tk_id|]. apply elem_of_Lfilter. split.
    + apply listed_elem; [done|apply rsegs_ok|]. exists s.
      by rewrite (tk_id d Hd _ _ Hs).
    + unfold rdir in Hfile. by rewrite Hfile.
Qed.

(** Releasing the listed files and deleting the top row conserves the counts. *)
Lemma removal_conserves id r bl : d_nodes d !! id = Some r → rsegs r ≠ [] →
  rebased (λ b, - refs_if (of_nodes (file_ids (listed (ruser r) (rsegs r) d))) b d) (d_blobs d) bl →
  conserves d (delete_nodes {[id]} (set_blobs bl d)).
Proof.
  intros Hr Hne Hb b. simpl. rewrite Hb. destruct (d_blobs d !! b) as [x|]; [|done].
  simpl. f_equal. f_equal. f_equal. unfold refs, refs_if. simpl.
  set (D := cascade_set (d_nodes d) {[id]}).
  rewrite (cnt_filter _ _ (λ e, negb (bool_decide (e_NodeID e ∈ D)))).
  2: { intros k e. rewrite negb_true_iff. apply bool_decide_eq_false. }
  rewrite (cnt_split (λ e, N.eqb (e_BlobID e) b && true) (λ e, bool_decide (e_NodeID e ∈ D))).
  rewrite (cnt_ext (λ e, N.eqb (e_BlobID e) b && of_nodes _ e)
             (λ e, N.eqb (e_BlobID e) b && true && bool_decide (e_NodeID e ∈ D))); [lia|].
  intros k e He. rewrite andb_true_r. f_equal. unfold of_nodes. apply bool_decide_ext.
  by eapply listed_files.
Qed.

Lemma removal_removed id r bl : d_nodes d !! id = Some r → rsegs r ≠ [] →
  rebased (λ b, - refs_if (of_nodes (file_ids (listed (ruser r) (rsegs r) d))) b d) (d_blobs d) bl →
  removed r d (delete_nodes {[id]} (set_blobs bl d)).
Proof.
  intros Hr Hne Hb.
  assert (∀ j s, d_nodes (delete_nodes {[id]} (set_blobs bl d)) !! j = Some s ↔
                 d_nodes d !! j = Some s ∧ ¬ in_subtree r s) as Hnodes.
  { intros j s. rewrite delete_nodes_lookup. simpl. rewrite (cascade_tree d Hd id r j) by done.
    split; (intros [Hs Hn]; split; [done|]).
    - intros Hin. apply Hn. by exists s.
    - intros (s' & Hs' & Hin). by simplify_eq. }
  split; [done| | |done|by apply (removal_conserves id r)].
  - intros k e. rewrite delete_extents_lookup. simpl. split; (intros [He Hn]; split; [done|]).
    + destruct (tk_extent d Hd k e He) as (s & Hs & _). exists s. apply delete_nodes_lookup.
      by split.
    + destruct Hn as [s [_ Hn]%delete_nodes_lookup]. done.
  - intros k c [s [_ Hn]%delete_nodes_lookup]. rewrite delete_wal_lookup. simpl. tauto.
Qed.

End removal.

(** ** The operations that remove *)

Section removing.
Context {E : Env}.

Lemma ListSubtree_Ok u a w l w' :
  NodeRepository_ListSubtree u (render a) w = (Ok l, w') →
  l = listed u a (w_db w) ∧ w_db w' = w_db w.
Proof.
  unfold NodeRepository_ListSubtree. intros H. m_inv. unfold ListSubtree, many in Hq.
  by simplify_eq.
Qed.

Lemma GetByPath_Ok u l w n w' : tree_ok (w_db w) → segs_ok l →
  NodeRepository_GetByPath u (render l) w = (Ok n, w') →
  w' = tick w ∧
  ∃ r, d_nodes (w_db w) !! n_ID n = Some r ∧ nr_node r = n ∧ ruser r = u ∧ rsegs r = l.
Proof.
  intros Hd Hl. unfold NodeRepository_GetByPath. intros H. m_inv.
  apply get_by_path_Ok in Hq as (-> & id & Hr & Hid & Hu & Hs); [|done..].
  rewrite set_db_id. split; [done|]. exists x. by rewrite Hid.
Qed.

(** A lookup that fails either found no such node, or changed nothing and says
    so with another error. *)
Lemma GetByPath_Err u l w e w' : tree_ok (w_db w) → segs_ok l →
  NodeRepository_GetByPath u (render l) w = (Err e, w') →
  w_db w' = w_db w ∧ (w_tx w = None → w_tx w' = None) ∧
  (e = ErrNotFound → w' = tick w ∧
     ∀ id r, d_nodes (w_db w) !! id = Some r → ruser r = u → rsegs r ≠ l).
Proof.
  intros Hd Hl H. unfold NodeRepository_GetByPath in H.
  apply bind_cases in H as [(a & w1 & _ & [=])|(e' & H & [= ->])].
  apply translate_Err in H as (e0 & H & ->). unfold stmt in H.
  apply query_Err in H as (Hdb & _ & Htx & [(-> & _ & -> & Hq)|(Hh & _)]).
  - split_and!; [done..|]. intros _. split; [done|].
    by eapply get_by_path_Err in Hq as [_ Hq].
  - split_and!; [done..|]. intros He. by apply hard_not_found in Hh.
Qed.

Lemma with_fs_err_Ok {A} (m : M A) w a w' :
  with_fs_err m w = (Ok a, w') → m w = (Ok a, w').
Proof.
  unfold with_fs_err. rewrite try_run. destruct (m w) as [[a0|e] w1]; simpl; [|done].
  unfold ret. by intros [= -> ->].
Qed.

Lemma Delete_Ok id w u w' :
  NodeRepository_Delete id w = (Ok u, w') →
  is_Some (d_nodes (w_db w) !! id) ∧ w_db w' = delete_nodes {[id]} (w_db w).
Proof.
  unfold NodeRepository_Delete. intros H. m_inv. unfold DeleteNode in Hq.
  destruct (d_nodes (w_db w) !! id) eqn:Hid; by simplify_eq.
Qed.

Lemma remove_listed_Ok id r w u w' :
  tree_ok (w_db w) → d_nodes (w_db w) !! id = Some r → rsegs r ≠ [] →
  remove_listed (nr_node r) (listed (ruser r) (rsegs r) (w_db w)) w = (Ok u, w') →
  removed r (w_db w) (w_db w') ∧ tree_ok (w_db w').
Proof.
  intros Hd Hr Hne. unfold remove_listed.
  assert (nr_node r ∈ listed (ruser r) (rsegs r) (w_db w)) as Hin.
  { apply listed_elem; [done|done|apply rsegs_ok|]. exists r.
    rewrite (tk_id _ Hd id r Hr). split_and!; [done..|apply below_refl]. }
  destruct (listed _ _ _) as [|n0 l0] eqn:Hl; [by apply not_elem_of_nil in Hin|].
  rewrite <- Hl. intros H. m_step.
  apply release_files_Ok in Hm as (bl & Hw & Hb); [|by apply listed_NoDup].
  apply Delete_Ok in H as [_ ->]. rewrite Hw, (tk_id _ Hd id r Hr). split.
  - by apply removal_removed.
  - apply tree_ok_delete. by eapply tree_ok_rebased.
Qed.

Lemma removeWithin_Ok id r w u w' :
  tree_ok (w_db w) → d_nodes (w_db w) !! id = Some r → rsegs r ≠ [] →
  removeWithin (ruser r) (nr_node r) w = (Ok u, w') →
  removed r (w_db w) (w_db w') ∧ tree_ok (w_db w').
Proof.
  intros Hd Hr Hne. unfold removeWithin. rewrite (tk_canon _ Hd id r Hr). intros H. m_step.
  apply ListSubtree_Ok in Hm as [-> Hw]. rewrite <- Hw in *. by eapply remove_listed_Ok.
Qed.

(** A DELETE that reports success removed the named node and everything below it,
    nothing else, and the counts moved with the extents. *)
Lemma RemoveAll_removed ctx name w u w' :
  tree_ok (w_db w) → w_tx w = None →
  RemoveAll ctx name w = (Ok u, w') →
  ∃ user id r, acting ctx = Ok user ∧ d_nodes (w_db w) !! id = Some r
    ∧ ruser r = u_ID user ∧ rsegs r = path_segs (normalize name) ∧ rsegs r ≠ []
    ∧ removed r (w_db w) (w_db w') ∧ tree_ok (w_db w').
Proof.
  intros Hd Htx H. unfold RemoveAll in H.
  destruct (normalize_canonical name) as (l & Hl & Hn). rewrite Hn in *.
  rewrite path_segs_render by done.
  m_step. unfold of_res in Hm. destruct (acting ctx) as [user|]; [|done]. simplify_eq.
  destruct (String.eqb (render l) "/") eqn:Hroot; [done|].
  assert (l ≠ []) as Hne by by intros ->.
  m_step. apply with_fs_err_Ok, GetByPath_Ok in Hm as (-> & r & Hr & <- & Hu & Hs); [|done..].
  apply WithTx_Ok in H as (w1 & H & _ & ->); [|done].
  m_step. apply ListSubtree_Ok in Hm as [-> Hw0]. simpl in Hw0.
  simpl in H. rewrite <- Hu, <- Hs, <- Hw0 in H. rewrite <- Hw0 in *.
  eapply remove_listed_Ok in H as [Hrem Hok]; [|done|exact Hr|by rewrite Hs].
  eexists _, (n_ID (nr_node r)), r. split_and!; try done. by rewrite Hs.
Qed.

End removing.
