(* ===== verification/RenameFacts.v ===== *)
(** * MOVE: the rewriting of a subtree's paths *)
From Stdlib Require Import ZArith Lia Strings.Byte Strings.String Strings.Ascii.
From stdpp Require Import base tactics list gmap sets sorting strings.
From S2P Require Import Prelude Model Sql SqlFacts World Repository Path FileSystem Tree FsFacts.
#[local] Open Scope string_scope.
#[local] Open Scope Z_scope.

(** What the loop of [Rename] makes of one row. *)
Definition move_row (top parent : uuid) (src dst : string) (t : time) (r : NodeRow) : NodeRow :=
  let n := nr_node r in
  let is_top := N.eqb (n_ID n) top in
  mkNodeRow (moved_node n (if is_top then Some parent else n_ParentID n)
               (if is_top then Base dst else n_Name n)
               (dst +:+ TrimPrefix (n_Path n) src) t)
    (nr_lease_owner r) (nr_lease_until r).

Section moving.
Context {E : Env}.

Lemma Update_Ok n w u w' :
  NodeRepository_Update n w = (Ok u, w') →
  ∃ r, d_nodes (w_db w) !! n_ID n = Some r
       ∧ w_db w' = set_nodes (<[n_ID n := mkNodeRow (updated_node (nr_node r) n)
                     (nr_lease_owner r) (nr_lease_until r)]> (d_nodes (w_db w))) (w_db w).
Proof.
  unfold NodeRepository_Update. intros H. m_inv. unfold UpdateNode in Hq.
  destruct (d_nodes (w_db w) !! n_ID n) as [r|] eqn:Hr; [|by simplify_eq].
  destruct (path_taken _ _ _ _); [done|]. destruct (negb _); [done|]. simplify_eq.
  by exists r.
Qed.

Lemma move_child_Ok top parent src dst r w u w' :
  d_nodes (w_db w) !! n_ID (nr_node r) = Some r →
  move_child top parent src dst (nr_node r) w = (Ok u, w') →
  ∃ t, w_db w' = set_nodes (<[n_ID (nr_node r) := move_row top parent src dst t r]>
                              (d_nodes (w_db w))) (w_db w).
Proof.
  intros Hr H. unfold move_child in H. m_step. m_step. apply Update_Ok in H as (r0 & Hr0 & ->).
  simpl in *. simplify_eq. eexists. done.
Qed.

Lemma move_loop_Ok top parent src dst l w u w' :
  NoDup (n_ID <$> l) →
  (∀ n, n ∈ l → ∃ r, d_nodes (w_db w) !! n_ID n = Some r ∧ nr_node r = n) →
  for_each l (move_child top parent src dst) w = (Ok u, w') →
  ∃ (ts : uuid → time) nodes', w_db w' = set_nodes nodes' (w_db w) ∧
    ∀ j, nodes' !! j = (λ r, if decide (j ∈ n_ID <$> l)
                             then move_row top parent src dst (ts j) r else r)
                       <$> d_nodes (w_db w) !! j.
Proof.
  revert w. induction l as [|n l IH]; intros w Hnd Hl H; simpl in H.
  - m_inv. exists (λ _, 0), (d_nodes (w_db w')). split; [by destruct (w_db w')|].
    intros j. destruct (d_nodes (w_db w') !! j) as [s|]; [|done]. simpl.
    destruct (decide (j ∈ [])) as [Hj|]; [by apply not_elem_of_nil in Hj|done].
  - rewrite fmap_cons in Hnd. apply NoDup_cons in Hnd as [Hn Hnd]. m_step.
    destruct (Hl n ltac:(by left)) as (r & Hr & <-).
    apply move_child_Ok in Hm as [t Ht]; [|done].
    apply IH in H as (ts & nodes' & Hw' & Hnodes); [|done|].
    + exists (λ j, if decide (j = n_ID (nr_node r)) then t else ts j), nodes'.
      rewrite Hw', Ht. split; [done|]. intros j. rewrite Hnodes, Ht. simpl.
      destruct (decide (j = n_ID (nr_node r))) as [->|Hj].
      * rewrite lookup_insert_eq, Hr. simpl. rewrite decide_False by done.
        by rewrite decide_True by by left.
      * rewrite lookup_insert_ne by done. destruct (d_nodes (w_db w) !! j); [|done]. simpl.
        f_equal. destruct (decide (j ∈ n_ID <$> l)).
        -- by rewrite decide_True by by right.
        -- rewrite decide_False; [done|]. by intros [->|?]%elem_of_cons.
    + intros m Hm. destruct (Hl m ltac:(by right)) as (rm & Hrm & <-).
      exists rm. split; [|done]. rewrite Ht. simpl. rewrite lookup_insert_ne; [done|].
      intros Heq. apply Hn. rewrite Heq. apply list_elem_of_fmap. by exists (nr_node rm).
Qed.

End moving.

(** ** The tree after a move *)

#[global] Instance in_subtree_dec r s : Decision (in_subtree r s).
Proof. unfold in_subtree. apply _. Defined.

Section moved_tree.
Context (d : Db) (Hd : tree_ok d).

Context (id p : uuid) (r rp : NodeRow) (b : list string) (bx : string).
Hypothesis Hr : d_nodes d !! id = Some r.
Hypothesis Hrp : d_nodes d !! p = Some rp.
Hypothesis Hpu : ruser rp = ruser r.
Hypothesis Hpd : rdir rp = true.
Hypothesis Hps : rsegs rp = b.
Hypothesis Hok : segs_ok (b ++ [bx])%list.
Hypothesis Hne : rsegs r ≠ [].
Hypothesis Hnb : ¬ below (rsegs r) (b ++ [bx])%list.
(** Nothing lives at the destination. *)
Hypothesis Hfree : ∀ j s, d_nodes d !! j = Some s → ruser s = ruser r →
  ¬ below (b ++ [bx])%list (rsegs s).

Abbreviation a := (rsegs r).
Abbreviation dst := (b ++ [bx])%list.

Lemma move_row_segs t s c : rsegs s = (a ++ c)%list → n_Path (nr_node s) = render (rsegs s) →
  rsegs (move_row id p (render a) (render dst) t s) = (dst ++ c)%list
  ∧ n_Path (nr_node (move_row id p (render a) (render dst) t s)) = render (dst ++ c)%list.
Proof.
  intros Hs Hc. unfold rsegs at 1. simpl. rewrite Hc, Hs.
  assert (dst ≠ []) by (by intros []%app_nil).
  rewrite rename_path; [|rewrite <- Hs; apply rsegs_ok|done..].
  split; [|done]. apply path_segs_render. apply Forall_app. split; [done|].
  pose proof (rsegs_ok s) as Hso. rewrite Hs in Hso. by apply Forall_app in Hso as [_ ?].
Qed.

Context (ts : uuid → time) (nodes' : gmap uuid NodeRow).
Hypothesis Hmoved : ∀ j, nodes' !! j =
  (λ s, if decide (in_subtree r s) then move_row id p (render a) (render dst) (ts j) s else s)
  <$> d_nodes d !! j.

(** Where a row of the new table comes from, and where it is. *)
Lemma moved_inv j s' : nodes' !! j = Some s' →
  ∃ s, d_nodes d !! j = Some s ∧ ruser s' = ruser s ∧ rdir s' = rdir s
    ∧ n_ID (nr_node s') = n_ID (nr_node s)
    ∧ ((in_subtree r s ∧ s' = move_row id p (render a) (render dst) (ts j) s
        ∧ ∃ c, rsegs s = (a ++ c)%list ∧ rsegs s' = (dst ++ c)%list
               ∧ n_Path (nr_node s') = render (dst ++ c)%list)
       ∨ (¬ in_subtree r s ∧ s' = s)).
Proof.
  rewrite Hmoved. intros (s & Hs & ->)%fmap_Some. exists s. split; [done|].
  destruct (decide (in_subtree r s)) as [Hin|Hin]; [|by split_and!; auto].
  split_and!; [done..|]. left. split_and!; [done..|]. destruct Hin as [_ [c Hc]].
  exists c. split; [done|]. apply move_row_segs; [done|]. by eapply tk_canon.
Qed.

(** Nothing above the destination moves. *)
Lemma parent_stays : ¬ in_subtree r rp.
Proof.
  intros [_ Hb]. rewrite Hps in Hb. apply Hnb. eapply below_trans; [exact Hb|]. by exists [bx].
Qed.

Lemma moved_parent_top j s : d_nodes d !! j = Some s → in_subtree r s → rsegs s = a → j = id.
Proof. intros Hs [Hu _] Hl. by eapply (tk_uniq d Hd). Qed.

Lemma moved_parent j s' l x : nodes' !! j = Some s' → rsegs s' = (l ++ [x])%list →
  n_Name (nr_node s') = x ∧
  ∃ q rq, rparent s' = Some q ∧ nodes' !! q = Some rq ∧ rsegs rq = l
          ∧ ruser rq = ruser s' ∧ rdir rq = true.
Proof.
  pose proof parent_stays as Hstay. pose proof move_row_segs as Hsegs.
  intros Hj Hl. destruct (moved_inv j s' Hj) as (s & Hs & Hu & Hdir & Hid & [(Hin & He & c & Hc & Hc' & _)|[Hout ->]]).
  - destruct c as [|y c _] using rev_ind.
    + rewrite app_nil_r in Hc, Hc'. rewrite Hc' in Hl. apply app_inj_tail in Hl as [<- <-].
      pose proof (moved_parent_top j s Hs Hin Hc) as ->. simplify_eq.
      pose proof (tk_id d Hd _ _ Hr) as Hidr.
      unfold rparent. simpl. rewrite Hidr, N.eqb_refl.
      split; [by rewrite Base_render|]. exists p, rp. split_and!; try done.
      rewrite Hmoved, Hrp. simpl. by rewrite decide_False.
    + rewrite app_assoc in Hc, Hc'. rewrite Hc' in Hl. apply app_inj_tail in Hl as [<- <-].
      destruct (tk_parent d Hd j s _ y Hs Hc) as (Hname & q & rq & Hq & Hrq & Hlq & Huq & Hdq).
      assert (N.eqb (n_ID (nr_node s)) id = false) as Hnt.
      { apply N.eqb_neq. intros Hx. rewrite (tk_id d Hd _ _ Hs) in Hx. subst j. simplify_eq.
        apply (f_equal length) in Hc. rewrite !length_app in Hc. simpl in Hc. lia. }
      unfold rparent in *. subst s'. simpl. rewrite Hnt. split; [done|].
      exists q. rewrite Hmoved, Hrq. simpl.
      assert (in_subtree r rq) as Hrin by (split; [destruct Hin; congruence|by exists c]).
      eexists. rewrite decide_True by done. split_and!; [done|done| |done|done].
      destruct (Hsegs (ts q) rq c Hlq) as [-> _]; [by eapply tk_canon|done].
  - destruct (tk_parent d Hd j s l x Hs Hl) as (Hname & q & rq & Hq & Hrq & Hlq & Huq & Hdq).
    split; [done|]. exists q, rq. split_and!; try done. rewrite Hmoved, Hrq. simpl.
    rewrite decide_False; [done|]. intros [Huin Hbin]. apply Hout. split; [congruence|].
    eapply below_trans; [exact Hbin|]. exists [x]. congruence.
Qed.

Lemma moved_tree_ok : tree_ok (set_nodes nodes' d).
Proof.
  split; simpl.
  - intros j s' Hj. destruct (moved_inv j s' Hj) as (s & Hs & _ & _ & -> & _). by eapply tk_id.
  - intros j s' Hj. destruct (moved_inv j s' Hj) as (s & Hs & _ & _ & _ & [(_ & _ & c & _ & -> & Hp)|[_ ->]]);
      [done|by eapply tk_canon].
  - intros j s' Hj Hl. destruct (moved_inv j s' Hj) as (s & Hs & _ & _ & _ & [(_ & _ & c & _ & Hc & _)|[_ ->]]).
    + rewrite Hc in Hl. by destruct b.
    + by eapply tk_root.
  - apply moved_parent.
  - intros i j s1 s2 Hi Hj Hu Hl.
    destruct (moved_inv i s1 Hi) as (o1 & Ho1 & Hu1 & _ & _ & H1).
    destruct (moved_inv j s2 Hj) as (o2 & Ho2 & Hu2 & _ & _ & H2).
    rewrite Hu1, Hu2 in Hu.
    destruct H1 as [(Hin1 & _ & c1 & Hc1 & Hd1 & _)|[Hout1 ->]],
             H2 as [(Hin2 & _ & c2 & Hc2 & Hd2 & _)|[Hout2 ->]].
    + rewrite Hd1, Hd2 in Hl. apply app_inv_head in Hl as ->.
      eapply (tk_uniq d Hd); [done..|congruence].
    + exfalso. apply (Hfree j o2 Ho2); [destruct Hin1; congruence|]. exists c1. congruence.
    + exfalso. apply (Hfree i o1 Ho1); [destruct Hin2; congruence|]. exists c2. congruence.
    + by eapply (tk_uniq d Hd).
  - intros k e He. destruct (tk_extent d Hd k e He) as (s & Hs & Hf).
    rewrite Hmoved, Hs. simpl. eexists. split; [done|]. by destruct (decide _).
  - intros k c Hc. destruct (tk_wal d Hd k c Hc) as [s Hs]. rewrite Hmoved, Hs. by eexists.
  - apply (tk_blob d Hd).
  - intros j s'. rewrite Hmoved. intros (s & Hs & ->)%fmap_Some. pose proof (tk_files d Hd _ _ Hs). by destruct (decide _).
Qed.

End moved_tree.

(** ** The operation *)

(** The row a MOVE from [a] to [b] makes of a row of the table: the moved subtree
    is rewritten, any other row is kept. *)
Definition renamed_row (r : NodeRow) (parent : uuid) (b : list string) (t : time)
    (s : NodeRow) : NodeRow :=
  if decide (in_subtree r s)
  then move_row (n_ID (nr_node r)) parent (render (rsegs r)) (render b) t s else s.

Section rename.
Context {E : Env}.

Lemma if_exists_Ok u l k w x w' : tree_ok (w_db w) → segs_ok l →
  if_exists u (render l) k w = (Ok x, w') →
  (∃ r, d_nodes (w_db w) !! n_ID (nr_node r) = Some r ∧ ruser r = u ∧ rsegs r = l
        ∧ k (nr_node r) (tick w) = (Ok x, w'))
  ∨ (w' = tick w ∧ ∀ j s, d_nodes (w_db w) !! j = Some s → ruser s = u → ¬ below l (rsegs s)).
Proof.
  intros Hd Hl. unfold if_exists. rewrite try_run.
  destruct (NodeRepository_GetByPath u (render l) w) as [[n|e] w1] eqn:Hg; simpl.
  - apply GetByPath_Ok in Hg as (-> & r & Hr & <- & Hu & Hs); [|done..]. intros H. left.
    by exists r.
  - apply GetByPath_Err in Hg as (_ & _ & Hg); [|done..].
    unfold errors_Is. case_bool_decide; [|done]. intros H1. right. unfold ret in H1.
    destruct (Hg H) as [-> Hn]. simplify_eq. split; [done|].
    intros j s Hs Hu [m Hm]. destruct (ancestor_exists _ Hd j s l m Hs Hm) as (i & q & Hq & Hqu & Hql).
    eapply Hn; [exact Hq|congruence|done].
Qed.

Lemma clear_dst_Ok u l w x w' : tree_ok (w_db w) → segs_ok l → l ≠ [] →
  if_exists u (render l) (removeWithin u) w = (Ok x, w') →
  cleared u l (w_db w) (w_db w') ∧ tree_ok (w_db w').
Proof.
  intros Hd Hl Hne H. apply if_exists_Ok in H as [(r & Hr & <- & <- & H)|[-> Hn]]; [| |done..].
  - by eapply removeWithin_Ok in H.
  - split; [|done]. by apply cleared_refl.
Qed.

(** A file has nothing below it. *)
Lemma file_subtree d i r j s : tree_ok d → d_nodes d !! i = Some r → rdir r = false →
  d_nodes d !! j = Some s → in_subtree r s → j = i ∧ s = r.
Proof.
  intros Hd Hr Hf Hs [Hu [m Hm]].
  assert (rsegs s = rsegs r) as Heq.
  { destruct m as [|x m]; [by rewrite app_nil_r in Hm|exfalso].
    destruct (ancestor_exists d Hd j s (rsegs r ++ [x])%list m Hs) as (k & q & Hq & Hqu & Hql).
    { by rewrite <- app_assoc. }
    destruct (tk_parent d Hd k q _ x Hq Hql) as (_ & p & rp & _ & Hrp & Hl & Hpu & Hpd).
    assert (p = i) as -> by (eapply (tk_uniq d Hd); [done..|congruence|done]).
    congruence. }
  assert (j = i) as -> by by eapply (tk_uniq d Hd). split; congruence.
Qed.

Definition renames (r : NodeRow) (parent : uuid) (b : list string) (d d' : Db) : Prop :=
  ∃ ts nodes', d' = set_nodes nodes' d ∧
    ∀ j, nodes' !! j = renamed_row r parent b (ts j) <$> d_nodes d !! j.

Lemma TrimPrefix_self s : TrimPrefix s s = "".
Proof. rewrite <- (str_app_nil_r s) at 1. apply TrimPrefix_app. Qed.

(** The rewriting itself, on tables where nothing lives at the destination. *)
Lemma rewrite_Ok i r p b w x w' : tree_ok (w_db w) → d_nodes (w_db w) !! i = Some r →
  rsegs r ≠ [] →
  (if n_IsDir (nr_node r) then
     bind (NodeRepository_ListSubtree (ruser r) (render (rsegs r)))
       (λ subtree, for_each subtree (move_child (n_ID (nr_node r)) p (render (rsegs r)) (render b)))
   else bind Now (λ now,
     NodeRepository_Update (moved_node (nr_node r) (Some p) (Base (render b)) (render b) now))) w
  = (Ok x, w') →
  renames r p b (w_db w) (w_db w').
Proof.
  intros Hd Hr Hne H. pose proof (tk_id _ Hd _ _ Hr) as Hid.
  destruct (n_IsDir (nr_node r)) eqn:Hdir.
  - m_step. apply ListSubtree_Ok in Hm as [-> Hw]. rewrite <- Hw in *.
    apply move_loop_Ok in H as (ts & nodes' & Hw' & Hn).
    + rewrite Hw' in *. exists ts, nodes'. split; [done|]. intros j. rewrite Hn. unfold renamed_row.
      destruct (d_nodes (w_db w0) !! j) as [s|] eqn:Hs; [|done]. simpl. f_equal.
      destruct (decide (in_subtree r s)) as [Hin|Hin].
      * rewrite decide_True; [done|]. apply list_elem_of_fmap. exists (nr_node s).
        split; [symmetry; by eapply tk_id|]. apply listed_elem; [done|done|apply rsegs_ok|].
        exists s. by rewrite (tk_id _ Hd _ _ Hs).
      * rewrite decide_False; [done|]. intros (n & Hj & Hl)%list_elem_of_fmap.
        apply listed_elem in Hl as (s' & Hs' & <- & ? & ?); [|done|done|apply rsegs_ok].
        rewrite <- Hj, Hs in Hs'. simplify_eq. by apply Hin.
    + by apply listed_NoDup.
    + intros n Hin. apply listed_elem in Hin as (s & Hs & <- & _); [|done|done|apply rsegs_ok].
      by exists s.
  - m_step. m_step. apply Update_Ok in H as (r1 & Hr1 & ->). simpl in *.
    assert (r1 = r) as -> by congruence. clear Hr1.
    exists (λ _, env_now (w_step w)). eexists. split; [done|]. intros j. unfold renamed_row.
    destruct (decide (j = n_ID (nr_node r))) as [->|Hj].
    + rewrite lookup_insert_eq, Hr. simpl.
      rewrite decide_True by (split; [done|apply below_refl]). unfold move_row.
      rewrite N.eqb_refl, (tk_canon _ Hd _ _ Hr), TrimPrefix_self, str_app_nil_r. done.
    + rewrite lookup_insert_ne by done. destruct (d_nodes (w_db w) !! j) as [s|] eqn:Hs; [|done].
      simpl. rewrite decide_False; [done|]. intros Hin.
      destruct (file_subtree _ _ _ _ _ Hd Hr Hdir Hs Hin). done.
Qed.

(** The guards of [Rename] and the rows it reads, on a run that succeeds. *)
Lemma rename_tx_inv u a b w x w' :
  tree_ok (w_db w) → segs_ok a → segs_ok b → a ≠ [] → b ≠ [] →
  rename_tx u (render a) (render b) w = (Ok x, w') →
  ∃ r rp bl bx w1, b = (bl ++ [bx])%list
    ∧ d_nodes (w_db w) !! n_ID (nr_node r) = Some r ∧ ruser r = u ∧ rsegs r = a
    ∧ d_nodes (w_db w) !! n_ID (nr_node rp) = Some rp ∧ ruser rp = u ∧ rsegs rp = bl
    ∧ rdir rp = true
    ∧ cleared u b (w_db w) (w_db w1) ∧ tree_ok (w_db w1)
    ∧ (if n_IsDir (nr_node r) then
         bind (NodeRepository_ListSubtree u (render a))
           (λ subtree, for_each subtree
              (move_child (n_ID (nr_node r)) (n_ID (nr_node rp)) (render a) (render b)))
       else bind Now (λ now, NodeRepository_Update
              (moved_node (nr_node r) (Some (n_ID (nr_node rp))) (Base (render b)) (render b) now)))
        w1 = (Ok x, w').
Proof.
  intros Hd Ha Hb Hane Hbne H. unfold rename_tx in H.
  destruct (exists_last Hbne) as (bl & bx & ->).
  pose proof Hb as [Hbl _]%segs_ok_snoc.
  m_step. apply with_fs_err_Ok, GetByPath_Ok in Hm as (-> & r & Hr & <- & Hu & Hs); [|done..].
  m_step. rewrite Dir_render in Hm by done.
  apply with_fs_err_Ok, GetByPath_Ok in Hm as (-> & rp & Hrp & <- & Hpu & Hps); [|done..].
  destruct (n_IsDir (nr_node rp)) eqn:Hpd; [|done]. simpl in H.
  m_step. apply clear_dst_Ok in Hm as [Hcl Hd1]; [|done..].
  exists r, rp, bl, bx, w0. by split_and!.
Qed.

Lemma conserves_set_nodes d nodes : conserves d (set_nodes nodes d).
Proof. by apply conserves_frame. Qed.

Lemma cleared_parent u l x d d1 rp : tree_ok d → cleared u (l ++ [x])%list d d1 →
  d_nodes d !! n_ID (nr_node rp) = Some rp → rsegs rp = l →
  d_nodes d1 !! n_ID (nr_node rp) = Some rp.
Proof.
  intros Hd Hcl Hrp Hl. apply (rm_nodes _ _ _ _ Hcl). split; [done|]. intros [_ [m Hm]].
  rewrite Hl in Hm. apply (f_equal length) in Hm. rewrite !length_app in Hm. simpl in Hm. lia.
Qed.

Lemma rename_tx_moves u a b w x w' :
  tree_ok (w_db w) → segs_ok a → segs_ok b → a ≠ [] → b ≠ [] →
  ¬ below a b → ¬ below b a →
  rename_tx u (render a) (render b) w = (Ok x, w') →
  ∃ r p d1, d_nodes (w_db w) !! n_ID (nr_node r) = Some r ∧ ruser r = u ∧ rsegs r = a
    ∧ cleared u b (w_db w) d1 ∧ tree_ok d1 ∧ renames r p b d1 (w_db w')
    ∧ tree_ok (w_db w') ∧ conserves (w_db w) (w_db w').
Proof.
  intros Hd Ha Hb Hane Hbne Hab Hba H. apply rename_tx_inv in H
    as (r & rp & bl & bx & w1 & -> & Hr & Hu & Hs & Hrp & Hpu & Hps & Hpd & Hcl & Hd1 & H);
    [|done..]. subst u a.
  assert (d_nodes (w_db w1) !! n_ID (nr_node r) = Some r) as Hr1.
  { apply (rm_nodes _ _ _ _ Hcl). split; [done|]. by intros [_ ?]. }
  pose proof (cleared_parent _ _ _ _ _ _ Hd Hcl Hrp Hps) as Hrp1.
  apply (rewrite_Ok (n_ID (nr_node r))) in H as (ts & nodes' & Hw' & Hn); [|done..].
  exists r, (n_ID (nr_node rp)), (w_db w1). split_and!; [done..| | |].
  - by exists ts, nodes'.
  - rewrite Hw'. eapply (moved_tree_ok (w_db w1) Hd1 _ _ r rp bl bx Hr1 Hrp1); try done.
    + intros j s Hj Huj Hbj. apply (rm_nodes _ _ _ _ Hcl) in Hj as [_ Hj]. by apply Hj.
  - etrans; [apply (rm_conserves _ _ _ _ Hcl)|]. rewrite Hw'. apply conserves_set_nodes.
Qed.

(** [CutPrefix] on segment lists. *)
Fixpoint cut_segs (q b : list string) {struct b} : option (list string) :=
  match b with
  | [] => Some q
  | x :: b' => match q with
               | y :: q' => if String.eqb x y then cut_segs q' b' else None
               | [] => None
               end
  end.

Lemma cut_segs_Some q b c : cut_segs q b = Some c ↔ q = (b ++ c)%list.
Proof.
  revert q. induction b as [|x b IH]; intros q; simpl; [split; congruence|].
  destruct q as [|y q]; [done|]. destruct (String.eqb_spec x y) as [->|Hne].
  - rewrite IH. split; congruence.
  - split; [done|]. intros [=]. congruence.
Qed.

Lemma below_comparable a b c : below a c → below b c → below a b ∨ below b a.
Proof.
  intros [x Hx] [y Hy]. subst c. revert b Hy. induction a as [|s a IH]; intros b Hy.
  - left. by exists b.
  - destruct b as [|t b]; [right; by exists (s :: a)|]. simpl in Hy. injection Hy as <- Hy.
    destruct (IH b Hy) as [[z ->]|[z ->]]; [left|right]; by exists z.
Qed.

(** The namespace after a move: what was at [a ++ c] is at [b ++ c], nothing is at
    or below [a], everything else is where it was. *)
Definition moved_view (r : NodeRow) (p : uuid) (b : list string) (ts : uuid → time)
    (d : Db) (v : uuid) (q : list string) : option NodeRow :=
  if decide (v = ruser r) then
    match cut_segs q b with
    | Some c => (λ s, move_row (n_ID (nr_node r)) p (render (rsegs r)) (render b)
                        (ts (n_ID (nr_node s))) s) <$> view d v (rsegs r ++ c)%list
    | None => if decide (below (rsegs r) q) then None else view d v q
    end
  else view d v q.

Lemma move_row_at i p b t r s c : b ≠ [] → rsegs r ≠ [] → segs_ok b →
  rsegs s = (rsegs r ++ c)%list → n_Path (nr_node s) = render (rsegs s) →
  rsegs (move_row i p (render (rsegs r)) (render b) t s) = (b ++ c)%list.
Proof.
  intros Hb Hr Hok Hs Hc. unfold rsegs at 1. simpl. rewrite Hc, Hs.
  rewrite rename_path; [|rewrite <- Hs; apply rsegs_ok|done..].
  apply path_segs_render. apply Forall_app. split; [done|].
  pose proof (rsegs_ok s) as Hso. rewrite Hs in Hso. by apply Forall_app in Hso as [_ ?].
Qed.

Lemma renames_view r p b d d1 nodes' ts v q :
  tree_ok d → tree_ok d1 → tree_ok (set_nodes nodes' d1) →
  cleared (ruser r) b d d1 → segs_ok b → b ≠ [] → rsegs r ≠ [] →
  ¬ below (rsegs r) b → ¬ below b (rsegs r) →
  (∀ j, nodes' !! j = renamed_row r p b (ts j) <$> d_nodes d1 !! j) →
  view (set_nodes nodes' d1) v q = moved_view r p b ts d v q.
Proof.
  intros Hd Hd1 Hd' Hcl Hb Hbne Hrne Hab Hba Hn.
  assert (∀ s, view (set_nodes nodes' d1) v q = Some s ↔
    ∃ j o, d_nodes d1 !! j = Some o ∧ s = renamed_row r p b (ts j) o ∧ ruser s = v ∧ rsegs s = q)
    as Hview.
  { intros s. rewrite view_Some by done. simpl. split.
    - intros (j & Hj & Hu & Hq). rewrite Hn in Hj. apply fmap_Some in Hj as (o & Ho & ->).
      by exists j, o.
    - intros (j & o & Ho & -> & Hu & Hq). exists j. rewrite Hn, Ho. done. }
  apply option_eq. intros s. rewrite Hview. clear Hview. unfold moved_view, renamed_row.
  destruct (decide (v = ruser r)) as [->|Hv].
  2: { rewrite view_Some by done. split.
    - intros (j & o & Ho & -> & Hu & Hq). destruct (decide (in_subtree r o)) as [[Huo _]|].
      { destruct Hv. by rewrite <- Hu, <- Huo. }
      apply (rm_nodes _ _ _ _ Hcl) in Ho as [Ho _]. by exists j.
    - intros (j & Hj & Hu & Hq). exists j, s. rewrite decide_False by (intros [? _]; congruence).
      split_and!; try done. apply (rm_nodes _ _ _ _ Hcl). split; [done|]. intros [? _]. congruence. }
  destruct (cut_segs q b) as [c|] eqn:Hc.
  - apply cut_segs_Some in Hc as ->. rewrite fmap_Some. setoid_rewrite view_Some; [|done]. split.
    + intros (j & o & Ho & -> & Hu & Hq). pose proof (tk_canon _ Hd1 _ _ Ho).
      destruct (decide (in_subtree r o)) as [[Huo [c' Hc']]|Hout].
      * rewrite (move_row_at _ _ b _ r o c') in Hq by done. apply app_inv_head in Hq as ->.
        exists o. rewrite (tk_id _ Hd1 _ _ Ho). split; [|done]. exists j.
        by apply (rm_nodes _ _ _ _ Hcl) in Ho as [? _].
      * apply (rm_nodes _ _ _ _ Hcl) in Ho as [_ Ho]. destruct Ho. split; [done|]. by exists c.
    + intros (o & (j & Ho & Hu & Hq) & ->). exists j, o. rewrite (tk_id _ Hd _ _ Ho).
      assert (in_subtree r o) as Hin by (split; [done|by exists c]).
      rewrite decide_True by done. split_and!; [|done|done|].
      * apply (rm_nodes _ _ _ _ Hcl). split; [done|]. intros [_ Hbo].
        assert (below (rsegs r) (rsegs o)) as Hao by by exists c.
        by destruct (below_comparable _ _ _ Hao Hbo).
      * apply move_row_at; try done. exact (tk_canon _ Hd _ _ Ho).
  - assert (¬ below b q) as Hbq.
    { intros [c Hq]. apply cut_segs_Some in Hq. congruence. }
    destruct (decide (below (rsegs r) q)) as [Hin|Hout].
    + split; [|done]. intros (j & o & Ho & -> & Hu & Hq). exfalso.
      destruct (decide (in_subtree r o)) as [[Huo [c' Hc']]|Hout].
      * rewrite (move_row_at _ _ b _ r o c') in Hq by (done || exact (tk_canon _ Hd1 _ _ Ho)).
        apply Hbq. by exists c'.
      * apply Hout. split; [done|]. by rewrite Hq.
    + rewrite view_Some by done. split.
      * intros (j & o & Ho & -> & Hu & Hq). exists j.
        destruct (decide (in_subtree r o)) as [[Huo [c' Hc']]|_].
        -- rewrite (move_row_at _ _ b _ r o c') in Hq by (done || exact (tk_canon _ Hd1 _ _ Ho)).
           destruct Hbq. by exists c'.
        -- by apply (rm_nodes _ _ _ _ Hcl) in Ho as [? _].
      * intros (j & Hj & Hu & Hq). exists j, s. rewrite decide_False.
        2: { intros [_ Hbs]. by rewrite Hq in Hbs. }
        split_and!; try done. apply (rm_nodes _ _ _ _ Hcl). split; [done|]. intros [_ Hbs].
        by rewrite Hq in Hbs.
Qed.

(** A move onto an ancestor of its source deletes the source with it. *)
Lemma rename_tx_ancestor u a b w x w' :
  tree_ok (w_db w) → segs_ok a → segs_ok b → a ≠ [] → b ≠ [] → below b a →
  rename_tx u (render a) (render b) w = (Ok x, w') →
  cleared u b (w_db w) (w_db w') ∧ tree_ok (w_db w').
Proof.
  intros Hd Ha Hb Hane Hbne Hba H. apply rename_tx_inv in H
    as (r & rp & bl & bx & w1 & -> & Hr & Hu & Hs & _ & _ & _ & _ & Hcl & Hd1 & H); [|done..].
  destruct (n_IsDir (nr_node r)).
  - m_step. apply ListSubtree_Ok in Hm as [-> Hw].
    assert (listed u a (w_db w1) = []) as Hnil.
    { apply elem_of_nil_inv. intros n (s & Hsn & <- & Hus & Hbs)%listed_elem; [|done..].
      apply (rm_nodes _ _ _ _ Hcl) in Hsn as [_ Hsn]. apply Hsn. split; [done|].
      by eapply below_trans. }
    rewrite Hnil in H. simpl in H. m_inv. by rewrite Hw.
  - m_step. m_step. apply Update_Ok in H as (r0 & Hr0 & _). simpl in Hr0.
    apply (rm_nodes _ _ _ _ Hcl) in Hr0 as [Hr0 Hn]. destruct Hn.
    rewrite Hr in Hr0. simplify_eq. by split.
Qed.

End rename.
