(* ===== verification/CreateFacts.v ===== *)
(** * MKCOL and the creation of rows *)
From Stdlib Require Import ZArith Lia Strings.Byte Strings.String Strings.Ascii.
From stdpp Require Import base tactics list gmap sets sorting strings.
From S2P Require Import Prelude Model Sql SqlFacts World Repository Path FileSystem Tree FsFacts.
#[local] Open Scope string_scope.
#[local] Open Scope Z_scope.

Definition added (n : Node) (d : Db) : Db :=
  set_nodes (<[n_ID n := mkNodeRow n "" None]> (d_nodes d)) d.

(** Where a new row may hang. *)
Definition placed (d : Db) (n : Node) (l : list string) : Prop :=
  (n_State n = NodeStateBuffered → n_IsDir n = false) ∧ segs_ok l ∧ n_Path n = render l ∧
  match reverse l with
  | [] => n_ParentID n = None ∧ n_IsDir n = true
  | x :: _ => n_Name n = x ∧ ∃ p rp, n_ParentID n = Some p ∧ d_nodes d !! p = Some rp
      ∧ l = (rsegs rp ++ [x])%list ∧ ruser rp = n_UserID n ∧ rdir rp = true
  end.

Section create.
Context (d : Db) (Hd : tree_ok d).

Lemma CreateNode_Ok n u d' : CreateNode n d = SqlOk u d' →
  d' = added n d ∧ d_nodes d !! n_ID n = None
  ∧ ∀ j r, d_nodes d !! j = Some r → ruser r = n_UserID n → n_Path (nr_node r) ≠ n_Path n.
Proof.
  unfold CreateNode. case_bool_decide as Hid; [done|].
  destruct (path_taken _ _ _ _) eqn:Hp; [done|]. destruct (_ || _); [done|]. intros [= <-].
  assert (d_nodes d !! n_ID n = None) as Hnone by by apply eq_None_not_Some.
  split_and!; [done..|]. intros j r Hj Hu Hpath. unfold path_taken in Hp.
  rewrite row_exists_false in Hp. specialize (Hp j r Hj). unfold ruser in Hu.
  rewrite Hu, Hpath, N.eqb_refl, String.eqb_refl in Hp. simpl in Hp.
  apply negb_false_iff, N.eqb_eq in Hp. rewrite (tk_id _ Hd _ _ Hj) in Hp. congruence.
Qed.

Context (n : Node) (l : list string).
Hypothesis Hnew : d_nodes d !! n_ID n = None.
Hypothesis Hfree : ∀ j r, d_nodes d !! j = Some r → ruser r = n_UserID n →
  n_Path (nr_node r) ≠ n_Path n.
Hypothesis Hpl : placed d n l.

Lemma added_segs : rsegs (mkNodeRow n "" None) = l.
Proof. destruct Hpl as (_ & Hl & Hp & _). unfold rsegs. simpl. rewrite Hp. by apply path_segs_render. Qed.

Lemma added_lookup j r : d_nodes (added n d) !! j = Some r ↔
  (j = n_ID n ∧ r = mkNodeRow n "" None) ∨ (j ≠ n_ID n ∧ d_nodes d !! j = Some r).
Proof.
  unfold added. simpl. rewrite lookup_insert_Some. naive_solver.
Qed.

Lemma added_old j r : d_nodes d !! j = Some r → d_nodes (added n d) !! j = Some r.
Proof. intros Hj. apply added_lookup. right. split; [congruence|done]. Qed.

Lemma tree_ok_added : tree_ok (added n d).
Proof.
  pose proof added_segs as Hsegs. destruct Hpl as (Hst & Hl & Hp & Hpar).
  split.
  - intros j r [[-> ->]|[_ Hj]]%added_lookup; [done|by eapply tk_id].
  - intros j r [[-> ->]|[_ Hj]]%added_lookup; [by rewrite Hsegs|by eapply tk_canon].
  - intros j r [[-> ->]|[_ Hj]]%added_lookup; [|by eapply tk_root].
    rewrite Hsegs. intros ->. done.
  - intros j r l' x [[-> ->]|[_ Hj]]%added_lookup Hrl.
    + rewrite Hsegs in Hrl. rewrite Hrl, reverse_app in Hpar. simpl in Hpar.
      destruct Hpar as (Hn & p & rp & Hpp & Hrp & Hle & Hu & Hdir).
      apply app_inj_tail in Hle as [-> _]. split; [done|]. exists p, rp.
      split_and!; try done. by apply added_old.
    + destruct (tk_parent _ Hd _ _ _ _ Hj Hrl) as (Hn & p & rp & ? & Hrp & ?).
      split; [done|]. exists p, rp. split; [done|]. split; [by apply added_old|done].
  - assert (∀ j r, d_nodes d !! j = Some r → ruser r = n_UserID n → rsegs r ≠ l) as Hne.
    { intros j r Hj Hu Hrl. apply (Hfree j r Hj Hu). by rewrite (tk_canon _ Hd _ _ Hj), Hrl, Hp. }
    intros i j r s [[-> ->]|[? Hi]]%added_lookup [[-> ->]|[? Hj]]%added_lookup Hu Hrl; [done|..].
    + rewrite Hsegs in Hrl. by destruct (Hne j s Hj).
    + rewrite Hsegs in Hrl. by destruct (Hne i r Hi).
    + by eapply (tk_uniq _ Hd).
  - intros k e He. destruct (tk_extent _ Hd k e He) as (r & Hr & ?). exists r.
    split; [by apply added_old|done].
  - intros k c Hc. destruct (tk_wal _ Hd k c Hc) as [r Hr]. exists r. by apply added_old.
  - apply (tk_blob _ Hd).
  - intros j r [[-> ->]|[_ Hj]]%added_lookup; [done|by eapply tk_files].
Qed.

Lemma added_view v q : view (added n d) v q =
  if decide (v = n_UserID n ∧ q = l) then Some (mkNodeRow n "" None) else view d v q.
Proof.
  pose proof tree_ok_added as Hok. pose proof added_segs as Hsegs.
  apply option_eq. intros r. rewrite view_Some by done. destruct (decide _) as [[-> ->]|Hne].
  - split.
    + intros (j & [[-> ->]|[_ Hj]]%added_lookup & Hu & Hrl); [done|].
      destruct (Hfree j r Hj Hu). destruct Hpl as (_ & _ & -> & _).
      by rewrite (tk_canon _ Hd _ _ Hj), Hrl.
    + intros [= <-]. exists (n_ID n). split; [|done]. apply added_lookup. by left.
  - rewrite view_Some by done. split; intros (j & Hj & Hu & Hrl).
    + apply added_lookup in Hj as [[-> ->]|[_ Hj]]; [|by exists j].
      destruct Hne. by rewrite <- Hu, <- Hrl.
    + exists j. split; [by apply added_old|done].
Qed.

Lemma added_conserves : conserves d (added n d).
Proof. by apply conserves_frame. Qed.

End create.

(** ** The operations that create *)

Section creating.
Context {E : Env}.

(** The row [Create] inserts: the argument with the blanks filled in. *)
Definition filled (n n' : Node) : Prop :=
  n_UserID n' = n_UserID n ∧ n_ParentID n' = n_ParentID n ∧ n_Name n' = n_Name n
  ∧ n_Path n' = n_Path n ∧ n_IsDir n' = n_IsDir n ∧ n_Size n' = n_Size n
  ∧ n_ContentHash n' = n_ContentHash n ∧ n_ETag n' = n_ETag n
  ∧ n_ContentType n' = n_ContentType n ∧ n_State n' = n_State n
  ∧ (n_ID n ≠ uuid_Nil → n_ID n' = n_ID n).

Lemma filled_file n n' : filled n n' → (n_State n = NodeStateBuffered → n_IsDir n = false) →
  n_State n' = NodeStateBuffered → n_IsDir n' = false.
Proof. by intros (_ & _ & _ & _ & -> & _ & _ & _ & _ & -> & _). Qed.

Lemma or_new_Ok id w x w' : or_new id w = (Ok x, w') →
  w_db w' = w_db w ∧ w_tx w' = w_tx w ∧ w_rootReady w' = w_rootReady w
  ∧ (id ≠ uuid_Nil → x = id).
Proof.
  unfold or_new. destruct (N.eqb_spec id uuid_Nil); intros H; m_inv; done.
Qed.

Lemma Create_Ok n w n' w' : tree_ok (w_db w) →
  NodeRepository_Create n w = (Ok n', w') →
  filled n n' ∧ w_db w' = added n' (w_db w) ∧ d_nodes (w_db w) !! n_ID n' = None
  ∧ (∀ j r, d_nodes (w_db w) !! j = Some r → ruser r = n_UserID n → n_Path (nr_node r) ≠ n_Path n)
  ∧ w_tx w' = w_tx w ∧ w_rootReady w' = w_rootReady w.
Proof.
  intros Hd H. unfold NodeRepository_Create in H. m_step.
  apply or_new_Ok in Hm as (Hw & Htx & Hrr & Hx). rewrite <- Hw in *.
  do 5 m_step. m_step. simpl in *. apply CreateNode_Ok in Hq as (-> & Hn & Hf); [|done].
  m_inv. by split_and!.
Qed.

(** A creation that fails changed no row. *)
Lemma Create_Err n w e w' : NodeRepository_Create n w = (Err e, w') →
  w_db w' = w_db w ∧ (w_tx w = None → w_tx w' = None).
Proof.
  unfold NodeRepository_Create. intros [(x & w1 & Hm & H)|(e' & Hm & _)]%bind_cases.
  2: { unfold or_new in Hm. destruct (N.eqb _ _); by m_inv. }
  apply or_new_Ok in Hm as (Hw & Htx & _).
  apply bind_cases in H as [(t & w2 & Hm & H)|(e' & Hm & _)]; [|by m_inv].
  m_step. apply bind_cases in H as [(y & w3 & Hm & H)|(e' & Hm & _)]; [by m_inv|].
  apply translate_Err in Hm as (e0 & Hm & _). apply query_Err in Hm as (Hdb & _ & Htx' & _).
  simpl in *. rewrite Hdb, Hw. split; [done|]. intros Hn. apply Htx'. congruence.
Qed.

Lemma tick_mem w : w_db (tick w) = w_db w ∧ w_tx (tick w) = w_tx w.
Proof. done. Qed.

(** What [ensureRoot] leaves: the tables as they were, or with the root added. *)
Record ensured (u : uuid) (d d' : Db) : Prop := {
  en_tree : tree_ok d';
  en_conserves : conserves d d';
  en_old : ∀ j r, d_nodes d !! j = Some r → d_nodes d' !! j = Some r;
  en_view : ∀ v q, ¬ (v = u ∧ q = []) → view d' v q = view d v q;
  en_same : view d u [] ≠ None → d' = d;
  en_step : d' = d ∨ ∃ n, d' = added n d ∧ n_UserID n = u ∧ d_nodes d !! n_ID n = None }.

Lemma ensured_refl u d : tree_ok d → ensured u d d.
Proof. split; try done. by left. Qed.

Lemma root_placed d id u now : placed d (root_node id u now) [].
Proof. by split_and!; [|constructor|..]. Qed.

Lemma ensureRoot_Ok u w n w' : tree_ok (w_db w) → w_tx w = None →
  ensureRoot u w = (Ok n, w') →
  ensured u (w_db w) (w_db w') ∧ w_tx w' = None
  ∧ ∃ r, view (w_db w') u [] = Some r ∧ nr_node r = n.
Proof.
  intros Hd Htx. unfold ensureRoot. rewrite try_run.
  change "/" with (render []).
  destruct (NodeRepository_GetByPath u (render []) w) as [[m|e] w1] eqn:Hg; simpl; intros H.
  - apply GetByPath_Ok in Hg as (-> & r & Hr & <- & Hu & Hs); [|done|constructor].
    m_step. unfold rootReady_Store, modify in Hm. simplify_eq/=. m_inv.
    split; [by apply ensured_refl|]. split; [done|]. exists r. split; [|done].
    apply view_Some; [done|]. by eexists.
  - apply GetByPath_Err in Hg as (_ & _ & Hg); [|done|constructor].
    unfold errors_Is in H. case_bool_decide as He; [|done]. simpl in H.
    destruct (Hg He) as [-> Hn]. m_inv. rewrite try_run in H.
    destruct (NodeRepository_Create _ _) as [[c|e'] w2] eqn:Hc; simpl in H.
    + apply Create_Ok in Hc as (Hfill & Hw2 & Hnew & Hfree & Htx2 & _); [|exact Hd].
      simpl in *. m_step. unfold rootReady_Store, modify in Hm. simplify_eq/=. m_inv. simpl in *.
      pose proof Hfill as (Hfu & Hfp & Hfn & Hfpath & Hfd & _).
      assert (placed (w_db w) n []) as Hpl.
      { split; [by apply (filled_file _ _ Hfill)|]. split; [constructor|]. by rewrite Hfpath, Hfp, Hfd. }
      assert (∀ j r, d_nodes (w_db w) !! j = Some r → ruser r = n_UserID n →
                n_Path (nr_node r) ≠ n_Path n) as Hfree' by (rewrite Hfu, Hfpath; exact Hfree).
      rewrite Hw2.
      assert (view (added n (w_db w)) u [] = Some (mkNodeRow n "" None)) as Hroot.
      { erewrite added_view by done. rewrite decide_True; [done|]. by rewrite Hfu. }
      split; [|split; [congruence|by eexists]]. split.
      * by eapply tree_ok_added.
      * apply added_conserves.
      * intros. by apply added_old.
      * intros v q Hne. erewrite added_view by done. rewrite decide_False; [done|].
        by rewrite Hfu.
      * intros []. by apply view_None.
      * right. by exists n.
    + case_bool_decide; [|done]. m_step. unfold rootReady_Store, modify in Hm. simplify_eq/=.
      apply Create_Err in Hc as [Hw2 _]. change "/" with (render []) in H.
      apply GetByPath_Ok in H as (_ & r & Hr & <- & Hu & Hs); simpl in *;
        [|by rewrite Hw2|constructor].
      rewrite Hw2 in Hr. by destruct (Hn _ _ Hr Hu).
Qed.

(** Without its row, the root could not be read or made: nothing changed. *)
Lemma ensureRoot_Err u w e w' : tree_ok (w_db w) → w_tx w = None →
  ensureRoot u w = (Err e, w') → w_db w' = w_db w ∧ w_tx w' = None.
Proof.
  intros Hd Htx. unfold ensureRoot. rewrite try_run. change "/" with (render []).
  destruct (NodeRepository_GetByPath u (render []) w) as [[m|e0] w1] eqn:Hg; simpl; intros H; [done|].
  apply GetByPath_Err in Hg as (Hdb & Htx1 & Hg); [|done|constructor].
  destruct (negb _); [unfold fail in H; simplify_eq; auto|].
  apply bind_cases in H as [(now & w2 & Hn & H)|(? & Hn & _)]; [|done]. unfold Now in Hn. simplify_eq.
  apply bind_cases in H as [(id & w3 & Hn & H)|(? & Hn & _)]; [|done]. unfold uuid_New in Hn. simplify_eq.
  rewrite try_run in H. destruct (NodeRepository_Create _ _) as [[c|e'] w2] eqn:Hc; simpl in H; [done|].
  apply Create_Err in Hc as [Hw2 Htx2]. simpl in *. specialize (Htx2 (Htx1 Htx)).
  destruct (errors_Is _ _); [|unfold fail in H; simplify_eq; split; [congruence|done]].
  apply bind_cases in H as [(x & w3 & Hm & H)|(? & Hn & _)]; [|done].
  unfold rootReady_Store, modify in Hm. simplify_eq/=. change "/" with (render []) in H.
  apply GetByPath_Err in H as (Hdb3 & Htx3 & _); [|simpl; by rewrite Hw2, Hdb|constructor].
  simpl in *. split; [congruence|auto].
Qed.

Lemma ensureRootExists_Err u w e w' : tree_ok (w_db w) → w_tx w = None →
  ensureRootExists u w = (Err e, w') → w_db w' = w_db w ∧ w_tx w' = None.
Proof.
  intros Hd Htx. unfold ensureRootExists, gets, bind at 1. case_bool_decide; [done|].
  intros [(n & w1 & _ & [=])|(? & H1 & [= ->])]%bind_cases. by eapply ensureRoot_Err.
Qed.

Lemma ensureRootExists_Ok u w x w' : tree_ok (w_db w) → w_tx w = None →
  ensureRootExists u w = (Ok x, w') → ensured u (w_db w) (w_db w') ∧ w_tx w' = None.
Proof.
  intros Hd Htx. unfold ensureRootExists, gets, bind at 1. case_bool_decide.
  - intros H1. m_inv. split; [by apply ensured_refl|done].
  - intros H1. m_step. apply ensureRoot_Ok in Hm as (He & Htx' & _); [|done..]. by m_inv.
Qed.

(** A filled-in row with a directory for parent is well placed. *)
Lemma filled_placed d n n' rp p l x : segs_ok (l ++ [x])%list →
  (n_State n = NodeStateBuffered → n_IsDir n = false) → filled n n' → d_nodes d !! p = Some rp → ruser rp = n_UserID n → rdir rp = true →
  rsegs rp = l → n_ParentID n = Some p → n_Path n = render (l ++ [x])%list → n_Name n = x →
  placed d n' (l ++ [x])%list.
Proof.
  intros Hok Hst Hfill Hrp Hu Hdir Hl Hpar Hpath Hname. split; [by apply (filled_file _ _ Hfill)|].
  destruct Hfill as (Hfu & Hfp & Hfn & Hfpath & _). split; [done|]. split; [congruence|]. rewrite reverse_app. simpl. split; [congruence|].
  exists p, rp. split_and!; congruence.
Qed.

(** The common core of MKCOL and of a PUT to a new name: a row is created below a
    directory. *)
Lemma create_below_Ok u l x w n n' rp w' :
  tree_ok (w_db w) → segs_ok (l ++ [x])%list → (n_State n = NodeStateBuffered → n_IsDir n = false) →
  d_nodes (w_db w) !! n_ID (nr_node rp) = Some rp → ruser rp = u → rsegs rp = l → rdir rp = true →
  n_UserID n = u → n_ParentID n = Some (n_ID (nr_node rp)) → n_Name n = x →
  n_Path n = render (l ++ [x])%list →
  NodeRepository_Create n w = (Ok n', w') →
  filled n n' ∧ w_db w' = added n' (w_db w) ∧ tree_ok (w_db w') ∧ conserves (w_db w) (w_db w')
  ∧ d_nodes (w_db w) !! n_ID n' = None ∧ view (w_db w) u (l ++ [x])%list = None
  ∧ ∀ v q, view (w_db w') v q = if decide (v = u ∧ q = (l ++ [x])%list)
                               then Some (mkNodeRow n' "" None) else view (w_db w) v q.
Proof.
  intros Hd Hok Hst Hrp Hu Hs Hdir Hnu Hpar Hname Hpath H.
  apply Create_Ok in H as (Hfill & Hw & Hnew & Hfree & _); [|done].
  assert (placed (w_db w) n' (l ++ [x])%list) as Hpl by (eapply filled_placed; eauto; congruence).
  pose proof Hfill as (Hfu & _ & _ & Hfpath & _). rewrite <- Hfu, <- Hfpath in Hfree.
  split_and!; try done; rewrite ?Hw.
  - by eapply tree_ok_added.
  - apply added_conserves.
  - apply view_None; [done|]. intros j r Hj Hru Hrl. apply (Hfree j r Hj); [congruence|].
    by rewrite (tk_canon _ Hd _ _ Hj), Hrl, Hfpath.
  - intros v q. erewrite added_view by done. by rewrite Hfu, Hnu.
Qed.

Lemma canonical_not_root l : segs_ok l → String.eqb (render l) "/" = false → l ≠ [].
Proof. by intros _ H ->. Qed.

(** MKCOL that succeeds: the parent is a directory, the name was free, and one
    directory row is new (two, when the user's root was missing). *)
Lemma Mkdir_Ok ctx name w x w' : tree_ok (w_db w) → w_tx w = None →
  Mkdir ctx name w = (Ok x, w') →
  ∃ user l bx d1 rp n, acting ctx = Ok user ∧ path_segs (normalize name) = (l ++ [bx])%list
    ∧ ensured (u_ID user) (w_db w) d1
    ∧ view d1 (u_ID user) l = Some rp ∧ rdir rp = true ∧ view d1 (u_ID user) (l ++ [bx])%list = None
    ∧ n_IsDir n = true ∧ n_Name n = bx ∧ n_ParentID n = Some (n_ID (nr_node rp))
    ∧ n_State n = NodeStateStored ∧ n_Size n = 0
    ∧ w_db w' = added n d1 ∧ tree_ok (w_db w') ∧ conserves (w_db w) (w_db w')
    ∧ (∀ v q, view (w_db w') v q =
         if decide (v = u_ID user ∧ q = (l ++ [bx])%list) then Some (mkNodeRow n "" None)
         else view d1 v q).
Proof.
  intros Hd Htx H. unfold Mkdir in H.
  destruct (normalize_canonical name) as (p & Hp & Hn). rewrite Hn in *.
  rewrite path_segs_render by done.
  m_step. unfold of_res in Hm. destruct (acting ctx) as [user|]; [|done]. simplify_eq.
  destruct (String.eqb (render p) "/") eqn:Hroot; [done|].
  pose proof (canonical_not_root _ Hp Hroot) as Hne.
  destruct (exists_last Hne) as (l & bx & ->). pose proof Hp as [Hl _]%segs_ok_snoc.
  m_step. apply ensureRootExists_Ok in Hm as [He Htx']; [|done..]. pose proof (en_tree _ _ _ He) as Hd1.
  rewrite try_run in H.
  destruct (NodeRepository_GetByPath _ _ _) as [[n0|e] w1] eqn:Hg; simpl in H; [done|].
  apply GetByPath_Err in Hg as (_ & _ & Hg); [|done..].
  unfold errors_Is in H. case_bool_decide as Hx; [|done]. simpl in H. destruct (Hg Hx) as [-> Hfree].
  m_step. rewrite Dir_render in Hm by done.
  apply with_fs_err_Ok, GetByPath_Ok in Hm as (-> & rp & Hrp & <- & Hpu & Hps); [|done..].
  destruct (n_IsDir (nr_node rp)) eqn:Hdir; [|done]. simpl in H. m_inv.
  match goal with Hc : with_fs_err _ _ = _ |- _ => apply with_fs_err_Ok in Hc; rename Hc into Hcr end.
  destruct (λ H0 H1 H2 H3 H4, create_below_Ok _ (rsegs rp) bx (tick (tick (tick (tick w)))) _ _ rp _ Hd1 Hp H0 Hrp Hpu eq_refl
              Hdir H1 H2 H3 H4 Hcr)
    as (Hfill & Hw & Hok & Hc & Hnew & Hnone & Hv); [done|done|done|by apply Base_render|done|].
  destruct Hfill as (Hfu & Hfp & Hfn & Hfpath & Hfd & Hfs & _ & _ & _ & Hfst & _). simpl in *.
  rewrite Base_render in Hfn by done.
  eexists _, _, _, _, rp, _. split_and!; try done.
  - apply view_Some; [done|]. by eexists.
  - etrans; [apply (en_conserves _ _ _ He)|done].
Qed.

End creating.
