(* ===== verification/WalFacts.v ===== *)
(** * The write-ahead log: fixed-size chunks and windowed reads

    The invariant of [model/wal.go]: a node's chunks, in seq order, are numbered
    from 0 and full, except that the last may be shorter.  Under it a chunk's seq
    determines its byte offset and [ReadRange] returns the requested slice. *)
From Stdlib Require Import ZArith Lia Strings.Byte Strings.String Strings.Ascii.
From stdpp Require Import base tactics list gmap sets sorting strings.
From S2P Require Import Prelude Model Sql SqlFacts World Repository.
#[local] Open Scope Z_scope.

(** ** Lists of chunks *)

Section chunks.
Context {A : Type} (K : nat).
Implicit Types bs : list (list A).

Fixpoint chunked bs : Prop :=
  match bs with
  | [] => True
  | b :: t => match t with
              | [] => (length b ≤ K)%nat
              | _ => length b = K ∧ chunked t
              end
  end.

Lemma chunked_cons b bs : chunked (b :: bs) → chunked bs ∧ (length b ≤ K)%nat
  ∧ (bs ≠ [] → length b = K).
Proof. destruct bs; simpl; [done|]. intros [-> ?]. split_and!; [done|lia|done]. Qed.

Lemma concat_drop_chunked n bs : chunked bs → concat (drop n bs) = drop (n * K) (concat bs).
Proof.
  revert n. induction bs as [|b bs IH]; intros n H; [simpl; by rewrite !drop_nil|].
  apply chunked_cons in H as (Hc & Hb & Hf). destruct n as [|n]; [done|].
  change (drop (S n) (b :: bs)) with (drop n bs). change (concat (b :: bs)) with (b ++ concat bs).
  rewrite IH by done. destruct bs as [|b' bs].
  - change (concat []) with (@nil A). rewrite app_nil_r, drop_nil. symmetry. apply drop_ge. nia.
  - rewrite drop_app_ge by (rewrite Hf by done; nia). f_equal. rewrite Hf by done. nia.
Qed.

Lemma concat_take_chunked n bs : chunked bs → concat (take n bs) = take (n * K) (concat bs).
Proof.
  revert n. induction bs as [|b bs IH]; intros n H; [simpl; by rewrite !take_nil|].
  apply chunked_cons in H as (Hc & Hb & Hf). destruct n as [|n]; [done|].
  change (take (S n) (b :: bs)) with (b :: take n bs).
  change (concat (b :: bs)) with (b ++ concat bs).
  change (concat (b :: take n bs)) with (b ++ concat (take n bs)).
  rewrite IH by done. destruct bs as [|b' bs].
  - change (concat []) with (@nil A). rewrite take_nil, !app_nil_r. symmetry. apply take_ge. nia.
  - replace (S n * K)%nat with (length b + n * K)%nat by (rewrite Hf by done; nia).
    by rewrite take_app_add.
Qed.

Lemma chunked_full_snoc bs b : Forall (λ x, length x = K) bs → (length b ≤ K)%nat →
  chunked (bs ++ [b]).
Proof.
  intros Hf Hb. induction Hf as [|x bs Hx _ IH]; [done|]. simpl.
  destruct (bs ++ [b]) eqn:E; [by destruct bs|]. by rewrite <- E in *.
Qed.

Lemma chunked_full bs : Forall (λ x, length x = K) bs → chunked bs.
Proof.
  induction 1 as [|x bs Hx Hf IH]; [done|]. simpl. destruct bs; [by rewrite Hx|done].
Qed.

Lemma length_concat_full bs : Forall (λ x, length x = K) bs →
  length (concat bs) = (length bs * K)%nat.
Proof. induction 1 as [|x bs Hx _ IH]; [done|]. simpl. rewrite length_app. lia. Qed.

End chunks.

(** ** Sorting by a key *)

Definition key_lt {A} (key : A → Z) : relation A := λ a b, key a < key b.

Lemma StronglySorted_weaken {A} (R S : relation A) l :
  (∀ a b, R a b → S a b) → StronglySorted R l → StronglySorted S l.
Proof.
  intros Hw. induction 1 as [|a l _ IH Ha]; constructor; [done|].
  eapply Forall_impl; [exact Ha|]. apply Hw.
Qed.

Lemma sort_by_unique {A} (key : A → Z) l s :
  l ≡ₚ s → StronglySorted (key_lt key) s → sort_by key l = s.
Proof.
  intros Hp Hs. symmetry.
  apply (StronglySorted_unique_strong (key_le key)).
  - intros x y Hx Hy Hxy Hyx. unfold key_le in *. rewrite sort_by_perm, Hp in Hy.
    apply list_elem_of_lookup in Hx as [i Hi]. apply list_elem_of_lookup in Hy as [j Hj].
    assert (∀ i j a b, s !! i = Some a → s !! j = Some b → (i < j)%nat → key a < key b) as Hlt.
    { clear -Hs. induction Hs as [|c s Hs IH Hc]; intros i j a b Hi Hj Hij; [done|].
      destruct i as [|i], j as [|j]; try lia; simpl in *; [|eapply IH; eauto; lia].
      simplify_eq. rewrite Forall_forall in Hc. apply Hc. by eapply list_elem_of_lookup_2. }
    destruct (lt_eq_lt_dec i j) as [[Hij| ->]|Hij]; [|congruence|].
    + pose proof (Hlt _ _ _ _ Hi Hj Hij). lia.
    + pose proof (Hlt _ _ _ _ Hj Hi Hij). lia.
  - eapply StronglySorted_weaken; [|exact Hs]. unfold key_lt, key_le. intros a b Hab. lia.
  - apply Sorted_StronglySorted; [apply _|]. apply sort_by_sorted.
  - by rewrite sort_by_perm, Hp.
Qed.

(** ** The chunks of a node *)

Definition node_chunks (node : uuid) (d : Db) : list WALChunk := sort_by c_Seq (chunks_of node d).

Definition seqs_ok (cs : list WALChunk) : Prop := c_Seq <$> cs = Z.of_nat <$> seq 0 (length cs).

Definition chunk_nat : nat := Z.to_nat WALChunkSize.

Lemma chunk_nat_Z : Z.of_nat chunk_nat = WALChunkSize.
Proof. apply Z2Nat.id. unfold WALChunkSize. lia. Qed.

Lemma chunk_nat_pos : (0 < chunk_nat)%nat.
Proof. pose proof chunk_nat_Z as H. unfold WALChunkSize in H. lia. Qed.

#[global] Opaque chunk_nat.

(** The invariant and the content it describes. *)
Definition wal_ok (node : uuid) (d : Db) : Prop :=
  seqs_ok (node_chunks node d) ∧ chunked chunk_nat (c_Data <$> node_chunks node d).

Definition wal_content (node : uuid) (d : Db) : bytes := concat (c_Data <$> node_chunks node d).

Lemma seqs_lookup cs i c : seqs_ok cs → cs !! i = Some c → c_Seq c = Z.of_nat i.
Proof.
  intros Hs Hc. assert ((c_Seq <$> cs) !! i = Some (c_Seq c)) as H by (by rewrite list_lookup_fmap, Hc).
  rewrite Hs, list_lookup_fmap in H. apply fmap_Some in H as (n & Hn & ->).
  apply lookup_seq in Hn as [-> _]. done.
Qed.

Lemma seqs_sorted cs : seqs_ok cs → StronglySorted (key_lt c_Seq) cs.
Proof.
  intros Hs. assert (∀ i c, cs !! i = Some c → c_Seq c = Z.of_nat (0 + i)) as H
    by (intros; by eapply seqs_lookup).
  clear Hs. revert H. generalize 0%nat as k. induction cs as [|c cs IH]; intros k H; constructor.
  - apply (IH (S k)). intros i x Hx. rewrite (H (S i) x Hx). lia.
  - apply Forall_forall. intros x [i Hi]%list_elem_of_lookup. unfold key_lt.
    rewrite (H 0%nat c), (H (S i) x) by done. lia.
Qed.

Lemma seqs_filter_from cs (a b k : nat) :
  (∀ i c, cs !! i = Some c → c_Seq c = Z.of_nat (k + i)) →
  List.filter (λ c, (Z.of_nat a <=? c_Seq c) && (c_Seq c <=? Z.of_nat b)) cs
  = drop (a - k) (take (S b - k) cs).
Proof.
  revert k. induction cs as [|c cs IH]; intros k H.
  - by rewrite take_nil, drop_nil.
  - cbn [List.filter]. rewrite (H 0%nat c) by done. rewrite (IH (S k)).
    2: { intros i x Hx. rewrite (H (S i) x Hx). lia. }
    destruct (decide (S b ≤ k)%nat) as [Hk|Hk].
    + replace (S b - k)%nat with 0%nat by lia. replace (S b - S k)%nat with 0%nat by lia.
      rewrite !take_0, !drop_nil.
      assert ((Z.of_nat a <=? Z.of_nat (k + 0)) && (Z.of_nat (k + 0) <=? Z.of_nat b) = false) as ->;
        [|done]. apply andb_false_iff. right. apply Z.leb_gt. lia.
    + replace (S b - k)%nat with (S (S b - S k))%nat by lia. rewrite firstn_cons.
      destruct (decide (a ≤ k)%nat) as [Ha|Ha].
      * replace (a - k)%nat with 0%nat by lia. replace (a - S k)%nat with 0%nat by lia.
        assert ((Z.of_nat a <=? Z.of_nat (k + 0)) && (Z.of_nat (k + 0) <=? Z.of_nat b) = true) as ->;
          [|done]. apply andb_true_iff. split; apply Z.leb_le; lia.
      * replace (a - k)%nat with (S (a - S k))%nat by lia.
        assert ((Z.of_nat a <=? Z.of_nat (k + 0)) && (Z.of_nat (k + 0) <=? Z.of_nat b) = false) as ->;
          [|done]. apply andb_false_iff. left. apply Z.leb_gt. lia.
Qed.

Lemma seqs_filter cs (a b : nat) : seqs_ok cs →
  List.filter (λ c, (Z.of_nat a <=? c_Seq c) && (c_Seq c <=? Z.of_nat b)) cs
  = drop a (take (S b) cs).
Proof.
  intros Hs. rewrite (seqs_filter_from cs a b 0).
  - by rewrite !Nat.sub_0_r.
  - intros i c Hc. by rewrite (seqs_lookup cs i c).
Qed.

(** ** Windows *)

Lemma chunked_drop {A} K n (bs : list (list A)) : chunked K bs → chunked K (drop n bs).
Proof.
  revert n. induction bs as [|b bs IH]; intros n H; [by rewrite drop_nil|].
  destruct n as [|n]; [done|]. apply chunked_cons in H as (Hc & _). by apply IH.
Qed.

Lemma drop_take_min {A} (n m k : nat) (l : list A) :
  take n (drop k (take m l)) = take (Nat.min n (m - k)) (drop k l).
Proof.
  destruct (decide (k ≤ m)%nat) as [Hk|Hk].
  - replace m with (k + (m - k))%nat at 1 by lia. rewrite <- take_drop_commute, take_take. done.
  - rewrite drop_ge by (rewrite length_take; lia). rewrite take_nil.
    replace (Nat.min n (m - k)) with 0%nat by lia. by rewrite take_0.
Qed.

(** The chunks that cover a window, sliced, are the window of the content. *)
Lemma window_chunks {A} K (o n : nat) (bs : list (list A)) :
  (0 < K)%nat → (0 < n)%nat → chunked K bs →
  let a := (o / K)%nat in
  let b := ((o + n - 1) / K)%nat in
  let assembled := concat (drop a (take (S b) bs)) in
  let to := Nat.min (o + n - a * K) (length assembled) in
  (if decide (to ≤ o - a * K)%nat then [] else take (to - (o - a * K)) (drop (o - a * K) assembled))
  = take n (drop o (concat bs)).
Proof.
  intros HK Hn Hc a b assembled to.
  pose proof (Nat.div_mod o K ltac:(lia)) as Ho. pose proof (Nat.mod_upper_bound o K ltac:(lia)).
  pose proof (Nat.div_mod (o + n - 1) K ltac:(lia)) as Hb.
  pose proof (Nat.mod_upper_bound (o + n - 1) K ltac:(lia)).
  fold a in Ho. fold b in Hb.
  assert (a ≤ b)%nat as Hab by (apply Nat.Div0.div_le_mono; lia).
  set (m := ((S b - a) * K)%nat).
  assert (o + n ≤ a * K + m)%nat as Hm by (unfold m; nia).
  assert (assembled = take m (drop (a * K) (concat bs))) as Has.
  { unfold assembled. replace (S b) with (a + (S b - a))%nat by lia.
    rewrite <- take_drop_commute, (concat_take_chunked K) by by apply chunked_drop.
    by rewrite (concat_drop_chunked K). }
  set (c := concat bs) in *.
  assert (length assembled = Nat.min m (length c - a * K)) as Hlen
    by (rewrite Has, length_take, length_drop; done).
  assert (a * K ≤ o)%nat by lia.
  destruct (decide _) as [Hto|Hto].
  - rewrite (drop_ge c) by lia. by rewrite take_nil.
  - rewrite Has, drop_take_min, drop_drop. replace (a * K + (o - a * K))%nat with o by lia.
    destruct (decide (o + n - a * K ≤ length assembled)%nat).
    + f_equal. lia.
    + rewrite !take_ge; [done|rewrite length_drop; lia..].
Qed.

Lemma rows_andb {K A} `{Countable K} (P Q : A → bool) (m : gmap K A) :
  rows (λ x, P x && Q x) m = List.filter Q (rows P m).
Proof.
  unfold rows. induction ((map_to_list m).*2) as [|x l IH]; [done|]. simpl.
  destruct (P x); simpl; [|done]. by destruct (Q x); rewrite IH.
Qed.

Lemma StronglySorted_Lfilter {A} (R : relation A) (P : A → bool) l :
  StronglySorted R l → StronglySorted R (List.filter P l).
Proof.
  induction 1 as [|a l _ IH Ha]; simpl; [constructor|]. destruct (P a); [|done].
  constructor; [done|]. apply Forall_forall. intros x [Hx _]%elem_of_Lfilter.
  rewrite Forall_forall in Ha. by apply Ha.
Qed.

(** A range query returns a run of the node's chunks. *)
Lemma range_chunks node d (a b : nat) : seqs_ok (node_chunks node d) →
  sort_by c_Seq (rows (λ c, N.eqb (c_NodeID c) node && (Z.of_nat a <=? c_Seq c)
                            && (c_Seq c <=? Z.of_nat b)) (d_wal_chunks d))
  = drop a (take (S b) (node_chunks node d)).
Proof.
  intros Hs. rewrite <- seqs_filter by done. apply sort_by_unique.
  - assert (rows (λ c, N.eqb (c_NodeID c) node && (Z.of_nat a <=? c_Seq c)
                       && (c_Seq c <=? Z.of_nat b)) (d_wal_chunks d)
            = List.filter (λ c, (Z.of_nat a <=? c_Seq c) && (c_Seq c <=? Z.of_nat b))
                (chunks_of node d)) as ->.
    { unfold chunks_of. rewrite <- rows_andb. apply rows_ext. intros. by rewrite andb_assoc. }
    apply Lfilter_perm. unfold node_chunks. by rewrite sort_by_perm.
  - by apply StronglySorted_Lfilter, seqs_sorted.
Qed.

(** ** ReadRange *)

Lemma read_window_nat (o n : nat) (bs : list (list Byte.byte)) :
  (0 < n)%nat → Z.of_nat (o + n) ≤ max_int64 → chunked chunk_nat bs →
  read_window (Z.of_nat o) (Z.of_nat n)
    (drop (o / chunk_nat) (take (S ((o + n - 1) / chunk_nat)) bs))
  = take n (drop o (concat bs)).
Proof.
  intros Hn Hmax Hc.
  pose proof chunk_nat_Z as HK. pose proof chunk_nat_pos as HK0.
  unfold read_window. rewrite <- HK. unfold min_int64, max_int64 in *.
  rewrite <- Nat2Z.inj_add, (wrap64_id (Z.of_nat (o + n))) by (int_lia).
  rewrite Z.quot_div_nonneg by lia. rewrite <- Nat2Z.inj_div, <- Nat2Z.inj_mul.
  pose proof (Nat.div_mod o chunk_nat ltac:(lia)). pose proof (Nat.mod_upper_bound o chunk_nat ltac:(lia)).
  rewrite wrap64_id by (int_lia).
  rewrite <- (window_chunks chunk_nat o n bs) by done. cbv zeta.
  set (asm := concat _). set (a := (o / chunk_nat)%nat) in *.
  assert ((if Z.of_nat (o + n) - Z.of_nat (a * chunk_nat) >? blen asm then blen asm
           else Z.of_nat (o + n) - Z.of_nat (a * chunk_nat))
          = Z.of_nat (Nat.min (o + n - a * chunk_nat) (length asm))) as ->.
  { unfold blen. rewrite Z.gtb_ltb. destruct (Z.ltb_spec (Z.of_nat (length asm))
      (Z.of_nat (o + n) - Z.of_nat (a * chunk_nat))); lia. }
  set (to := Nat.min _ _). rewrite Z.geb_leb.
  destruct (Z.leb_spec (Z.of_nat to) (Z.of_nat o - Z.of_nat (a * chunk_nat))).
  - by rewrite decide_True by lia.
  - rewrite decide_False by lia. unfold slice. f_equal; [lia|]. f_equal. lia.
Qed.

Section readrange.
Context {E : Env}.

(** Under the chunk invariant a window read returns the requested slice of the
    content, and leaves the world as it was. *)
Lemma ReadRange_Ok node o n w data w' :
  wal_ok node (w_db w) → 0 ≤ o → o + n ≤ max_int64 →
  WALRepository_ReadRange node o n w = (Ok data, w') →
  data = take (Z.to_nat n) (drop (Z.to_nat o) (wal_content node (w_db w)))
  ∧ w_db w' = w_db w.
Proof.
  intros [Hs Hc] Ho Hmax. unfold WALRepository_ReadRange.
  destruct ((n <=? 0) || (o <? 0)) eqn:Hn.
  { intros H. m_inv. split; [|done].
    replace (Z.to_nat n) with 0%nat; [by rewrite take_0|]. lia. }
  assert (0 < n) by lia. intros H1. m_inv. unfold ListWALChunksByNodeSeqRange, many in Hq.
  simplify_eq. split; [|by rewrite set_db_id].
  rewrite (wrap64_id (o + n)) by (int_lia).
  rewrite wrap64_id by (int_lia).
  pose proof chunk_nat_Z as HK. pose proof chunk_nat_pos as HK0.
  assert (∃ o' n', o = Z.of_nat o' ∧ n = Z.of_nat n') as (o' & n' & -> & ->)
    by (exists (Z.to_nat o), (Z.to_nat n); lia).
  assert (Z.quot (Z.of_nat o') WALChunkSize = Z.of_nat (o' / chunk_nat)) as ->
    by (rewrite <- HK, Z.quot_div_nonneg, Nat2Z.inj_div by lia; done).
  assert (Z.quot (Z.of_nat o' + Z.of_nat n' - 1) WALChunkSize
          = Z.of_nat ((o' + n' - 1) / chunk_nat)) as ->
    by (rewrite <- HK, Z.quot_div_nonneg, Nat2Z.inj_div by lia; f_equal; lia).
  rewrite range_chunks by done. rewrite fmap_drop, fmap_take, !Nat2Z.id.
  apply read_window_nat; [lia|lia|done].
Qed.

(** With a working database the read succeeds. *)
Lemma ReadRange_runs node o n w : no_faults → in_aborted w = false →
  ∃ data w', WALRepository_ReadRange node o n w = (Ok data, w') ∧ w_tx w' = w_tx w.
Proof.
  intros Hf Ha. unfold WALRepository_ReadRange.
  destruct (_ || _); [by eexists _, _|]. unfold bind, translate, stmt, query.
  rewrite Ha, Hf. by eexists _, _.
Qed.

End readrange.
