(* ===== verification/WriteFacts.v ===== *)
(** * Writing a file: chunks, the writer's invariant, truncation

    [wf_ok] relates an open writer to the tables: full chunks numbered from 0, and
    the chunks followed by the buffer are the bytes hashed so far. *)
From Stdlib Require Import ZArith Lia Strings.Byte Strings.String Strings.Ascii.
From stdpp Require Import base tactics list gmap sets sorting strings.
From S2P Require Import Prelude Model Sql SqlFacts World Repository Crypto Path FileSystem File.
From S2P Require Import Tree FsFacts RenameFacts CreateFacts WalFacts.
#[local] Open Scope string_scope.
#[local] Open Scope Z_scope.

(** ** Frames *)

Lemma rows_agree {K A} `{Countable K} (P : A → bool) (m1 m2 : gmap K A) :
  (∀ k x, P x = true → m1 !! k = Some x ↔ m2 !! k = Some x) → rows P m1 ≡ₚ rows P m2.
Proof.
  intros Hag.
  assert (∀ m : gmap K A, rows P m ≡ₚ rows (λ _, true) (filter (λ kv, P kv.2 = true) m)) as Hf.
  { intros m. rewrite (rows_filter _ _ P) by done. done. }
  rewrite (Hf m1), (Hf m2).
  assert (filter (λ kv : K * A, P kv.2 = true) m1 = filter (λ kv : K * A, P kv.2 = true) m2) as ->;
    [|done].
  apply map_eq. intros k. apply option_eq. intros x. rewrite !map_lookup_filter_Some. simpl.
  split; intros [Hx HP]; (split; [by apply (Hag k x HP)|done]).
Qed.

Lemma node_chunks_perm n d d' : seqs_ok (node_chunks n d) →
  chunks_of n d' ≡ₚ chunks_of n d → node_chunks n d' = node_chunks n d.
Proof.
  intros Hs Hp. unfold node_chunks at 1. apply sort_by_unique.
  - rewrite Hp. unfold node_chunks. by rewrite sort_by_perm.
  - by apply seqs_sorted.
Qed.

(** Only chunks of node [n] differ. *)
Record wal_frame (n : uuid) (d d' : Db) : Prop := {
  wfr_rest : d' = set_wal_chunks (d_wal_chunks d') d;
  wfr_wal : ∀ k c, c_NodeID c ≠ n → d_wal_chunks d' !! k = Some c ↔ d_wal_chunks d !! k = Some c }.

#[global] Instance wal_frame_preorder n : PreOrder (wal_frame n).
Proof.
  split.
  - intros d. split; [by destruct d|done].
  - intros d1 d2 d3 [H1 H2] [H3 H4]. split.
    + rewrite H3, H1. done.
    + intros k c Hc. by rewrite H4, H2.
Qed.

Lemma wal_frame_other n m d d' : wal_frame n d d' → m ≠ n → wal_ok m d →
  node_chunks m d' = node_chunks m d.
Proof.
  intros [_ Hw] Hne [Hs _]. apply node_chunks_perm; [done|]. unfold chunks_of.
  apply rows_agree. intros k c Hc%N.eqb_eq. apply Hw. congruence.
Qed.

Lemma wal_frame_nodes n d d' : wal_frame n d d' → d_nodes d' = d_nodes d.
Proof. intros [-> _]. done. Qed.
Lemma wal_frame_extents n d d' : wal_frame n d d' → d_extents d' = d_extents d.
Proof. intros [-> _]. done. Qed.
Lemma wal_frame_conserves n d d' : wal_frame n d d' → conserves d d'.
Proof. intros [-> _]. by apply conserves_frame. Qed.

Lemma wal_frame_tree n d d' : tree_ok d → is_Some (d_nodes d !! n) → wal_frame n d d' → tree_ok d'.
Proof.
  intros Hd Hn [He Hw]. split; rewrite He; simpl; try by apply Hd.
  intros k c Hc. destruct (decide (c_NodeID c = n)) as [->|Hne]; [done|].
  apply Hw in Hc; [|done]. by eapply (tk_wal _ Hd).
Qed.

Lemma view_nodes d d' u l : d_nodes d' = d_nodes d → view d' u l = view d u l.
Proof. intros H. unfold view. by rewrite H. Qed.

(** ** Appending a chunk *)

Definition appended (c : WALChunk) (d : Db) : Db :=
  set_wal_chunks (<[c_ID c := c]> (d_wal_chunks d)) d.

Lemma AppendWALChunk_Ok c d u d' : AppendWALChunk c d = SqlOk u d' →
  d' = appended c d ∧ d_wal_chunks d !! c_ID c = None.
Proof.
  unfold AppendWALChunk. case_bool_decide as Hid; [done|].
  destruct (row_exists _ _); [done|]. destruct (negb _); [done|]. intros [= <-].
  split; [done|]. by apply eq_None_not_Some.
Qed.

Lemma appended_frame c d : d_wal_chunks d !! c_ID c = None → wal_frame (c_NodeID c) d (appended c d).
Proof.
  intros Hn. split; [by destruct d|]. intros k c' Hne. unfold appended. simpl.
  rewrite lookup_insert_Some. split; [|intros; right].
  - by intros [[<- <-]|[_ ?]].
  - split; [congruence|done].
Qed.

(** A chunk whose number is the number of chunks goes to the end. *)
Lemma appended_chunks c d : d_wal_chunks d !! c_ID c = None →
  seqs_ok (node_chunks (c_NodeID c) d) →
  c_Seq c = Z.of_nat (length (node_chunks (c_NodeID c) d)) →
  node_chunks (c_NodeID c) (appended c d) = (node_chunks (c_NodeID c) d ++ [c])%list
  ∧ seqs_ok (node_chunks (c_NodeID c) d ++ [c])%list.
Proof.
  intros Hn Hs Hseq.
  assert (seqs_ok (node_chunks (c_NodeID c) d ++ [c])%list) as Hs'.
  { unfold seqs_ok in *. rewrite fmap_app, Hs, length_app, seq_app, fmap_app. simpl.
    by rewrite Hseq. }
  split; [|done]. apply sort_by_unique; [|by apply seqs_sorted].
  unfold chunks_of, appended. simpl. rewrite rows_insert by done. rewrite N.eqb_refl.
  rewrite Permutation_app_comm. simpl. constructor. unfold node_chunks. by rewrite sort_by_perm.
Qed.

(** ** The writer *)

Definition wf_id (w : writeFile) : uuid := n_ID (wf_node w).

Record wf_ok (w : writeFile) (d : Db) : Prop := {
  wo_seqs : seqs_ok (node_chunks (wf_id w) d);
  wo_full : Forall (λ b, length b = chunk_nat) (c_Data <$> node_chunks (wf_id w) d);
  wo_seq : wf_seq w = Z.of_nat (length (node_chunks (wf_id w) d));
  wo_bytes : (wal_content (wf_id w) d ++ wf_buf w)%list = wf_hashed w;
  wo_size : wf_size w = wrap64 (blen (wf_hashed w));
  wo_file : ∀ r, d_nodes d !! wf_id w = Some r → rdir r = false }.

Section writer.
Context {E : Env}.

Lemma or_now_Ok t w x w' : or_now t w = (Ok x, w') → w_db w' = w_db w ∧ w_tx w' = w_tx w.
Proof. unfold or_now. destruct (IsZero t); intros H; m_inv; done. Qed.

Lemma AppendChunk_Ok c w u w' : WALRepository_AppendChunk c w = (Ok u, w') →
  ∃ c', c_NodeID c' = c_NodeID c ∧ c_Seq c' = c_Seq c ∧ c_Data c' = c_Data c
    ∧ w_db w' = appended c' (w_db w) ∧ d_wal_chunks (w_db w) !! c_ID c' = None
    ∧ w_tx w' = w_tx w.
Proof.
  unfold WALRepository_AppendChunk. intros H. m_step. apply or_new_Ok in Hm as (Hw & Htx & _ & _).
  m_step. apply or_now_Ok in Hm as (Hw1 & Htx1). m_inv.
  apply AppendWALChunk_Ok in Hq as (-> & Hn). simpl in *. rewrite Hw1, Hw in *.
  eexists. split_and!; [| | |done|done|]; simpl; congruence.
Qed.

Lemma flushChunk_Ok f data w u w' : flushChunk f data w = (Ok u, w') →
  seqs_ok (node_chunks (wf_id f) (w_db w)) →
  wf_seq f = Z.of_nat (length (node_chunks (wf_id f) (w_db w))) →
  ∃ c, c_Data c = data ∧ node_chunks (wf_id f) (w_db w') = (node_chunks (wf_id f) (w_db w) ++ [c])%list
    ∧ seqs_ok (node_chunks (wf_id f) (w_db w')) ∧ wal_frame (wf_id f) (w_db w) (w_db w')
    ∧ w_tx w' = w_tx w.
Proof.
  unfold flushChunk. intros H Hs Hseq. m_step. m_inv. apply AppendChunk_Ok in H
    as (c & Hn & Hc & Hdata & Hw & Hfree & Htx). simpl in *.
  destruct (appended_chunks c (w_db w)) as [Hch Hso]; [done|by rewrite Hn|by rewrite Hn, Hc|].
  rewrite Hn in *. fold (wf_id f) in *. exists c. rewrite Hw. split_and!; try done.
  - by rewrite Hch.
  - rewrite <- Hn. by apply appended_frame.
Qed.

Lemma wal_content_snoc n d d' c :
  node_chunks n d' = (node_chunks n d ++ [c])%list →
  wal_content n d' = (wal_content n d ++ c_Data c)%list.
Proof.
  intros H. unfold wal_content. rewrite H, fmap_app, concat_app. simpl. by rewrite app_nil_r.
Qed.

(** The loop of [Write]: the bytes move from the buffer to the chunks. *)
Lemma flush_full_Ok k f w f' w' : flush_full k f w = (Ok (f', Ok tt), w') →
  wf_ok f (w_db w) →
  wf_ok f' (w_db w') ∧ wal_frame (wf_id f) (w_db w) (w_db w') ∧ w_tx w' = w_tx w
  ∧ wf_node f' = wf_node f ∧ wf_user f' = wf_user f ∧ wf_hashed f' = wf_hashed f
  ∧ wf_closed f' = wf_closed f
  ∧ (blen (wf_buf f) < (Z.of_nat k + 1) * WALChunkSize → blen (wf_buf f') < WALChunkSize).
Proof.
  revert f w. induction k as [|k IH]; intros f w H Hok; simpl in H.
  - unfold ret in H. simplify_eq. split_and!; try done.
  - destruct (Z.leb_spec WALChunkSize (blen (wf_buf f))) as [Hle|Hlt].
    2: { unfold ret in H. simplify_eq. split_and!; try done. }
    rewrite try_run in H. destruct (flushChunk _ _ w) as [[[]|e] w1] eqn:Hfl; simpl in H.
    2: { unfold ret in H. done. }
    destruct Hok as [Hs Hfu Hq Hb Hz Hfi].
    apply flushChunk_Ok in Hfl as (c & Hcd & Hch & Hs1 & Hfr & Htx); [|done..].
    apply IH in H as (Hok' & Hfr' & Htx' & Hn & Hu & Hh & Hc & Hlen).
    + split_and!; try done; [by etrans|congruence|]. intros Hsz. apply Hlen. simpl.
      unfold blen in *. rewrite length_drop. pose proof chunk_nat_Z. lia.
    + split; unfold wf_id in *; simpl.
      * done.
      * rewrite Hch, fmap_app. apply Forall_app. split; [done|]. simpl. constructor; [|done].
        rewrite Hcd, length_take. pose proof chunk_nat_Z. blen_lia.
      * rewrite Hch, length_app, Hq. simpl. lia.
      * rewrite (wal_content_snoc _ _ _ _ Hch), Hcd, <- app_assoc, take_drop. done.
      * done.
      * by rewrite (wal_frame_nodes _ _ _ Hfr).
Qed.

Lemma wrap64_add a b : wrap64 (wrap64 a + b) = wrap64 (a + b).
Proof.
  unfold wrap64. f_equal. replace ((a + 2 ^ 63) mod 2 ^ 64 - 2 ^ 63 + b + 2 ^ 63)
    with ((a + 2 ^ 63) mod 2 ^ 64 + b) by lia.
  rewrite Zplus_mod_idemp_l. f_equal. lia.
Qed.

(** A [Write] that succeeds took all of [p]. *)
Lemma Write_Ok f p w f' n w' : writeFile_Write f p w = (Ok (f', Ok n), w') →
  wf_ok f (w_db w) →
  wf_ok f' (w_db w') ∧ wal_frame (wf_id f) (w_db w) (w_db w') ∧ w_tx w' = w_tx w
  ∧ n = blen p ∧ wf_node f' = wf_node f ∧ wf_user f' = wf_user f
  ∧ wf_hashed f' = (wf_hashed f ++ p)%list ∧ wf_closed f = false ∧ wf_closed f' = false
  ∧ blen (wf_buf f') < WALChunkSize.
Proof.
  unfold writeFile_Write. destruct (wf_closed f) eqn:Hcl; [unfold ret; done|].
  intros H Hok. m_step. destruct x as [f2 r]. m_inv.
  destruct r as [[]|e]; simpl in *; [|done]. simplify_eq.
  apply flush_full_Ok in Hm as (Hok' & Hfr & Htx & Hn & Hu & Hh & Hc & Hlen); simpl in *.
  - split_and!; try done. apply Hlen. pose proof chunk_nat_Z. pose proof chunk_nat_pos.
    pose proof (Z.div_mod (blen (wf_buf f ++ p)) WALChunkSize ltac:(lia)).
    pose proof (Z.mod_pos_bound (blen (wf_buf f ++ p)) WALChunkSize ltac:(lia)).
    pose proof (Z.div_pos (blen (wf_buf f ++ p)) WALChunkSize ltac:(blen_lia) ltac:(lia)).
    rewrite Z2Nat.id by done. nia.
  - destruct Hok. split; try done; simpl.
    + unfold wf_id in *. simpl. by rewrite app_assoc, wo_bytes0.
    + rewrite wo_size0, wrap64_add. unfold blen. rewrite length_app. f_equal. lia.
Qed.

End writer.

(** ** Updating a row in place *)

Definition same_place (r r' : NodeRow) : Prop :=
  n_ID (nr_node r') = n_ID (nr_node r) ∧ ruser r' = ruser r ∧ rparent r' = rparent r
  ∧ n_Name (nr_node r') = n_Name (nr_node r) ∧ n_Path (nr_node r') = n_Path (nr_node r)
  ∧ rdir r' = rdir r.

Definition put_row (i : uuid) (r : NodeRow) (d : Db) : Db := set_nodes (<[i := r]> (d_nodes d)) d.

Section in_place.
Context (d : Db) (Hd : tree_ok d) (i : uuid) (r r' : NodeRow).
Hypothesis Hr : d_nodes d !! i = Some r.
Hypothesis Hsame : same_place r r'.
Hypothesis Hfile : n_State (nr_node r') = NodeStateBuffered → rdir r = false.

Lemma same_segs : rsegs r' = rsegs r.
Proof. destruct Hsame as (_ & _ & _ & _ & Hp & _). unfold rsegs. by rewrite Hp. Qed.

Lemma put_row_lookup j s : d_nodes (put_row i r' d) !! j = Some s ↔
  (j = i ∧ s = r') ∨ (j ≠ i ∧ d_nodes d !! j = Some s).
Proof. unfold put_row. simpl. rewrite lookup_insert_Some. naive_solver. Qed.

(** Every row has its place in the old tables. *)
Lemma put_row_old j s : d_nodes (put_row i r' d) !! j = Some s →
  ∃ s0, d_nodes d !! j = Some s0 ∧ same_place s0 s ∧ rsegs s = rsegs s0.
Proof.
  intros [[-> ->]|[_ Hj]]%put_row_lookup.
  - exists r. split_and!; [done|done|apply same_segs].
  - exists s. by split_and!.
Qed.

Lemma put_row_new j s0 : d_nodes d !! j = Some s0 →
  ∃ s, d_nodes (put_row i r' d) !! j = Some s ∧ same_place s0 s ∧ rsegs s = rsegs s0.
Proof.
  intros Hj. destruct (decide (j = i)) as [->|Hne].
  - exists r'. simplify_eq. split_and!; [|done|apply same_segs]. apply put_row_lookup. by left.
  - exists s0. split_and!; [|done..]. apply put_row_lookup. by right.
Qed.

Lemma tree_ok_put_row : tree_ok (put_row i r' d).
Proof.
  split.
  - intros j s (s0 & Hj & (H & _) & _)%put_row_old. rewrite H. by eapply tk_id.
  - intros j s (s0 & Hj & (_ & _ & _ & _ & Hp & _) & Hs)%put_row_old. rewrite Hp, Hs. by eapply tk_canon.
  - intros j s (s0 & Hj & (_ & _ & Hpar & _ & _ & Hdir) & Hs)%put_row_old. rewrite Hs, Hpar, Hdir.
    by eapply tk_root.
  - intros j s l x (s0 & Hj & (_ & Hu & Hpar & Hn & _ & _) & Hs)%put_row_old. rewrite Hs. intros Hl.
    destruct (tk_parent _ Hd _ _ _ _ Hj Hl) as (Hname & p & rp & Hp & Hrp & Hlp & Hup & Hdp).
    split; [congruence|]. destruct (put_row_new _ _ Hrp) as (rp' & Hrp' & Hsp & Hsegs).
    destruct Hsp as (_ & Hup' & _ & _ & _ & Hdp'). exists p, rp'. split_and!; congruence.
  - intros j k s t (s0 & Hj & (_ & Hu & _) & Hs)%put_row_old (t0 & Hk & (_ & Hu' & _) & Hs')%put_row_old
      Huu Hss. apply (tk_uniq _ Hd _ _ _ _ Hj Hk); congruence.
  - intros k e He. destruct (tk_extent _ Hd k e He) as (s0 & Hs0 & Hf).
    destruct (put_row_new _ _ Hs0) as (s & Hs & (_ & _ & _ & _ & _ & Hdir) & _).
    exists s. split; [done|congruence].
  - intros k c Hc. destruct (tk_wal _ Hd k c Hc) as [s0 Hs0].
    destruct (put_row_new _ _ Hs0) as (s & Hs & _). by exists s.
  - apply (tk_blob _ Hd).
  - intros j s [[-> ->]|[_ Hj]]%put_row_lookup; [|by eapply tk_files].
    destruct Hsame as (_ & _ & _ & _ & _ & ->). done.
Qed.

Lemma put_row_view v q : view (put_row i r' d) v q =
  if decide (v = ruser r ∧ q = rsegs r) then Some r' else view d v q.
Proof.
  destruct Hsame as (_ & Hu & _). pose proof same_segs as Hs.
  apply option_eq. intros s. rewrite view_Some by apply tree_ok_put_row.
  destruct (decide _) as [[-> ->]|Hne].
  - split.
    + intros (j & [[-> ->]|[Hj Hk]]%put_row_lookup & Hus & Hss); [done|].
      destruct Hj. by eapply (tk_uniq _ Hd).
    + intros [= <-]. exists i. split_and!; [|done..]. apply put_row_lookup. by left.
  - rewrite view_Some by done. split; intros (j & Hj & Hus & Hss).
    + apply put_row_lookup in Hj as [[-> ->]|[_ Hj]]; [|by exists j].
      destruct Hne. split; congruence.
    + exists j. split_and!; [|done..]. apply put_row_lookup. right. split; [|done].
      intros ->. simplify_eq. by destruct Hne.
Qed.

Lemma put_row_conserves : conserves d (put_row i r' d).
Proof. by apply conserves_frame. Qed.

End in_place.

(** ** Close *)

Section closing.
Context {E : Env}.

(** The row [Close] commits over row [r]. *)
Definition closed_row (f : writeFile) (now : time) (r : NodeRow) : NodeRow :=
  mkNodeRow (finished_node (nr_node r) f now) (nr_lease_owner r) (nr_lease_until r).

Lemma closed_row_place f now r : same_place r (closed_row f now r).
Proof. by split_and!. Qed.

Lemma GetByID_Ok id w n w' : NodeRepository_GetByID id w = (Ok n, w') →
  w' = tick w ∧ ∃ r, d_nodes (w_db w) !! id = Some r ∧ nr_node r = n.
Proof.
  unfold NodeRepository_GetByID. intros H. m_inv. unfold GetNodeByID, one_opt in Hq.
  destruct (d_nodes (w_db w) !! id) as [r|] eqn:Hr; [|done]. simplify_eq.
  rewrite set_db_id. split; [done|]. by exists x.
Qed.

Lemma SumSize_Ok u w z w' : NodeRepository_SumSizeByUser u w = (Ok z, w') →
  w' = tick w ∧ z = user_file_bytes u (w_db w) ∧ in_int64 z = true.
Proof.
  unfold NodeRepository_SumSizeByUser. intros H. m_inv. unfold SumSizeByUser in Hq.
  destruct (bigint_ok _) eqn:Hb; [|done]. simplify_eq. by rewrite set_db_id.
Qed.

(** The quota as the transaction of [Close] tests it. *)
Definition quota_admits (f : writeFile) (d : Db) : Prop :=
  0 < u_QuotaBytes (wf_user f) →
  wrap64 (user_file_bytes (u_ID (wf_user f)) d + wf_size f) ≤ u_QuotaBytes (wf_user f).

Lemma close_tx_Ok f now w u w' :
  (∀ i r, d_nodes (w_db w) !! i = Some r → n_ID (nr_node r) = i) → close_tx f now w = (Ok u, w') →
  quota_admits f (w_db w) ∧
  ∃ r, d_nodes (w_db w) !! wf_id f = Some r
       ∧ w_db w' = put_row (wf_id f) (closed_row f now r) (w_db w).
Proof.
  intros Hid. unfold close_tx. intros H. m_step.
  assert (w_db w0 = w_db w ∧ quota_admits f (w_db w)) as [Hw Hq].
  { clear H. unfold quota_admits. destruct (Z.ltb_spec 0 (u_QuotaBytes (wf_user f))); [|m_inv; split; [done|lia]].
    m_step. match goal with H : NodeRepository_SumSizeByUser _ _ = _ |- _ => rename H into Hs end.
    apply SumSize_Ok in Hs as (-> & -> & _).
    match goal with H : context [?a <? ?b] |- _ => destruct (Z.ltb_spec a b) end; m_inv.
    by split. }
  split; [done|]. rewrite <- Hw in *. clear Hm. m_step. apply GetByID_Ok in Hm as (-> & r & Hr & <-).
  apply Update_Ok in H as (r1 & Hr1 & ->). simpl in *. fold (wf_id f) in *.
  rewrite (Hid _ _ Hr) in *. simplify_eq. by exists r.
Qed.

(** A [Close] that succeeds: the buffered rest becomes the last chunk, and the row
    carries the size, hash and etag of exactly the bytes written. *)
Lemma Close_Ok f w f' w' : tree_ok (w_db w) → w_tx w = None → wf_ok f (w_db w) →
  wf_closed f = false → blen (wf_buf f) ≤ WALChunkSize →
  writeFile_Close f w = (Ok (f', Ok tt), w') →
  ∃ r now d1, d_nodes (w_db w) !! wf_id f = Some r
    ∧ wal_frame (wf_id f) (w_db w) d1 ∧ quota_admits f d1
    ∧ w_db w' = put_row (wf_id f) (closed_row f' now r) d1
    ∧ wf_hashed f' = wf_hashed f ∧ wf_size f' = wf_size f
    ∧ wal_ok (wf_id f) (w_db w') ∧ wal_content (wf_id f) (w_db w') = wf_hashed f
    ∧ w_tx w' = None ∧ wf_closed f' = true ∧ tree_ok (w_db w').
Proof.
  intros Hd Htx [Hs Hfu Hq Hb Hz Hfi] Hcl Hlen. unfold writeFile_Close. rewrite Hcl, try_run.
  set (fl := if blen (wf_buf f) =? 0 then ret tt else flushChunk f (wf_buf f)).
  assert (∀ u w1, fl w = (Ok u, w1) → w_tx w1 = None ∧ wal_frame (wf_id f) (w_db w) (w_db w1)
    ∧ wal_ok (wf_id f) (w_db w1) ∧ wal_content (wf_id f) (w_db w1) = wf_hashed f) as Hfl.
  { unfold fl. intros u w1. destruct (Z.eqb_spec (blen (wf_buf f)) 0) as [H0|H0]; intros H.
    - m_inv. assert (wf_buf f = []) as Hnil by (by apply blen_nil_inv).
      rewrite Hnil, app_nil_r in Hb. split_and!; try done. split; [done|]. by apply chunked_full.
    - apply flushChunk_Ok in H as (c & Hcd & Hch & Hso & Hfr & Htx'); [|done..].
      split_and!; [congruence|done| |by rewrite (wal_content_snoc _ _ _ _ Hch), Hcd].
      split; [done|]. rewrite Hch, fmap_app. apply chunked_full_snoc; [done|]. rewrite Hcd.
      pose proof chunk_nat_Z. blen_lia. }
  destruct (fl w) as [[u|e] w1] eqn:Hfw; simpl; intros H; [|by unfold ret in H].
  destruct (Hfl u w1 eq_refl) as (Htx1 & Hfr & Hwok & Hcont). clear Hfl Hfw.
  set (g := if blen (wf_buf f) =? 0 then _ else _) in H.
  assert (wf_id g = wf_id f ∧ wf_hashed g = wf_hashed f ∧ wf_size g = wf_size f
    ∧ wf_user g = wf_user f ∧ wf_closed g = true) as (Hg1 & Hg2 & Hg3 & Hg4 & Hg5)
    by (unfold g; by destruct (_ =? 0)).
  clearbody g. m_inv. rewrite try_run in H.
  destruct (WithTx (close_tx g _) (tick w1)) as [[v|e] w2] eqn:Ht; simpl in H.
  2: { unfold try in H. destruct (close_rollback g w2); by unfold ret in H. }
  m_step. unfold IncWriteOps, modify in Hm. simplify_eq/=. m_inv.
  apply WithTx_Ok in Ht as (w3 & Ht & _ & ->); [|done].
  pose proof (wal_frame_nodes _ _ _ Hfr) as Hnodes.
  apply close_tx_Ok in Ht as (Hquota & r & Hr & Hw3); simpl in *.
  2: { rewrite Hnodes. apply (tk_id _ Hd). }
  rewrite Hg1 in *.
  assert (tree_ok (w_db w1)) as Hd1 by (eapply wal_frame_tree; [done| |done]; rewrite <- Hnodes; by eexists).
  eexists r, _, (w_db w1). rewrite Hw3, <- Hnodes. split_and!; try done.
  - unfold quota_admits in *. by rewrite <- Hg3, <- Hg4.
  - eapply tree_ok_put_row; [done|done|apply closed_row_place|]. intros _. apply Hfi. by rewrite <- Hnodes.
Qed.

End closing.

(** ** Truncation *)

Definition reset_row (now : time) (r : NodeRow) : NodeRow :=
  mkNodeRow (reset_node (nr_node r) now) (nr_lease_owner r) (nr_lease_until r).

(** What an overwriting open leaves of a file: an empty row in the Writing state,
    with the lease it had; its extents are released and its chunks gone. *)
Record truncated (id : uuid) (r : NodeRow) (now : time) (d d' : Db) : Prop := {
  tr_nodes : d_nodes d' = <[id := reset_row now r]> (d_nodes d);
  tr_extents : d_extents d' = filter (λ kv : uuid * Extent, e_NodeID kv.2 ≠ id) (d_extents d);
  tr_wal : d_wal_chunks d' = filter (λ kv : uuid * WALChunk, c_NodeID kv.2 ≠ id) (d_wal_chunks d);
  tr_users : d_users d' = d_users d;
  tr_conserves : conserves d d' }.

Lemma drop_extents_conserves id bl d :
  rebased (λ b, - refs_if (of_node id) b d) (d_blobs d) bl →
  conserves d (set_extents (filter (λ kv : uuid * Extent, e_NodeID kv.2 ≠ id) (d_extents d))
                 (set_blobs bl d)).
Proof.
  intros Hb b. simpl. rewrite Hb. destruct (d_blobs d !! b) as [x|]; [|done]. simpl.
  do 3 f_equal. unfold refs, refs_if. simpl.
  rewrite (cnt_filter _ _ (λ e, negb (of_node id e))).
  2: { intros k e. unfold of_node. rewrite negb_true_iff. apply N.eqb_neq. }
  rewrite (cnt_split (λ e, N.eqb (e_BlobID e) b && true) (of_node id)).
  rewrite (cnt_ext (λ e, N.eqb (e_BlobID e) b && of_node id e)
             (λ e, N.eqb (e_BlobID e) b && true && of_node id e)); [lia|].
  intros k e _. by rewrite andb_true_r.
Qed.

Lemma truncated_tree id r now d d' : tree_ok d → d_nodes d !! id = Some r →
  (∀ k b, d_blobs d' !! k = Some b → b_ID b = k) → truncated id r now d d' → tree_ok d'.
Proof.
  intros Hd Hr Hb [Hn He Hw _ _].
  assert (tree_ok (put_row id (reset_row now r) d)) as H0
    by (eapply tree_ok_put_row; [done|exact Hr|by split_and!|done]).
  destruct H0 as [H1 H2 H3 H4 H5 H6 H7 _ H8]. unfold put_row in *. simpl in *.
  split; rewrite ?Hn; try done.
  - intros k e. rewrite He. intros [Hk _]%map_lookup_filter_Some. by eapply H6.
  - intros k c. rewrite Hw. intros [Hk _]%map_lookup_filter_Some. by eapply H7.
Qed.

Lemma truncated_chunks id r now d d' : truncated id r now d d' → node_chunks id d' = [].
Proof.
  intros [_ _ Hw _ _]. unfold node_chunks. assert (chunks_of id d' = []) as ->; [|done].
  apply rows_nil. intros k c. rewrite Hw. intros [_ Hne]%map_lookup_filter_Some. simpl in Hne.
  by apply N.eqb_neq.
Qed.

Section truncate.
Context {E : Env}.

Lemma truncateNode_Ok n w u w' : tree_ok (w_db w) → w_tx w = None →
  truncateNode n w = (Ok u, w') →
  ∃ r now, d_nodes (w_db w) !! n_ID n = Some r
    ∧ truncated (n_ID n) r now (w_db w) (w_db w') ∧ tree_ok (w_db w') ∧ w_tx w' = None.
Proof.
  intros Hd Htx H. apply WithTx_Ok in H as (w1 & H & _ & ->); [|done].
  m_step. apply releaseExtents_Ok in Hm as (bl & Hw & Hb). simpl in *.
  unfold extentRepository_DeleteByNode, WALRepository_DeleteByNode in H.
  m_inv. rename Hm1 into Hg. unfold DeleteWALChunksByNode, DeleteExtentsByNode in Hq, Hq0.
  simplify_eq. rewrite Hw in *.
  apply GetByID_Ok in Hg as (-> & r & Hr & <-). simpl in *.
  pose proof (tk_id _ Hd _ _ Hr) as Hid.
  apply Update_Ok in H as (r1 & Hr1 & Hw1). simpl in *. rewrite Hid in *. simplify_eq.
  assert (truncated (n_ID n) r (env_now (S (S (S (w_step w0))))) (w_db w) (w_db w1)) as Htr.
  { rewrite Hw1. split; try done. etrans; [by apply (drop_extents_conserves (n_ID n) bl)|].
    by apply conserves_frame. }
  eexists _, _. split_and!; [done|exact Htr| |done].
  eapply truncated_tree; [done..| |exact Htr]. rewrite Hw1. simpl. intros k b'. rewrite Hb.
  intros (b & Hbk & ->)%fmap_Some. simpl. by eapply (tk_blob _ Hd).
Qed.

End truncate.

(** ** Opening for writing *)

(** An open writer at a path: its row is an empty file in the Writing state, and
    the rest of the namespace is as before (up to a root created on the way). *)
Record opened (u : uuid) (l : list string) (f : writeFile) (d d' : Db) : Prop := {
  op_tree : tree_ok d';
  op_conserves : conserves d d';
  op_row : ∃ r, d_nodes d' !! wf_id f = Some r ∧ ruser r = u ∧ rsegs r = l ∧ rdir r = false
                ∧ n_State (nr_node r) = NodeStateWriting ∧ n_Size (nr_node r) = 0;
  op_wf : wf_ok f d';
  op_fresh : wf_hashed f = [] ∧ wf_buf f = [] ∧ wf_closed f = false ∧ u_ID (wf_user f) = u;
  op_extents : extents_of (wf_id f) d' = [];
  op_ext : ∀ k e, e_NodeID e ≠ wf_id f → d_extents d' !! k = Some e ↔ d_extents d !! k = Some e;
  op_wal : ∀ k c, c_NodeID c ≠ wf_id f → d_wal_chunks d' !! k = Some c ↔ d_wal_chunks d !! k = Some c;
  op_place : ∃ m bx rp, l = (m ++ [bx])%list ∧ view d u m = Some rp ∧ rdir rp = true;
  op_free : ∀ r, view d u l = Some r → rdir r = false;
  op_view : ∀ v q, ¬ (v = u ∧ (q = l ∨ q = [])) → view d' v q = view d v q }.

Section opening.
Context {E : Env}.

Lemma fresh_writer_ok user n d : node_chunks (n_ID n) d = [] →
  (∀ r, d_nodes d !! n_ID n = Some r → rdir r = false) →
  wf_ok (mkWriteFile n user [] [] 0 0 false) d.
Proof.
  intros Hn Hf. split; unfold wf_id; simpl; unfold wal_content; rewrite ?Hn; try done.
Qed.

Lemma no_chunks n d : tree_ok d → d_nodes d !! n = None → node_chunks n d = [].
Proof.
  intros Hd Hn. unfold node_chunks. assert (chunks_of n d = []) as ->; [|done].
  apply rows_nil. intros k c Hc. apply N.eqb_neq. intros <-.
  destruct (tk_wal _ Hd _ _ Hc). congruence.
Qed.

Lemma no_extents n d : tree_ok d → d_nodes d !! n = None → extents_of n d = [].
Proof.
  intros Hd Hn. apply rows_nil. intros k c Hc. apply N.eqb_neq. intros <-.
  destruct (tk_extent _ Hd _ _ Hc) as (? & ? & _). congruence.
Qed.

Lemma truncated_view id r now d d' v q : tree_ok d → tree_ok d' → d_nodes d !! id = Some r →
  truncated id r now d d' →
  view d' v q = if decide (v = ruser r ∧ q = rsegs r) then Some (reset_row now r) else view d v q.
Proof.
  intros Hd Hd' Hr Htr.
  rewrite <- (put_row_view d Hd id r) by (done || by split_and!).
  apply view_nodes. by rewrite (tr_nodes _ _ _ _ _ Htr).
Qed.

Lemma openWrite_Ok user l flag w f w' : tree_ok (w_db w) → w_tx w = None →
  segs_ok l → l ≠ [] →
  openWrite user (render l) flag w = (Ok f, w') →
  ∃ wf, f = FWrite wf ∧ opened (u_ID user) l wf (w_db w) (w_db w') ∧ w_tx w' = None ∧ wf_user wf = user.
Proof.
  intros Hd Htx Hl Hne H. unfold openWrite in H.
  destruct (String.eqb (render l) "/"); [done|].
  destruct (exists_last Hne) as (m & bx & ->). pose proof Hl as [Hm _]%segs_ok_snoc.
  m_step. rewrite Dir_render in Hm0 by done.
  apply with_fs_err_Ok, GetByPath_Ok in Hm0 as (-> & rp & Hrp & <- & Hpu & Hps); [|done..].
  destruct (n_IsDir (nr_node rp)) eqn:Hdir; [|done]. simpl in H. rewrite try_run in H.
  destruct (NodeRepository_GetByPath _ _ _) as [[n|e] w1] eqn:Hg; simpl in H.
  - apply GetByPath_Ok in Hg as (-> & r & Hr & <- & Hu & Hs); [|done..]. simpl in *.
    destruct (n_IsDir (nr_node r)) eqn:Hrd; [done|].
    destruct (negb _); [done|]. m_step.
    apply truncateNode_Ok in Hm0 as (r0 & now & Hr0 & Htr & Hd' & Htx'); [|done..].
    simpl in *. rewrite Hr in Hr0. simplify_eq.
    unfold newWriter in H. m_inv. eexists. split; [done|]. split; [|done].
    split; unfold wf_id; simpl.
    + done.
    + by apply (tr_conserves _ _ _ _ _ Htr).
    + exists (reset_row now r0). rewrite (tr_nodes _ _ _ _ _ Htr), lookup_insert_eq.
      by split_and!.
    + apply fresh_writer_ok; [by eapply truncated_chunks|]. rewrite (tr_nodes _ _ _ _ _ Htr), lookup_insert_eq.
      by intros r [= <-].
    + done.
    + apply rows_nil. intros k e. rewrite (tr_extents _ _ _ _ _ Htr).
      intros [_ He]%map_lookup_filter_Some. by apply N.eqb_neq.
    + intros k e He. rewrite (tr_extents _ _ _ _ _ Htr), map_lookup_filter_Some. split; [by intros []|done].
    + intros k c Hc. rewrite (tr_wal _ _ _ _ _ Htr), map_lookup_filter_Some. split; [by intros []|done].
    + exists (rsegs rp), bx, rp. split_and!; [done| |exact Hdir]. apply view_Some; [done|]. by eexists.
    + intros r1 Hr1. assert (view (w_db w) (u_ID user) (rsegs rp ++ [bx]) = Some r0) as Hv0
        by (apply view_Some; [done|]; by eexists).
      by replace r1 with r0 by congruence.
    + intros v q Hvq. rewrite (truncated_view _ _ _ _ _ v q Hd Hd' Hr Htr). rewrite decide_False; [done|].
      intros [-> ->]. apply Hvq. split; [done|]. by left.
  - apply GetByPath_Err in Hg as (_ & _ & Hg); [|done..].
    unfold errors_Is in H. case_bool_decide as Hx; [|done]. destruct (Hg Hx) as [-> Hfree].
    m_inv. match goal with Hc : with_fs_err _ _ = _ |- _ => apply with_fs_err_Ok in Hc; rename Hc into Hcr end.
    destruct (λ H0 H1 H2 H3 H4, create_below_Ok _ (rsegs rp) bx (tick (tick (tick (tick w)))) _ _ rp _ Hd Hl H0 Hrp
                Hpu eq_refl Hdir H1 H2 H3 H4 Hcr)
      as (Hfill & Hw & Hok & Hc & Hnew & Hnone & Hv); [done|done|done|by apply Base_render|done|].
    destruct Hfill as (Hfu & Hfp & Hfn & Hfpath & Hfd & Hfs & _ & _ & _ & Hfst & _). simpl in *.
    unfold newWriter. eexists. split; [done|].
    match type of Hw with w_db ?w2 = _ => assert (w_tx w2 = None) as Htx2 end.
    { apply Create_Ok in Hcr as (_ & _ & _ & _ & Ht & _); [|exact Hd]. by rewrite Ht. }
    split; [|done]. split; unfold wf_id; simpl; try done.
    + eexists. rewrite Hw. split; [by apply lookup_insert_eq|].
      split_and!; try done. unfold rsegs. simpl. rewrite Hfpath. by apply path_segs_render.
    + apply fresh_writer_ok; rewrite Hw; [by apply (no_chunks _ (w_db w))|]. simpl. rewrite lookup_insert_eq.
      by intros r [= <-].
    + rewrite Hw. by apply (no_extents _ (w_db w)).
    + intros k e _. by rewrite Hw.
    + intros k c _. by rewrite Hw.
    + exists (rsegs rp), bx, rp. split_and!; [done| |exact Hdir]. apply view_Some; [done|]. by eexists.
    + intros r1 Hr1. rewrite Hnone in Hr1. done.
    + intros v q Hvq. rewrite Hv. rewrite decide_False; [done|].
      intros [-> ->]. apply Hvq. split; [done|]. by left.
Qed.

End opening.
