(* ===== verification/ReadFacts.v ===== *)
(** * Reading a file: every read is the next slice of the content

    [BlobLaws] is what a file asks of the blob service: a successful [ReadBlob]
    returns the bytes of the store [st], and no table of the filesystem changes.
    [reader_ok] relates a content reader at a position to the file's content,
    whichever of the two representations it reads. *)
From Stdlib Require Import ZArith Lia Strings.Byte Strings.String Strings.Ascii.
From stdpp Require Import base tactics list gmap sets sorting strings.
From S2P Require Import Prelude Model Sql SqlFacts World Repository Crypto Path FileSystem File.
From S2P Require Import Tree FsFacts RenameFacts CreateFacts WalFacts WriteFacts.
#[local] Open Scope Z_scope.

(** The tables a file's content is read from. *)
Record files_same (d d' : Db) : Prop := {
  fsm_nodes : d_nodes d' = d_nodes d;
  fsm_extents : d_extents d' = d_extents d;
  fsm_wal : d_wal_chunks d' = d_wal_chunks d }.

#[global] Instance files_same_preorder : PreOrder files_same.
Proof.
  split; [by split|]. intros a b c [H1 H2 H3] [H4 H5 H6]. split; congruence.
Qed.

Lemma files_same_wal d d' n : files_same d d' → wal_ok n d →
  wal_ok n d' ∧ wal_content n d' = wal_content n d.
Proof.
  intros [_ _ Hw]. unfold wal_ok, wal_content, node_chunks, chunks_of. by rewrite Hw.
Qed.

(** What a step that only reads leaves: the tables and the cache. *)
Definition idle (w w' : World) : Prop := w_db w' = w_db w ∧ w_cache w' = w_cache w.

#[global] Instance idle_preorder : PreOrder idle.
Proof. split; [done|]. intros a b c [H1 H2] [H3 H4]. split; congruence. Qed.

(** The blob store seen through the service, while the invariant [I] of the blob
    tables and the cache holds: a read of a blob of the store that succeeds returns
    its bytes and keeps the invariant and the files.  (One that fails may have removed
    files: see [BlobReader.v].) *)
Class BlobLaws {B : BlobService} (st : uuid → option bytes) (I : World → Prop) : Prop := {
  bl_idle : ∀ w w', idle w w' → I w → I w';
  bl_read : ∀ id w r w', I w → blob_ReadBlob id w = (r, w') →
    match r with
    | Ok data => (∀ bs, st id = Some bs → data = bs) ∧ I w' ∧ files_same (w_db w) (w_db w')
                 ∧ (w_tx w = None → w_tx w' = None)
    | Err e => e ≠ IoEOF
    end }.

(** ** Slices *)

Lemma drop_slice {A} (k : nat) (a b : Z) (l : list A) : 0 ≤ a →
  drop k (slice a b l) = slice (a + Z.of_nat k) b l.
Proof.
  intros Ha. unfold slice. rewrite skipn_firstn_comm, drop_drop. f_equal; [lia|]. f_equal. lia.
Qed.

Lemma take_slice {A} (k : nat) (a b : Z) (l : list A) :
  take k (slice a b l) = take (Nat.min k (Z.to_nat (b - a))) (drop (Z.to_nat a) l).
Proof. unfold slice. by rewrite take_take. Qed.

Lemma length_slice {A} (a b : Z) (l : list A) : 0 ≤ a → b ≤ blen l →
  length (slice a b l) = Z.to_nat (b - a).
Proof. intros Ha Hb. unfold slice, blen in *. rewrite length_take, length_drop. lia. Qed.

(** ** The WAL reader *)

(** [out] is what the content holds at [pos]. *)
Definition next_at (content : bytes) (pos : Z) (out : bytes) : Prop :=
  out = take (length out) (drop (Z.to_nat pos) content).

Definition wr_ok (content : bytes) (pos : Z) (r : walReader) : Prop :=
  wr_size r = blen content ∧ 0 ≤ pos ∧ pos + blen (wr_buf r) = wr_pos r
  ∧ wr_pos r ≤ blen content ∧ next_at content pos (wr_buf r).

Lemma next_at_take content pos out k :
  next_at content pos out → next_at content pos (take k out).
Proof.
  unfold next_at. intros H. rewrite length_take. rewrite H at 1. rewrite take_take. f_equal.
Qed.

Lemma next_at_drop content pos out k : 0 ≤ pos → (k ≤ length out)%nat →
  next_at content pos out → next_at content (pos + Z.of_nat k) (drop k out).
Proof.
  unfold next_at. intros Hp Hk H. rewrite length_drop. rewrite H at 1.
  rewrite skipn_firstn_comm, drop_drop. f_equal. f_equal. lia.
Qed.

(** Serving from the buffer. *)
Lemma wr_serve content pos r plen : wr_ok content pos r → 0 ≤ plen → wr_buf r ≠ [] →
  let '(out, rest) := copy_out plen (wr_buf r) in
  next_at content pos out ∧ blen out ≤ plen ∧ (0 < plen → 0 < blen out)
  ∧ pos + blen out ≤ blen content
  ∧ wr_ok content (pos + blen out) (mkWalReader (wr_nodeID r) (wr_pos r) (wr_size r) rest).
Proof.
  intros (Hs & Hp & Hb & Hle & Hn) Hplen Hne. unfold copy_out, wr_ok. simpl.
  assert (0 < length (wr_buf r))%nat as Hpos by (destruct (wr_buf r); [done|simpl; lia]).
  unfold blen in *. rewrite length_take, length_drop. split_and!; try done; try lia.
  - by apply next_at_take.
  - destruct (decide (Z.to_nat plen ≤ length (wr_buf r))%nat).
    + rewrite Nat.min_l by done. by apply next_at_drop.
    + rewrite drop_ge by lia. done.
Qed.

(** What one [Read] at [pos] may do; [good] is the reader's invariant after it, and
    it does not fail when all is [fine]. *)
Definition read_spec (fine : Prop) (content : bytes) (pos plen : Z) (out : res bytes)
    (good : Z → Prop) : Prop :=
  match out with
  | Ok out => next_at content pos out ∧ blen out ≤ plen ∧ (0 < plen → 0 < blen out)
              ∧ pos + blen out ≤ blen content ∧ good (pos + blen out)
  | Err e => e ≠ IoEOF ∧ ¬ fine
  end.

(** No statement fails and none runs in a transaction. *)
Definition calm {E : Env} (w : World) : Prop := no_faults ∧ w_tx w = None.

Section readers.
Context {E : Env} {B : BlobService}.

Lemma read_stmt_Err {A} (q : sql A) w e w' :
  translate (stmt q) w = (Err e, w') → w_db w' = w_db w ∧ e ≠ IoEOF
  ∧ (w_tx w = None → w_tx w' = None) ∧ ((∀ d er, q d ≠ SqlErr er) → ¬ calm w).
Proof.
  intros (e0 & H & ->)%translate_Err. split_and!.
  - by apply query_Err in H as (Hdb & _).
  - apply query_Err in H as (_ & _ & _ & [(-> & _)|(Hh & _)]); [done|].
    by destruct e0 as [| |[]| | | | | | | | | | | | | | | | | | | | | | | |].
  - by apply query_Err in H as (_ & _ & Htx & _).
  - intros Hq [Hf Hn]. unfold stmt, query, in_aborted in H. rewrite Hn, Hf in H.
    destruct (q (w_db w)) as [er|a d] eqn:Hqd; [|done]. by destruct (Hq (w_db w) er).
Qed.

Lemma ReadRange_Err node o n w e w' : WALRepository_ReadRange node o n w = (Err e, w') →
  w_db w' = w_db w ∧ e ≠ IoEOF ∧ (w_tx w = None → w_tx w' = None) ∧ ¬ calm w.
Proof.
  unfold WALRepository_ReadRange. destruct (_ || _); [done|].
  intros [(a & w1 & _ & [=])|(e' & H & [= ->])]%bind_cases.
  apply read_stmt_Err in H as (? & ? & ? & Hc). split_and!; try done. by apply Hc.
Qed.

Lemma ReadRange_idle node o n w x w' : WALRepository_ReadRange node o n w = (Ok x, w') →
  w_tx w' = w_tx w ∧ idle w w'.
Proof.
  unfold WALRepository_ReadRange. destruct (_ || _); intros H; m_inv; [done|].
  unfold ListWALChunksByNodeSeqRange, many in Hq. by simplify_eq.
Qed.


(** The reader once its buffer holds something. *)
Lemma serve_spec (P : Prop) content pos plen r o rest : wr_buf r ≠ [] → wr_ok content pos r → 0 ≤ plen →
  copy_out plen (wr_buf r) = (o, rest) →
  read_spec P content pos plen (Ok o)
    (λ p, wr_ok content p (mkWalReader (wr_nodeID r) (wr_pos r) (wr_size r) rest)).
Proof.
  intros Hne Hok Hplen Hco. pose proof (wr_serve content pos r plen Hok Hplen Hne) as Hs.
  by rewrite Hco in Hs.
Qed.

Lemma walReader_Read_spec r content pos plen w r' out w' :
  wal_ok (wr_nodeID r) (w_db w) → wal_content (wr_nodeID r) (w_db w) = content →
  blen content ≤ max_file → wr_ok content pos r → pos < blen content → 0 ≤ plen →
  walReader_Read r plen w = (Ok (r', out), w') →
  read_spec (calm w) content pos plen out (λ p, wr_ok content p r' ∧ idle w w'
    ∧ wr_nodeID r' = wr_nodeID r ∧ (w_tx w = None → w_tx w' = None)).
Proof.
  intros Hwal Hc Hmax Hok Hlt Hplen. unfold walReader_Read.
  pose proof Hok as (Hs & Hp & Hb & Hle & Hn).
  destruct (Z.eqb_spec (blen (wr_buf r)) 0) as [H0|H0].
  2: { intros H. destruct (copy_out plen (wr_buf r)) as [o rest] eqn:Hco. unfold ret in H. simplify_eq.
       assert (wr_buf r ≠ []) as Hne by (intros Hnil; by rewrite Hnil in H0).
       destruct (serve_spec True _ _ _ _ _ _ Hne Hok Hplen Hco) as (? & ? & ? & ? & ?). by split_and!. }
  destruct (Z.leb_spec (wr_size r) (wr_pos r)); [lia|].
  set (n := if _ <? _ then _ else _). assert (0 < n ∧ wr_pos r + n ≤ wr_size r) as [Hn0 Hnle].
  { unfold n. rewrite wrap64_id by (unfold walReadBlock, max_file in *; int_lia). destruct (Z.ltb_spec (wr_size r) (wr_pos r + walReadBlock)); unfold walReadBlock in *; lia. }
  clearbody n. rewrite try_run.
  destruct (WALRepository_ReadRange (wr_nodeID r) (wr_pos r) n w) as [[data|e] w1] eqn:Hr; simpl.
  2: { intros H1. apply ReadRange_Err in Hr as (_ & He & _ & Hc'). m_inv. by split_and!. }
  pose proof (ReadRange_idle _ _ _ _ _ _ Hr) as [Htx Hidle].
  apply ReadRange_Ok in Hr as [Hdata _]; [|done|lia|unfold max_file in *; lia]. rewrite Hc in Hdata.
  assert (blen data = n) as Hlen.
  { rewrite Hdata. blen_lia. }
  assert (next_at content (pos + blen (wr_buf r)) data) as Hnext.
  { unfold next_at. rewrite Hb, Hdata at 1. f_equal. blen_lia. }
  clear Hdata. destruct (Z.eqb_spec (blen data) 0); [lia|]. intros Hsv.
  rewrite (wrap64_id (wr_pos r + blen data)) in Hsv by (unfold max_file in *; int_lia).
  set (r1 := mkWalReader (wr_nodeID r) (wr_pos r + blen data) (wr_size r) data) in *.
  assert (wr_buf r1 ≠ []) as Hne by (simpl; by intros ->).
  assert (wr_ok content pos r1) as Hok1.
  { unfold r1, wr_ok. simpl. split_and!; [done|done|lia|lia|]. by rewrite H0, Z.add_0_r in Hnext. }
  unfold copy_out, ret in Hsv. injection Hsv as <- <- <-.
  destruct (serve_spec True _ _ _ _ _ _ Hne Hok1 Hplen eq_refl) as (H1 & H2 & H3 & H4 & H5).
  split_and!; [exact H1|exact H2|exact H3|exact H4|exact H5|apply Hidle|done|by rewrite Htx].
Qed.

End readers.

(** ** The extent reader *)

(** An extent whose blob region holds its part of the content. *)
Definition ext_ok (st : uuid → option bytes) (content : bytes) (e : Extent) : Prop :=
  ∃ data, st (e_BlobID e) = Some data ∧ 0 ≤ e_FileOffset e ∧ 0 ≤ e_Length e ∧ 0 ≤ e_BlobOffset e
    ∧ e_BlobOffset e + e_Length e ≤ blen data ∧ e_FileOffset e + e_Length e ≤ blen content
    ∧ slice (e_BlobOffset e) (e_BlobOffset e + e_Length e) data
      = slice (e_FileOffset e) (e_FileOffset e + e_Length e) content.

Definition covers (e : Extent) (pos : Z) : bool :=
  (e_FileOffset e <=? pos) && (pos <? e_FileOffset e + e_Length e).

(** The extents represent the content: each is right and together they cover it. *)
Definition extents_ok (st : uuid → option bytes) (content : bytes) (es : list Extent) : Prop :=
  Forall (ext_ok st content) es ∧
  ∀ pos, 0 ≤ pos < blen content → ∃ e, e ∈ es ∧ covers e pos = true.

Lemma extentAt_Some es pos e : extentAt es pos = Some e → e ∈ es ∧ covers e pos = true.
Proof.
  unfold extentAt, find_first. destruct (list_find _ es) as [[i x]|] eqn:Hf; [|done].
  intros [= <-]. apply list_find_Some in Hf as (Hi & Hx & _). split.
  - by eapply list_elem_of_lookup_2.
  - unfold covers. by destruct (_ && _).
Qed.

Lemma extentAt_covers es pos : (∃ e, e ∈ es ∧ covers e pos = true) → is_Some (extentAt es pos).
Proof.
  intros (e & He & Hc). unfold extentAt, find_first.
  destruct (list_find _ es) as [[i x]|] eqn:Hf; [by eexists|].
  apply list_find_None in Hf. rewrite Forall_forall in Hf. destruct (Hf e He).
  unfold covers in Hc. by rewrite Hc.
Qed.

(** The part of a blob from a position inside an extent to the extent's end. *)
Lemma extent_tail st content e pos data : ext_ok st content e → st (e_BlobID e) = Some data →
  covers e pos = true →
  0 < extent_avail e pos data
  ∧ next_at content pos
      (slice (e_BlobOffset e + (pos - e_FileOffset e))
         (e_BlobOffset e + (pos - e_FileOffset e) + extent_avail e pos data) data)
  ∧ length (slice (e_BlobOffset e + (pos - e_FileOffset e))
         (e_BlobOffset e + (pos - e_FileOffset e) + extent_avail e pos data) data)
    = Z.to_nat (extent_avail e pos data)
  ∧ pos + extent_avail e pos data ≤ blen content.
Proof.
  intros (data' & Hst & Hfo & Hlen & Hbo & Hbl & Hcl & Heq) Hst' Hcov.
  rewrite Hst in Hst'. simplify_eq. unfold covers in Hcov.
  assert (extent_avail e pos data = e_Length e - (pos - e_FileOffset e)) as Hav.
  { unfold extent_avail. destruct (Z.ltb_spec (blen data)
      (e_BlobOffset e + (pos - e_FileOffset e) + (e_Length e - (pos - e_FileOffset e)))); lia. }
  rewrite Hav. set (k := Z.to_nat (pos - e_FileOffset e)).
  apply (f_equal (drop k)) in Heq. rewrite !drop_slice in Heq by done.
  replace (e_BlobOffset e + (pos - e_FileOffset e)) with (e_BlobOffset e + Z.of_nat k) by lia.
  replace (e_BlobOffset e + Z.of_nat k + (e_Length e - (pos - e_FileOffset e)))
    with (e_BlobOffset e + e_Length e) by lia.
  rewrite Heq. replace (e_FileOffset e + Z.of_nat k) with pos by lia.
  rewrite length_slice by lia. split_and!; [lia| |lia|lia].
  unfold next_at. rewrite length_slice by lia. done.
Qed.


Section blob_readers.
Context {E : Env} {B : BlobService} (st : uuid → option bytes) (I : World → Prop) {L : BlobLaws st I}.

(** The service has every blob of the store. *)
Definition serving : Prop := ∀ id w, I w → w_tx w = None → is_Some (st id) →
  ∃ data w', blob_ReadBlob id w = (Ok data, w').

Definition fine (w : World) : Prop := calm w ∧ serving.

Definition er_ok (content : bytes) (pos : Z) (r : extentReader) : Prop :=
  er_size r = blen content ∧ er_pos r = pos ∧ 0 ≤ pos ∧ extents_ok st content (er_extents r)
  ∧ ∀ b data, er_cur r = Some (b, data) → st b = Some data.

Lemma extent_serve_spec (P : Prop) e r data content pos plen w r' out w' :
  er_ok content pos r → ext_ok st content e → st (e_BlobID e) = Some data → covers e pos = true →
  0 ≤ plen → extent_serve e plen r data w = (Ok (r', out), w') →
  w' = w ∧ read_spec P content pos plen out (λ p, er_ok content p r').
Proof.
  intros (Hs & Hpos & Hp & Hex & Hcur) Hall Hst Hcv Hplen. unfold extent_serve. rewrite Hpos.
  destruct (extent_tail st content e pos data Hall Hst Hcv) as (H0 & Hn & Hl & Hb).
  destruct (Z.leb_spec (extent_avail e pos data) 0); [lia|]. unfold ret. intros [= <- <- <-].
  split; [done|]. set (sl := slice _ _ data) in *. unfold copy_out. cbn [fst].
  assert (blen (take (Z.to_nat plen) sl) = Z.min plen (extent_avail e pos data)) as Hlo
    by (unfold blen; rewrite length_take, Hl; lia).
  unfold read_spec. rewrite Hlo. split_and!; [by apply next_at_take|lia|lia|lia|].
  unfold er_ok. simpl. split_and!; done || lia.
Qed.

Lemma extentReader_Read_spec r content pos plen w r' out w' :
  I w → er_ok content pos r → pos < blen content → 0 ≤ plen →
  extentReader_Read r plen w = (Ok (r', out), w') →
  read_spec (fine w) content pos plen out (λ p, er_ok content p r' ∧ I w'
    ∧ files_same (w_db w) (w_db w') ∧ (w_tx w = None → w_tx w' = None)).
Proof.
  intros HI Hok Hlt Hplen. pose proof Hok as (Hs & Hpos & Hp & Hex & Hcur).
  unfold extentReader_Read. rewrite Hs, Hpos. destruct (Z.leb_spec (blen content) pos); [lia|].
  pose proof Hex as [Hall Hcov].
  destruct (extentAt (er_extents r) pos) as [e|] eqn:He.
  2: { destruct (extentAt_covers (er_extents r) pos) as [e He']; [apply Hcov; lia|congruence]. }
  apply extentAt_Some in He as [Hin Hcv]. rewrite Forall_forall in Hall. specialize (Hall e Hin).
  assert (extent_fetch e plen r w = (Ok (r', out), w') →
    read_spec (fine w) content pos plen out (λ p, er_ok content p r' ∧ I w'
      ∧ files_same (w_db w) (w_db w') ∧ (w_tx w = None → w_tx w' = None))) as Hfetch.
  { unfold extent_fetch. rewrite try_run.
    destruct (blob_ReadBlob (e_BlobID e) w) as [[data|er] w1] eqn:Hb; simpl; pose proof Hb as Hrun;
      apply (bl_read (st := st) (I := I)) in Hb; try done.
    - destruct Hb as (Hst & HI1 & Hf1 & Htx1). intros Hr.
      assert (st (e_BlobID e) = Some data) as Hdata by by destruct Hall as (bs & Hbs & _); rewrite (Hst bs Hbs).
      eapply (extent_serve_spec (fine w)) in Hr as [-> Hr]; try done.
      + destruct out; naive_solver.
      + unfold er_ok. simpl. split_and!; try done. by intros b d [= <- <-].
    - intros Hr. m_inv. split; [done|]. intros [[_ Htx] Hsv].
      destruct (Hsv (e_BlobID e) w HI Htx) as (? & ? & ?); [|congruence].
      destruct Hall as (data & -> & _). done. }
  destruct (er_cur r) as [[b data]|] eqn:Hc; [|done].
  destruct (N.eqb_spec b (e_BlobID e)) as [->|]; [|done].
  intros Hr. eapply (extent_serve_spec (fine w)) in Hr as [-> Hr]; try done.
  - destruct out; naive_solver.
  - by apply Hcur.
Qed.

(** ** The open file *)

(** Node [id] holds [content]: the row's size is its length, and the extents or the
    chunks, as the row's state says, represent it. *)
Definition stores (id : uuid) (r : NodeRow) (d : Db) (content : bytes) : Prop :=
  n_Size (nr_node r) = blen content ∧ blen content ≤ max_file ∧
  match n_State (nr_node r) with
  | NodeStateStored => extents_ok st content (sort_by e_Seq (extents_of id d))
  | _ => wal_ok id d ∧ wal_content id d = content
  end.

(** The same where the blobs can be read. *)
Definition content_is (id : uuid) (r : NodeRow) (w : World) (content : bytes) : Prop :=
  stores id r (w_db w) content ∧ (n_State (nr_node r) = NodeStateStored → I w).

Definition src_ok (id : uuid) (content : bytes) (pos : Z) (s : contentReader) (w : World) : Prop :=
  match s with
  | RWal r => wr_nodeID r = id ∧ wal_ok id (w_db w) ∧ wal_content id (w_db w) = content
              ∧ wr_ok content pos r
  | RExtent r => I w ∧ er_ok content pos r
  end.

Record rf_ok (content : bytes) (f : readFile) (w : World) : Prop := {
  ro_pos : 0 ≤ rf_pos f ≤ blen content;
  ro_content : ∃ r, nr_node r = rf_node f ∧ content_is (n_ID (rf_node f)) r w content;
  ro_extents : rf_loaded f = true → n_State (rf_node f) = NodeStateStored →
    extents_ok st content (rf_extents f);
  ro_src : ∀ s, rf_src f = Some s → src_ok (n_ID (rf_node f)) content (rf_pos f) s w }.

(** Nothing a reader depends on has changed. *)
Definition still (w w' : World) : Prop := files_same (w_db w) (w_db w') ∧ (I w → I w').

#[global] Instance still_preorder : PreOrder still.
Proof.
  split; [by split|]. intros a b c [H1 H2] [H3 H4]. split; [by etrans|auto].
Qed.

Lemma idle_still w w' : idle w w' → still w w'.
Proof. intros Hi. split; [by destruct Hi as [-> _]|]. by apply bl_idle. Qed.

Lemma content_is_same id r w w' content : still w w' →
  content_is id r w content → content_is id r w' content.
Proof.
  intros [Hf HI] [(H1 & H2 & H3) H4]. split; [|auto]. split_and!; [done..|].
  destruct (n_State (nr_node r)).
  - destruct H3 as [Hw Hc]. destruct (files_same_wal _ _ _ Hf Hw) as [? Hcc]. by rewrite Hcc.
  - destruct H3 as [Hw Hc]. destruct (files_same_wal _ _ _ Hf Hw) as [? Hcc]. by rewrite Hcc.
  - unfold extents_of in *. by rewrite (fsm_extents _ _ Hf).
Qed.

Lemma src_ok_same id content pos s w w' : still w w' →
  src_ok id content pos s w → src_ok id content pos s w'.
Proof.
  intros [Hf HI]. destruct s; simpl; [|by intros [? ?]; auto]. intros (H1 & H2 & H3 & H4).
  destruct (files_same_wal _ _ _ Hf H2) as [? ->]. done.
Qed.

Lemma rf_ok_same content f w w' : still w w' → rf_ok content f w → rf_ok content f w'.
Proof.
  intros Hf [H1 (r & Hr & Hc) H3 H4]. split; try done.
  - exists r. split; [done|]. by eapply content_is_same.
  - intros s Hs. eapply src_ok_same; [done|]. by apply H4.
Qed.

(** What a reader of a source may do. *)
Definition src_spec (id : uuid) (content : bytes) (pos plen : Z) (s' : contentReader)
    (w : World) (out : res bytes) (w' : World) : Prop :=
  read_spec (fine w) content pos plen out (λ p, src_ok id content p s' w' ∧ still w w'
    ∧ (w_tx w = None → w_tx w' = None)).

Lemma contentReader_Read_spec s id content pos plen w s' out w' :
  src_ok id content pos s w → pos < blen content → 0 ≤ plen →
  blen content ≤ max_file → contentReader_Read s plen w = (Ok (s', out), w') →
  src_spec id content pos plen s' w out w'.
Proof.
  intros Hok Hlt Hplen Hmax H. unfold contentReader_Read in H. destruct s as [r|r]; m_step.
  - destruct x as [r1 o1]. m_inv. destruct Hok as (<- & Hw & Hc & Hr).
    eapply walReader_Read_spec in Hm as Hrs; try done.
    destruct out as [o|e]; simpl in *.
    + destruct Hrs as (? & ? & ? & ? & ? & Hi & ? & ?). pose proof Hi as [Hdb _].
      split_and!; try done; by rewrite ?Hdb || by apply idle_still.
    + destruct Hrs as (? & Hn). split_and!; try done. by intros [? _].
  - destruct x as [r1 o1]. m_inv. destruct Hok as [HI Hok].
    eapply extentReader_Read_spec in Hm as Hrs; try done.
    destruct out as [o|e]; simpl in *; unfold still; naive_solver.
Qed.

Lemma throttled_Read_spec bps s id content pos plen w s' out w' :
  src_ok id content pos s w → pos < blen content → 0 ≤ plen →
  blen content ≤ max_file → throttled_Read bps s plen w = (Ok (s', out), w') →
  src_spec id content pos plen s' w out w'.
Proof.
  intros Hok Hlt Hplen Hmax. unfold throttled_Read.
  destruct (Z.leb_spec bps 0); [by apply contentReader_Read_spec|].
  destruct (Z.eqb_spec plen 0) as [->|Hne].
  - intros H1. m_inv. unfold src_spec, read_spec. change (blen (@nil Byte.byte)) with 0.
    rewrite Z.add_0_r. split_and!; done || lia.
  - intros H1. assert (0 ≤ Z.min plen bps) as Hm by lia.
    pose proof (contentReader_Read_spec _ _ _ _ _ _ _ _ _ Hok Hlt Hm Hmax H1) as Hrs.
    unfold src_spec, read_spec in *. destruct out as [o|e]; [|done].
    destruct Hrs as (? & ? & Hp & ? & ?). do 3 (split; [done || lia || (intros _; apply Hp; lia)|]). done.
Qed.

Lemma ensureExtents_Ok f content w f' x w' : rf_ok content f w →
  ensureExtents f w = (Ok (f', x), w') →
  (x = Ok tt → still w w' ∧ rf_ok content f' w') ∧ rf_pos f' = rf_pos f ∧ rf_node f' = rf_node f
  ∧ rf_bps f' = rf_bps f ∧ rf_src f' = rf_src f
  ∧ (x = Ok tt → n_State (rf_node f) = NodeStateStored → rf_loaded f' = true)
  ∧ (w_tx w = None → w_tx w' = None) ∧ (∀ e, x = Err e → e ≠ IoEOF ∧ ¬ calm w).
Proof.
  intros Hok. unfold ensureExtents.
  destruct (rf_loaded f) eqn:Hl; simpl; [intros H; by m_inv|].
  case_bool_decide as Hst; simpl; [|intros H; by m_inv].
  rewrite try_run. destruct (extentRepository_ListByNode (n_ID (rf_node f)) w) as [[es|e] w1] eqn:Hr;
    simpl; intros H.
  - m_inv. unfold extentRepository_ListByNode in Hr. m_inv. unfold ListExtentsByNode, many in Hq.
    simplify_eq. simpl. rewrite set_db_id.
    assert (still w (tick w)) as Hstill by by apply idle_still.
    split_and!; try done. intros _. split; [done|].
    apply (rf_ok_same _ _ w); [done|]. destruct Hok as [H1 (r & Hr & Hc) H3 H4].
    split; simpl; try done; [by exists r|].
    intros _ Hst'. destruct Hc as [(_ & _ & Hc) _]. rewrite Hr, Hst' in Hc. apply Hc.
  - m_inv. apply read_stmt_Err in Hr as (_ & He & Htx & Hc). split_and!; try done.
    intros e' [= <-]. split; [done|]. by apply Hc.
Qed.

Lemma newContentReader_ok r content es pos w :
  content_is (n_ID (nr_node r)) r w content → 0 ≤ pos ≤ blen content →
  (n_State (nr_node r) = NodeStateStored → extents_ok st content es) →
  src_ok (n_ID (nr_node r)) content pos (newContentReader (nr_node r) es pos) w.
Proof.
  intros [(Hsz & _ & Hc) HI] Hpos Hes. unfold newContentReader.
  destruct (n_State (nr_node r)); simpl.
  - destruct Hc as [Hw Hcc]. split_and!; try done. unfold wr_ok, blen in *. simpl.
    split_and!; try done; lia.
  - destruct Hc as [Hw Hcc]. split_and!; try done. unfold wr_ok, blen in *. simpl.
    split_and!; try done; lia.
  - unfold er_ok. simpl. split_and!; try done; [auto|lia|by apply Hes].
Qed.

(** [Read] at any point of a file: what it returns is the next slice of the
    content, and the file stays readable at the new position. *)
Lemma readFile_Read_spec f content plen w f' out w' :
  rf_ok content f w → 0 ≤ plen → readFile_Read f plen w = (Ok (f', out), w') →
  match out with
  | Ok out => next_at content (rf_pos f) out ∧ blen out ≤ plen ∧ (0 < plen → 0 < blen out)
              ∧ rf_pos f' = rf_pos f + blen out ∧ rf_ok content f' w' ∧ still w w'
              ∧ (w_tx w = None → w_tx w' = None)
  | Err e => (e = IoEOF ↔ rf_pos f = blen content) ∧ (fine w → e = IoEOF) ∧ (e = IoEOF → w' = w)
  end.
Proof.
  intros Hok Hplen. unfold readFile_Read. pose proof Hok as [Hpos (r & Hr & Hc) _ _].
  pose proof Hc as [(Hsz & Hmax & _) _]. rewrite Hr in Hsz. rewrite Hsz.
  destruct (Z.leb_spec (blen content) (rf_pos f)) as [Hge|Hlt].
  { intros H. m_inv. split_and!; try done. split; [intros _; lia|done]. }
  intros H. m_step. destruct x as [f1 x].
  eapply ensureExtents_Ok in Hm as (Hst0 & Hp1 & Hn1 & Hb1 & Hs1 & Hl1 & Htx1 & He1); [|done].
  destruct x as [[]|e].
  2: { m_inv. destruct (He1 _ eq_refl) as [Hne Hcalm]. split_and!; try done.
       - split; [done|lia].
       - by intros [? _]. }
  specialize (Hl1 eq_refl). destruct (Hst0 eq_refl) as [Hf0 Hok1]. m_step. rename Hm into Hsrc0.
  assert (idle w0 w1 ∧ w_tx w1 = w_tx w0
    ∧ src_ok (n_ID (rf_node f1)) content (rf_pos f1) x w0) as (Hidle & Htx1' & Hsrc).
  { clear H. pose proof Hok1 as [Hp' (r1 & Hr1 & Hc1) He Hs]. destruct (rf_src f1) as [s|].
    { m_inv. split_and!; [done..|by apply Hs]. }
    m_step. unfold IncReadOps, modify in Hm. m_inv. split_and!; [done..|]. rewrite <- Hr1 in *.
    apply newContentReader_ok; try done. intros Hst. apply He; [|done]. apply Hl1. congruence. }
  clear Hsrc0. m_step. destruct x0 as [s' o]. apply idle_still in Hidle.
  eapply src_ok_same in Hsrc; [|exact Hidle].
  eapply throttled_Read_spec in Hm as Hrs; [|done..|lia|done|done]. m_step.
  assert (idle w2 w3 ∧ w_tx w3 = w_tx w2) as [Hw3 Htx3].
  { destruct (0 <? _); [unfold AddReadBytes, modify in Hm0|]; by m_inv. }
  apply idle_still in Hw3. m_inv.
  assert (w_tx w = None → w_tx w1 = None) as Htx01 by (intros Hn; rewrite Htx1'; auto).
  unfold src_spec, read_spec in Hrs. simpl. destruct out as [out|e].
  - destruct Hrs as (Hn & Hb & Hpl & Hle & Hg & Hst2 & Htx2). rewrite <- Hp1.
    assert (still w w') as Hstill by (by repeat (etrans; [eassumption|])).
    split_and!; try done.
    + destruct Hok1 as [_ (r1 & Hr1 & Hc1) He Hs]. split; simpl.
      * blen_lia.
      * exists r1. split; [done|]. eapply content_is_same; [|exact Hc1].
        by repeat (etrans; [eassumption|]).
      * done.
      * intros s [= <-]. eapply src_ok_same; [exact Hw3|done].
    + intros Hn0. rewrite Htx3. auto.
  - destruct Hrs as (He' & Hfine). split_and!; [split; [done|lia]| |done].
    intros [[Hnf Htx] Hsv]. destruct Hfine. split; [|done]. split; [done|auto].
Qed.

(** [readFile_Read] itself never fails: it returns the file and what it read. *)
Lemma readFile_Read_runs f plen w : ∃ f' out w', readFile_Read f plen w = (Ok (f', out), w').
Proof.
  unfold readFile_Read. destruct (_ <=? _); [by eexists _, _, _|].
  assert (∃ f1 x w1, ensureExtents f w = (Ok (f1, x), w1)) as (f1 & x & w1 & H1).
  { unfold ensureExtents. destruct (_ || _); [by eexists _, _, _|]. rewrite try_run.
    destruct (extentRepository_ListByNode _ w) as [[|] ?]; by eexists _, _, _. }
  unfold bind at 1. rewrite H1. destruct x as [[]|e]; [|by eexists _, _, _].
  assert (∃ s w2, (match rf_src f1 with Some s => ret s | None => do! IncReadOps in
     ret (newContentReader (rf_node f1) (rf_extents f1) (rf_pos f1)) end) w1 = (Ok s, w2))
    as (s & w2 & H2) by (destruct (rf_src f1); by eexists _, _).
  unfold bind at 1. rewrite H2.
  assert (∀ s plen w, ∃ s' o w', contentReader_Read s plen w = (Ok (s', o), w')) as Hc.
  { clear. intros [r|r] plen w; unfold contentReader_Read, bind.
    - assert (∃ r' o w', walReader_Read r plen w = (Ok (r', o), w')) as (? & ? & ? & ->); [|by eexists _, _, _].
      unfold walReader_Read. repeat case_match; try (by eexists _, _, _); rewrite try_run;
        destruct (WALRepository_ReadRange _ _ _ w) as [[d|] ?]; simpl; try (by eexists _, _, _);
        destruct (blen d =? 0); by eexists _, _, _.
    - assert (∃ r' o w', extentReader_Read r plen w = (Ok (r', o), w')) as (? & ? & ? & ->); [|by eexists _, _, _].
      assert (∀ e r d w, ∃ r' o w', extent_serve e plen r d w = (Ok (r', o), w')) as Hs
        by (intros; unfold extent_serve; destruct (_ <=? _); by eexists _, _, _).
      unfold extentReader_Read, extent_fetch. repeat case_match; try (by eexists _, _, _); try done;
        rewrite try_run; destruct (blob_ReadBlob _ w) as [[d|] ?]; simpl; auto; by eexists _, _, _. }
  assert (∃ s' o w3, throttled_Read (rf_bps f1) s plen w2 = (Ok (s', o), w3)) as (s' & o & w3 & H3).
  { unfold throttled_Read. repeat case_match; first [by apply Hc|by eexists _, _, _]. }
  unfold bind at 1. rewrite H3. unfold bind. destruct (0 <? _); by eexists _, _, _.
Qed.

End blob_readers.

(** ** Files keep their bytes when their extents and chunks stay *)

(** The extents and chunks of a node. *)
Record same_content (id : uuid) (d d' : Db) : Prop := {
  smc_ext : ∀ k e, e_NodeID e = id → d_extents d' !! k = Some e ↔ d_extents d !! k = Some e;
  smc_wal : ∀ k c, c_NodeID c = id → d_wal_chunks d' !! k = Some c ↔ d_wal_chunks d !! k = Some c }.

Lemma same_content_tables id d d' : d_extents d' = d_extents d → d_wal_chunks d' = d_wal_chunks d → same_content id d d'.
Proof. intros He Hw. split; intros; by rewrite ?He, ?Hw. Qed.

Lemma same_content_trans id d1 d2 d3 : same_content id d1 d2 → same_content id d2 d3 → same_content id d1 d3.
Proof. intros [H1 H2] [H3 H4]. split; intros; [by rewrite H3, H1|by rewrite H4, H2]. Qed.

(** Two rows of one node with the same bytes, wherever they hang. *)
Record same_row (r r' : NodeRow) : Prop := {
  sr_id : n_ID (nr_node r') = n_ID (nr_node r);
  sr_dir : rdir r' = rdir r;
  sr_size : n_Size (nr_node r') = n_Size (nr_node r);
  sr_state : n_State (nr_node r') = n_State (nr_node r) }.

Lemma extents_ok_perm st C es es' : es' ≡ₚ es → extents_ok st C es → extents_ok st C es'.
Proof.
  intros Hp [Ha Hc]. split; [by rewrite Hp|]. intros pos Hpos.
  destruct (Hc pos Hpos) as (e & He & ?). exists e. by rewrite Hp.
Qed.

Lemma stores_same st id r r' d d' c : same_row r r' → same_content id d d' →
  stores st id r d c → stores st id r' d' c.
Proof.
  intros [_ _ Hsz Hst] [Hext Hwal] (Hs & Hm & Hc). split_and!; [congruence|done|]. rewrite Hst.
  assert (wal_ok id d ∧ wal_content id d = c → wal_ok id d' ∧ wal_content id d' = c) as Hw.
  { intros [[Hso Hch] Hct]. assert (node_chunks id d' = node_chunks id d) as He.
    { apply node_chunks_perm; [done|]. apply rows_agree. intros k x Hx%N.eqb_eq. by apply Hwal. }
    unfold wal_ok, wal_content. by rewrite He. }
  destruct (n_State (nr_node r)); auto.
  eapply extents_ok_perm; [|exact Hc]. rewrite !sort_by_perm. apply rows_agree. intros k e He%N.eqb_eq. by apply Hext.
Qed.
