(* ===== verification/Session.v ===== *)
(** * Whole files: PUT, GET and their round trip

    A client writes a file by opening, writing pieces and closing, and reads one by
    opening and reading until EOF, as the WebDAV handler does. *)
From Stdlib Require Import ZArith Lia Strings.Byte Strings.String Strings.Ascii.
From stdpp Require Import base tactics list gmap sets sorting strings.
From S2P Require Import Prelude Model Sql SqlFacts World Repository Crypto Path FileSystem File.
From S2P Require Import Tree FsFacts RenameFacts CreateFacts WalFacts WriteFacts ReadFacts.
#[local] Open Scope string_scope.
#[local] Open Scope Z_scope.
Open Scope m_scope.

Section session.
Context {E : Env} {B : BlobService}.

(** Read until EOF with a buffer of [plen] bytes. *)
Fixpoint ReadAll (fuel : nat) (f : File) (plen : Z) : M bytes :=
  match fuel with
  | O => fail (ErrOther "out of fuel")
  | S k =>
      let! '(f', out) := File_Read f plen in
      match out with
      | Ok b => let! rest := ReadAll k f' plen in ret (b ++ rest)%list
      | Err e => if errors_Is e IoEOF then ret [] else fail e
      end
  end.

Definition get (ctx : option Principal) (name : string) (plen : Z) (fuel : nat) : M bytes :=
  let! f := OpenFile ctx name 0 in ReadAll fuel f plen.

Fixpoint WriteAll (f : File) (ps : list bytes) : M (File * res unit) :=
  match ps with
  | [] => ret (f, Ok tt)
  | p :: rest =>
      let! '(f', r) := File_Write f p in
      match r with Ok _ => WriteAll f' rest | Err e => ret (f', Err e) end
  end.

(** The file is closed whether or not every write succeeded. *)
Definition put (ctx : option Principal) (name : string) (flag : Z) (ps : list bytes) : M unit :=
  let! f := OpenFile ctx name flag in
  let! '(f, wr) := WriteAll f ps in
  let! '(_, cl) := File_Close f in
  match wr with Ok _ => of_res cl | Err e => fail e end.

(** ** Writing *)

Lemma WriteAll_Ok f ps w g w' : wf_ok f (w_db w) → wf_closed f = false →
  blen (wf_buf f) < WALChunkSize → WriteAll (FWrite f) ps w = (Ok (g, Ok tt), w') →
  ∃ f', g = FWrite f' ∧ wf_ok f' (w_db w') ∧ wal_frame (wf_id f) (w_db w) (w_db w')
    ∧ w_tx w' = w_tx w ∧ wf_node f' = wf_node f ∧ wf_user f' = wf_user f
    ∧ wf_hashed f' = (wf_hashed f ++ concat ps)%list ∧ wf_closed f' = false
    ∧ blen (wf_buf f') < WALChunkSize.
Proof.
  revert f w. induction ps as [|p ps IH]; intros f w Hok Hcl Hlen H; simpl in H.
  - m_inv. exists f. rewrite app_nil_r. by split_and!.
  - m_step. destruct x as [f1 r]. m_step. destruct x as [f2 x]. m_inv. destruct r as [n|e]; [|done].
    apply Write_Ok in Hm0 as (Hok1 & Hfr & Htx & _ & Hn & Hu & Hh & _ & Hcl1 & Hlen1); [|done].
    apply IH in H as (f' & -> & Hok' & Hfr' & Htx' & Hn' & Hu' & Hh' & Hcl' & Hlen'); [|done..].
    unfold wf_id in *. rewrite Hn in *. exists f'. split_and!; try done; try congruence.
    + by etrans.
    + by rewrite Hh', Hh, <- app_assoc.
Qed.

(** The row a complete upload leaves. *)
Definition uploaded_row (bs : bytes) (r : NodeRow) : Prop :=
  rdir r = false ∧ n_State (nr_node r) = NodeStateBuffered ∧ n_Size (nr_node r) = wrap64 (blen bs)
  ∧ n_ContentHash (nr_node r) = hex_encode (sha256 bs) ∧ n_ETag (nr_node r) = etagOf bs.

(** Finishing an upload charges its size to the owner. *)
Lemma sum_perm {A} (f : A → Z) l l' : l ≡ₚ l' → sum_list_with_Z f l = sum_list_with_Z f l'.
Proof. unfold sum_list_with_Z. induction 1; simpl; lia. Qed.

Lemma user_bytes_put u i r r' d : d_nodes d !! i = Some r → same_place r r' →
  ruser r = u → rdir r = false → n_Size (nr_node r) = 0 →
  user_file_bytes u (put_row i r' d) = user_file_bytes u d + n_Size (nr_node r').
Proof.
  intros Hr (_ & Hu' & _ & _ & _ & Hd') Hu Hd Hs. unfold user_file_bytes, put_row. simpl.
  set (P := λ x : NodeRow, (_ && _)%bool). set (m := delete i (d_nodes d)).
  assert (m !! i = None) as Hm by apply lookup_delete_eq.
  assert (P r = true ∧ P r' = true) as [Hp Hp'].
  { unfold P, ruser, rdir in *. rewrite Hu', Hd', Hu, Hd, N.eqb_refl. done. }
  assert (d_nodes d = <[i:=r]> m) as He by (unfold m; by rewrite insert_delete_id).
  assert (<[i:=r']> (d_nodes d) = <[i:=r']> m) as -> by (unfold m; by rewrite insert_delete_eq).
  rewrite (sum_perm _ _ _ (rows_insert P m i r' Hm)), Hp'.
  rewrite He at 1. rewrite (sum_perm _ _ _ (rows_insert P m i r Hm)), Hp.
  unfold sum_list_with_Z. simpl. lia.
Qed.

(** The extents and chunks of every other node. *)
Record same_content_but (id : uuid) (d d' : Db) : Prop := {
  sc_ext : ∀ k e, e_NodeID e ≠ id → d_extents d' !! k = Some e ↔ d_extents d !! k = Some e;
  sc_wal : ∀ k c, c_NodeID c ≠ id → d_wal_chunks d' !! k = Some c ↔ d_wal_chunks d !! k = Some c }.

Lemma content_but_trans id d1 d2 d3 : same_content_but id d1 d2 → same_content_but id d2 d3 → same_content_but id d1 d3.
Proof. intros [H1 H2] [H3 H4]. split; intros; [by rewrite H3, H1|by rewrite H4, H2]. Qed.

Lemma content_but_wal id d d' : wal_frame id d d' → same_content_but id d d'.
Proof. intros H. split; [by rewrite (wal_frame_extents _ _ _ H)|apply (wfr_wal _ _ _ H)]. Qed.

Lemma ensured_content u id d d' : ensured u d d' → same_content_but id d d'.
Proof. intros H. destruct (en_step _ _ _ H) as [->|(n & -> & _)]; by split. Qed.

Lemma put_Ok ctx name flag ps w u w' : tree_ok (w_db w) → w_tx w = None →
  Z.land flag (Z.lor O_WRONLY O_RDWR) ≠ 0 → put ctx name flag ps w = (Ok u, w') →
  ∃ user l r, acting ctx = Ok user ∧ l = path_segs (normalize name) ∧ l ≠ []
    ∧ tree_ok (w_db w') ∧ w_tx w' = None ∧ conserves (w_db w) (w_db w')
    ∧ d_nodes (w_db w') !! n_ID (nr_node r) = Some r
    ∧ view (w_db w') (u_ID user) l = Some r ∧ uploaded_row (concat ps) r
    ∧ wal_ok (n_ID (nr_node r)) (w_db w') ∧ wal_content (n_ID (nr_node r)) (w_db w') = concat ps
    ∧ extents_of (n_ID (nr_node r)) (w_db w') = []
    ∧ (∀ v q, ¬ (v = u_ID user ∧ (q = l ∨ q = [])) → view (w_db w') v q = view (w_db w) v q)
    ∧ (0 < u_QuotaBytes user → wrap64 (user_file_bytes (u_ID user) (w_db w')) ≤ u_QuotaBytes user)
    ∧ same_content_but (n_ID (nr_node r)) (w_db w) (w_db w')
    ∧ ∃ d1, ensured (u_ID user) (w_db w) d1
        ∧ (∃ m bx rp, l = (m ++ [bx])%list ∧ view d1 (u_ID user) m = Some rp ∧ rdir rp = true)
        ∧ ∀ r0, view d1 (u_ID user) l = Some r0 → rdir r0 = false.
Proof.
  intros Hd Htx Hflag H. unfold put in H. apply bind_Ok in H as (f0 & w0 & Hopen & H).
  apply bind_Ok in H as ([f1 [[]|e]] & w1 & Hwrite & H);
    apply bind_Ok in H as ([f2 x] & w2 & Hclose & H); [|done].
  unfold of_res in H. simplify_eq. unfold OpenFile in Hopen.
  destruct (normalize_canonical name) as (l & Hl & Hn). rewrite Hn in *.
  rewrite path_segs_render by done. apply bind_Ok in Hopen as (user & w3 & Hact & Hopen).
  unfold of_res in Hact. destruct (acting ctx) as [user'|]; [|done]. simplify_eq.
  destruct (Z.eqb_spec (Z.land flag (Z.lor O_WRONLY O_RDWR)) 0); [done|].
  apply bind_Ok in Hopen as (y & w4 & Hroot & Hopen).
  apply ensureRootExists_Ok in Hroot as [He Htx1]; [|done..]. pose proof (en_tree _ _ _ He) as Hd1.
  assert (l ≠ []) as Hne by (intros ->; done).
  apply openWrite_Ok in Hopen as (f & -> & Hop & Htx2 & Huser); [|done..].
  destruct Hop as [Hd2 Hcons (r & Hr & Hu & Hs & Hdir & _ & Hsz0) Hok (Hh & Hb & Hcl & Huid) Hex Hoe How Hplace Hfree Hview].
  apply WriteAll_Ok in Hwrite as (f' & -> & Hok' & Hfr & Htx3 & Hn' & Hu' & Hh' & Hcl' & Hlen);
    [|done..|by rewrite Hb].
  assert (wf_id f' = wf_id f) as Hid by (unfold wf_id; congruence).
  apply bind_Ok in Hclose as ([f3 r3] & w5 & Hclose & Hret). unfold ret in Hret. simplify_eq.
  assert (tree_ok (w_db w1)) as Hd3 by (eapply (wal_frame_tree (wf_id f)); [exact Hd2|by eexists|done]).
  destruct u. apply Close_Ok in Hclose as (r1 & now & d1 & Hr1 & Hfr1 & Hquo & Hw & Hhf & Hsf & Hwal & Hcont & Htx4 & _ & Hd4);
    [|done|congruence|done|done|lia].
  rewrite Hid in *. rewrite (wal_frame_nodes _ _ _ Hfr), Hr in Hr1. simplify_eq.
  pose proof (wal_frame_tree _ _ _ Hd3 (ltac:(rewrite (wal_frame_nodes _ _ _ Hfr); by eexists)) Hfr1) as Hd5.
  assert (d_nodes d1 !! wf_id f = Some r1) as Hr5
    by (by rewrite (wal_frame_nodes _ _ _ Hfr1), (wal_frame_nodes _ _ _ Hfr)).
  set (r' := closed_row f3 now r1) in *.
  assert (n_ID (nr_node r') = wf_id f) as Hrid by (by apply (tk_id _ Hd2 _ _ Hr)).
  eexists _, _, r'. rewrite Hrid. split_and!; try done.
  - etrans; [apply (en_conserves _ _ _ He)|]. etrans; [exact Hcons|].
    etrans; [by eapply wal_frame_conserves|]. etrans; [by eapply wal_frame_conserves|].
    rewrite Hw. apply put_row_conserves.
  - rewrite Hw. unfold put_row. simpl. by apply lookup_insert_eq.
  - rewrite Hw, (put_row_view d1 Hd5 _ _ _ Hr5) by (apply closed_row_place || done).
    by rewrite decide_True.
  - unfold uploaded_row. simpl. rewrite Hhf, Hsf, Hh', Hh. simpl. split_and!; try done.
    rewrite (wo_size _ _ Hok'), Hh', Hh. done.
  - by rewrite Hcont, Hh', Hh.
  - rewrite Hw. unfold extents_of, put_row. simpl.
    by rewrite (wal_frame_extents _ _ _ Hfr1), (wal_frame_extents _ _ _ Hfr).
  - intros v q Hvq. rewrite Hw, (put_row_view d1 Hd5 _ _ _ Hr5) by (apply closed_row_place || done).
    rewrite decide_False by (intros [-> ->]; apply Hvq; split; [done|by left]).
    rewrite (view_nodes _ _ _ _ (wal_frame_nodes _ _ _ Hfr1)).
    rewrite (view_nodes _ _ _ _ (wal_frame_nodes _ _ _ Hfr)).
    rewrite Hview by done. apply (en_view _ _ _ He). intros [-> ->]. apply Hvq. split; [done|by right].
  - rewrite Hw, (user_bytes_put _ _ r1 r' d1); [|done|apply closed_row_place|done..].
    simpl. rewrite Hsf. unfold quota_admits in Hquo. by rewrite Hu' in Hquo.
  - eapply content_but_trans; [by eapply ensured_content|].
    eapply (content_but_trans _ _ (w_db w0)); [by split|].
    eapply content_but_trans; [by apply content_but_wal|].
    eapply content_but_trans; [by apply content_but_wal|]. rewrite Hw. by split.
  - eexists. split_and!; [exact He|exact Hplace|exact Hfree].
Qed.

End session.

(** ** Reading *)

Section reading.
Context {E : Env} {B : BlobService} (st : uuid → option bytes) (I : World → Prop) {L : BlobLaws st I}.

Lemma next_at_split content pos out : 0 ≤ pos → next_at content pos out →
  drop (Z.to_nat pos) content = (out ++ drop (Z.to_nat (pos + blen out)) content)%list.
Proof.
  intros Hp Hn. rewrite Z2Nat.inj_add by (done || blen_lia).
  unfold blen. rewrite Nat2Z.id, <- drop_drop.
  etrans; [symmetry; apply (take_drop (length out))|]. by rewrite <- Hn.
Qed.

(** What a reader gets is the rest of the content. *)
Lemma ReadAll_Ok k f content plen w data w' : rf_ok st I content f w → 0 < plen →
  ReadAll k (FRead f) plen w = (Ok data, w') →
  data = drop (Z.to_nat (rf_pos f)) content ∧ still I w w'.
Proof.
  revert f w data. induction k as [|k IH]; intros f w data Hok Hplen H; [done|].
  simpl in H. apply bind_Ok in H as ([f1 out] & w1 & Hrd & H).
  apply bind_Ok in Hrd as ([f2 o] & w2 & Hrd & Hret). unfold ret in Hret. simplify_eq.
  eapply readFile_Read_spec in Hrd as Hout; [|done..|lia].
  destruct out as [b|e].
  - destruct Hout as (Hn & _ & _ & Hpos & Hok1 & Hst & _). apply bind_Ok in H as (rest & w3 & Hr & H).
    unfold ret in H. simplify_eq. apply IH in Hr as (-> & Hf'); [|done..].
    split; [|by etrans]. rewrite Hpos. symmetry. apply next_at_split; [|done].
    by destruct Hok as [[? _] _ _ _].
  - destruct Hout as (Heof & _ & Hw). unfold errors_Is in H. case_bool_decide as He; [|done].
    pose proof (proj1 Heof He) as Hp. rewrite (Hw He) in *. unfold ret in H. simplify_eq. split; [|done].
    rewrite drop_ge; [done|]. blen_lia.
Qed.

(** Enough fuel and no fault: the reader returns. *)
Lemma ReadAll_runs k f content plen w : rf_ok st I content f w → 0 < plen →
  fine st I w → blen content - rf_pos f < Z.of_nat k →
  ∃ data w', ReadAll k (FRead f) plen w = (Ok data, w').
Proof.
  revert f w. induction k as [|k IH]; intros f w Hok Hplen Hfine Hk.
  { pose proof (ro_pos _ _ _ _ _ Hok). simpl in Hk. lia. }
  simpl. destruct (readFile_Read_runs f plen w) as (f1 & out & w1 & Hrd).
  unfold bind at 1 2. rewrite Hrd. simpl.
  eapply readFile_Read_spec in Hrd as Hout; [|done..|lia].
  destruct out as [b|e].
  - destruct Hout as (Hn & _ & Hpos & Hp & Hok1 & _ & Htx). destruct (IH f1 w1) as (data & w2 & Hr); try done.
    + destruct Hfine as [[? Htx0] ?]. split; [split; [done|auto]|done].
    + specialize (Hpos Hplen). lia.
    + unfold bind. rewrite Hr. by eexists _, _.
  - destruct Hout as (_ & He & _). rewrite (He Hfine). by eexists _, _.
Qed.

Lemma GetByPath_runs u l w r : tree_ok (w_db w) → segs_ok l → calm w →
  view (w_db w) u l = Some r → NodeRepository_GetByPath u (render l) w = (Ok (nr_node r), tick w).
Proof.
  intros Hd Hl [Hf Htx] Hv. destruct (NodeRepository_GetByPath u (render l) w) as [[n|e] w'] eqn:Hg.
  - apply GetByPath_Ok in Hg as (-> & r' & Hr' & <- & Hu & Hs); [|done..].
    assert (view (w_db w) u l = Some r') as Hv' by (apply view_Some; [done|]; by eexists). congruence.
  - exfalso. apply view_Some in Hv as (id & Hid & Hu & Hs); [|done].
    unfold NodeRepository_GetByPath, bind, translate, stmt, query, in_aborted in Hg.
    rewrite Htx, Hf in Hg. destruct (GetNodeByPath u (render l) (w_db w)) as [er|a d'] eqn:Hq; [|done].
    eapply get_by_path_Err in Hq as [_ Hq]; [|done..]. by eapply Hq.
Qed.

(** Opening an existing file to read it. *)
Lemma open_content ctx user name l r content w : tree_ok (w_db w) → calm w →
  acting ctx = Ok user → l = path_segs (normalize name) → view (w_db w) (u_ID user) l = Some r →
  rdir r = false → content_is st I (n_ID (nr_node r)) r w content →
  ∃ f w', OpenFile ctx name 0 w = (Ok (FRead f), w') ∧ idle w w' ∧ calm w'
    ∧ rf_ok st I content f w' ∧ rf_pos f = 0.
Proof.
  intros Hd Hcalm Hact -> Hv Hdir Hc. destruct (normalize_canonical name) as (l & Hl & Hn).
  rewrite Hn, path_segs_render in Hv by done.
  unfold OpenFile, bind at 1, of_res. rewrite Hact, Hn.
  change (Z.land 0 (Z.lor O_WRONLY O_RDWR) =? 0) with true. cbv iota. unfold openRead.
  rewrite try_run, (GetByPath_runs _ _ _ r) by done. cbn [fst snd].
  change (n_IsDir (nr_node r)) with (rdir r). rewrite Hdir.
  eexists _, _. split; [done|]. split_and!; try done.
  eapply (rf_ok_same st I _ _ w); [by apply (idle_still st I)|]. split; simpl; try done.
  - destruct Hc as [(? & ? & _) _]. split; [lia|]. blen_lia.
  - by exists r.
Qed.

(** A download: it terminates and returns the content. *)
Lemma get_content ctx user name l r content plen fuel w : tree_ok (w_db w) → fine st I w →
  acting ctx = Ok user → l = path_segs (normalize name) → view (w_db w) (u_ID user) l = Some r →
  rdir r = false → content_is st I (n_ID (nr_node r)) r w content →
  0 < plen → blen content < Z.of_nat fuel →
  ∃ w', get ctx name plen fuel w = (Ok content, w') ∧ files_same (w_db w) (w_db w').
Proof.
  intros Hd [Hcalm Hsv] Hact Hl Hv Hdir Hc Hplen Hfuel.
  destruct (open_content ctx user name l r content w)
    as (f & w1 & Ho & [Hdb Hca] & Hcalm1 & Hrf & Hpos); try done.
  destruct (ReadAll_runs fuel f content plen w1) as (data & w2 & Hra); [done|done|by split|lia|].
  exists w2. unfold get, bind. rewrite Ho, Hra.
  eapply ReadAll_Ok in Hra as [-> [Hf _]]; [|done..]. rewrite Hpos. split; [done|]. by rewrite <- Hdb.
Qed.

(** Whatever the faults, a download that reports success is the content. *)
Lemma get_safe ctx user name l r content plen fuel w data w' : tree_ok (w_db w) →
  acting ctx = Ok user → l = path_segs (normalize name) → view (w_db w) (u_ID user) l = Some r →
  rdir r = false → content_is st I (n_ID (nr_node r)) r w content → 0 < plen →
  get ctx name plen fuel w = (Ok data, w') → data = content.
Proof.
  intros Hd Hact -> Hv Hdir Hc Hplen H. destruct (normalize_canonical name) as (l & Hl & Hn).
  rewrite Hn, path_segs_render in Hv by done. unfold get in H. apply bind_Ok in H as (f & w1 & Ho & H).
  unfold OpenFile in Ho. apply bind_Ok in Ho as (user' & w0 & Hu & Ho). unfold of_res in Hu.
  rewrite Hact, Hn in *. injection Hu as <- <-. simpl in Ho. unfold openRead in Ho. rewrite try_run in Ho.
  destruct (NodeRepository_GetByPath (u_ID user) (render l) w) as [[n|e] w2] eqn:Hg; cbn [fst snd] in Ho.
  2: { destruct (errors_Is e ErrNotFound && String.eqb (render l) "/") eqn:Hroot; [exfalso|done].
       apply andb_true_iff in Hroot as [_ Hroot%String.eqb_eq].
       assert (l = []) as -> by (apply (render_inj l []); [done|by constructor|done]).
       apply view_Some in Hv as (id & Hid & _ & Hs); [|done].
       destruct (tk_root _ Hd id r Hid Hs) as [_ Hdr]. congruence. }
  apply GetByPath_Ok in Hg as (-> & r' & Hr' & <- & Hu & Hs); [|done..].
  assert (view (w_db w) (u_ID user) l = Some r') as Hv' by (apply view_Some; [done|]; by eexists).
  rewrite Hv in Hv'. injection Hv' as <-. cbn [fst snd] in Ho. change (n_IsDir (nr_node r)) with (rdir r) in Ho.
  rewrite Hdir in Ho. unfold ret in Ho. simplify_eq.
  eapply ReadAll_Ok in H as [-> _]; [done| |done].
  eapply (rf_ok_same st I _ _ w); [by apply (idle_still st I)|]. split; simpl; try done.
  - destruct Hc as [(? & ? & _) _]. split; [lia|]. blen_lia.
  - by exists r.
Qed.

End reading.
