(* ===== verification/Tenants.v ===== *)
(** * Tenants do not touch each other

    [confined u d d']: the step from [d] to [d'] keeps the namespace a tree, moves
    the reference counts with the extents, and changes no row, extent or chunk of
    a user other than [u].  Every request of the filesystem, whatever it returns,
    is confined to its acting user. *)
From Stdlib Require Import ZArith Lia Strings.Byte Strings.String Strings.Ascii.
From stdpp Require Import base tactics list gmap sets sorting strings.
From S2P Require Import Prelude Model Sql SqlFacts World Repository Crypto Path FileSystem File Tree.
From S2P Require Import FsFacts RenameFacts CreateFacts WalFacts WriteFacts ReadFacts Session.
#[local] Open Scope string_scope.
#[local] Open Scope Z_scope.

(** Row [id] of [d] belongs to someone other than [u]. *)
Definition foreign (u : uuid) (d : Db) (id : uuid) : Prop :=
  ∃ r, d_nodes d !! id = Some r ∧ ruser r ≠ u.

Record confined (u : uuid) (d d' : Db) : Prop := {
  cf_tree : tree_ok d';
  cf_conserves : conserves d d';
  cf_users : d_users d' = d_users d;
  cf_rows : ∀ id r, ruser r ≠ u → d_nodes d' !! id = Some r ↔ d_nodes d !! id = Some r;
  cf_extents : ∀ k e, foreign u d (e_NodeID e) →
    d_extents d' !! k = Some e ↔ d_extents d !! k = Some e;
  cf_wal : ∀ k c, foreign u d (c_NodeID c) →
    d_wal_chunks d' !! k = Some c ↔ d_wal_chunks d !! k = Some c;
  cf_refers : ∀ k e, d_extents d' !! k = Some e →
    d_extents d !! k = Some e ∨ is_Some (d_blobs d !! e_BlobID e) }.

Lemma confined_refl u d : tree_ok d → confined u d d.
Proof. split; try done. by left. Qed.

Lemma conserves_blob d d' b : conserves d d' → is_Some (d_blobs d' !! b) ↔ is_Some (d_blobs d !! b).
Proof. intros Hc. by rewrite Hc, fmap_is_Some. Qed.

Lemma foreign_iff u d d' id : confined u d d' → foreign u d' id ↔ foreign u d id.
Proof.
  intros H. unfold foreign. split; intros (r & Hr & Hu); exists r; (split; [|done]);
    by apply (cf_rows _ _ _ H).
Qed.

Lemma confined_trans u d1 d2 d3 : confined u d1 d2 → confined u d2 d3 → confined u d1 d3.
Proof.
  intros H1 H2. split.
  - apply (cf_tree _ _ _ H2).
  - etrans; [apply (cf_conserves _ _ _ H1)|apply (cf_conserves _ _ _ H2)].
  - rewrite (cf_users _ _ _ H2). apply (cf_users _ _ _ H1).
  - intros id r Hu. rewrite (cf_rows _ _ _ H2) by done. by apply (cf_rows _ _ _ H1).
  - intros k e He. rewrite (cf_extents _ _ _ H2) by by apply (foreign_iff _ _ _ _ H1).
    by apply (cf_extents _ _ _ H1).
  - intros k c Hc. rewrite (cf_wal _ _ _ H2) by by apply (foreign_iff _ _ _ _ H1).
    by apply (cf_wal _ _ _ H1).
  - intros k e [He|Hb]%(cf_refers _ _ _ H2); [by apply (cf_refers _ _ _ H1)|right].
    by apply (conserves_blob _ _ _ (cf_conserves _ _ _ H1)).
Qed.

Lemma confined_view u d d' v q : tree_ok d → confined u d d' → v ≠ u → view d' v q = view d v q.
Proof.
  intros Hd Hc Hv. apply view_ext; [apply (cf_tree _ _ _ Hc)|done|].
  intros r. split; intros (id & Hid & Hu & Hq); exists id; (split; [|done]);
    apply (cf_rows _ _ _ Hc); congruence.
Qed.

(** Another user's files keep their bytes. *)
Lemma confined_content u d d' id : confined u d d' → foreign u d id → wal_ok id d →
  node_chunks id d' = node_chunks id d ∧ extents_of id d' ≡ₚ extents_of id d.
Proof.
  intros Hc Hf [Hs _]. split.
  - apply node_chunks_perm; [done|]. apply rows_agree. intros k c <-%N.eqb_eq.
    by apply (cf_wal _ _ _ Hc).
  - apply rows_agree. intros k e <-%N.eqb_eq. by apply (cf_extents _ _ _ Hc).
Qed.

(** ** The building blocks *)

Section blocks.
Context (d : Db) (Hd : tree_ok d) (u : uuid).

Lemma confined_nodes d' : tree_ok d' → d' = set_nodes (d_nodes d') d →
  (∀ id r, ruser r ≠ u → d_nodes d' !! id = Some r ↔ d_nodes d !! id = Some r) →
  confined u d d'.
Proof. intros Ht He Hr. split; try done; rewrite He; [by apply conserves_frame|done..|by left]. Qed.

Lemma confined_added n : tree_ok (added n d) → n_UserID n = u → d_nodes d !! n_ID n = None →
  confined u d (added n d).
Proof.
  intros Ht Hu Hn. apply confined_nodes; [done..|]. intros id r Hr. rewrite added_lookup. split.
  - intros [[-> ->]|[_ ?]]; done.
  - intros Hid. right. split; [congruence|done].
Qed.

Lemma confined_ensured d' : ensured u d d' → confined u d d'.
Proof.
  intros He. destruct (en_step _ _ _ He) as [->|(n & -> & Hu & Hn)]; [by apply confined_refl|].
  apply confined_added; [|done..]. apply (en_tree _ _ _ He).
Qed.

Lemma confined_cleared l d' : tree_ok d' → cleared u l d d' → confined u d d'.
Proof.
  intros Ht Hc. assert (∀ id r, ruser r ≠ u → d_nodes d' !! id = Some r ↔ d_nodes d !! id = Some r) as Hrows.
  { intros id r Hr. rewrite (rm_nodes _ _ _ _ Hc). split; [by intros [? _]|].
    intros Hid. split; [done|]. by intros [? _]. }
  split; try done.
  - apply (rm_conserves _ _ _ _ Hc).
  - apply (rm_users _ _ _ _ Hc).
  - intros k e (r & Hr & Hu). rewrite (rm_extents _ _ _ _ Hc). split; [by intros [? _]|].
    intros He. split; [done|]. exists r. by apply Hrows.
  - intros k c (r & Hr & Hu). apply (rm_wal _ _ _ _ Hc). exists r. by apply Hrows.
  - intros k e [He _]%(rm_extents _ _ _ _ Hc). by left.
Qed.

Lemma confined_renames r p b d' : ruser r = u → tree_ok d' → renames r p b d d' → confined u d d'.
Proof.
  intros Hu Ht (ts & nodes' & -> & Hn). apply confined_nodes; [done..|]. simpl.
  intros id s Hs. rewrite Hn. unfold renamed_row. split.
  - intros (s0 & Hs0 & He)%fmap_Some. destruct (decide (in_subtree r s0)) as [[Hus _]|_].
    + destruct Hs. rewrite He. unfold ruser in *. simpl. congruence.
    + congruence.
  - intros ->. simpl. rewrite decide_False; [done|]. intros [Hus _]. congruence.
Qed.

Lemma confined_put_row i r r' : d_nodes d !! i = Some r → same_place r r' →
  (n_State (nr_node r') = NodeStateBuffered → rdir r = false) → ruser r = u → confined u d (put_row i r' d).
Proof.
  intros Hr Hsame Hf Hu. apply confined_nodes; [by apply (tree_ok_put_row d Hd i r r')|done|].
  intros id s Hs. rewrite (put_row_lookup d i r r' Hr Hsame Hf). destruct Hsame as (_ & Hu' & _). split.
  - intros [[-> ->]|[_ ?]]; [congruence|done].
  - intros Hid. right. split; [|done]. intros ->. congruence.
Qed.

Lemma confined_wal_frame n r d' : d_nodes d !! n = Some r → ruser r = u → wal_frame n d d' →
  confined u d d'.
Proof.
  intros Hr Hu Hf. pose proof (wal_frame_tree _ _ _ Hd (mk_is_Some _ _ Hr) Hf) as Ht.
  split; [done|by eapply wal_frame_conserves|..].
  - by rewrite (wfr_rest _ _ _ Hf).
  - intros. by rewrite (wal_frame_nodes _ _ _ Hf).
  - intros. by rewrite (wal_frame_extents _ _ _ Hf).
  - intros k c (s & Hs & Hne). apply (wfr_wal _ _ _ Hf). intros <-. congruence.
  - intros k e. rewrite (wal_frame_extents _ _ _ Hf). by left.
Qed.

Lemma confined_truncated id r now d' : d_nodes d !! id = Some r → ruser r = u → tree_ok d' →
  truncated id r now d d' → confined u d d'.
Proof.
  intros Hr Hu Ht [Hn He Hw Hus Hc].
  assert (∀ i, foreign u d i → i ≠ id) as Hne by (intros i (s & Hs & ?) ->; congruence).
  split; try done.
  - intros i s Hs. rewrite Hn, lookup_insert_Some. split.
    + intros [[<- <-]|[_ ?]]; [|done]. destruct Hs. done.
    + intros Hi. right. split; [|done]. intros <-. congruence.
  - intros k e Hf. rewrite He, map_lookup_filter_Some. simpl. split; [by intros [? _]|].
    intros Hk. split; [done|]. by apply Hne.
  - intros k c Hf. rewrite Hw, map_lookup_filter_Some. simpl. split; [by intros [? _]|].
    intros Hk. split; [done|]. by apply Hne.
  - intros k e. rewrite He, map_lookup_filter_Some. intros [? _]. by left.
Qed.

End blocks.

(** ** Requests that succeed or fail *)

(** What a request of user [u] may do between two worlds outside transactions. *)
Definition acts (u : uuid) (w w' : World) : Prop :=
  confined u (w_db w) (w_db w') ∧ w_tx w' = None.

Lemma acts_same u w w' : tree_ok (w_db w) → w_db w' = w_db w → w_tx w' = None → acts u w w'.
Proof. intros Hd He Ht. split; [|done]. rewrite He. by apply confined_refl. Qed.

(** A branch that returns at once. *)
Ltac stays H := unfold fail, ret in H; simplify_eq; apply acts_same.

Section requests.
Context {E : Env}.

Lemma acts_trans u w1 w2 w3 : acts u w1 w2 → acts u w2 w3 → acts u w1 w3.
Proof. intros [H1 _] [H2 ?]. split; [by eapply confined_trans|done]. Qed.

(** A transaction acts as its body does when it commits, and not at all otherwise. *)
Lemma acts_WithTx {A} u (fn : M A) w r w' : tree_ok (w_db w) → w_tx w = None →
  (∀ a w1, fn (set_tx (Some (mkTx (w_db w) false)) (tick w)) = (Ok a, w1) →
     confined u (w_db w) (w_db w1)) →
  WithTx fn w = (r, w') → acts u w w'.
Proof.
  intros Hd Htx Hfn H. destruct r as [a|e].
  - apply WithTx_Ok in H as (w1 & H & _ & ->); [|done]. split; [|done]. by apply Hfn in H.
  - apply WithTx_Err in H as [Hdb Ht]; [|done]. by apply acts_same.
Qed.

Lemma GetByPath_acts v u l w r w' : tree_ok (w_db w) → w_tx w = None → segs_ok l →
  NodeRepository_GetByPath u (render l) w = (r, w') → w_db w' = w_db w ∧ w_tx w' = None ∧ acts v w w'.
Proof.
  intros Hd Htx Hl H. assert (w_db w' = w_db w ∧ w_tx w' = None) as [Hdb Ht].
  { destruct r as [n|e]; [by apply GetByPath_Ok in H as [-> _]|].
    apply GetByPath_Err in H as (? & Ht & _); auto. }
  split_and!; try done. by apply acts_same.
Qed.

Lemma with_fs_err_any {A} (m : M A) w r w' : with_fs_err m w = (r, w') →
  ∃ r0, m w = (r0, w').
Proof.
  unfold with_fs_err. rewrite try_run. destruct (m w) as [[a|e] w1]; simpl; intros H;
    unfold ret, fail in H; simplify_eq; by eexists.
Qed.

Lemma with_fs_err_Err {A} (m : M A) w e w' : with_fs_err m w = (Err e, w') →
  ∃ e0, m w = (Err e0, w').
Proof.
  unfold with_fs_err. rewrite try_run. destruct (m w) as [[a|e0] w1]; simpl; intros H;
    unfold ret, fail in H; simplify_eq; by eexists.
Qed.

Lemma ensureRoot_acts u w r w' : tree_ok (w_db w) → w_tx w = None →
  ensureRoot u w = (r, w') → acts u w w'.
Proof.
  intros Hd Htx H. destruct r as [n|e].
  - apply ensureRoot_Ok in H as (He & Ht & _); [|done..]. split; [|done]. by apply confined_ensured.
  - apply ensureRoot_Err in H as [Hdb Ht]; [|done..]. by apply acts_same.
Qed.

Lemma ensureRootExists_acts u w r w' : tree_ok (w_db w) → w_tx w = None →
  ensureRootExists u w = (r, w') → acts u w w'.
Proof.
  intros Hd Htx H. destruct r as [n|e].
  - apply ensureRootExists_Ok in H as (He & Ht); [|done..]. split; [|done]. by apply confined_ensured.
  - apply ensureRootExists_Err in H as [Hdb Ht]; [|done..]. by apply acts_same.
Qed.

Lemma RemoveAll_acts ctx name user w r w' : tree_ok (w_db w) → w_tx w = None →
  acting ctx = Ok user → RemoveAll ctx name w = (r, w') → acts (u_ID user) w w'.
Proof.
  intros Hd Htx Hact H. destruct r as [[]|e].
  - assert (w_tx w' = None) as Ht.
    { unfold RemoveAll, of_res, bind at 1 in H. rewrite Hact in H.
      destruct (normalize_canonical name) as (l & Hl & Hn). rewrite Hn in *.
      destruct (String.eqb _ _); [done|]. apply bind_Ok in H as (n & w1 & Hg & H).
      apply with_fs_err_Ok in Hg. eapply (GetByPath_acts (u_ID user)) in Hg as (_ & Ht & _); try done.
      by apply WithTx_Ok in H as (w2 & _ & _ & ->). }
    apply RemoveAll_removed in H as (user' & id & rr & Hact' & Hr & Hu & _ & _ & Hrem & Hd'); [|done..].
    rewrite Hact in Hact'. simplify_eq. split; [|done]. rewrite <- Hu. by eapply confined_cleared.
  - unfold RemoveAll, of_res, bind at 1 in H. rewrite Hact in H.
    destruct (normalize_canonical name) as (l & Hl & Hn). rewrite Hn in *.
    destruct (String.eqb _ _); [by stays H|].
    apply bind_cases in H as [(n & w1 & Hg & H)|(e' & Hg & _)].
    + apply with_fs_err_Ok in Hg. eapply (GetByPath_acts (u_ID user)) in Hg as (Hdb & Ht & _); try done.
      apply WithTx_Err in H as [Hdb' Ht']; [|done]. apply acts_same; [done|congruence|done].
    + apply with_fs_err_any in Hg as [r0 Hg].
      by eapply (GetByPath_acts (u_ID user)) in Hg as (_ & _ & ?).
Qed.

Lemma rename_tx_acts u a b w x w' : tree_ok (w_db w) → segs_ok a → segs_ok b → a ≠ [] → b ≠ [] →
  ¬ below a b → rename_tx u (render a) (render b) w = (Ok x, w') → confined u (w_db w) (w_db w').
Proof.
  intros Hd Ha Hb Hane Hbne Hab H. destruct (decide (below b a)) as [Hba|Hba].
  - apply rename_tx_ancestor in H as [Hc Ht]; [|done..]. by eapply confined_cleared.
  - apply rename_tx_moves in H as (r & p & d1 & _ & Hu & _ & Hcl & Hd1 & Hren & Ht & _); [|done..].
    apply (confined_trans _ _ d1); [by apply (confined_cleared _ _ b)|].
    by apply (confined_renames _ _ r p b).
Qed.

Lemma Rename_acts ctx old new user w r w' : tree_ok (w_db w) → w_tx w = None →
  acting ctx = Ok user → Rename ctx old new w = (r, w') → acts (u_ID user) w w'.
Proof.
  intros Hd Htx Hact H. unfold Rename, of_res, bind in H. rewrite Hact in H.
  destruct (normalize_canonical old) as (a & Ha & Hna). destruct (normalize_canonical new) as (b & Hb & Hnb).
  rewrite Hna, Hnb in H.
  destruct (_ || _) eqn:Hroot; [by stays H|].
  destruct (String.eqb (render a) (render b)); [by stays H|].
  destruct (HasPrefix _ _) eqn:Hpre; [by stays H|].
  apply orb_false_iff in Hroot as [Hra Hrb].
  pose proof (canonical_not_root _ Ha Hra). pose proof (canonical_not_root _ Hb Hrb).
  eapply acts_WithTx; [done|done| |exact H]. intros x w1 Hf.
  eapply (rename_tx_acts _ a b (set_tx (Some (mkTx (w_db w) false)) (tick w))); try done.
  intros Hab. apply (rename_guard_spec a b) in Hab; try done. congruence.
Qed.

(** A lookup and its continuation. *)
Lemma lookup_acts {A} v u l (k : Node → M A) w r w' : tree_ok (w_db w) → w_tx w = None → segs_ok l →
  bind (with_fs_err (NodeRepository_GetByPath u (render l))) k w = (r, w') →
  (∀ s, d_nodes (w_db w) !! n_ID (nr_node s) = Some s → ruser s = u → rsegs s = l →
     k (nr_node s) (tick w) = (r, w') → acts v w w') → acts v w w'.
Proof.
  intros Hd Htx Hl H Hk. apply bind_cases in H as [(n & w1 & Hg & H)|(e & Hg & _)].
  - apply with_fs_err_Ok, GetByPath_Ok in Hg as (-> & s & Hs & <- & Hu & Hsl); [|done..]. by eapply Hk.
  - apply with_fs_err_any in Hg as [r0 Hg]. by eapply (GetByPath_acts v) in Hg as (_ & _ & ?).
Qed.

Lemma acts_tick u w w' : acts u (tick w) w' ↔ acts u w w'.
Proof. done. Qed.

Lemma Mkdir_acts ctx name user w r w' : tree_ok (w_db w) → w_tx w = None →
  acting ctx = Ok user → Mkdir ctx name w = (r, w') → acts (u_ID user) w w'.
Proof.
  intros Hd Htx Hact H. pose proof H as Hrun. unfold Mkdir, of_res, bind at 1 in H. rewrite Hact in H.
  destruct (normalize_canonical name) as (l & Hl & Hn). rewrite Hn in H.
  destruct (String.eqb (render l) "/") eqn:Hroot; [by stays H|].
  pose proof (canonical_not_root _ Hl Hroot) as Hne. destruct (exists_last Hne) as (m & bx & ->).
  pose proof Hl as [Hm _]%segs_ok_snoc.
  apply bind_cases in H as [(x & w1 & He & H)|(e & He & _)]; [|by apply ensureRootExists_acts in He].
  apply ensureRootExists_acts in He as Ha; [|done..]. destruct Ha as [Hc Ht].
  eapply acts_trans; [by split|]. pose proof (cf_tree _ _ _ Hc) as Hd1. rewrite try_run in H.
  destruct (NodeRepository_GetByPath _ _ w1) as [[n|e] w2] eqn:Hg; cbn [fst snd] in H.
  - eapply (GetByPath_acts (u_ID user)) in Hg as (_ & _ & Hg); [|done..].
    unfold fail in H. simplify_eq. done.
  - pose proof Hg as Hg2. eapply (GetByPath_acts (u_ID user)) in Hg as (Hdb & Ht2 & Hg); [|done..].
    destruct (negb _) eqn:He2; [unfold fail in H; simplify_eq; done|].
    apply GetByPath_Err in Hg2 as (_ & _ & Hnf); [|done..].
    apply negb_false_iff, bool_decide_eq_true in He2. destruct (Hnf He2) as [-> Hfree].
    rewrite Dir_render in H by done.
    eapply (lookup_acts (u_ID user)) in H; [|done..|]; [by apply acts_tick|].
    intros s Hs Hu Hsl Hk. simpl in Hs. destruct (n_IsDir (nr_node s)) eqn:Hdir; simpl in Hk; [|by stays Hk].
    unfold Now, uuid_New, bind at 1 2 in Hk.
    apply bind_cases in Hk as [(c & w3 & Hcr & Hk)|(e3 & Hcr & _)].
    + unfold ret in Hk. simplify_eq. apply with_fs_err_Ok in Hcr.
      destruct (λ H0 H1 H2 H3 H4, create_below_Ok _ (rsegs s) bx (tick (tick (tick (tick w1)))) _ _ s _ Hd1 Hl H0 Hs
              Hu eq_refl Hdir H1 H2 H3 H4 Hcr)
        as (Hfill & Hw & Hok & _ & Hnew & _); [done|done|done|by apply Base_render|done|].
      split.
      * pose proof (confined_added (w_db (tick (tick (tick (tick w1))))) (u_ID user) c) as Hca.
        rewrite <- Hw in Hca. by apply Hca; [|destruct Hfill|].
      * apply Create_Ok in Hcr as (_ & _ & _ & _ & Htc & _); [|exact Hd1]. by rewrite Htc.
    + apply with_fs_err_Err in Hcr as [e4 Hcr].
      apply Create_Err in Hcr as [Hdb3 Ht3]. apply acts_same; [done|done|auto].
Qed.

(** The common shape of a move that succeeds. *)
Lemma Rename_inv ctx src dst w x w' : tree_ok (w_db w) → w_tx w = None →
  Rename ctx src dst w = (Ok x, w') →
  ∃ user a b, acting ctx = Ok user ∧ normalize src = render a ∧ normalize dst = render b
    ∧ segs_ok a ∧ segs_ok b ∧ a ≠ [] ∧ b ≠ [] ∧
    (a = b ∧ w' = w
     ∨ ¬ below a b ∧ ∃ w2, w_db w' = w_db w2 ∧
         rename_tx (u_ID user) (render a) (render b)
           (set_tx (Some (mkTx (w_db w) false)) (tick w)) = (Ok x, w2)).
Proof.
  intros Hd Htx H. unfold Rename, of_res, bind at 1 in H. destruct (acting ctx) as [user|e] eqn:Hact; [|done].
  destruct (normalize_canonical src) as (a & Ha & Hna). destruct (normalize_canonical dst) as (b & Hb & Hnb).
  rewrite Hna, Hnb in H. destruct (_ || _) eqn:Hroot; [done|].
  apply orb_false_iff in Hroot as [Hra Hrb].
  pose proof (canonical_not_root _ Ha Hra). pose proof (canonical_not_root _ Hb Hrb).
  exists user, a, b. split_and!; try done.
  destruct (String.eqb_spec (render a) (render b)) as [Heq|Hne].
  { left. split; [by apply render_inj|]. unfold ret in H. by simplify_eq. }
  right. destruct (HasPrefix _ _) eqn:Hpre; [done|].
  split; [intros Hab; apply (rename_guard_spec a b) in Hab; congruence|].
  apply WithTx_Ok in H as (w2 & H & _ & ->); [|done]. by exists w2.
Qed.

(** A DELETE or MOVE that fails changes no table. *)
Lemma RemoveAll_Err ctx name w e w' : tree_ok (w_db w) → w_tx w = None →
  RemoveAll ctx name w = (Err e, w') → w_db w' = w_db w.
Proof.
  intros Hd Htx H. unfold RemoveAll, of_res, bind at 1 in H. destruct (acting ctx) as [user|]; [|by injection H as _ <-].
  destruct (normalize_canonical name) as (l & Hl & Hn). rewrite Hn in H.
  destruct (String.eqb _ _); [by injection H as _ <-|].
  apply bind_cases in H as [(n & w1 & Hg & H)|(e1 & Hg & _)].
  - apply with_fs_err_Ok, GetByPath_Ok in Hg as (-> & _); [|done..].
    by apply WithTx_Err in H as [-> _].
  - apply with_fs_err_any in Hg as [r0 Hg]. by eapply (GetByPath_acts 0%N) in Hg as (-> & _).
Qed.

Lemma Rename_Err ctx src dst w e w' : w_tx w = None → Rename ctx src dst w = (Err e, w') → w_db w' = w_db w.
Proof.
  intros Htx H. unfold Rename, of_res, bind at 1 in H. destruct (acting ctx) as [user|]; [|by injection H as _ <-].
  destruct (_ || _); [by injection H as _ <-|]. destruct (String.eqb _ _); [done|].
  destruct (HasPrefix _ _); [by injection H as _ <-|]. by apply WithTx_Err in H as [-> _].
Qed.

(** An MKCOL that fails adds at most the user's root. *)
Lemma Mkdir_Err ctx name user w e w' : tree_ok (w_db w) → w_tx w = None → acting ctx = Ok user →
  Mkdir ctx name w = (Err e, w') → ensured (u_ID user) (w_db w) (w_db w').
Proof.
  intros Hd Htx Hact H. unfold Mkdir, of_res, bind at 1 in H. rewrite Hact in H.
  destruct (normalize_canonical name) as (l & Hl & Hn). rewrite Hn in H.
  destruct (String.eqb (render l) "/") eqn:Hroot; [injection H as _ <-; by apply ensured_refl|].
  pose proof (canonical_not_root _ Hl Hroot) as Hne. destruct (exists_last Hne) as (m & bx & ->).
  pose proof Hl as [Hm _]%segs_ok_snoc.
  apply bind_cases in H as [(x & w1 & He & H)|(e1 & He & _)].
  2: { apply ensureRootExists_Err in He as [-> _]; [by apply ensured_refl|done..]. }
  apply ensureRootExists_Ok in He as [He Ht]; [|done..]. pose proof (en_tree _ _ _ He) as Hd1.
  assert (w_db w' = w_db w1) as ->; [|done]. rewrite try_run in H.
  destruct (NodeRepository_GetByPath _ _ w1) as [[n|e1] w2] eqn:Hg; cbn [fst snd] in H;
    eapply (GetByPath_acts (u_ID user)) in Hg as (Hdb & Ht2 & _); try done; [by injection H as _ <-|].
  destruct (negb _); [by injection H as _ <-|]. rewrite Dir_render in H by done. rewrite <- Hdb in Hd1 |- *.
  apply bind_cases in H as [(n & w3 & Hp & H)|(e2 & Hp & _)]; apply with_fs_err_any in Hp as [r0 Hp];
    eapply (GetByPath_acts (u_ID user)) in Hp as (Hdb3 & Ht3 & _); try done.
  destruct (negb _); [by injection H as _ <-|]. unfold Now, uuid_New, bind at 1 2 in H.
  apply bind_cases in H as [(c & w4 & _ & H)|(e3 & Hcr & _)]; [done|].
  apply with_fs_err_Err in Hcr as [e4 Hcr]. apply Create_Err in Hcr as [Hdb4 _]. cbn [w_db tick] in Hdb4. congruence.
Qed.

End requests.

(** ** Uploads *)

(** The row of an open writer: a file of [u] without extents. *)
Definition writable (u : uuid) (f : writeFile) (d : Db) : Prop :=
  ∃ r, d_nodes d !! wf_id f = Some r ∧ ruser r = u ∧ rdir r = false ∧ extents_of (wf_id f) d = [].

Lemma writable_frame u f f' d d' : wal_frame (wf_id f) d d' → wf_node f' = wf_node f →
  writable u f d → writable u f' d'.
Proof.
  intros Hf Hn (r & Hr & Hu & Hd & He). unfold writable, wf_id, extents_of in *. rewrite Hn.
  rewrite (wal_frame_nodes _ _ _ Hf), (wal_frame_extents _ _ _ Hf). by exists r.
Qed.

(** Deleting a file that has no extents. *)
Lemma confined_delete_file u d id r : tree_ok d → d_nodes d !! id = Some r → ruser r = u →
  rdir r = false → extents_of id d = [] → confined u d (delete_nodes {[id]} d).
Proof.
  intros Hd Hr Hu Hdir Hex. pose proof (tree_ok_delete {[id]} d Hd) as Ht.
  assert (∀ j, j ∈ cascade_set (d_nodes d) {[id]} ↔ j = id) as Hcas.
  { intros j. rewrite (cascade_tree d Hd id r j Hr). split.
    - intros (s & Hs & Hin). by destruct (file_subtree d id r j s Hd Hr Hdir Hs Hin).
    - intros ->. exists r. split; [done|]. split; [done|apply below_refl]. }
  assert (∀ i, foreign u d i → i ≠ id) as Hne by (intros i (s & Hs & ?) ->; congruence).
  assert (∀ k e, d_extents d !! k = Some e → e_NodeID e ≠ id) as Hnoex.
  { intros k e He Hid. unfold extents_of in Hex. rewrite rows_nil in Hex.
    specialize (Hex k e He). by rewrite Hid, N.eqb_refl in Hex. }
  split; try done.
  - apply conserves_frame; [done|]. apply map_eq. intros k. apply option_eq. intros e.
    rewrite delete_extents_lookup, Hcas. split; [by intros [? _]|]. intros He. split; [done|].
    by eapply Hnoex.
  - intros i s Hs. rewrite delete_nodes_lookup, Hcas. split; [by intros [? _]|]. intros Hi.
    split; [done|]. intros ->. congruence.
  - intros k e Hf. rewrite delete_extents_lookup, Hcas. split; [by intros [? _]|]. intros He.
    split; [done|]. by apply Hne.
  - intros k c Hf. rewrite delete_wal_lookup, Hcas. split; [by intros [? _]|]. intros He.
    split; [done|]. by apply Hne.
  - intros k e. rewrite delete_extents_lookup. intros [? _]. by left.
Qed.

Section uploads.
Context {E : Env}.

Lemma AppendChunk_Err c w e w' : WALRepository_AppendChunk c w = (Err e, w') →
  w_db w' = w_db w ∧ (w_tx w = None → w_tx w' = None).
Proof.
  unfold WALRepository_AppendChunk.
  intros [(id & w1 & Hn & H)|(e' & Hn & _)]%bind_cases.
  2: { unfold or_new, ret, uuid_New in Hn. by destruct (N.eqb _ _). }
  apply or_new_Ok in Hn as (Hdb & Htx & _ & _).
  apply bind_cases in H as [(t & w2 & Hn & H)|(e' & Hn & _)].
  2: { unfold or_now, ret, Now in Hn. by destruct (IsZero _). }
  apply or_now_Ok in Hn as (Hdb2 & Htx2).
  apply translate_Err in H as (e0 & H & _). apply query_Err in H as (Hdb3 & _ & Htx3 & _).
  split; [congruence|]. intros Ht. apply Htx3. congruence.
Qed.

Lemma AppendChunk_frame c w r w' : WALRepository_AppendChunk c w = (r, w') →
  wal_frame (c_NodeID c) (w_db w) (w_db w') ∧ (w_tx w = None → w_tx w' = None).
Proof.
  intros H. destruct r as [u|e].
  - apply AppendChunk_Ok in H as (c' & Hn & _ & _ & Hw & Hfree & Htx).
    rewrite Hw, <- Hn. split; [by apply appended_frame|]. congruence.
  - apply AppendChunk_Err in H as [Hw Htx]. rewrite Hw. done.
Qed.

Lemma flush_frame f data w r w' : flushChunk f data w = (r, w') →
  wal_frame (wf_id f) (w_db w) (w_db w') ∧ (w_tx w = None → w_tx w' = None).
Proof.
  unfold flushChunk, bind, uuid_New. intros H. by apply AppendChunk_frame in H.
Qed.

Lemma flush_full_frame k f w r w' : flush_full k f w = (r, w') →
  ∃ f' x, r = Ok (f', x) ∧ wal_frame (wf_id f) (w_db w) (w_db w')
    ∧ (w_tx w = None → w_tx w' = None) ∧ wf_node f' = wf_node f ∧ wf_user f' = wf_user f.
Proof.
  revert f w. induction k as [|k IH]; intros f w H; simpl in H.
  - unfold ret in H. simplify_eq. by exists f, (Ok tt).
  - destruct (_ <=? _); [|unfold ret in H; simplify_eq; by exists f, (Ok tt)].
    rewrite try_run in H. destruct (flushChunk _ _ w) as [[[]|e] w1] eqn:Hfl; cbn [fst snd] in H;
      apply flush_frame in Hfl as [Hf Htx].
    + apply IH in H as (f' & x & -> & Hf' & Htx' & Hn & Hu). exists f', x. split_and!; try done; auto.
      by etrans.
    + unfold ret in H. simplify_eq. by exists f, (Err e).
Qed.

Lemma Write_frame f p w r w' : writeFile_Write f p w = (r, w') →
  ∃ f' x, r = Ok (f', x) ∧ wal_frame (wf_id f) (w_db w) (w_db w')
    ∧ (w_tx w = None → w_tx w' = None) ∧ wf_node f' = wf_node f ∧ wf_user f' = wf_user f.
Proof.
  unfold writeFile_Write. destruct (wf_closed f).
  { unfold ret. intros H. simplify_eq. eexists _, _. by split_and!. }
  intros [([f2 x] & w1 & Hfl & H)|(e & Hfl & _)]%bind_cases;
    apply flush_full_frame in Hfl as (f' & y & He & Hf & Htx & Hn & Hu); [|done].
  unfold ret in H. simplify_eq. eexists _, _. by split_and!.
Qed.

Lemma WriteAll_frame f ps w r w' : WriteAll (FWrite f) ps w = (r, w') →
  ∃ f' x, r = Ok (FWrite f', x) ∧ wal_frame (wf_id f) (w_db w) (w_db w')
    ∧ (w_tx w = None → w_tx w' = None) ∧ wf_node f' = wf_node f.
Proof.
  revert f w. induction ps as [|p ps IH]; intros f w H; simpl in H.
  - unfold ret in H. simplify_eq. by exists f, (Ok tt).
  - unfold bind at 1 2 in H. destruct (writeFile_Write f p w) as [r1 w1] eqn:Hw.
    apply Write_frame in Hw as (f' & x & -> & Hf & Htx & Hn & Hu). simpl in H.
    destruct x as [n|e].
    + apply IH in H as (f2 & y & -> & Hf2 & Htx2 & Hn2). unfold wf_id in *. rewrite Hn in *.
      exists f2, y. split_and!; try done; auto. by etrans.
    + unfold ret in H. simplify_eq. exists f', (Err e). by split_and!.
Qed.

(** The rollback of [Close]. *)
Lemma close_rollback_acts u g w r w' : tree_ok (w_db w) → w_tx w = None → writable u g (w_db w) →
  close_rollback g w = (r, w') → acts u w w'.
Proof.
  intros Hd Htx (rr & Hr & Hu & Hdir & Hex) H. eapply acts_WithTx; [done|done| |exact H].
  clear H r w'. intros [] w' H. rewrite try_run in H.
  destruct (WALRepository_DeleteByNode _ _) as [x w1] eqn:Hdel; cbn [fst snd] in H.
  assert (wal_frame (wf_id g) (w_db w) (w_db w1)) as Hf.
  { destruct x as [[]|e].
    - unfold WALRepository_DeleteByNode in Hdel. m_inv. unfold DeleteWALChunksByNode in Hq. simplify_eq.
      split; [done|]. simpl. intros k c Hc. rewrite map_lookup_filter_Some. simpl. split; [by intros [? _]|].
      intros Hk. by split.
    - apply translate_Err in Hdel as (e0 & Hdel & _). apply query_Err in Hdel as (Hdb & _). by rewrite Hdb. }
  pose proof (confined_wal_frame _ Hd u _ rr _ Hr Hu Hf) as Hc1.
  apply Delete_Ok in H as [_ ->]. eapply confined_trans; [exact Hc1|].
  apply (confined_delete_file _ _ _ rr); try done.
  - apply (cf_tree _ _ _ Hc1).
  - by rewrite (wal_frame_nodes _ _ _ Hf).
  - unfold extents_of in *. by rewrite (wal_frame_extents _ _ _ Hf).
Qed.

(** [Close], whatever happens in it: the row is completed, or removed, or left. *)
Lemma Close_acts u f w r w' : tree_ok (w_db w) → w_tx w = None → writable u f (w_db w) →
  writeFile_Close f w = (r, w') → acts u w w'.
Proof.
  intros Hd Htx Hwr. unfold writeFile_Close.
  destruct (wf_closed f); [intros H; by stays H|]. rewrite try_run.
  set (fl := if blen (wf_buf f) =? 0 then ret tt else flushChunk f (wf_buf f)).
  assert (∀ x w1, fl w = (x, w1) → wal_frame (wf_id f) (w_db w) (w_db w1) ∧ w_tx w1 = None) as Hfl.
  { unfold fl. intros x w1. destruct (_ =? 0).
    - unfold ret. intros H. by simplify_eq.
    - intros H. apply flush_frame in H as [? ?]. auto. }
  destruct (fl w) as [x w1] eqn:Hfw. destruct (Hfl x w1 eq_refl) as [Hf Htx1]. clear Hfl Hfw.
  pose proof Hwr as (rr & Hr & Hu & Hdir & Hex).
  pose proof (confined_wal_frame _ Hd u _ rr _ Hr Hu Hf) as Hc1.
  cbn [fst snd]. intros H. eapply (acts_trans _ _ w1); [by split|].
  destruct x as [[]|e]; [|by stays H; [apply (cf_tree _ _ _ Hc1)|..]].
  set (g := if blen (wf_buf f) =? 0 then _ else _) in H.
  assert (wf_node g = wf_node f) as Hg by (unfold g; by destruct (_ =? 0)). clearbody g.
  apply (writable_frame _ _ g _ _ Hf Hg) in Hwr. pose proof (cf_tree _ _ _ Hc1) as Hd1.
  unfold Now, bind at 1 in H. rewrite try_run in H.
  destruct (WithTx (close_tx g _) (tick w1)) as [[[]|e] w2] eqn:Ht; cbn [fst snd] in H.
  - apply WithTx_Ok in Ht as (w3 & Ht & _ & ->); [|done].
    apply close_tx_Ok in Ht as (_ & r1 & Hr1 & Hw3); [|apply (tk_id _ Hd1)].
    unfold IncWriteOps, modify, bind, ret in H. simplify_eq. split; [|done]. simpl. rewrite Hw3.
    destruct Hwr as (r2 & Hr2 & Hu2 & Hf2 & _). simpl in *. simplify_eq.
    by apply (confined_put_row _ Hd1 _ _ r2); try done; apply closed_row_place.
  - apply WithTx_Err in Ht as [Hdb2 Htx2]; [|done]. simpl in Hdb2. unfold try in H.
    destruct (close_rollback g w2) as [y w3] eqn:Hrb. unfold ret in H. simplify_eq.
    eapply (acts_trans _ _ w2); [by apply acts_same|]. rewrite <- Hdb2 in *.
    by eapply close_rollback_acts in Hrb.
Qed.

Lemma openWrite_acts user l flag w r w' : tree_ok (w_db w) → w_tx w = None → segs_ok l →
  openWrite user (render l) flag w = (r, w') →
  acts (u_ID user) w w' ∧ ∀ f, r = Ok f → ∃ wf, f = FWrite wf ∧ writable (u_ID user) wf (w_db w').
Proof.
  intros Hd Htx Hl H. split.
  2: { intros f ->. destruct (decide (l = [])) as [->|Hne]; [done|].
       apply openWrite_Ok in H as (wf & -> & Hop & _); [|done..]. exists wf. split; [done|].
       pose proof (op_extents _ _ _ _ _ Hop). destruct (op_row _ _ _ _ _ Hop) as (s & Hs & Hu & _ & Hdir & _). by exists s. }
  unfold openWrite in H. destruct (String.eqb (render l) "/") eqn:Hroot; [by stays H|].
  pose proof (canonical_not_root _ Hl Hroot) as Hne. destruct (exists_last Hne) as (m & bx & ->).
  pose proof Hl as [Hm _]%segs_ok_snoc. rewrite Dir_render in H by done.
  eapply (lookup_acts (u_ID user)) in H; [exact H|done..|]. clear H.
  intros s Hs Hu Hsl H. destruct (n_IsDir (nr_node s)) eqn:Hdir; simpl in H; [|by stays H].
  rewrite try_run in H. rewrite <- acts_tick.
  destruct (NodeRepository_GetByPath (u_ID user) _ (tick w)) as [[n|e] w2] eqn:Hg; cbn [fst snd] in H.
  - apply GetByPath_Ok in Hg as (-> & x & Hx & <- & Hxu & Hxs); [|done..].
    destruct (n_IsDir (nr_node x)); [by stays H|]. destruct (negb _); [by stays H|].
    apply bind_cases in H as [(y & w3 & Ht & H)|(e & Ht & _)].
    + unfold ret in H. simplify_eq.
      apply truncateNode_Ok in Ht as (r0 & now & Hr0 & Htr & Hd' & Htx'); [|done..].
      simpl in *. simplify_eq. split; [|done]. by eapply confined_truncated.
    + unfold truncateNode in Ht. apply WithTx_Err in Ht as [Hdb Ht]; [|done]. by apply acts_same.
  - pose proof Hg as Hg2. apply (GetByPath_acts (u_ID user)) in Hg as (Hdb & Ht2 & Hg); [|done..].
    apply GetByPath_Err in Hg2 as (_ & _ & Hnf); [|done..].
    destruct (errors_Is e ErrNotFound) eqn:He2; [|unfold fail in H; by simplify_eq].
    apply bool_decide_eq_true in He2. destruct (Hnf He2) as [-> Hfree].
    unfold Now, uuid_New, bind at 1 2 in H.
    apply bind_cases in H as [(c & w3 & Hcr & H)|(e3 & Hcr & _)].
    + unfold ret in H. simplify_eq. apply with_fs_err_Ok in Hcr.
      destruct (λ H0 H1 H2 H3 H4, create_below_Ok _ (rsegs s) bx (tick (tick (tick (tick w)))) _ _ s _ Hd Hl H0 Hs
              Hu eq_refl Hdir H1 H2 H3 H4 Hcr)
        as (Hfill & Hw & Hok & _ & Hnew & _); [done|done|done|by apply Base_render|done|].
      split.
      * pose proof (confined_added (w_db w) (u_ID user) c) as Hca.
        change (w_db w) with (w_db (tick (tick (tick (tick w))))) in Hca.
        rewrite <- Hw in Hca. by apply Hca; [|destruct Hfill|].
      * apply Create_Ok in Hcr as (_ & _ & _ & _ & Htc & _); [|exact Hd]. by rewrite Htc.
    + apply with_fs_err_Err in Hcr as [e4 Hcr].
      apply Create_Err in Hcr as [Hdb3 Ht3]. apply acts_same; [done|done|auto].
Qed.

Lemma put_acts ctx name flag ps user w r w' : tree_ok (w_db w) → w_tx w = None →
  Z.land flag (Z.lor O_WRONLY O_RDWR) ≠ 0 →
  acting ctx = Ok user → put ctx name flag ps w = (r, w') → acts (u_ID user) w w'.
Proof.
  intros Hd Htx Hflag Hact H. destruct (normalize_canonical name) as (l & Hl & Hn).
  assert (∀ x w1, OpenFile ctx name flag w = (x, w1) → acts (u_ID user) w w1
    ∧ ∀ f, x = Ok f → ∃ wf, f = FWrite wf ∧ writable (u_ID user) wf (w_db w1)) as Hopen.
  { intros x w1 Ho. unfold OpenFile, of_res, bind at 1 in Ho. rewrite Hact, Hn in Ho.
    destruct (Z.eqb_spec (Z.land flag (Z.lor O_WRONLY O_RDWR)) 0); [done|].
    apply bind_cases in Ho as [(y & w2 & He & Ho)|(e & He & ->)].
    - apply ensureRootExists_acts in He as Ha; [|done..]. pose proof Ha as [Hc Ht].
      apply openWrite_acts in Ho as [Ha2 Hf]; [|apply (cf_tree _ _ _ Hc)|done..].
      split; [by eapply acts_trans|done].
    - apply ensureRootExists_acts in He; [|done..]. by split. }
  unfold put, bind at 1 in H. destruct (OpenFile ctx name flag w) as [[f|e] w1].
  2: { simplify_eq. by apply (Hopen (Err e)). }
  destruct (Hopen _ _ eq_refl) as [Ha Hf]. clear Hopen. eapply acts_trans; [exact Ha|].
  destruct Ha as [Hc Ht1]. pose proof (cf_tree _ _ _ Hc) as Hd1.
  destruct (Hf f eq_refl) as (wf & -> & Hwr).
  apply bind_cases in H as [([f2 wr] & w2 & Hwa & H)|(e & Hwa & _)];
    apply WriteAll_frame in Hwa as (f' & x & Hx & Hfr & Htx2 & Hnode); [|done].
  simplify_eq. pose proof Hwr as (rr & Hr & Hu & _).
  pose proof (confined_wal_frame _ Hd1 _ _ _ _ Hr Hu Hfr) as Hc2.
  eapply (acts_trans _ _ w2); [split; [exact Hc2|auto]|].
  apply (writable_frame _ _ f' _ _ Hfr Hnode) in Hwr.
  assert (w_tx w2 = None) as Htx2' by auto.
  apply bind_cases in H as [([f3 cl] & w3 & Hcl & H)|(e & Hcl & _)]; simpl in Hcl.
  - apply bind_cases in Hcl as [([f4 c4] & w4 & Hcl & Hret)|(e & Hcl & ?)]; [|done].
    unfold ret in Hret. simplify_eq. apply (Close_acts (u_ID user)) in Hcl; [|apply (cf_tree _ _ _ Hc2)|done..].
    destruct x; unfold of_res, fail in H; by simplify_eq.
  - apply bind_cases in Hcl as [([f4 c4] & w4 & Hcl & Hret)|(e' & Hcl & ?)]; [done|].
    apply (Close_acts (u_ID user)) in Hcl; [done|apply (cf_tree _ _ _ Hc2)|done..].
Qed.

End uploads.
