(* ===== verification/Cache.v ===== *)
(** * internal/service/cache: the disk cache of whole blobs

    The operations of [blobcache.go], each cut where the code releases its mutex:
    [get_lookup], [get_read], [get_hit] and [get_drop] are the parts of [Get],
    [put_file] and [put_index] those of [Put].  [Get] and [Put] run the parts in
    sequence; [cstep] interleaves the parts of any number of calls, with the
    janitor and with files that vanish. *)
From Stdlib Require Import ZArith Lia Strings.Byte Strings.String.
From stdpp Require Import base tactics list gmap sets sorting strings.
From S2P Require Import Prelude Model Sql World.
#[local] Open Scope Z_scope.
Open Scope m_scope.

(** ** The index and the list *)

Definition set_entries (i : gmap uuid CacheEntry) (l : list uuid) (t : Z) (c : Cache) : Cache :=
  mkCache (ca_maxBytes c) (ca_idleTTL c) i l t (ca_files c) (ca_next c).
Definition set_files (f : gmap uuid (bytes * time)) (c : Cache) : Cache :=
  mkCache (ca_maxBytes c) (ca_idleTTL c) (ca_index c) (ca_lru c) (ca_total c) f (ca_next c).
Definition set_next (n : nat) (c : Cache) : Cache :=
  mkCache (ca_maxBytes c) (ca_idleTTL c) (ca_index c) (ca_lru c) (ca_total c) (ca_files c) n.

(** [lru.Remove] and [lru.MoveToFront]. *)
Definition lru_remove (id : uuid) (l : list uuid) : list uuid :=
  List.filter (λ x, negb (N.eqb x id)) l.
Definition move_to_front (id : uuid) (l : list uuid) : list uuid := id :: lru_remove id l.

Definition same_entry (e : CacheEntry) (r : option CacheEntry) : bool :=
  match r with Some cur => Nat.eqb (ce_ptr cur) (ce_ptr e) | None => false end.

(** The bookkeeping of [removeLocked]; [unlinked] tells whether [os.Remove] worked. *)
Definition drop_entry (id : uuid) (e : CacheEntry) (unlinked : bool) (c : Cache) : Cache :=
  let t := wrap64 (ca_total c - ce_size e) in
  set_entries (delete id (ca_index c)) (lru_remove id (ca_lru c)) (if t <? 0 then 0 else t)
    (if unlinked then set_files (delete id (ca_files c)) c else c).

(** A replaced entry keeps its identity; a new one gets a fresh one. *)
Definition index_put (id : uuid) (size : Z) (now : time) (c : Cache) : Cache :=
  match ca_index c !! id with
  | Some e =>
      set_entries (<[id := mkCacheEntry (ce_ptr e) size now]> (ca_index c))
        (move_to_front id (ca_lru c)) (wrap64 (ca_total c + wrap64 (size - ce_size e))) c
  | None =>
      set_next (S (ca_next c))
        (set_entries (<[id := mkCacheEntry (ca_next c) size now]> (ca_index c))
          (id :: ca_lru c) (wrap64 (ca_total c + size)) c)
  end.

Definition index_touch (id : uuid) (e : CacheEntry) (now : time) (c : Cache) : Cache :=
  set_entries (<[id := mkCacheEntry (ce_ptr e) (ce_size e) now]> (ca_index c))
    (move_to_front id (ca_lru c)) (ca_total c) c.

Section cache.
Context {E : Env}.

Definition get_cache : M Cache := gets w_cache.
Definition upd_cache (f : Cache → Cache) : M unit := modify (λ w, set_cache (f (w_cache w)) w).

Definition removeLocked (id : uuid) (e : CacheEntry) : M unit :=
  let! ok := io_ok in upd_cache (drop_entry id e ok).

(** Each round removes the last element of the list: as many rounds as it is long. *)
Fixpoint evict (fuel : nat) : M unit :=
  let! c := get_cache in
  if ca_total c <=? ca_maxBytes c then ret tt
  else match last (ca_lru c), fuel with
       | Some id, S k =>
           match ca_index c !! id with
           | Some e => do! removeLocked id e in evict k
           | None => ret tt
           end
       | _, _ => ret tt
       end.

Definition evictLocked : M unit :=
  let! c := get_cache in
  if ca_maxBytes c <=? 0 then ret tt else evict (length (ca_lru c)).

(** ** Get *)

Definition get_lookup (id : uuid) : M (option CacheEntry) :=
  gets (λ w, ca_index (w_cache w) !! id).

(** [os.ReadFile], outside the mutex. *)
Definition get_read (id : uuid) : M bytes :=
  let! ok := io_ok in
  let! c := get_cache in
  match ca_files c !! id with
  | Some (data, _) => if ok then ret data else fail ErrIo
  | None => fail ErrIo
  end.

Definition get_drop (id : uuid) (e : CacheEntry) : M unit :=
  let! c := get_cache in
  match ca_index c !! id with
  | Some cur => if same_entry e (Some cur) then removeLocked id cur else ret tt
  | None => ret tt
  end.

Definition get_hit (id : uuid) (e : CacheEntry) : M unit :=
  let! c := get_cache in
  match ca_index c !! id with
  | Some cur =>
      if same_entry e (Some cur) then let! now := Now in upd_cache (index_touch id cur now)
      else ret tt
  | None => ret tt
  end.

Definition cache_Get (id : uuid) : M (option bytes) :=
  let! r := get_lookup id in
  match r with
  | None => ret None
  | Some e =>
      let? d := get_read id in
      match d with
      | Err _ => do! get_drop id e in ret None
      | Ok data => do! get_hit id e in ret (Some data)
      end
  end.

(** ** Put *)

(** The temporary file is created, written, closed and renamed into place; on any
    error it is removed and the directory's blobs are as they were. *)
Definition put_file (id : uuid) (data : bytes) : M unit :=
  let! created := io_ok in
  if negb created then fail ErrIo else
  let! written := io_ok in
  if negb written then fail ErrIo else
  let! closed := io_ok in
  if negb closed then fail ErrIo else
  let! renamed := io_ok in
  if negb renamed then fail ErrIo else
  let! mtime := Now in
  upd_cache (λ c, set_files (<[id := (data, mtime)]> (ca_files c)) c).

Definition put_index (id : uuid) (size : Z) : M unit :=
  let! now := Now in
  do! upd_cache (index_put id size now) in
  evictLocked.

Definition cache_Put (id : uuid) (data : bytes) : M unit :=
  do! put_file id data in put_index id (blen data).

(** ** The rest *)

Definition cache_Remove (id : uuid) : M unit :=
  let! c := get_cache in
  match ca_index c !! id with Some e => removeLocked id e | None => ret tt end.

Definition cache_Stats : M (Z * Z) :=
  gets (λ w, (ca_total (w_cache w), Z.of_nat (size (ca_index (w_cache w))))).

Definition cache_Has (id : uuid) : M bool :=
  gets (λ w, bool_decide (is_Some (ca_index (w_cache w) !! id))).

Definition cache_Capacity : M Z := gets (λ w, ca_maxBytes (w_cache w)).

(** The walk of [sweepIdle] from the back of the list. *)
Fixpoint sweep (cutoff : time) (back : list uuid) : M unit :=
  match back with
  | [] => ret tt
  | id :: rest =>
      let! c := get_cache in
      match ca_index c !! id with
      | Some e => if ce_lastAccess e <? cutoff
                  then do! removeLocked id e in sweep cutoff rest else ret tt
      | None => ret tt
      end
  end.

Definition sweepIdle : M unit :=
  let! now := Now in
  let! c := get_cache in
  sweep (now - ca_idleTTL c) (reverse (ca_lru c)).

(** One turn of [Start]'s loop: nothing when idle eviction is disabled. *)
Definition janitor_turn : M unit :=
  let! c := get_cache in
  if ca_idleTTL c <=? 0 then ret tt else sweepIdle.

(** ** rebuild *)

Record scanned := mkScanned { sc_id : uuid; sc_size : Z; sc_mod : time }.

(** One round of the insertion sort: the prefix sorted so far is held newest first. *)
Fixpoint sink (x : scanned) (acc : list scanned) : list scanned :=
  match acc with
  | y :: t => if sc_mod x <? sc_mod y then y :: sink x t else x :: acc
  | [] => [x]
  end.

Definition oldest_first (found : list scanned) : list scanned :=
  reverse (foldl (λ acc x, sink x acc) [] found).

(** The directory listing, by file name; a file whose [Info] fails is skipped. *)
Fixpoint scan (l : list (uuid * (bytes * time))) : M (list scanned) :=
  match l with
  | [] => ret []
  | (id, (data, mtime)) :: rest =>
      let! ok := io_ok in
      let! found := scan rest in
      ret (if ok then mkScanned id (blen data) mtime :: found else found)
  end.

Definition add_scanned (c : Cache) (s : scanned) : Cache :=
  set_next (S (ca_next c))
    (set_entries (<[sc_id s := mkCacheEntry (ca_next c) (sc_size s) (sc_mod s)]> (ca_index c))
      (sc_id s :: ca_lru c) (wrap64 (ca_total c + sc_size s)) c).

Definition listing (c : Cache) : list (uuid * (bytes * time)) :=
  sort_by_str (λ f, env_uuid_string f.1) (map_to_list (ca_files c)).

(** [New] on an existing directory: the index is emptied and rebuilt. *)
Definition rebuild : M unit :=
  let! ok := io_ok in
  if negb ok then fail ErrIo else
  let! c := get_cache in
  let! found := scan (listing c) in
  do! upd_cache (λ c, foldl add_scanned (set_entries ∅ [] 0 c) (oldest_first found)) in
  evictLocked.

(** [New]: the directory is made and made private, and what it holds is indexed. *)
Definition cache_New (maxBytes idleTTL : Z) : M unit :=
  let! made := io_ok in
  if negb made then fail ErrIo else
  let! private := io_ok in
  if negb private then fail ErrIo else
  do! upd_cache (λ c, mkCache maxBytes idleTTL ∅ [] 0 (ca_files c) O) in
  rebuild.

(** ** Interleavings *)

(** Where a call is between two critical sections. *)
Inductive pending :=
  | GetRead (id : uuid) (e : CacheEntry)          (* found in the index, file not read *)
  | GetHit (id : uuid) (e : CacheEntry) (data : bytes)
  | GetDrop (id : uuid) (e : CacheEntry)
  | PutIndex (id : uuid) (data : bytes).          (* file in place, index not updated *)

(** What the callers of [Put] put. *)
Context (allowed : uuid → bytes → Prop).

(** A step of one of the calls in flight, of the janitor, or of the directory. *)
Inductive cstep : World * list pending → World * list pending → Prop :=
  | CGetLookup w p id e w' : get_lookup id w = (Ok (Some e), w') → cstep (w, p) (w', GetRead id e :: p)
  | CGetRead w p q id e data w' : get_read id w = (Ok data, w') →
      cstep (w, p ++ GetRead id e :: q) (w', p ++ GetHit id e data :: q)
  | CGetMiss w p q id e err w' : get_read id w = (Err err, w') →
      cstep (w, p ++ GetRead id e :: q) (w', p ++ GetDrop id e :: q)
  | CGetHit w p q id e data x w' : get_hit id e w = (x, w') →
      cstep (w, p ++ GetHit id e data :: q) (w', p ++ q)
  | CGetDrop w p q id e x w' : get_drop id e w = (x, w') →
      cstep (w, p ++ GetDrop id e :: q) (w', p ++ q)
  | CPutFile w p id data w' : allowed id data → put_file id data w = (Ok tt, w') →
      cstep (w, p) (w', PutIndex id data :: p)
  | COther w p w' : w_cache w' = w_cache w → cstep (w, p) (w', p)
  | CPutIndex w p q id data x w' : put_index id (blen data) w = (x, w') →
      cstep (w, p ++ PutIndex id data :: q) (w', p ++ q)
  | CRemove w p id x w' : cache_Remove id w = (x, w') → cstep (w, p) (w', p)
  | CSweep w p x w' : janitor_turn w = (x, w') → cstep (w, p) (w', p)
  | CVanish w p id : cstep (w, p) (set_cache (set_files (delete id (ca_files (w_cache w))) (w_cache w)) w, p).

End cache.
