(* ===== verification/CacheKeeps.v ===== *)
(** * What the calls of the cache leave of a world

    No table is touched, and the directory gets no other bytes than those put. *)
From Stdlib Require Import ZArith Lia Strings.Byte Strings.String.
From stdpp Require Import base tactics list gmap sets sorting strings.
From S2P Require Import Prelude Model Sql SqlFacts World Keeps Repository Cache.
#[local] Open Scope Z_scope.
Open Scope m_scope.

Section cache.
Context {E : Env} (R : relation Db) `{!PreOrder R}.

Lemma leaves_upd_cache f : (∀ c, ca_files (f c) ⊆ ca_files c) → Keeps (leaves R) (upd_cache f).
Proof.
  intros Hf w x w' [= _ <-]. split; [done|done|]. intros b data t Hb. exists t. eapply lookup_weaken; [exact Hb|apply Hf].
Qed.

Lemma add_scanned_files l c : ca_files (foldl add_scanned c l) = ca_files c.
Proof. revert c. induction l as [|s l IH]; intros c; [done|]. cbn [foldl]. by rewrite IH. Qed.

Lemma leaves_removeLocked id e : Keeps (leaves R) (removeLocked id e).
Proof.
  unfold removeLocked. apply (Keeps_bind _); [auto with keeps|]. intros ok. apply leaves_upd_cache.
  intros c. unfold drop_entry. destruct ok; [apply delete_subseteq|done].
Qed.
Hint Resolve leaves_removeLocked : keeps.
Lemma leaves_evict fuel : Keeps (leaves R) (evict fuel).
Proof. induction fuel as [|k IH]; cbn [evict]; unfold get_cache; keeps_auto. Qed.
Hint Resolve leaves_evict : keeps.
Lemma leaves_sweep cutoff l : Keeps (leaves R) (sweep cutoff l).
Proof. induction l as [|id l IH]; cbn [sweep]; unfold get_cache; keeps_auto. Qed.
Hint Resolve leaves_sweep : keeps.
Lemma leaves_janitor : Keeps (leaves R) janitor_turn.
Proof. unfold janitor_turn, sweepIdle, get_cache. keeps_auto. Qed.
Lemma leaves_scan l : Keeps (leaves R) (scan l).
Proof. induction l as [|[id [data mtime]] l IH]; cbn [scan]; keeps_auto. Qed.
Hint Resolve leaves_scan : keeps.
Lemma leaves_New maxBytes ttl : Keeps (leaves R) (cache_New maxBytes ttl).
Proof.
  assert (Keeps (leaves R) (upd_cache (λ c, mkCache maxBytes ttl ∅ [] 0 (ca_files c) 0%nat))) as H1 by by apply leaves_upd_cache.
  assert (∀ found, Keeps (leaves R) (upd_cache (λ c, foldl add_scanned (set_entries ∅ [] 0 c) found))) as H2
    by (intros found; apply leaves_upd_cache; intros c; by rewrite add_scanned_files).
  unfold cache_New, rebuild, evictLocked, get_cache. keeps_auto.
Qed.
Lemma leaves_Get id : Keeps (leaves R) (cache_Get id).
Proof.
  assert (∀ e now, Keeps (leaves R) (upd_cache (index_touch id e now))) as Ht by by intros e now; apply leaves_upd_cache.
  unfold cache_Get, get_lookup, get_read, get_drop, get_hit, get_cache. keeps_auto.
Qed.
Lemma index_put_files id size now c : ca_files (index_put id size now c) = ca_files c.
Proof. unfold index_put. by destruct (ca_index c !! id). Qed.
Lemma leaves_put_index id size : Keeps (leaves R) (put_index id size).
Proof.
  assert (∀ now, Keeps (leaves R) (upd_cache (index_put id size now))) as Hp
    by (intros now; apply leaves_upd_cache; intros c; by rewrite index_put_files).
  unfold put_index, evictLocked, get_cache. keeps_auto.
Qed.

End cache.

(** ** The bytes that are served and added *)

Section bytes.
Context {E : Env}.

Lemma get_read_Ok id w data w' : get_read id w = (Ok data, w') →
  w_cache w' = w_cache w ∧ ∃ t, ca_files (w_cache w) !! id = Some (data, t).
Proof.
  unfold get_read, io_ok, get_cache, gets, bind. destruct (ca_files _ !! id) as [[d t]|] eqn:Hf; [|done].
  destruct (negb _); [|done]. intros [= <- <-]. split; [done|]. by exists t.
Qed.

(** A hit returns bytes of the directory. *)
Lemma Get_bytes id w data w' : cache_Get id w = (Ok (Some data), w') → ∃ t, ca_files (w_cache w) !! id = Some (data, t).
Proof.
  unfold cache_Get. intros (e & w1 & H1 & H)%bind_Ok. injection H1 as <- <-. destruct (ca_index _ !! id) as [e|]; [|done].
  rewrite try_run in H. destruct (get_read id w) as [[d|err] w1] eqn:Hr; cbn [fst snd] in H.
  - apply bind_Ok in H as (u & w2 & _ & H). injection H as <- _. by apply get_read_Ok in Hr as [_ ?].
  - by apply bind_Ok in H as (u & w2 & _ & H).
Qed.

Lemma put_file_files id data w r w' : put_file id data w = (r, w') →
  ∀ x b t, ca_files (w_cache w') !! x = Some (b, t) → (x = id ∧ b = data) ∨ ca_files (w_cache w) !! x = Some (b, t).
Proof.
  unfold put_file, io_ok, Now, upd_cache, modify, bind, fail. simpl. intros H x b t Hx.
  repeat (destruct (env_io_fault _); simpl in H; [injection H as _ <-; by right|]).
  injection H as _ <-. simpl in Hx. apply lookup_insert_Some in Hx as [[<- [= <- _]]|[_ Hx]]; [by left|by right].
Qed.

(** A put, whatever it returns: the only bytes added are the ones put. *)
Lemma Put_bytes id data w r w' : cache_Put id data w = (r, w') →
  ∀ x b t, ca_files (w_cache w') !! x = Some (b, t) → (x = id ∧ b = data) ∨ ∃ t', ca_files (w_cache w) !! x = Some (b, t').
Proof.
  unfold cache_Put. intros H x b t Hx.
  assert (∃ w1 r1, put_file id data w = (r1, w1) ∧ culled w1 w') as (w1 & r1 & Hf & Hc).
  { apply bind_cases in H as [(u & w1 & Hf & H)|(e & Hf & _)]; [|by eexists _, _].
    exists w1, (Ok u). split; [done|]. by apply (leaves_put_index whatever) in H as [_ _ ?]. }
  destruct (Hc x b t Hx) as [t1 Hx1]. destruct (put_file_files _ _ _ _ _ Hf x b t1 Hx1) as [?|?]; [by left|right; by exists t1].
Qed.

End bytes.
