(* ===== verification/CacheFacts.v ===== *)
(** * The disk cache: its invariant, its bound and what it serves

    [cache_wf] holds in every state any interleaving of calls reaches; the total
    never exceeds the bound after a critical section; eviction takes the shortest
    suffix of the LRU list that suffices; bytes served were put. *)
From Stdlib Require Import ZArith Lia Strings.Byte Strings.String.
From stdpp Require Import base tactics list gmap sets sorting strings.
From S2P Require Import Prelude Model Sql SqlFacts World Cache.
#[local] Open Scope Z_scope.
Open Scope m_scope.

Definition size_at (i : gmap uuid CacheEntry) (id : uuid) : Z := from_option ce_size 0 (i !! id).
Definition total_of (i : gmap uuid CacheEntry) (l : list uuid) : Z := sum_list_with_Z (size_at i) l.

Record cache_wf (c : Cache) : Prop := {
  cw_dom : ∀ id, id ∈ ca_lru c ↔ is_Some (ca_index c !! id);
  cw_nodup : NoDup (ca_lru c);
  cw_total : ca_total c = total_of (ca_index c) (ca_lru c);
  cw_size : ∀ id e, ca_index c !! id = Some e → 0 ≤ ce_size e;
  cw_int : ca_total c ≤ max_int64 }.

(** Well formed and within its bound. *)
Definition cache_ok (c : Cache) : Prop :=
  cache_wf c ∧ 0 < ca_maxBytes c < 2 ^ 62 ∧ ca_total c ≤ ca_maxBytes c.

(** ** Sums over the list *)

Lemma elem_lru_remove id l x : x ∈ lru_remove id l ↔ x ∈ l ∧ x ≠ id.
Proof.
  unfold lru_remove. induction l as [|y l IH]; simpl; [set_solver|].
  destruct (N.eqb_spec y id); simpl; set_solver.
Qed.

Lemma NoDup_lru_remove id l : NoDup l → NoDup (lru_remove id l).
Proof.
  induction 1 as [|y l Hy Hl IH]; [constructor|]. unfold lru_remove in *. simpl.
  destruct (N.eqb_spec y id); simpl; [done|]. apply NoDup_cons. split; [|done].
  by intros [? _]%elem_lru_remove.
Qed.

Lemma lru_remove_notin id l : id ∉ l → lru_remove id l = l.
Proof.
  induction l as [|y l IH]; [done|]. intros [Hy Hl]%not_elem_of_cons. unfold lru_remove in *. simpl.
  destruct (N.eqb_spec y id); [congruence|]. simpl. by rewrite IH.
Qed.

Lemma lru_remove_last id l : id ∉ l → lru_remove id (l ++ [id]) = l.
Proof.
  intros H. unfold lru_remove. rewrite List.filter_app. simpl. rewrite N.eqb_refl. simpl.
  rewrite app_nil_r. by apply lru_remove_notin.
Qed.

Lemma total_ext i i' l : (∀ id, id ∈ l → i' !! id = i !! id) → total_of i' l = total_of i l.
Proof.
  intros H. induction l as [|x l IH]; [done|]. unfold total_of, sum_list_with_Z in *. simpl.
  unfold size_at at 1 3. rewrite H by set_solver. rewrite IH; [done|]. set_solver.
Qed.

Lemma total_remove i id l : NoDup l → id ∈ l → total_of i l = size_at i id + total_of i (lru_remove id l).
Proof.
  induction 1 as [|x l Hx Hl IH]; [by intros ?%not_elem_of_nil|]. intros [->|Hin]%elem_of_cons.
  - unfold lru_remove. simpl. rewrite N.eqb_refl. simpl. fold (lru_remove x l).
    by rewrite lru_remove_notin.
  - unfold lru_remove. simpl. destruct (N.eqb_spec x id) as [->|Hne]; [done|]. simpl.
    fold (lru_remove id l). unfold total_of, sum_list_with_Z in *. simpl. rewrite IH by done. lia.
Qed.

Lemma total_nonneg c : cache_wf c → ∀ l, 0 ≤ total_of (ca_index c) l.
Proof.
  intros Hc l. induction l as [|x l IH]; [done|]. unfold total_of, sum_list_with_Z in *. simpl.
  assert (0 ≤ size_at (ca_index c) x); [|lia]. unfold size_at.
  destruct (ca_index c !! x) as [e|] eqn:He; simpl; [by eapply cw_size|done].
Qed.

(** ** The pieces of the critical sections *)

Lemma drop_total id e u c : cache_wf c → ca_index c !! id = Some e →
  ca_total (drop_entry id e u c) = total_of (ca_index c) (lru_remove id (ca_lru c))
  ∧ ca_total c = ce_size e + ca_total (drop_entry id e u c).
Proof.
  intros Hc He. assert (id ∈ ca_lru c) as Hin by (apply (cw_dom _ Hc); by eexists).
  pose proof (total_remove (ca_index c) id _ (cw_nodup _ Hc) Hin) as Ht. unfold size_at in Ht. rewrite He in Ht.
  simpl in Ht. rewrite <- (cw_total _ Hc) in Ht. pose proof (total_nonneg _ Hc (lru_remove id (ca_lru c))).
  pose proof (cw_int _ Hc). pose proof (cw_size _ Hc _ _ He).
  assert (ca_total (drop_entry id e u c) = total_of (ca_index c) (lru_remove id (ca_lru c))); [|lia].
  destruct u; simpl; (rewrite wrap64_id by (int_lia));
    destruct (Z.ltb_spec (ca_total c - ce_size e) 0); lia.
Qed.

Lemma drop_wf id e u c : cache_wf c → ca_index c !! id = Some e → cache_wf (drop_entry id e u c).
Proof.
  intros Hc He. destruct (drop_total id e u c Hc He) as [Ht Hle]. pose proof (cw_size _ Hc _ _ He).
  pose proof (cw_int _ Hc).
  assert (ca_index (drop_entry id e u c) = delete id (ca_index c)) as Hi by by destruct u.
  assert (ca_lru (drop_entry id e u c) = lru_remove id (ca_lru c)) as Hl by by destruct u.
  split; rewrite ?Hi, ?Hl.
  - intros x. rewrite elem_lru_remove, (cw_dom _ Hc), lookup_delete_is_Some. naive_solver.
  - by apply NoDup_lru_remove, Hc.
  - rewrite Ht. symmetry. apply total_ext. intros x [_ Hx]%elem_lru_remove. by rewrite lookup_delete_ne.
  - intros x y [_ Hy]%lookup_delete_Some. by eapply cw_size.
  - lia.
Qed.

Lemma touch_wf id e now c : cache_wf c → ca_index c !! id = Some e → cache_wf (index_touch id e now c).
Proof.
  intros Hc He. assert (id ∈ ca_lru c) as Hin by (apply (cw_dom _ Hc); by eexists).
  split; simpl; unfold move_to_front; [| | | |apply Hc].
  - intros x. rewrite elem_of_cons, elem_lru_remove, (cw_dom _ Hc), lookup_insert_is_Some.
    destruct (decide (x = id)) as [->|]; naive_solver.
  - apply NoDup_cons. split; [by intros [_ ?]%elem_lru_remove|]. by apply NoDup_lru_remove, Hc.
  - rewrite (cw_total _ Hc), (total_remove _ id _ (cw_nodup _ Hc) Hin). unfold total_of at 2. simpl.
    unfold sum_list_with_Z at 1. simpl. f_equal; [unfold size_at; by rewrite lookup_insert_eq, He|].
    symmetry. apply total_ext. intros x [_ Hx]%elem_lru_remove. by rewrite lookup_insert_ne.
  - intros x y [[-> <-]|[_ Hy]]%lookup_insert_Some; [simpl; by eapply cw_size|by eapply cw_size].
Qed.

(** A put adds its size, or the difference to what it replaces. *)
Lemma put_wf id size now c : cache_wf c → 0 ≤ size → ca_total c + size ≤ max_int64 →
  cache_wf (index_put id size now c) ∧ ca_total (index_put id size now c) ≤ ca_total c + size.
Proof.
  intros Hc Hs Hmax. pose proof (total_nonneg _ Hc (ca_lru c)) as H0. rewrite <- (cw_total _ Hc) in H0.
  unfold index_put. destruct (ca_index c !! id) as [e|] eqn:He.
  - assert (id ∈ ca_lru c) as Hin by (apply (cw_dom _ Hc); by eexists). pose proof (cw_size _ Hc _ _ He) as He0.
    pose proof (total_remove (ca_index c) id _ (cw_nodup _ Hc) Hin) as Ht. unfold size_at in Ht. rewrite He in Ht.
    simpl in Ht. pose proof (total_nonneg _ Hc (lru_remove id (ca_lru c))). rewrite <- (cw_total _ Hc) in Ht.
    assert (wrap64 (ca_total c + wrap64 (size - ce_size e)) = ca_total c + (size - ce_size e)) as Hw.
    { rewrite (wrap64_id (size - ce_size e)) by (int_lia).
      apply wrap64_id. int_lia. }
    split; [|simpl; lia]. split; simpl; unfold move_to_front.
    + intros x. rewrite elem_of_cons, elem_lru_remove, (cw_dom _ Hc), lookup_insert_is_Some.
      destruct (decide (x = id)) as [->|]; naive_solver.
    + apply NoDup_cons. split; [by intros [_ ?]%elem_lru_remove|]. by apply NoDup_lru_remove, Hc.
    + rewrite Hw. unfold total_of, sum_list_with_Z. simpl. unfold size_at at 1. rewrite lookup_insert_eq. simpl.
      fold (sum_list_with_Z (size_at (<[id:=mkCacheEntry (ce_ptr e) size now]> (ca_index c))) (lru_remove id (ca_lru c))).
      fold (total_of (<[id:=mkCacheEntry (ce_ptr e) size now]> (ca_index c)) (lru_remove id (ca_lru c))).
      rewrite (total_ext (ca_index c)); [lia|]. intros x [_ Hx]%elem_lru_remove. by rewrite lookup_insert_ne.
    + intros x y [[-> <-]|[_ Hy]]%lookup_insert_Some; [done|by eapply cw_size].
    + lia.
  - assert (id ∉ ca_lru c) as Hin by (rewrite (cw_dom _ Hc), He; by intros []).
    assert (wrap64 (ca_total c + size) = ca_total c + size) as Hw
      by (apply wrap64_id; int_lia).
    split; [|simpl; lia]. split; simpl.
    + intros x. rewrite elem_of_cons, (cw_dom _ Hc), lookup_insert_is_Some.
      destruct (decide (x = id)) as [->|]; naive_solver.
    + apply NoDup_cons. split; [done|]. apply Hc.
    + rewrite Hw. unfold total_of, sum_list_with_Z. simpl. unfold size_at at 1. rewrite lookup_insert_eq. simpl.
      fold (sum_list_with_Z (size_at (<[id:=mkCacheEntry (ca_next c) size now]> (ca_index c))) (ca_lru c)).
      fold (total_of (<[id:=mkCacheEntry (ca_next c) size now]> (ca_index c)) (ca_lru c)).
      rewrite (total_ext (ca_index c)), (cw_total _ Hc); [lia|]. intros x Hx. rewrite lookup_insert_ne; [done|]. by intros ->.
    + intros x y [[-> <-]|[_ Hy]]%lookup_insert_Some; [done|by eapply cw_size].
    + lia.
Qed.

Lemma wf_files f c : cache_wf c → cache_wf (set_files f c).
Proof. intros []. by split. Qed.

(** ** Removing and evicting *)

Section removing.
Context {E : Env}.

(** Entries removed, everything else left. *)
Record shrunk (l2 : list uuid) (c c' : Cache) : Prop := {
  sh_wf : cache_wf c';
  sh_max : ca_maxBytes c' = ca_maxBytes c ∧ ca_idleTTL c' = ca_idleTTL c;
  sh_lru : ca_lru c = (ca_lru c' ++ l2)%list;
  sh_index : ∀ id, ca_index c' !! id = if decide (id ∈ l2) then None else ca_index c !! id;
  sh_files : ∀ id, id ∉ l2 → ca_files c' !! id = ca_files c !! id;
  sh_sub : ca_files c' ⊆ ca_files c }.

Lemma shrunk_refl c : cache_wf c → shrunk [] c c.
Proof.
  intros Hc. split; try done. by rewrite app_nil_r.
Qed.

Lemma shrunk_trans l1 l2 c1 c2 c3 : shrunk l1 c1 c2 → shrunk l2 c2 c3 → shrunk (l2 ++ l1) c1 c3.
Proof.
  intros H1 H2. split.
  - apply H2.
  - destruct (sh_max _ _ _ H1), (sh_max _ _ _ H2). split; congruence.
  - rewrite (sh_lru _ _ _ H1), (sh_lru _ _ _ H2). by rewrite <- app_assoc.
  - intros id. rewrite (sh_index _ _ _ H2), (sh_index _ _ _ H1).
    repeat case_decide; try done; set_solver.
  - intros id [Hn2 Hn1]%not_elem_of_app. rewrite (sh_files _ _ _ H2) by done. by apply (sh_files _ _ _ H1).
  - etrans; [apply (sh_sub _ _ _ H2)|apply (sh_sub _ _ _ H1)].
Qed.

Lemma removeLocked_run id e w : ∃ u, removeLocked id e w
  = (Ok tt, set_cache (drop_entry id e u (w_cache w)) (tick w)).
Proof. unfold removeLocked, io_ok, bind, upd_cache, modify. simpl. by eexists. Qed.

Lemma drop_last id e u c l : cache_wf c → ca_lru c = (l ++ [id])%list → ca_index c !! id = Some e →
  shrunk [id] c (drop_entry id e u c).
Proof.
  intros Hc Hl He. pose proof (cw_nodup _ Hc) as Hnd. rewrite Hl in Hnd. apply NoDup_app in Hnd as (_ & Hx & _).
  assert (id ∉ l) as Hnin by (intros Hin; apply (Hx _ Hin); by left).
  split.
  - by apply drop_wf.
  - by destruct u.
  - assert (ca_lru (drop_entry id e u c) = lru_remove id (ca_lru c)) as -> by by destruct u.
    rewrite Hl, lru_remove_last by done. done.
  - intros x. assert (ca_index (drop_entry id e u c) = delete id (ca_index c)) as -> by by destruct u.
    case_decide as Hd; [apply list_elem_of_singleton in Hd as ->; by apply lookup_delete_eq|].
    apply lookup_delete_ne. intros ->. apply Hd. by left.
  - intros x Hx'. destruct u; [|done]. simpl. apply lookup_delete_ne. intros ->. apply Hx'. by left.
  - destruct u; [|done]. simpl. apply delete_subseteq.
Qed.

(** Eviction removes the shortest suffix of the LRU list that brings the total
    within the bound. *)
Definition evicted (c c' : Cache) : Prop := ∃ l2, shrunk l2 c c' ∧ ca_total c' ≤ ca_maxBytes c
  ∧ (∀ id l3, l2 = id :: l3 → ca_maxBytes c < ca_total c' + size_at (ca_index c) id).

Lemma evict_run fuel w : cache_wf (w_cache w) → 0 ≤ ca_maxBytes (w_cache w) →
  (length (ca_lru (w_cache w)) ≤ fuel)%nat →
  ∃ w', evict fuel w = (Ok tt, w') ∧ evicted (w_cache w) (w_cache w') ∧ w_db w' = w_db w ∧ w_tx w' = w_tx w.
Proof.
  revert w. induction fuel as [|k IH]; intros w Hc Hmax Hf.
  - assert (ca_lru (w_cache w) = []) as Hl by (apply nil_length_inv; lia).
    assert (ca_total (w_cache w) = 0) as Ht by (by rewrite (cw_total _ Hc), Hl).
    exists w. split; [|split; [|done]].
    + unfold evict, get_cache, gets, bind. destruct (Z.leb_spec (ca_total (w_cache w)) (ca_maxBytes (w_cache w))); [done|lia].
    + exists []. split; [by apply shrunk_refl|]. split; [lia|done].
  - simpl. unfold get_cache, gets, bind at 1.
    destruct (Z.leb_spec (ca_total (w_cache w)) (ca_maxBytes (w_cache w))) as [Hle|Hgt].
    { exists w. split; [done|]. split; [|done]. exists []. split; [by apply shrunk_refl|]. by split. }
    destruct (last (ca_lru (w_cache w))) as [id|] eqn:Hlast.
    2: { apply last_None in Hlast. exfalso. rewrite (cw_total _ Hc), Hlast in Hgt. unfold total_of in Hgt. simpl in Hgt. lia. }
    apply last_Some in Hlast as [l Hl].
    assert (is_Some (ca_index (w_cache w) !! id)) as [e He]
      by (apply (cw_dom _ Hc); rewrite Hl; apply elem_of_app; right; by left).
    rewrite He. destruct (removeLocked_run id e w) as [u Hr]. unfold bind at 1. rewrite Hr.
    pose proof (drop_last id e u _ l Hc Hl He) as Hsh.
    destruct (IH (set_cache (drop_entry id e u (w_cache w)) (tick w))) as (w' & Hrun & (l2 & Hsh2 & Hle2 & Hmin) & Hdb & Htx).
    { apply Hsh. } { by destruct u. }
    { simpl. pose proof (sh_lru _ _ _ Hsh) as Hll. apply (f_equal length) in Hll. rewrite length_app in Hll.
      simpl in *. lia. }
    exists w'. split; [done|]. split; [|done]. exists (l2 ++ [id])%list. cbn [w_cache set_cache] in *.
    destruct (sh_max _ _ _ Hsh) as [Hmx _]. rewrite Hmx in Hle2, Hmin.
    split; [by eapply shrunk_trans|]. split; [done|]. intros x l3 Hx.
    destruct l2 as [|y l2]; simpl in Hx; injection Hx as -> _.
    + destruct (drop_total x e u _ Hc He) as [_ Ht]. unfold size_at. rewrite He. simpl.
      assert (ca_lru (w_cache w') = ca_lru (drop_entry x e u (w_cache w))) as Hl'
        by (rewrite (sh_lru _ _ _ Hsh2); by rewrite app_nil_r).
      assert (ca_total (w_cache w') = ca_total (drop_entry x e u (w_cache w))) as ->; [|lia].
      rewrite (cw_total _ (sh_wf _ _ _ Hsh2)), (cw_total _ (sh_wf _ _ _ Hsh)), Hl'.
      apply total_ext. intros z Hz. rewrite (sh_index _ _ _ Hsh2). by rewrite decide_False by apply not_elem_of_nil.
    + specialize (Hmin x l2 eq_refl). unfold size_at in *.
      assert (x ≠ id) as Hne.
      { intros ->. pose proof (sh_lru _ _ _ Hsh) as Hll. pose proof (cw_nodup _ Hc) as Hnd. rewrite Hll in Hnd.
        rewrite (sh_lru _ _ _ Hsh2) in Hnd. apply NoDup_app in Hnd as (_ & Hx & _).
        apply (Hx id); [|by left]. apply elem_of_app. right. by left. }
      rewrite (sh_index _ _ _ Hsh) in Hmin. by rewrite decide_False in Hmin by (by intros ->%list_elem_of_singleton).
Qed.

Lemma evictLocked_run w : cache_wf (w_cache w) → 0 < ca_maxBytes (w_cache w) →
  ∃ w', evictLocked w = (Ok tt, w') ∧ evicted (w_cache w) (w_cache w') ∧ w_db w' = w_db w ∧ w_tx w' = w_tx w.
Proof.
  intros Hc Hmax. unfold evictLocked, get_cache, gets, bind at 1.
  destruct (Z.leb_spec (ca_maxBytes (w_cache w)) 0); [lia|]. apply evict_run; [done|lia|done].
Qed.

End removing.

(** ** The critical sections *)

Section sections.
Context {E : Env}.

(** Nothing added. *)
Record lessened (c c' : Cache) : Prop := {
  le_wf : cache_wf c';
  le_max : ca_maxBytes c' = ca_maxBytes c ∧ ca_idleTTL c' = ca_idleTTL c;
  le_total : ca_total c' ≤ ca_total c;
  le_files : ca_files c' ⊆ ca_files c }.

Lemma lessened_refl c : cache_wf c → lessened c c.
Proof. by split. Qed.

Lemma lessened_trans c1 c2 c3 : lessened c1 c2 → lessened c2 c3 → lessened c1 c3.
Proof.
  intros [W1 [M1 I1] T1 F1] [W2 [M2 I2] T2 F2]. split; [done| |lia|by etrans]. split; congruence.
Qed.

Lemma removeLocked_lessened id e w x w' : cache_wf (w_cache w) → ca_index (w_cache w) !! id = Some e →
  removeLocked id e w = (x, w') → lessened (w_cache w) (w_cache w').
Proof.
  intros Hc He H. destruct (removeLocked_run id e w) as [u Hr]. rewrite Hr in H. injection H as _ <-.
  destruct (drop_total id e u _ Hc He) as [_ Ht]. pose proof (cw_size _ Hc _ _ He). split.
  - by apply drop_wf.
  - by destruct u.
  - change (w_cache (set_cache ?c ?v)) with c. lia.
  - destruct u; simpl; [apply delete_subseteq|done].
Qed.

Lemma get_read_cache id w r w' : get_read id w = (r, w') → w_cache w' = w_cache w ∧ w_db w' = w_db w
  ∧ w_tx w' = w_tx w ∧ ∀ data, r = Ok data → ∃ t, ca_files (w_cache w) !! id = Some (data, t).
Proof.
  unfold get_read, io_ok, get_cache, gets, bind. simpl.
  destruct (ca_files (w_cache w) !! id) as [[data t]|]; [destruct (env_io_fault _); simpl|];
    intros [= <- <-]; split_and!; try done; intros d [=]; subst; by eexists.
Qed.

Lemma get_drop_lessened id e w x w' : cache_wf (w_cache w) → get_drop id e w = (x, w') →
  lessened (w_cache w) (w_cache w').
Proof.
  intros Hc H. unfold get_drop, get_cache, gets, bind in H.
  destruct (ca_index (w_cache w) !! id) as [cur|] eqn:Hcur; [destruct (same_entry _ _)|];
    [|injection H as _ <-; by apply lessened_refl..]. by eapply removeLocked_lessened.
Qed.

Lemma get_hit_touched id e w x w' : cache_wf (w_cache w) → get_hit id e w = (x, w') →
  lessened (w_cache w) (w_cache w').
Proof.
  intros Hc H. unfold get_hit, get_cache, gets, bind at 1 in H.
  destruct (ca_index (w_cache w) !! id) as [cur|] eqn:Hcur; [destruct (same_entry _ _)|];
    [|injection H as _ <-; by apply lessened_refl..].
  unfold Now, bind, upd_cache, modify in H. injection H as _ <-. simpl. split; [by apply touch_wf|done..].
Qed.

Lemma Remove_lessened id w x w' : cache_wf (w_cache w) → cache_Remove id w = (x, w') →
  lessened (w_cache w) (w_cache w').
Proof.
  intros Hc H. unfold cache_Remove, get_cache, gets, bind in H.
  destruct (ca_index (w_cache w) !! id) as [e|] eqn:He; [by eapply removeLocked_lessened|].
  injection H as _ <-. by apply lessened_refl.
Qed.

Lemma sweep_lessened cutoff l w x w' : cache_wf (w_cache w) → sweep cutoff l w = (x, w') →
  lessened (w_cache w) (w_cache w').
Proof.
  revert w. induction l as [|id l IH]; intros w Hc H; simpl in H.
  { injection H as _ <-. by apply lessened_refl. }
  unfold get_cache, gets, bind at 1 in H.
  destruct (ca_index (w_cache w) !! id) as [e|] eqn:He; [|injection H as _ <-; by apply lessened_refl].
  destruct (_ <? _); [|injection H as _ <-; by apply lessened_refl].
  unfold bind in H. destruct (removeLocked id e w) as [r w1] eqn:Hr.
  pose proof (removeLocked_lessened _ _ _ _ _ Hc He Hr) as Hl.
  destruct (removeLocked_run id e w) as [u Hr']. rewrite Hr' in Hr. injection Hr as <- <-.
  eapply lessened_trans; [exact Hl|]. eapply IH; [apply Hl|exact H].
Qed.

Lemma janitor_lessened w x w' : cache_wf (w_cache w) → janitor_turn w = (x, w') →
  lessened (w_cache w) (w_cache w').
Proof.
  intros Hc H. unfold janitor_turn, get_cache, gets, bind at 1 in H.
  destruct (_ <=? _); [injection H as _ <-; by apply lessened_refl|].
  by apply (sweep_lessened _ _ (tick w)) in H.
Qed.

Lemma put_file_Ok id data w x w' : put_file id data w = (Ok x, w') →
  w_db w' = w_db w ∧ w_tx w' = w_tx w ∧
  ∃ t, w_cache w' = set_files (<[id := (data, t)]> (ca_files (w_cache w))) (w_cache w).
Proof.
  unfold put_file, io_ok, Now, upd_cache, modify, bind. simpl.
  repeat (destruct (env_io_fault _); simpl; [done|]). intros [= _ <-]. simpl. split_and!; try done. by eexists.
Qed.

Lemma evicted_lessened c c' : cache_wf c → evicted c c' → lessened c c'.
Proof.
  intros Hc (l2 & [Hwf Hmax Hl Hi Hf Hsub] & _ & _). split; [done..| |done].
  rewrite (cw_total _ Hwf), (cw_total _ Hc), Hl. unfold total_of.
  assert (∀ a b, sum_list_with_Z (size_at (ca_index c)) (a ++ b)
    = sum_list_with_Z (size_at (ca_index c)) a + sum_list_with_Z (size_at (ca_index c)) b) as ->.
  { intros a b. induction a as [|y a IH]; [done|]. unfold sum_list_with_Z in *. simpl. lia. }
  pose proof (total_nonneg _ Hc l2). unfold total_of in *.
  assert (sum_list_with_Z (size_at (ca_index c')) (ca_lru c') = sum_list_with_Z (size_at (ca_index c)) (ca_lru c')) as ->; [|lia].
  apply total_ext. intros id Hin. rewrite Hi, decide_False; [done|]. intros Hx.
  pose proof (cw_nodup _ Hc) as Hnd. rewrite Hl in Hnd. apply NoDup_app in Hnd as (_ & Hd & _). by apply (Hd id).
Qed.

(** Updating the index never fails and leaves the cache within its bound. *)
Lemma put_index_run id size w : cache_ok (w_cache w) → 0 ≤ size < 2 ^ 62 →
  ∃ w' c, put_index id size w = (Ok tt, w') ∧ cache_ok (w_cache w') ∧ evicted c (w_cache w')
    ∧ c = index_put id size (env_now (w_step w)) (w_cache w)
    ∧ w_db w' = w_db w ∧ w_tx w' = w_tx w.
Proof.
  intros (Hc & Hmax & Ht) Hs. unfold put_index, Now, upd_cache, modify, bind at 1 2.
  set (c := index_put id size (env_now (w_step w)) (w_cache w)).
  assert (cache_wf c ∧ ca_total c ≤ ca_total (w_cache w) + size) as [Hwf Htot]
    by (apply put_wf; [done|lia|unfold max_int64; lia]).
  assert (ca_maxBytes c = ca_maxBytes (w_cache w)) as Hm
    by (unfold c, index_put; by destruct (ca_index (w_cache w) !! id)).
  destruct (evictLocked_run (set_cache c (tick w))) as (w' & Hr & Hev & Hdb & Htx); [done|simpl; lia|].
  exists w', c. simpl in *. split; [done|]. split; [|done].
  destruct Hev as (l2 & Hsh & Hle & _). split; [apply Hsh|]. destruct (sh_max _ _ _ Hsh) as [-> _].
  rewrite Hm in *. by split.
Qed.

(** ** Interleavings *)

Context (allowed : uuid → bytes → Prop).

Definition pending_ok (q : pending) : Prop :=
  match q with GetHit id _ data | PutIndex id data => allowed id data | _ => True end.

(** The invariant of the shared state and the calls in flight. *)
Record conc_ok (s : World * list pending) : Prop := {
  cc_cache : cache_ok (w_cache s.1);
  cc_files : ∀ id data t, ca_files (w_cache s.1) !! id = Some (data, t) → allowed id data;
  cc_pending : Forall pending_ok s.2 }.

Lemma conc_lessened w p w' p' : conc_ok (w, p) → lessened (w_cache w) (w_cache w') →
  Forall pending_ok p' → conc_ok (w', p').
Proof.
  intros [(Hc & Hmax & Ht) Hf Hp] [Hwf [Hm _] Htot Hsub] Hp'. split; simpl in *; [|intros id data t Hx|done].
  - split; [done|]. rewrite Hm. split; [done|lia].
  - eapply Hf. by eapply lookup_weaken.
Qed.

Lemma cstep_ok s s' : (∀ id data, allowed id data → blen data < 2 ^ 62) →
  cstep allowed s s' → conc_ok s → conc_ok s'.
Proof.
  intros Hal Hst Hok. destruct Hst.
  - unfold get_lookup, gets in H. injection H as _ <-. destruct Hok. split; [done..|]. by constructor.
  - apply get_read_cache in H as (Hc & _ & _ & Hd). destruct (Hd data eq_refl) as [t Hf].
    destruct Hok as [Hk Hfi Hp]. simpl in *. split; simpl; [by rewrite Hc|by rewrite Hc|].
    apply Forall_app in Hp as [Hp Hq]. inversion Hq; subst. apply Forall_app. split; [done|].
    constructor; [by eapply Hfi|done].
  - apply get_read_cache in H as (Hc & _). destruct Hok as [Hk Hfi Hp]. simpl in *.
    split; simpl; [by rewrite Hc|by rewrite Hc|].
    apply Forall_app in Hp as [Hp Hq]. inversion Hq; subst. apply Forall_app. split; [done|]. by constructor.
  - pose proof (get_hit_touched _ _ _ _ _ (proj1 (cc_cache _ Hok)) H) as Hl.
    eapply conc_lessened; [exact Hok|exact Hl|]. pose proof (cc_pending _ Hok) as Hp. simpl in Hp.
    apply Forall_app in Hp as [Hp Hq]. inversion Hq; subst. by apply Forall_app.
  - pose proof (get_drop_lessened _ _ _ _ _ (proj1 (cc_cache _ Hok)) H) as Hl.
    eapply conc_lessened; [exact Hok|exact Hl|]. pose proof (cc_pending _ Hok) as Hp. simpl in Hp.
    apply Forall_app in Hp as [Hp Hq]. inversion Hq; subst. by apply Forall_app.
  - apply put_file_Ok in H0 as (_ & _ & t & Hc). destruct Hok as [(Hk & Hb) Hfi Hp]. simpl in *. split; simpl.
    + rewrite Hc. split; [by apply wf_files|done].
    + intros x dx tx. rewrite Hc. simpl. intros [[<- [= <- <-]]|[_ Hx]]%lookup_insert_Some; [done|]. by eapply Hfi.
    + by constructor.
  - destruct Hok as [Hk Hfi Hp]. simpl in *. split; simpl; by rewrite ?H.
  - destruct Hok as [Hk Hfi Hp]. simpl in *. apply Forall_app in Hp as [Hp Hq]. inversion Hq; subst.
    destruct (put_index_run id (blen data) w Hk) as (w2 & c & Hr & Hk2 & Hev & Hcdef & _).
    { split; [blen_lia|]. by apply (Hal id). }
    rewrite Hr in H. injection H as _ <-. split; simpl; [done| |by apply Forall_app].
    intros y dy ty Hy. destruct Hev as (l2 & Hsh & _). pose proof (lookup_weaken _ _ _ _ Hy (sh_sub _ _ _ Hsh)) as Hy2.
    eapply Hfi. rewrite Hcdef in Hy2. unfold index_put in Hy2. by destruct (ca_index (w_cache w) !! id).
  - pose proof (Remove_lessened _ _ _ _ (proj1 (cc_cache _ Hok)) H) as Hl.
    eapply conc_lessened; [exact Hok|exact Hl|apply Hok].
  - pose proof (janitor_lessened _ _ _ (proj1 (cc_cache _ Hok)) H) as Hl.
    eapply conc_lessened; [exact Hok|exact Hl|apply Hok].
  - destruct Hok as [(Hk & Hb) Hfi Hp]. simpl in *. split; simpl; [|intros x dx tx [_ Hx]%lookup_delete_Some; by eapply Hfi|done].
    split; [by apply wf_files|done].
Qed.

Lemma csteps_ok s s' : (∀ id data, allowed id data → blen data < 2 ^ 62) →
  rtc (cstep allowed) s s' → conc_ok s → conc_ok s'.
Proof. intros Hal. induction 1; [done|]. intros. eauto using cstep_ok. Qed.

End sections.

(** ** Put, then Get *)

(** Whatever the state of the cache, its operations leave the tables alone. *)
Section tables.
Context {E : Env}.

Lemma evict_db fuel w r w' : evict fuel w = (r, w') → w_db w' = w_db w ∧ w_tx w' = w_tx w.
Proof.
  revert w. induction fuel as [|k IH]; intros w; cbn [evict]; unfold get_cache, gets, bind at 1.
  - destruct (_ <=? _); [by intros [= <- <-]|]. destruct (last _); by intros [= <- <-].
  - destruct (_ <=? _); [by intros [= <- <-]|]. destruct (last _) as [id|]; [|by intros [= <- <-]].
    destruct (ca_index _ !! id) as [e|]; [|by intros [= <- <-]].
    destruct (removeLocked_run id e w) as [u Hr]. unfold bind. rewrite Hr. by intros []%IH.
Qed.

Lemma cache_Put_db id data w r w' : cache_Put id data w = (r, w') → w_db w' = w_db w ∧ w_tx w' = w_tx w.
Proof.
  unfold cache_Put, put_file, io_ok, upd_cache, modify, Now, bind, fail. cbn [negb].
  do 4 (destruct (env_io_fault _); cbn [negb]; [by intros [= <- <-]|]). unfold put_index, Now, upd_cache, modify, bind.
  unfold evictLocked, get_cache, gets, bind. destruct (_ <=? 0); [by intros [= <- <-]|]. by intros []%evict_db.
Qed.

Lemma cache_Get_db id w r w' : cache_Get id w = (r, w') → (∃ o, r = Ok o) ∧ w_db w' = w_db w ∧ w_tx w' = w_tx w.
Proof.
  unfold cache_Get, get_lookup, gets, bind at 1. destruct (ca_index _ !! id) as [e|]; [|intros [= <- <-]; by split; [eexists|]].
  rewrite try_run. assert (∃ x, get_read id w = (x, tick w)) as [x ->].
  { unfold get_read, io_ok, get_cache, gets, bind. destruct (ca_files _ !! id) as [[data t]|]; [|by eexists].
    destruct (negb _); by eexists. }
  cbn [fst snd]. destruct x as [data|err]; unfold get_hit, get_drop, get_cache, gets, bind; (destruct (ca_index _ !! id) as [cur|]; [|intros [= <- <-]; by split; [eexists|]]);
    (destruct (same_entry _ _); [|intros [= <- <-]; by split; [eexists|]]).
  - intros [= <- <-]. by split; [eexists|].
  - destruct (removeLocked_run id cur (tick w)) as [u ->]. intros [= <- <-]. by split; [eexists|].
Qed.

End tables.

(** A suffix without repetitions that has the head is all of the list. *)
Lemma front_of_tail {A} (x : A) l l1 l2 : NoDup (x :: l) → x :: l = (l1 ++ l2)%list → x ∈ l2 → l1 = [] ∧ l2 = x :: l.
Proof.
  intros Hnd He Hx. destruct l1 as [|y l1]; [done|]. exfalso. injection He as <- ->.
  apply NoDup_cons in Hnd as [Hnd _]. apply Hnd, elem_of_app. by right.
Qed.

(** The entry [index_put] makes. *)
Lemma put_entry id size now c : ∃ p, ca_index (index_put id size now c) !! id = Some (mkCacheEntry p size now).
Proof. unfold index_put. destruct (ca_index c !! id); simpl; rewrite lookup_insert_eq; by eexists. Qed.

(** What [index_put] leaves alone. *)
Lemma put_shape id size now c : cache_wf c →
  ca_lru (index_put id size now c) = move_to_front id (ca_lru c)
  ∧ (∀ x, x ≠ id → ca_index (index_put id size now c) !! x = ca_index c !! x)
  ∧ ca_files (index_put id size now c) = ca_files c
  ∧ ca_maxBytes (index_put id size now c) = ca_maxBytes c.
Proof.
  intros Hc. unfold index_put. destruct (ca_index c !! id) as [e|] eqn:He; simpl; split_and!; try done.
  - intros x Hx. by rewrite lookup_insert_ne.
  - unfold move_to_front. rewrite lru_remove_notin; [done|]. intros Hin%(cw_dom _ Hc). rewrite He in Hin. by destruct Hin.
  - intros x Hx. by rewrite lookup_insert_ne.
Qed.

Section serving.
Context {E : Env}.

Lemma evicted_keeps_front c c' id l : cache_wf c → ca_lru c = id :: l → evicted c c' →
  size_at (ca_index c) id ≤ ca_maxBytes c → 0 ≤ ca_maxBytes c →
  ca_index c' !! id = ca_index c !! id ∧ ca_files c' !! id = ca_files c !! id.
Proof.
  intros Hc Hl (l2 & Hsh & Hle & Hmin) Hs H0.
  assert (id ∉ l2) as Hn.
  { pose proof (sh_lru _ _ _ Hsh) as Hll. rewrite Hl in Hll.
    destruct (ca_lru c') as [|y l'] eqn:Hl'; simpl in Hll.
    - specialize (Hmin id l (eq_sym Hll)). rewrite (cw_total _ (sh_wf _ _ _ Hsh)), Hl' in Hmin.
      unfold total_of in Hmin. simpl in Hmin. lia.
    - injection Hll as <- ->. pose proof (cw_nodup _ Hc) as Hnd. rewrite Hl in Hnd.
      apply NoDup_cons in Hnd as [Hnd _]. set_solver. }
  split; [|by apply (sh_files _ _ _ Hsh)]. rewrite (sh_index _ _ _ Hsh). by rewrite decide_False.
Qed.

Lemma Put_Get id data w w' : cache_ok (w_cache w) → blen data ≤ ca_maxBytes (w_cache w) →
  cache_Put id data w = (Ok tt, w') →
  cache_ok (w_cache w') ∧ ∀ w2, w_cache w2 = w_cache w' → env_io_fault (w_step w2) = false →
    ∃ w3, cache_Get id w2 = (Ok (Some data), w3).
Proof.
  intros Hok Hlen H. unfold cache_Put in H. apply bind_Ok in H as ([] & w1 & Hf & H).
  apply put_file_Ok in Hf as (_ & _ & t & Hc1). pose proof Hok as (Hk & Hmax & Ht).
  assert (cache_ok (w_cache w1)) as Hok1 by (rewrite Hc1; split; [by apply wf_files|done]).
  destruct (put_index_run id (blen data) w1 Hok1) as (w1' & c & Hr & Hok' & Hev & Hc & _); [blen_lia|].
  rewrite Hr in H. injection H as <-. split; [done|]. intros w2 Hw2 Hio.
  assert (cache_wf c) as Hwf.
  { rewrite Hc. destruct Hok1 as (Hk1 & Hm1 & Ht1). apply put_wf; [done|blen_lia|].
    rewrite Hc1 in *. simpl in *. unfold max_int64. lia. }
  assert (∃ e l, ca_lru c = id :: l ∧ ca_index c !! id = Some e ∧ ce_size e = blen data
    ∧ ca_files c = ca_files (w_cache w1) ∧ ca_maxBytes c = ca_maxBytes (w_cache w)) as (e & l & Hl & He & Hse & Hfc & Hmc).
  { rewrite Hc, Hc1. unfold index_put. destruct (ca_index _ !! id); simpl;
      eexists _, _; rewrite lookup_insert_eq; by split_and!. }
  destruct (evicted_keeps_front c (w_cache w1') id l) as [Hi Hfi]; try done.
  { unfold size_at. rewrite He. simpl. lia. } { lia. }
  rewrite Hfc, Hc1 in Hfi. simpl in Hfi. rewrite lookup_insert_eq in Hfi. rewrite He in Hi.
  unfold cache_Get, get_lookup, gets, bind, try, get_read, io_ok, get_cache, bind. simpl.
  rewrite Hw2, Hi. simpl. rewrite Hw2, Hfi, Hio. simpl. unfold get_hit, get_cache, gets, bind. simpl.
  rewrite Hw2, Hi. simpl. rewrite Nat.eqb_refl. by eexists.
Qed.

Lemma get_hit_run id e w x w' : get_hit id e w = (x, w') →
  x = Ok tt ∧ w_db w' = w_db w ∧ w_tx w' = w_tx w.
Proof.
  unfold get_hit, get_cache, gets, bind.
  destruct (ca_index (w_cache w) !! id); [destruct (same_entry _ _)|]; by intros [= <- <-].
Qed.

Lemma get_drop_run id e w x w' : get_drop id e w = (x, w') →
  x = Ok tt ∧ w_db w' = w_db w ∧ w_tx w' = w_tx w.
Proof.
  unfold get_drop, get_cache, gets, bind.
  destruct (ca_index (w_cache w) !! id); [destruct (same_entry _ _)|]; by intros [= <- <-].
Qed.

(** A miss, or bytes that are in the directory. *)
Lemma Get_spec id w r w' : cache_wf (w_cache w) → cache_Get id w = (r, w') →
  lessened (w_cache w) (w_cache w') ∧ w_db w' = w_db w ∧ w_tx w' = w_tx w ∧
  ∃ o, r = Ok o ∧ ∀ data, o = Some data → ∃ t, ca_files (w_cache w) !! id = Some (data, t).
Proof.
  intros Hc H. unfold cache_Get, get_lookup, gets, bind at 1 in H. simpl in H.
  destruct (ca_index (w_cache w) !! id) as [e|] eqn:He.
  2: { injection H as <- <-. split; [by apply lessened_refl|]. split_and!; try done. by eexists. }
  rewrite try_run in H. destruct (get_read id w) as [d w1] eqn:Hr. simpl in H.
  apply get_read_cache in Hr as (Hc1 & Hdb1 & Htx1 & Hd). rewrite <- Hc1 in Hc.
  destruct d as [data|err].
  - unfold bind in H. destruct (get_hit id e w1) as [x w2] eqn:Hh.
    pose proof (get_hit_touched _ _ _ _ _ Hc Hh) as Hl.
    apply get_hit_run in Hh as (-> & Hdb & Htx).
    injection H as <- <-. rewrite <- Hc1. split_and!; [done|congruence|congruence|].
    eexists. split; [done|]. intros d' [= <-]. rewrite Hc1. by apply Hd.
  - unfold bind in H. destruct (get_drop id e w1) as [x w2] eqn:Hh.
    pose proof (get_drop_lessened _ _ _ _ _ Hc Hh) as Hl.
    apply get_drop_run in Hh as (-> & Hdb & Htx).
    injection H as <- <-. rewrite <- Hc1. split_and!; [done|congruence|congruence|]. by eexists.
Qed.

(** ** The janitor *)

Definition last_at (i : gmap uuid CacheEntry) (id : uuid) : time := from_option ce_lastAccess 0 (i !! id).

(** Most recently used first. *)
Definition recency_sorted (c : Cache) : Prop :=
  StronglySorted (λ a b, last_at (ca_index c) b ≤ last_at (ca_index c) a) (ca_lru c).

Definition recent (cutoff : time) (i : gmap uuid CacheEntry) (id : uuid) : bool :=
  negb (last_at i id <? cutoff).

Lemma filter_all {A} (P : A → bool) l : (∀ x, x ∈ l → P x = true) → List.filter P l = l.
Proof.
  induction l as [|x l IH]; intros H; [done|]. simpl. rewrite (H x) by by left. f_equal. apply IH.
  intros y Hy. apply H. by right.
Qed.

(** The walk from the back stops at the first recent entry; as the list is sorted,
    everything older is gone by then and everything else is kept. *)
Lemma sweep_exact cutoff l w : cache_wf (w_cache w) → recency_sorted (w_cache w) → ca_lru (w_cache w) = l →
  ∃ w' l2, sweep cutoff (reverse l) w = (Ok tt, w') ∧ shrunk l2 (w_cache w) (w_cache w')
    ∧ ca_lru (w_cache w') = List.filter (recent cutoff (ca_index (w_cache w))) l
    ∧ w_db w' = w_db w ∧ w_tx w' = w_tx w.
Proof.
  revert w. induction l as [|id l IH] using rev_ind; intros w Hc Hs Hl.
  { exists w, []. split; [done|]. split; [by apply shrunk_refl|]. by rewrite Hl. }
  rewrite reverse_app. simpl. unfold get_cache, gets, bind at 1.
  assert (is_Some (ca_index (w_cache w) !! id)) as [e He]
    by (apply (cw_dom _ Hc); rewrite Hl; apply elem_of_app; right; by left).
  rewrite He. rewrite List.filter_app. simpl.
  assert (recent cutoff (ca_index (w_cache w)) id = negb (ce_lastAccess e <? cutoff)) as Hrec
    by (unfold recent, last_at; by rewrite He). rewrite Hrec.
  destruct (Z.ltb_spec (ce_lastAccess e) cutoff) as [Hlt|Hge]; simpl.
  - destruct (removeLocked_run id e w) as [u Hr]. unfold bind at 1. rewrite Hr.
    pose proof (drop_last id e u _ l Hc Hl He) as Hsh.
    set (w1 := set_cache (drop_entry id e u (w_cache w)) (tick w)).
    assert (w_cache w1 = drop_entry id e u (w_cache w)) as Hw1 by done. rewrite <- Hw1 in Hsh.
    pose proof (sh_lru _ _ _ Hsh) as Hl1. rewrite Hl in Hl1. apply app_inj_tail in Hl1 as [Hl1 _].
    assert (∀ x, x ∈ l → ca_index (w_cache w1) !! x = ca_index (w_cache w) !! x) as Hsame.
    { intros x Hx. rewrite (sh_index _ _ _ Hsh), decide_False; [done|]. intros ->%list_elem_of_singleton.
      pose proof (cw_nodup _ Hc) as Hnd. rewrite Hl in Hnd. apply NoDup_app in Hnd as (_ & Hd & _).
      apply (Hd id Hx). by left. }
    destruct (IH w1) as (w' & l2 & Hrun & Hsh2 & Hl' & Hdb & Htx); [apply Hsh| |done|].
    { unfold recency_sorted in *. rewrite <- Hl1. rewrite Hl in Hs. apply StronglySorted_app_1_l in Hs.
      clear -Hs Hsame. induction Hs as [|x l Hs IH Hf]; [constructor|]. constructor.
      - apply IH. intros y Hy. apply Hsame. by right.
      - apply Forall_forall. intros y Hy. rewrite Forall_forall in Hf. unfold last_at in *.
        rewrite !Hsame by set_solver. by apply Hf. }
    exists w', (l2 ++ [id])%list. split; [done|]. split; [by eapply shrunk_trans|]. split; [|done].
    rewrite Hl', app_nil_r. apply List.filter_ext_in. intros x Hx%list_elem_of_In.
    unfold recent, last_at. by rewrite Hsame.
  - exists w, []. split; [done|]. split; [by apply shrunk_refl|]. split; [|done]. rewrite Hl. f_equal.
    symmetry. apply filter_all. intros x Hx. unfold recent.
    assert (ce_lastAccess e ≤ last_at (ca_index (w_cache w)) x) as Hle; [|apply negb_true_iff, Z.ltb_ge; lia].
    unfold recency_sorted in Hs. rewrite Hl in Hs. apply StronglySorted_app_1_elem_of with (x1 := x) (x2 := id) in Hs; [|done|by left].
    unfold last_at in Hs at 1. by rewrite He in Hs.
Qed.

End serving.

(** A new front that is the most recent entry keeps the list sorted. *)
Lemma front_sorted i i' id e l : StronglySorted (λ a b, last_at i b ≤ last_at i a) l →
  i' !! id = Some e → (∀ x, x ∈ lru_remove id l → i' !! x = i !! x) →
  (∀ x, x ∈ lru_remove id l → last_at i x ≤ ce_lastAccess e) →
  StronglySorted (λ a b, last_at i' b ≤ last_at i' a) (move_to_front id l).
Proof.
  intros Hs He Hsame Hle. unfold move_to_front. constructor.
  - induction Hs as [|x l Hs IH Hf]; [constructor|]. unfold lru_remove in *. simpl in *.
    destruct (N.eqb_spec x id) as [->|Hne]; simpl in *; [by apply IH|].
    constructor; [apply IH; intros; [apply Hsame|apply Hle]; by right|].
    apply Forall_forall. intros y Hy. rewrite Forall_forall in Hf. unfold last_at in *.
    rewrite (Hsame x), (Hsame y) by ((by left) || by right). apply Hf. by apply elem_lru_remove in Hy as [? _].
  - apply Forall_forall. intros y Hy. unfold last_at at 2. rewrite He. simpl. unfold last_at.
    rewrite Hsame by done. by apply Hle.
Qed.

(** Hits and puts keep the list sorted as long as the clock does not run backwards. *)
Lemma touch_sorted id e now c : cache_wf c → recency_sorted c → ca_index c !! id = Some e →
  (∀ x, last_at (ca_index c) x ≤ now) → recency_sorted (index_touch id e now c).
Proof.
  intros Hc Hs He Hnow. unfold recency_sorted, index_touch. simpl.
  eapply front_sorted; [exact Hs|by rewrite lookup_insert_eq| |done].
  intros x [_ Hx]%elem_lru_remove. by rewrite lookup_insert_ne.
Qed.

Lemma put_sorted id size now c : cache_wf c → recency_sorted c →
  (∀ x, last_at (ca_index c) x ≤ now) → recency_sorted (index_put id size now c).
Proof.
  intros Hc Hs Hnow. unfold recency_sorted, index_put. destruct (ca_index c !! id) as [e|] eqn:He; simpl.
  - eapply front_sorted; [exact Hs|by rewrite lookup_insert_eq| |done].
    intros x [_ Hx]%elem_lru_remove. by rewrite lookup_insert_ne.
  - assert (id ∉ ca_lru c) as Hin by (rewrite (cw_dom _ Hc), He; by intros []).
    rewrite <- (lru_remove_notin id (ca_lru c)) by done. fold (move_to_front id (ca_lru c)).
    eapply front_sorted; [exact Hs|by rewrite lookup_insert_eq| |done].
    intros x [_ Hx]%elem_lru_remove. by rewrite lookup_insert_ne.
Qed.

Lemma shrunk_sorted l2 c c' : cache_wf c → shrunk l2 c c' → recency_sorted c → recency_sorted c'.
Proof.
  intros Hc Hsh Hs. unfold recency_sorted in *. rewrite (sh_lru _ _ _ Hsh) in Hs.
  apply StronglySorted_app_1_l in Hs. pose proof (cw_nodup _ Hc) as Hnd. rewrite (sh_lru _ _ _ Hsh) in Hnd.
  apply NoDup_app in Hnd as (_ & Hd & _).
  assert (∀ x, x ∈ ca_lru c' → last_at (ca_index c') x = last_at (ca_index c) x) as Hsame.
  { intros x Hx. unfold last_at. rewrite (sh_index _ _ _ Hsh), decide_False; [done|]. by apply Hd. }
  clear -Hs Hsame. induction Hs as [|x l Hs IH Hf]; [constructor|]. constructor.
  - apply IH. intros y Hy. apply Hsame. by right.
  - rewrite Forall_forall in *. intros y Hy. rewrite !Hsame by ((by left) || by right). by apply Hf.
Qed.

(** ** rebuild *)

Lemma sink_perm x acc : sink x acc ≡ₚ x :: acc.
Proof.
  induction acc as [|y t IH]; [done|]. simpl. destruct (_ <? _); [|done].
  rewrite IH. apply perm_swap.
Qed.

Definition newest_first : list scanned → Prop := StronglySorted (λ a b, sc_mod b ≤ sc_mod a).

Lemma sink_sorted x acc : newest_first acc → newest_first (sink x acc).
Proof.
  induction 1 as [|y t Hs IH Hf]; [by repeat constructor|]. simpl.
  destruct (Z.ltb_spec (sc_mod x) (sc_mod y)).
  - constructor; [done|]. rewrite sink_perm. constructor; [lia|done].
  - constructor; [by constructor|]. constructor; [lia|]. eapply Forall_impl; [exact Hf|]. simpl. intros; lia.
Qed.

Lemma sort_scanned l : newest_first (foldl (λ acc x, sink x acc) [] l)
  ∧ foldl (λ acc x, sink x acc) [] l ≡ₚ l.
Proof.
  assert (∀ acc, newest_first acc → newest_first (foldl (λ acc x, sink x acc) acc l)
    ∧ foldl (λ acc x, sink x acc) acc l ≡ₚ acc ++ l) as H.
  { induction l as [|x l IH]; intros acc Ha; simpl; [by rewrite app_nil_r|].
    destruct (IH (sink x acc)) as [H1 H2]; [by apply sink_sorted|]. split; [done|].
    rewrite H2, sink_perm. simpl. apply Permutation_middle. }
  by apply (H []); constructor.
Qed.

(** The index built from the newest-first list of files. *)
Definition indexed (l : list scanned) (c : Cache) : Prop :=
  cache_wf c ∧ recency_sorted c ∧ ca_lru c = sc_id <$> l
  ∧ (∀ id e, ca_index c !! id = Some e → ∃ s, s ∈ l ∧ sc_id s = id ∧ ce_size e = sc_size s ∧ ce_lastAccess e = sc_mod s)
  ∧ ca_total c = sum_list_with_Z sc_size l.

Lemma add_scanned_ok l c s : indexed l c → newest_first (s :: l) → NoDup (sc_id <$> s :: l) →
  0 ≤ sc_size s → sum_list_with_Z sc_size (s :: l) ≤ max_int64 → indexed (s :: l) (add_scanned c s).
Proof.
  intros (Hc & Hs & Hl & Hi & Ht) Hsort Hnd Hsz Hmax. simpl in Hnd. apply NoDup_cons in Hnd as [Hnin Hnd].
  change (sc_id s ∉ sc_id <$> l) in Hnin. rewrite <- Hl in Hnin. assert (ca_index c !! sc_id s = None) as Hnone
    by (apply eq_None_not_Some; by rewrite <- (cw_dom _ Hc)).
  inversion Hsort as [|? ? _ Hf]; subst. unfold sum_list_with_Z in Hmax. simpl in Hmax.
  fold (sum_list_with_Z sc_size l) in Hmax. rewrite <- Ht in Hmax.
  assert (add_scanned c s = index_put (sc_id s) (sc_size s) (sc_mod s) c) as ->
    by (unfold add_scanned, index_put; by rewrite Hnone).
  split; [apply put_wf; [done|done|lia]|]. split; [|split; [|split]].
  - assert (∀ x, x ∈ ca_lru c → last_at (ca_index c) x ≤ sc_mod s) as Hle.
    { intros x Hx. unfold last_at. destruct (ca_index c !! x) as [e|] eqn:He; simpl.
      - destruct (Hi _ _ He) as (y & Hy & _ & _ & ->). rewrite Forall_forall in Hf. by apply Hf.
      - apply (cw_dom _ Hc) in Hx. rewrite He in Hx. by destruct Hx. }
    unfold recency_sorted, index_put. rewrite Hnone. simpl.
    rewrite <- (lru_remove_notin (sc_id s) (ca_lru c)) by done. fold (move_to_front (sc_id s) (ca_lru c)).
    eapply front_sorted; [exact Hs|by rewrite lookup_insert_eq| |].
    + intros x [_ Hx]%elem_lru_remove. by rewrite lookup_insert_ne.
    + intros x [Hx _]%elem_lru_remove. by apply Hle.
  - unfold index_put. rewrite Hnone. simpl. by rewrite Hl.
  - unfold index_put. rewrite Hnone. simpl. intros id e [[<- <-]|[_ He]]%lookup_insert_Some.
    + exists s. split; [by left|done].
    + destruct (Hi _ _ He) as (y & Hy & ?). exists y. split; [by right|done].
  - unfold index_put. rewrite Hnone. simpl. pose proof (total_nonneg _ Hc (ca_lru c)).
    rewrite <- (cw_total _ Hc) in *. rewrite wrap64_id by (int_lia). rewrite Ht.
    unfold sum_list_with_Z. simpl. lia.
Qed.

Lemma add_all_ok l c : newest_first l → NoDup (sc_id <$> l) → Forall (λ s, 0 ≤ sc_size s) l →
  sum_list_with_Z sc_size l ≤ max_int64 → indexed [] c →
  indexed l (foldl add_scanned c (reverse l)).
Proof.
  induction l as [|s l IH]; intros Hs Hnd Hsz Hmax Hc; [done|].
  rewrite reverse_cons, foldl_app. simpl. inversion Hsz; subst.
  assert (0 ≤ sum_list_with_Z sc_size l).
  { clear -H2. induction H2; [done|]. unfold sum_list_with_Z in *. simpl. lia. }
  apply add_scanned_ok; try done. apply IH; try done.
  - by inversion Hs.
  - by apply NoDup_cons in Hnd as [_ ?].
  - unfold sum_list_with_Z in *. simpl in Hmax. lia.
Qed.

Section rebuilding.
Context {E : Env}.

Lemma scan_run l w : ∃ found w', scan l w = (Ok found, w') ∧ w_cache w' = w_cache w
  ∧ (∀ s, s ∈ found → ∃ data, (sc_id s, (data, sc_mod s)) ∈ l ∧ sc_size s = blen data)
  ∧ (NoDup (fst <$> l) → NoDup (sc_id <$> found))
  ∧ ((∀ n, env_io_fault n = false) → sc_id <$> found = fst <$> l)
  ∧ sum_list_with_Z sc_size found ≤ sum_list_with_Z (λ f, blen f.2.1) l.
Proof.
  revert w. induction l as [|[id [data t]] l IH]; intros w; simpl.
  { exists [], w. split_and!; [done|done|set_solver| |done|done]. constructor. }
  unfold io_ok, bind at 1. destruct (IH (tick w)) as (found & w' & Hr & Hc & Hin & Hnd & Hall & Hsum).
  unfold bind. rewrite Hr. eexists _, _. split; [done|]. split; [done|].
  destruct (env_io_fault _) eqn:Hio; cbn [negb].
  - split; [|split; [|split]].
    + intros s Hs. destruct (Hin s Hs) as (d & ? & ?). exists d. split; [by right|done].
    + intros [_ Hnd']%NoDup_cons. by apply Hnd.
    + intros Hno. by rewrite Hno in Hio.
    + unfold sum_list_with_Z in *. simpl. blen_lia.
  - split; [|split; [|split]].
    + intros s [->|Hs]%elem_of_cons; [exists data; split; [by left|done]|].
      destruct (Hin s Hs) as (d & ? & ?). exists d. split; [by right|done].
    + intros [Hn Hnd']%NoDup_cons. apply NoDup_cons. split; [|by apply Hnd].
      intros (s & Hs & Hsin)%list_elem_of_fmap. destruct (Hin s Hsin) as (d & Hd & _). apply Hn.
      apply list_elem_of_fmap. exists (sc_id s, (d, sc_mod s)). simpl in Hs. split; [done|exact Hd].
    + intros Hno. cbn. f_equal. by apply Hall.
    + unfold sum_list_with_Z in *. simpl. lia.
Qed.

(** Opening the cache on a directory, whatever [Info] calls fail: the index is
    within the bound, sorted, and describes files of the directory.  What it leaves out
    of the files that could be read is the oldest of them, and no more than the bound
    demands. *)
Lemma rebuild_Ok w w' : 0 < ca_maxBytes (w_cache w) < 2 ^ 62 →
  sum_list_with_Z (λ f, blen f.2.1) (listing (w_cache w)) ≤ max_int64 →
  rebuild w = (Ok tt, w') →
  cache_ok (w_cache w') ∧ recency_sorted (w_cache w') ∧ ca_files (w_cache w') ⊆ ca_files (w_cache w)
  ∧ (∀ id e, ca_index (w_cache w') !! id = Some e →
      ∃ data t, ca_files (w_cache w) !! id = Some (data, t) ∧ ce_size e = blen data ∧ ce_lastAccess e = t)
  ∧ ∃ victims,
      ((∀ n, env_io_fault n = false) → ∀ id,
         is_Some (ca_files (w_cache w) !! id) ↔ is_Some (ca_index (w_cache w') !! id) ∨ id ∈ victims)
      ∧ (∀ v, v ∈ victims → ca_index (w_cache w') !! v = None
           ∧ ∃ data t, ca_files (w_cache w) !! v = Some (data, t)
               ∧ ∀ id e, ca_index (w_cache w') !! id = Some e → t ≤ ce_lastAccess e)
      ∧ ∀ v rest data t, victims = v :: rest → ca_files (w_cache w) !! v = Some (data, t) →
          ca_maxBytes (w_cache w) < ca_total (w_cache w') + blen data.
Proof.
  intros Hmax Hsum H. unfold rebuild, io_ok, bind at 1 in H. simpl in H.
  destruct (env_io_fault _); simpl in H; [done|]. unfold get_cache, gets, bind at 1 in H. simpl in H.
  destruct (scan_run (listing (w_cache w)) (tick w)) as (found & w1 & Hr & Hc1 & Hin & Hnd & Hall & Hle).
  unfold bind at 1 in H. rewrite Hr in H. unfold upd_cache, modify, bind in H.
  destruct (sort_scanned found) as [Hsort Hperm]. unfold oldest_first in H.
  set (L := foldl (λ acc x, sink x acc) [] found) in *.
  set (c0 := set_entries ∅ [] 0 (w_cache w1)) in *.
  assert (indexed [] c0) as H0.
  { unfold indexed, recency_sorted, c0. simpl. split; [|split; [constructor|split; [done|split; [|done]]]]; [|intros id e He; by rewrite lookup_empty in He].
    split; simpl; try done; [|constructor]. intros id. rewrite lookup_empty. split; [by intros ?%not_elem_of_nil|by intros []]. }
  assert (NoDup (fst <$> listing (w_cache w))) as Hndl.
  { unfold listing. rewrite sort_by_str_perm. apply NoDup_fst_map_to_list. }
  assert (Forall (λ s, 0 ≤ sc_size s) L) as Hsz.
  { rewrite Hperm. apply Forall_forall. intros s Hs. destruct (Hin s Hs) as (d & _ & ->). blen_lia. }
  assert (sum_list_with_Z sc_size L = sum_list_with_Z sc_size found) as HsumL.
  { clearbody L. clear -Hperm. unfold sum_list_with_Z. induction Hperm; simpl; lia. }
  assert (NoDup (sc_id <$> L)) as HndL by (rewrite Hperm; by apply Hnd).
  destruct (add_all_ok L c0 Hsort HndL Hsz) as (Hwf & Hsorted & Hlru & Hidx & _); [lia|done|].
  set (c1 := foldl add_scanned c0 (reverse L)) in *.
  assert (∀ l c, ca_files (foldl add_scanned c l) = ca_files c ∧ ca_maxBytes (foldl add_scanned c l) = ca_maxBytes c) as Hfold.
  { intros l. induction l as [|s l IH]; intros c; [done|]. simpl. destruct (IH (add_scanned c s)) as [-> ->]. done. }
  destruct (Hfold (reverse L) c0) as [Hf1 Hm1]. fold c1 in Hf1, Hm1. unfold c0 in Hf1, Hm1. simpl in Hf1, Hm1.
  rewrite Hc1 in Hf1, Hm1. simpl in Hf1, Hm1.
  destruct (evictLocked_run (set_cache c1 w1)) as (w2 & Hr2 & Hev & _); [done|simpl; lia|].
  rewrite Hr2 in H. injection H as <-. simpl in Hev. destruct Hev as (l2 & Hsh & Hle2 & Hmin).
  pose proof (sh_max _ _ _ Hsh) as [Hmx _].
  assert (∀ id e, ca_index c1 !! id = Some e →
    ∃ data t, ca_files (w_cache w) !! id = Some (data, t) ∧ ce_size e = blen data ∧ ce_lastAccess e = t) as Hread.
  { intros id e He. destruct (Hidx _ _ He) as (s & Hs & <- & Hse & Hla). rewrite Hperm in Hs.
    destruct (Hin s Hs) as (d & Hd & Hsd). exists d, (sc_mod s). split; [|split; congruence].
    unfold listing in Hd. rewrite sort_by_str_perm in Hd. by apply elem_of_map_to_list in Hd. }
  split; [split; [apply Hsh|]|split; [|split; [|split]]].
  - rewrite Hmx, Hm1. split; [done|lia].
  - by eapply shrunk_sorted.
  - rewrite <- Hf1. apply (sh_sub _ _ _ Hsh).
  - intros id e He. rewrite (sh_index _ _ _ Hsh) in He. case_decide; [done|by apply Hread].
  - exists l2. split; [|split].
    + intros Hno id. rewrite <- (cw_dom _ (sh_wf _ _ _ Hsh)), <- elem_of_app, <- (sh_lru _ _ _ Hsh), Hlru, Hperm, Hall by done.
      unfold listing. rewrite sort_by_str_perm, list_elem_of_fmap. split.
      * intros [x Hx]. exists (id, x). split; [done|]. by apply elem_of_map_to_list.
      * intros ([i x] & -> & Hx). apply elem_of_map_to_list in Hx. by eexists.
    + intros v Hv. split; [by rewrite (sh_index _ _ _ Hsh), decide_True|].
      assert (is_Some (ca_index c1 !! v)) as [ev Hev] by (apply (cw_dom _ Hwf); rewrite (sh_lru _ _ _ Hsh); set_solver).
      destruct (Hread v ev Hev) as (data & t & Hf & _ & Ht). exists data, t. split; [done|]. intros id e He.
      assert (id ∈ ca_lru (w_cache w2)) as Hid by (apply (cw_dom _ (sh_wf _ _ _ Hsh)); by eexists).
      rewrite (sh_index _ _ _ Hsh) in He. case_decide; [done|].
      unfold recency_sorted in Hsorted. rewrite (sh_lru _ _ _ Hsh) in Hsorted.
      eapply StronglySorted_app_1_elem_of in Hsorted as Hle'; [|exact Hid|exact Hv]. cbv beta in Hle'.
      unfold last_at in Hle'. rewrite Hev, He in Hle'. cbn in Hle'. by rewrite <- Ht.
    + intros v rest data t Hv Hf. specialize (Hmin v rest Hv). rewrite Hm1 in Hmin.
      assert (is_Some (ca_index c1 !! v)) as [ev Hev] by (apply (cw_dom _ Hwf); rewrite (sh_lru _ _ _ Hsh), Hv; set_solver).
      destruct (Hread v ev Hev) as (d & t' & Hf' & Hsz' & _). rewrite Hf in Hf'. injection Hf' as <- <-.
      unfold size_at in Hmin. rewrite Hev in Hmin. cbn in Hmin. by rewrite <- Hsz'.
Qed.

End rebuilding.
