(* ===== verification/Telegram.v ===== *)
(** * internal/client/telegram: the Bot API client

    [Client] builds requests, spaces them per bot ([pace]), reads the envelope and
    maps failures to the typed errors the services act on.  The HTTP exchange and
    the JSON decoder are parameters ([BotAPI]): an exchange yields a transport
    error, a body that does not decode, or the decoded envelope. *)
From Stdlib Require Import ZArith Lia Strings.Byte Strings.String Strings.Ascii.
From stdpp Require Import base tactics list gmap sets strings pretty.
From S2P Require Import Prelude Model World.
#[local] Open Scope string_scope.
#[local] Open Scope Z_scope.
Open Scope m_scope.

(** ** Strings *)

Definition lower_ascii (c : ascii) : ascii :=
  let n := nat_of_ascii c in
  if ((65 <=? n) && (n <=? 90))%nat then ascii_of_nat (n + 32) else c.

(** [strings.ToLower]: ASCII letters and the two other characters whose lower case is
    ASCII, the dotted capital I and the Kelvin sign.  What it does to the rest of
    Unicode is left out: the result is only searched for ASCII texts, and compared
    with them. *)
Fixpoint ToLower (s : string) : string :=
  match s with
  | String "196" (String "176" t) => String "i" (ToLower t)
  | String "226" (String "132" (String "170" t)) => String "k" (ToLower t)
  | String c t => String (lower_ascii c) (ToLower t)
  | EmptyString => EmptyString
  end.

(** [strings.Contains]. *)
Fixpoint Contains (s sub : string) : bool :=
  HasPrefix s sub || match s with EmptyString => false | String _ t => Contains t sub end.

(** ** The envelope *)

(** The fields of a result the client decodes; [None] where the key is absent. *)
Record apiResult := mkApiResult {
  ar_message_id : Z; ar_document : option (string * string);
  ar_username : string; ar_title : string; ar_file_path : string }.

Record responseParams := mkResponseParams { rp_RetryAfter : Z; rp_MigrateToChatID : Z }.

(** [Result] is [None] when the raw message does not decode into the struct. *)
Record apiResponse := mkApiResponse {
  env_OK : bool; env_Result : option apiResult; env_ErrorCode : Z;
  env_Description : string; env_Parameters : option responseParams }.

Inductive exchange :=
  | Transport (e : error)              (* http.Client.Do or ReadAll failed *)
  | BadBody                            (* not a JSON envelope *)
  | Envelope (env : apiResponse).

Inductive download :=
  | DlTransport (e : error)
  | DlStatus (code : Z) (body : option bytes).   (* [None]: reading the body failed *)

(** What the Bot API answers at step [n]; it does not touch the program's state. *)
Class BotAPI := {
  api_call : nat → Bot → string → list (string * string) → option bytes → exchange;
  api_file : nat → Bot → string → download }.

Definition RetryDefault : Z := 5 * Second.

(** What a description says when the message or file is gone. *)
Definition gone_markers : list string :=
  ["not found"; "message to forward not found"; "message_id_invalid"; "wrong file_id";
   "wrong remote file identifier"].

Definition says_gone (desc : string) : bool := existsb (Contains (ToLower desc)) gone_markers.

(** [time.Duration(n) * time.Second] wraps at 64 bits. *)
Definition mapError (env : apiResponse) : error :=
  if (env_ErrorCode env =? 429)
     || match env_Parameters env with Some p => 0 <? rp_RetryAfter p | None => false end
  then
    let retry := match env_Parameters env with
                 | Some p => wrap64 (rp_RetryAfter p * Second) | None => 0 end in
    TgRateLimit (if retry <=? 0 then RetryDefault else retry)
  else if says_gone (env_Description env) then TgMessageNotFound
  else if env_ErrorCode env =? 403 then TgForbidden
  else TgOther.

Section client.
Context {E : Env} {A : BotAPI}.

Definition minInterval : Z := 34 * Millisecond.

(** How long a request of the bot must wait at [now]. *)
Definition pace_wait (last : option time) (now : time) : Z :=
  match last with
  | Some t => if IsZero t then 0 else minInterval - (now - t)
  | None => 0
  end.

(** The wait itself blocks: it ends with the timer or with the context. *)
Definition pace (bot : Bot) : M unit :=
  let! st := gets w_sent in
  let! now := Now in
  let! cancelled := if 0 <? pace_wait (st !! bot_ID bot) now then ctx_Err else ret false in
  if cancelled then fail ErrDriver
  else
    let! sent := Now in
    modify (λ w, set_sent (<[bot_ID bot := sent]> (w_sent w)) w).

(** One HTTP round trip. *)
Definition send {B} (f : nat → B) : M B := λ w, (Ok (f (w_step w)), tick w).

(** [do]. *)
Definition tg_do (bot : Bot) (method : string) (form : list (string * string)) (body : option bytes)
    : M (option apiResult) :=
  do! pace bot in
  let! x := send (λ n, api_call n bot method form body) in
  match x with
  | Transport e => fail e
  | BadBody => fail TgOther
  | Envelope env => if env_OK env then ret (env_Result env) else fail (mapError env)
  end.

Definition decoded {B} (r : option apiResult) (f : apiResult → B) : M B :=
  match r with Some a => ret (f a) | None => fail TgOther end.

Definition decodeSendResult (a : apiResult) : TGSendResult :=
  match ar_document a with
  | Some (fid, uid) => mkTGSendResult (ar_message_id a) fid uid
  | None => mkTGSendResult (ar_message_id a) "" ""
  end.

Definition GetMe (bot : Bot) : M string :=
  let! raw := tg_do bot "getMe" [] None in decoded raw ar_username.

(** A definitive refusal is "not a member", not an error. *)
Definition GetChat (bot : Bot) (chat : Z) : M (string * bool) :=
  let? r := tg_do bot "getChat" [("chat_id", pretty chat)] None in
  match r with
  | Err e => if errors_Is e TgMessageNotFound || errors_Is e TgForbidden
             then ret ("", false) else fail e
  | Ok raw => decoded raw (λ a, (ar_title a, true))
  end.

Definition SendDocument (bot : Bot) (chat : Z) (filename : string) (data : bytes) : M TGSendResult :=
  let! raw := tg_do bot "sendDocument" [("chat_id", pretty chat); ("document", filename)] (Some data) in
  decoded raw decodeSendResult.

Definition SendByFileID (bot : Bot) (chat : Z) (fileID : string) : M TGSendResult :=
  let! raw := tg_do bot "sendDocument" [("chat_id", pretty chat); ("document", fileID)] None in
  decoded raw decodeSendResult.

Definition ForwardMessage (bot : Bot) (to from msg : Z) : M TGSendResult :=
  let! raw := tg_do bot "forwardMessage"
    [("chat_id", pretty to); ("from_chat_id", pretty from); ("message_id", pretty msg)] None in
  decoded raw decodeSendResult.

Definition DeleteMessage (bot : Bot) (chat msg : Z) : M unit :=
  let? r := tg_do bot "deleteMessage" [("chat_id", pretty chat); ("message_id", pretty msg)] None in
  match r with
  | Err e => if errors_Is e TgMessageNotFound then ret tt else fail e
  | Ok _ => ret tt
  end.

Definition downloadPath (bot : Bot) (path : string) : M bytes :=
  do! pace bot in
  let! x := send (λ n, api_file n bot path) in
  match x with
  | DlTransport e => fail e
  | DlStatus code body =>
      if code =? 404 then fail TgMessageNotFound
      else if negb (code =? 200) then fail TgOther
      else match body with Some data => ret data | None => fail TgOther end
  end.

Definition DownloadFile (bot : Bot) (fileID : string) : M bytes :=
  let! raw := tg_do bot "getFile" [("file_id", fileID)] None in
  let! path := decoded raw ar_file_path in
  if String.eqb path "" then fail TgMessageNotFound else downloadPath bot path.

End client.
