(* ===== verification/Config.v ===== *)
(** * cmd/tgwebdav: flags, environment and the configuration of the commands

    The process environment is a finite map; a [.env] file only adds to it.  The
    libraries cobra and viper are the class [Viper]: what they know of the flags and
    how a key is looked up.  Sizes are parsed as the code does, through a float. *)
From Stdlib Require Import ZArith Lia Strings.Byte Strings.String Strings.Ascii.
From stdpp Require Import base tactics list gmap strings pretty.
From S2P Require Import Prelude Model Sql World Repository Crypto Text Number Path Telegram.
#[local] Open Scope string_scope.
#[local] Open Scope Z_scope.

(** ** Strings *)

(** [strings.HasSuffix], [TrimSuffix]. *)
Definition str_rev (s : string) : string := string_of_list_ascii (rev (list_ascii_of_string s)).
Definition HasSuffix (s p : string) : bool := HasPrefix (str_rev s) (str_rev p).
Definition TrimSuffix (s p : string) : string :=
  if HasSuffix s p then String.substring 0 (String.length s - String.length p) s else s.

(** [strings.TrimRight(s, c)] for one character. *)
Fixpoint TrimRightChar (c : ascii) (s : string) : string :=
  match s with
  | EmptyString => EmptyString
  | String a t =>
      match TrimRightChar c t with
      | EmptyString => if Ascii.eqb a c then EmptyString else String a EmptyString
      | t' => String a t'
      end
  end.

(** ** The environment *)

Abbreviation environ := (gmap string string) (only parsing).

Definition NUL_char : ascii := "000".

(** [os.Setenv]. *)
Definition Setenv (key val : string) (env : environ) : environ :=
  if String.eqb key "" || StringHas "=" key || StringHas NUL_char key || StringHas NUL_char val
  then env else <[key := val]> env.

(** [os.Getenv]. *)
Definition Getenv (env : environ) (key : string) : string := default "" (env !! key).

(** ** loadDotenv *)

(** A scanner's buffer grows to 1 MiB; a longer line ends the scan with an error. *)
Definition max_token : Z := 1024 * 1024.

(** [bufio.ScanLines] drops a carriage return at the end of a line. *)
Definition dropCR (s : string) : string := TrimSuffix s (String "013" EmptyString).

(** The lines a scanner yields of a text, and whether it ended with an error. *)
Fixpoint scan_lines (ls : list string) : list string * bool :=
  match ls with
  | [] | [EmptyString] => ([], false)
  | l :: rest =>
      if max_token <=? slen l then ([], true)
      else let '(t, err) := scan_lines rest in (dropCR l :: t, err)
  end.
Definition Scan (content : string) : list string * bool := scan_lines (Split "010" content).

Definition quote_char : ascii := "034".
Definition apos_char : ascii := "039".

(** The value between quotes of one kind. *)
Definition unquote (val : string) : string :=
  if 2 <=? slen val then
    let first := String.get 0 val in
    let last := String.get (String.length val - 1) val in
    let both c := bool_decide (first = Some c) && bool_decide (last = Some c) in
    if both quote_char || both apos_char then String.substring 1 (String.length val - 2) val else val
  else val.

(** What a line assigns; nothing for blank lines, comments and lines without [=] or
    without a name. *)
Definition parse_line (text : string) : option (string * string) :=
  let line := TrimSpace text in
  if String.eqb line "" || HasPrefix line "#" then None
  else
    let line := TrimPrefix line "export " in
    let '(key, val, ok) := Cut "=" line in
    if negb ok then None
    else
      let key := TrimSpace key in
      let val := unquote (TrimSpace val) in
      if String.eqb key "" then None else Some (key, val).

Definition load_line (env : environ) (text : string) : environ :=
  match parse_line text with
  | Some (key, val) => match env !! key with Some _ => env | None => Setenv key val env end
  | None => env
  end.

(** [None] is a file that does not open, which is no error. *)
Definition loadDotenv (file : option string) (env : environ) : environ * bool :=
  match file with
  | None => (env, false)
  | Some content => let '(ls, err) := Scan content in (foldl load_line env ls, err)
  end.

(** ** Flags and viper *)

(** A flag: its value and whether it was given on the command line. *)
Record flag := mkFlag { fl_value : string; fl_Changed : bool }.
Abbreviation flags := (gmap string flag) (only parsing).

(** [cmd.Flags().GetString], the empty string for a flag that is not defined. *)
Definition Flags_GetString (fs : flags) (name : string) : string :=
  match fs !! name with Some f => fl_value f | None => "" end.

(** The flags registered by [init]: those of every command and the server's own. *)
Definition persistent_flags : list (string * string) := [("env-file", ".env"); ("log-level", "info"); ("dsn", "")].
Definition server_flags : list (string * string) :=
  [("webdav-addr", ":8080"); ("mgmt-addr", ":8081"); ("cache-dir", ""); ("cache-size", "1GiB"); ("first-user", "");
   ("secret-key", "")].

(** The flags a command sees, with those given on its command line.  The root command
    runs the server's [RunE], with its own flags. *)
Inductive command := CmdRoot | CmdServer | CmdMigrate.
Definition command_flags (c : command) : list (string * string) :=
  match c with CmdServer => persistent_flags ++ server_flags | _ => persistent_flags end%list.
Definition cobra_flags (c : command) (given : gmap string string) : flags :=
  map_imap (λ name d, Some (match given !! name with Some v => mkFlag v true | None => mkFlag d false end))
    (list_to_map (M := gmap string string) (command_flags c)).

(** A viper instance as [newViper] sets it up. *)
Record viper := mkViper { vp_prefix : string; vp_replace : ascii * ascii; vp_automatic : bool; vp_flags : flags }.

Definition envPrefix : string := "TGWEBDAV".
Definition newViper (fs : flags) : viper := mkViper envPrefix ("-"%char, "_"%char) true fs.

(** [v.GetString(key)] in an environment. *)
Class Viper := viper_GetString : viper → environ → string → string.

(** The name of a key's variable: the prefix, an underscore and the key in upper
    case, with the replacement applied. *)
Definition upper_ascii (c : ascii) : ascii :=
  let n := nat_of_ascii c in if ((97 <=? n) && (n <=? 122))%nat then ascii_of_nat (n - 32) else c.
Fixpoint map_string (f : ascii → ascii) (s : string) : string :=
  match s with EmptyString => EmptyString | String c t => String (f c) (map_string f t) end.
Definition env_name (v : viper) (key : string) : string :=
  map_string (λ c, if Ascii.eqb c (vp_replace v).1 then (vp_replace v).2 else c)
    (map_string upper_ascii (vp_prefix v +:+ "_" +:+ key)).

(** What viper documents: a flag that was given, else a variable that is not empty,
    else the default of the flag, if there is one. *)
Definition ViperLaw `{Viper} : Prop := ∀ v env key, vp_automatic v = true →
  viper_GetString v env key =
    match vp_flags v !! key with
    | Some (mkFlag val true) => val
    | f => let x := Getenv env (env_name v key) in
           if String.eqb x "" then match f with Some d => fl_value d | None => "" end else x
    end.

(** ** parseSize *)

(** The cases of the switch, in order: what the text ends with and what is taken
    off, with the multiplier.  A decimal suffix is one of two endings, and loses all
    its repeated letters. *)
Definition decimal_suffix (lower : string) (long : string) (c : ascii) : option string :=
  if HasSuffix lower long || HasSuffix lower (String c EmptyString)
  then Some (TrimRightChar c (TrimSuffix lower long)) else None.

Definition binary_suffix (lower long : string) : option string :=
  if HasSuffix lower long then Some (TrimSuffix lower long) else None.

Fixpoint first_case (l : list (Z * option string)) (otherwise : string) : Z * string :=
  match l with
  | [] => (1, otherwise)
  | (mult, Some s) :: _ => (mult, s)
  | (_, None) :: rest => first_case rest otherwise
  end.

Definition size_suffix (lower : string) : Z * string :=
  first_case
    [(2 ^ 10, binary_suffix lower "kib"); (2 ^ 20, binary_suffix lower "mib"); (2 ^ 30, binary_suffix lower "gib");
     (2 ^ 40, binary_suffix lower "tib");
     (1000, decimal_suffix lower "kb" "k"); (1000 * 1000, decimal_suffix lower "mb" "m");
     (1000 * 1000 * 1000, decimal_suffix lower "gb" "g"); (1000 * 1000 * 1000 * 1000, decimal_suffix lower "tb" "t");
     (1, binary_suffix lower "b")]
    lower.

(** [None] for the errors. *)
Definition parseSize `{Arch} (s : string) : option Z :=
  let s := TrimSpace s in
  if String.eqb s "" then None
  else
    let '(mult, lower) := size_suffix (ToLower s) in
    match ParseFloat (TrimSpace lower) with
    | None => None
    | Some n => if is_neg64 n then None else Some (int64_of_float (mul64 n mult))
    end.

(** ** The configuration *)

Record serverConfig := mkServerConfig {
  DSN : string; WebDAVAddr : string; MgmtAddr : string; CacheDir : string; CacheSize : Z;
  FirstUser : string; SecretKey : option bytes; LogLevel : string }.

(** [os.UserCacheDir] and [os.TempDir] on Unix. *)
Definition UserCacheDir (env : environ) : option string :=
  let dir := Getenv env "XDG_CACHE_HOME" in
  if String.eqb dir "" then
    let home := Getenv env "HOME" in if String.eqb home "" then None else Some (home +:+ "/.cache")
  else if HasPrefix dir "/" then Some dir else None.
Definition TempDir (env : environ) : string :=
  let dir := Getenv env "TMPDIR" in if String.eqb dir "" then "/tmp" else dir.

(** [filepath.Join] of two elements of which the second is not empty, on Unix; the
    path may be relative. *)
Fixpoint clean_relative (acc : list string) (segs : list string) : list string :=
  match segs with
  | [] => reverse acc
  | s :: t =>
      if String.eqb s "" || String.eqb s "." then clean_relative acc t
      else if String.eqb s ".." then
        match acc with
        | x :: acc' => if String.eqb x ".." then clean_relative (".." :: acc) t else clean_relative acc' t
        | [] => clean_relative [".."] t
        end
      else clean_relative (s :: acc) t
  end.
Definition CleanPath (s : string) : string :=
  if HasPrefix s "/" then Clean s
  else match clean_relative [] (split_slash s) with
       | [] => "."
       | x :: l => foldl (λ a b, a +:+ "/" +:+ b) x l
       end.
Definition Join2 (a b : string) : string := CleanPath (if String.eqb a "" then b else a +:+ "/" +:+ b).

Definition default_cache_dir (env : environ) : string :=
  let base := default "" (UserCacheDir env) in
  Join2 (if String.eqb base "" then TempDir env else base) "tgwebdav".

Definition ErrNoDSN : error := ErrValidation "DSN is required (--dsn or TGWEBDAV_DSN)".
Definition ErrCacheSize : error := ErrValidation "invalid cache-size".
Definition ErrFirstUser : error := ErrValidation "--first-user must be login:password".

Section load.
Context `{Viper} `{Arch}.

(** The configuration read by viper in an environment that has the [.env] file. *)
Definition resolve (v : viper) (env : environ) : res serverConfig :=
  let dsn := viper_GetString v env "dsn" in
  let firstUser := viper_GetString v env "first-user" in
  if String.eqb dsn "" then Err ErrNoDSN
  else match parseSize (viper_GetString v env "cache-size") with
  | None => Err ErrCacheSize
  | Some size =>
      let dir := viper_GetString v env "cache-dir" in
      let sk := viper_GetString v env "secret-key" in
      if negb (String.eqb firstUser "") && negb (StringHas ":" firstUser) then Err ErrFirstUser
      else Ok (mkServerConfig dsn (viper_GetString v env "webdav-addr") (viper_GetString v env "mgmt-addr")
                 (if String.eqb dir "" then default_cache_dir env else dir) size firstUser
                 (if String.eqb sk "" then None else Some (sha256 (bytes_of sk)))
                 (viper_GetString v env "log-level"))
  end.

(** The files that open, by name: the result and the environment left. *)
Definition loadServerConfig (fs : flags) (files : string → option string) (env : environ)
    : res serverConfig * environ :=
  let env := (loadDotenv (files (Flags_GetString fs "env-file")) env).1 in
  (resolve (newViper fs) env, env).

Definition loadMigrateConfig (fs : flags) (files : string → option string) (env : environ)
    : res string * environ :=
  let env := (loadDotenv (files (Flags_GetString fs "env-file")) env).1 in
  let dsn := viper_GetString (newViper fs) env "dsn" in
  (if String.eqb dsn "" then Err ErrNoDSN else Ok dsn, env).

End load.

(** [setLogLevel]. *)
Inductive log_level := LevelDebug | LevelInfo | LevelWarn | LevelError.
Definition setLogLevel (level : string) : log_level :=
  if String.eqb level "debug" then LevelDebug
  else if String.eqb level "warn" then LevelWarn
  else if String.eqb level "error" then LevelError
  else LevelInfo.

Definition resolveLogLevel `{Viper} (fs : flags) (env : environ) : log_level :=
  setLogLevel (viper_GetString (newViper fs) env "log-level").
