(* ===== verification/BlobReader.v ===== *)
(** * internal/service/blob.go: the blob reader

    Resolves the bytes of a stored blob: the disk cache, then every usable member
    bot of the blob's channel, first those with a cached file_id.  Fresh bytes are
    verified against the blob's hash before they are cached or returned; the blob
    is declared gone only when no bot could recover it and one got a definitive
    not-found from a forward.  [blob_reader] is the [BlobService] the filesystem
    reads through. *)
From Stdlib Require Import ZArith Lia Strings.Byte Strings.String.
From stdpp Require Import base tactics list gmap sets strings.
From S2P Require Import Prelude Model Sql World Repository Crypto Accounts File Cache Telegram.
#[local] Open Scope string_scope.
#[local] Open Scope Z_scope.
Open Scope m_scope.

Record candidate := mkCandidate { cd_bot : Bot; cd_fileID : string }.

Definition isRateLimit (e : error) : bool := match e with TgRateLimit _ => true | _ => false end.

Section reader.
Context {E : Env} {C : Aead} {A : BotAPI} (bots : BotRepository).

(** ** The counters *)

Definition bump (f : Counters → Counters) : M unit := modify (λ w, set_stats (f (w_stats w)) w).
Definition IncCacheHit : M unit := bump (λ k, mkCounters (k_readBytes k) (k_writeBytes k)
  (k_readOps k) (k_writeOps k) (wrap64 (k_cacheHit k + 1)) (k_cacheMiss k) (k_telegramReq k)).
Definition IncCacheMiss : M unit := bump (λ k, mkCounters (k_readBytes k) (k_writeBytes k)
  (k_readOps k) (k_writeOps k) (k_cacheHit k) (wrap64 (k_cacheMiss k + 1)) (k_telegramReq k)).
Definition IncTelegramReq : M unit := bump (λ k, mkCounters (k_readBytes k) (k_writeBytes k)
  (k_readOps k) (k_writeOps k) (k_cacheHit k) (k_cacheMiss k) (wrap64 (k_telegramReq k + 1))).

(** ** Best-effort bookkeeping: errors are logged and dropped *)

Definition parkBot (bot : Bot) (e : error) : M unit :=
  match e with
  | TgRateLimit retry =>
      let! now := Now in
      ignore! BotRepository_SetUnavailableUntil (bot_ID bot) (Some (now + retry)) in
      ignore! EventRepository_Log EventBotUnavailable
        ("bot rate limited, unavailable for " +:+ env_duration retry) (env_uuid_string (bot_ID bot)) in
      ret tt
  | _ => ret tt
  end.

Definition recordNonMember (bot : Bot) (channel : Channel) : M unit :=
  let! now := Now in
  ignore! BotChannelRepository_Upsert (mkBotChannel (bot_ID bot) (ch_ID channel) false now) in
  ret tt.

Definition bestEffortDelete (bot : Bot) (chat msg : Z) : M unit :=
  if msg =? 0 then ret tt
  else ignore! DeleteMessage bot chat msg in ret tt.

Definition deleteStaleFileID (blob : uuid) : M unit :=
  ignore! BlobBotFileRepository_DeleteByBlob blob in ret tt.

(** [subtle.ConstantTimeCompare] is equality. *)
Definition verifyIntegrity (blob : Blob) (bot : Bot) (data : bytes) : M (res unit) :=
  if blen (b_ContentHash blob) =? 0 then ret (Ok tt)
  else if bool_decide (sha256 data = b_ContentHash blob) then ret (Ok tt)
  else
    ignore! EventRepository_Log EventBlobCorrupt
      ("blob download failed SHA-256 verification (bot " +:+ env_uuid_string (bot_ID bot) +:+ ")")
      (env_uuid_string (b_ID blob)) in
    ret (Err ErrBlobCorrupt).

(** ** candidates *)

(** The member bots in the order of the listing, each once. *)
Fixpoint members (seen : gset uuid) (bcs : list BotChannel) : list uuid :=
  match bcs with
  | [] => []
  | bc :: rest =>
      if negb (bc_Member bc) || bool_decide (bc_BotID bc ∈ seen) then members seen rest
      else bc_BotID bc :: members ({[bc_BotID bc]} ∪ seen) rest
  end.

(** The loaded and available ones, in member order; a later row of an id wins. *)
Definition usable_bots (now : time) (ids : list uuid) (loaded : list Bot) : list Bot :=
  let byID := foldl (λ (m : gmap uuid Bot) b, <[bot_ID b := b]> m) ∅ loaded in
  omap (λ id, match byID !! id with
              | Some b => if Available b now then Some b else None
              | None => None
              end) ids.

(** [lo.Associate]: the last row of a bot wins. *)
Definition fileIDByBot (files : list BlobBotFile) : gmap uuid string :=
  foldl (λ m f, <[f_BotID f := f_FileID f]> m) ∅ files.

Definition order_candidates (order : list Bot) (files : gmap uuid string) : list candidate :=
  (omap (λ b, match files !! bot_ID b with
              | Some fid => Some (mkCandidate b fid) | None => None end) order
   ++ omap (λ b, match files !! bot_ID b with
                 | Some _ => None | None => Some (mkCandidate b "") end) order)%list.

Definition candidates (blob : Blob) : M (list candidate) :=
  let! now := Now in
  let! bcs := BotChannelRepository_ListByChannel (b_ChannelID blob) in
  let ids := members ∅ bcs in
  let! loaded := BotRepository_ListByIDs bots ids in
  let! files := BlobBotFileRepository_ListByBlob (b_ID blob) in
  ret (order_candidates (usable_bots now ids loaded) (fileIDByBot files)).

(** ** One candidate *)

(** [(data, gone, err)]: the flag and either the bytes or the error. *)
Definition tried : Type := bool * res bytes.

(** What an error that is not a not-found does before the next bot is tried. *)
Definition react (bot : Bot) (channel : Channel) (e : error) : M tried :=
  if isRateLimit e then do! parkBot bot e in ret (false, Err e)
  else if errors_Is e TgForbidden then do! recordNonMember bot channel in ret (false, Err e)
  else ret (false, Err e).

(** Forward-recovery: a fresh file_id from a copy of the message. *)
Definition recover (blob : Blob) (channel : Channel) (bot : Bot) : M tried :=
  do! IncTelegramReq in
  let? r := ForwardMessage bot (ch_TGChatID channel) (ch_TGChatID channel) (b_MessageID blob) in
  match r with
  | Err e => if errors_Is e TgMessageNotFound then ret (true, Err e) else react bot channel e
  | Ok fwd =>
      do! IncTelegramReq in
      let? d := DownloadFile bot (up_FileID fwd) in
      do! bestEffortDelete bot (ch_TGChatID channel) (up_MessageID fwd) in
      match d with
      | Err e => if errors_Is e TgMessageNotFound then ret (false, Err e) else react bot channel e
      | Ok data =>
          let! v := verifyIntegrity blob bot data in
          match v with
          | Err e => ret (false, Err e)
          | Ok _ =>
              let! now := Now in
              ignore! BlobBotFileRepository_Upsert
                (mkBlobBotFile (b_ID blob) (bot_ID bot) (up_FileID fwd) (up_FileUniqueID fwd) now) in
              ret (false, Ok data)
          end
      end
  end.

Definition tryCandidate (blob : Blob) (channel : Channel) (c : candidate) : M tried :=
  let bot := cd_bot c in
  if String.eqb (cd_fileID c) "" then recover blob channel bot
  else
    do! IncTelegramReq in
    let? d := DownloadFile bot (cd_fileID c) in
    match d with
    | Ok data =>
        let! v := verifyIntegrity blob bot data in
        match v with
        | Ok _ => ret (false, Ok data)
        | Err _ => do! deleteStaleFileID (b_ID blob) in recover blob channel bot
        end
    | Err e =>
        if errors_Is e TgMessageNotFound
        then do! deleteStaleFileID (b_ID blob) in recover blob channel bot
        else react bot channel e
    end.

(** Every candidate in turn until one succeeds; whether any said "gone". *)
Fixpoint try_all (blob : Blob) (channel : Channel) (cs : list candidate) (permGone : bool) : M tried :=
  match cs with
  | [] => ret (permGone, Err ErrBlobUnavailable)
  | c :: rest =>
      let! '(gone, r) := tryCandidate blob channel c in
      match r with
      | Ok data => ret (permGone, Ok data)
      | Err _ => try_all blob channel rest (permGone || gone)
      end
  end.

(** ** The cascade *)

Definition cascade_tx (blob : uuid) : M unit :=
  do! blobRepository_SetState blob BlobStatePermUnavailable in
  do! EventRepository_Log EventBlobPermDeleted "blob message gone, marked perm_unavailable"
        (env_uuid_string blob) in
  let! nodes := extentRepository_ListNodesSolelyOnBlob blob in
  for_each nodes (λ id,
    do! NodeRepository_Delete id in
    EventRepository_Log EventCascadeDelete "node deleted: only content lived on a now-gone blob"
      (env_uuid_string id)).

Definition markPermUnavailable (blob : Blob) : M unit :=
  ignore! WithTx (cascade_tx (b_ID blob)) in ret tt.

(** ** ReadBlob *)

Definition ReadBlob (id : uuid) : M bytes :=
  let! blob := blobRepository_GetByID id in
  if negb (Readable (b_State blob)) then fail ErrBlobUnavailable
  else
    let! hit := cache_Get id in
    match hit with
    | Some data => do! IncCacheHit in ret data
    | None =>
        do! IncCacheMiss in
        let! channel := ChannelRepository_GetByID (b_ChannelID blob) in
        let! cs := candidates blob in
        match cs with
        | [] => fail ErrBlobUnavailable
        | _ =>
            let! '(permGone, r) := try_all blob channel cs false in
            match r with
            | Ok data =>
                ignore! cache_Put id data in
                do! AddReadBytes (blen data) in
                ret data
            | Err _ =>
                if permGone then do! markPermUnavailable blob in fail ErrBlobUnavailable
                else fail ErrBlobUnavailable
            end
        end
    end.

(** ** Prefetch *)

Definition maxBlob : Z := 20 * 1048576.

(** [int(capacity / maxBlob)], at least one. *)
Definition prefetch_limit (capacity : Z) : Z := Z.max 1 (Z.quot capacity maxBlob).

(** The downloads run in goroutines; here one after the other, in the order they
    are started, which is one of their schedules. *)
Fixpoint prefetch_loop (ids : list uuid) (left : nat) : M unit :=
  match ids, left with
  | id :: rest, S k =>
      let! stop := ctx_Err in
      if stop then ret tt
      else
        let! has := cache_Has id in
        if has then prefetch_loop rest left
        else ignore! ReadBlob id in prefetch_loop rest k
  | _, _ => ret tt
  end.

Definition Prefetch (ids : list uuid) : M unit :=
  let! capacity := cache_Capacity in
  if (capacity <=? 0) || (blen ids =? 0) then ret tt
  else prefetch_loop ids (Z.to_nat (prefetch_limit capacity)).

#[global] Instance blob_reader : BlobService := {
  blob_ReadBlob := ReadBlob;
  blob_Prefetch := Prefetch }.

End reader.
