(* ===== verification/BlobFacts.v ===== *)
(** * The blob reader keeps what the filesystem relies on

    Every step but the cascade leaves nodes, extents, chunks, blobs and users as
    they were ([Quiet], proved by search in the hint database [keeps]); bytes that come back were verified; the reader
    implements [BlobLaws]. *)
From Stdlib Require Import ZArith Lia Strings.Byte Strings.String.
From stdpp Require Import base tactics list gmap sets strings.
From S2P Require Import Prelude Model Sql SqlFacts World Keeps Repository Crypto Accounts Path FileSystem.
From S2P Require Import File Tree FsFacts WalFacts WriteFacts ReadFacts Cache CacheKeeps CacheFacts Telegram.
From S2P Require Import BlobReader.
#[local] Open Scope string_scope.
#[local] Open Scope Z_scope.
Open Scope m_scope.

(** ** Quiet computations *)

(** The tables the filesystem is made of. *)
Record side (d d' : Db) : Prop := {
  si_nodes : d_nodes d' = d_nodes d;
  si_extents : d_extents d' = d_extents d;
  si_wal : d_wal_chunks d' = d_wal_chunks d;
  si_blobs : d_blobs d' = d_blobs d;
  si_users : d_users d' = d_users d;
  si_channels : d_channels d' = d_channels d }.

#[global] Instance side_preorder : PreOrder side.
Proof.
  split; [by split|]. intros a b c [] []. split; congruence.
Qed.

Record quiet (w w' : World) : Prop := {
  qu_db : side (w_db w) (w_db w');
  qu_cache : w_cache w' = w_cache w;
  qu_tx : same_tx w w' }.

Lemma qu_none w w' : quiet w w' → w_tx w = None → w_tx w' = None.
Proof. intros [_ _ Ht]. by apply same_tx_None. Qed.

#[global] Instance quiet_preorder : PreOrder quiet.
Proof.
  split; [by split|]. intros a b c [D1 C1 T1] [D2 C2 T2]. split; [by etrans|congruence..].
Qed.

#[global] Instance quiet_frame : Frame quiet.
Proof. split; [exact _|]. intros w w' Hd Hc Ht. split; [by rewrite Hd|done|done]. Qed.

Abbreviation Quiet := (Keeps quiet).

Section memory.
Context {E : Env}.

Lemma Quiet_query {A} (q : time → (nat → uuid) → sql A) :
  (∀ t g d a d', q t g d = SqlOk a d' → side d d') → Quiet (query q).
Proof. intros Hq. apply (Keeps_query _). intros t g w a d' H. split; [by eapply Hq|done|done]. Qed.

Lemma Quiet_stmt {A} (q : sql A) : (∀ d a d', q d = SqlOk a d' → side d d') → Quiet (stmt q).
Proof. intros Hq. apply Quiet_query. intros _ _. apply Hq. Qed.

End memory.

(** A relation on the tables that does not mind what is quiet. *)
Class Tolerates (R : relation Db) := {
  tolerates_preorder :: PreOrder R;
  tolerates_side d d' : side d d' → R d d' }.

Lemma leaves_quiet (R : relation Db) `{!Tolerates R} {A} (m : M A) : Quiet m → Keeps (leaves R) m.
Proof. intros Hm w r w' [Hs Hc Ht]%Hm. split; [by apply tolerates_side|done|by apply culled_same]. Qed.

Lemma Keeps_send R `{!Frame R} {B} (f : nat → B) : Keeps R (send f).
Proof. by apply (Keeps_same _); intros w r w' [= _ <-]. Qed.
Lemma Keeps_bump R `{!Frame R} f : Keeps R (bump f).
Proof. by apply (Keeps_same _); intros w r w' [= _ <-]. Qed.

#[export] Hint Resolve Keeps_send Keeps_bump : keeps.
#[export] Hint Extern 0 (Tolerates _) => exact _ : keeps.
#[export] Hint Resolve leaves_quiet | 9 : keeps.

(** Statements: the row changes are visible once unfolded. *)
Ltac quiet_stmt :=
  apply (Keeps_translate _), Quiet_stmt; intros d a d' H;
  repeat (match type of H with
          | context [match ?x with _ => _ end] => destruct x eqn:?
          end; try discriminate H);
  unfold many, one, one_opt in H; repeat case_match; simplify_eq; done.

Section statements.
Context {E : Env} {C : Aead} {A : BotAPI} (bots : BotRepository).

Lemma Quiet_GetBlob id : Quiet (blobRepository_GetByID id).
Proof. unfold blobRepository_GetByID, GetBlobByID, one_opt. quiet_stmt. Qed.
Lemma Quiet_GetChannel id : Quiet (ChannelRepository_GetByID id).
Proof. unfold ChannelRepository_GetByID, GetChannelByID, one_opt. quiet_stmt. Qed.
Lemma Quiet_ListMembers ch : Quiet (BotChannelRepository_ListByChannel ch).
Proof. unfold BotChannelRepository_ListByChannel, ListBotChannelsByChannel, many. quiet_stmt. Qed.
Lemma Quiet_ListFiles b : Quiet (BlobBotFileRepository_ListByBlob b).
Proof. unfold BlobBotFileRepository_ListByBlob, ListBlobBotFilesByBlob, many. quiet_stmt. Qed.
Lemma Quiet_DropFiles b : Quiet (BlobBotFileRepository_DeleteByBlob b).
Proof. unfold BlobBotFileRepository_DeleteByBlob, DeleteBlobBotFilesByBlob. quiet_stmt. Qed.
Lemma Quiet_UpsertFile f : Quiet (BlobBotFileRepository_Upsert f).
Proof.
  unfold BlobBotFileRepository_Upsert. apply (Keeps_bind _); [auto with keeps|]. intros t.
  unfold UpsertBlobBotFile. quiet_stmt.
Qed.
Lemma Quiet_UpsertMember bc : Quiet (BotChannelRepository_Upsert bc).
Proof.
  unfold BotChannelRepository_Upsert. apply (Keeps_bind _); [auto with keeps|]. intros t.
  unfold UpsertBotChannel. quiet_stmt.
Qed.
Lemma Quiet_Park id t : Quiet (BotRepository_SetUnavailableUntil id t).
Proof.
  unfold BotRepository_SetUnavailableUntil. apply (Keeps_need_row _). unfold SetBotUnavailableUntil. quiet_stmt.
Qed.
Lemma Quiet_Log k m r : Quiet (EventRepository_Log k m r).
Proof.
  unfold EventRepository_Log. apply (Keeps_bind _); [auto with keeps|]. intros id.
  apply (Keeps_bind _); [auto with keeps|]. intros now. unfold LogEvent. quiet_stmt.
Qed.
Lemma Quiet_ListBots ids : Quiet (BotRepository_ListByIDs bots ids).
Proof.
  unfold BotRepository_ListByIDs. destruct ids; [auto with keeps|].
  apply (Keeps_bind _); [unfold ListBotsByIDs, many; quiet_stmt|auto with keeps].
Qed.

Lemma Quiet_Bots : Quiet (BotRepository_List bots).
Proof.
  unfold BotRepository_List. apply (Keeps_bind _); [unfold ListBots, many; quiet_stmt|auto with keeps].
Qed.

End statements.

#[export] Hint Resolve Quiet_Bots Quiet_GetBlob Quiet_GetChannel Quiet_ListMembers Quiet_ListFiles Quiet_DropFiles
  Quiet_UpsertFile Quiet_UpsertMember Quiet_Park Quiet_Log Quiet_ListBots : keeps.

Section reader.
Context {E : Env} {C : Aead} {A : BotAPI} (bots : BotRepository).

Lemma Quiet_pace b : Quiet (pace b).
Proof. unfold pace. keeps_auto. Qed.

Lemma Quiet_do b m f x : Quiet (tg_do b m f x).
Proof. unfold tg_do. apply (Keeps_bind _); [apply Quiet_pace|]. intros _. keeps_auto. Qed.

Lemma Quiet_decoded {B} r (f : apiResult → B) : Quiet (decoded r f).
Proof. unfold decoded. keeps_auto. Qed.

Hint Resolve Quiet_pace Quiet_do Quiet_decoded : keeps.

Lemma Quiet_Forward b x y z : Quiet (ForwardMessage b x y z).
Proof. unfold ForwardMessage. keeps_auto. Qed.
Lemma Quiet_DeleteMessage b x y : Quiet (DeleteMessage b x y).
Proof. unfold DeleteMessage. keeps_auto. Qed.
Lemma Quiet_Download b f : Quiet (DownloadFile b f).
Proof. unfold DownloadFile, downloadPath. keeps_auto. Qed.

Hint Resolve Quiet_Forward Quiet_DeleteMessage Quiet_Download : keeps.

Lemma Quiet_parkBot b e : Quiet (parkBot b e).
Proof. unfold parkBot. keeps_auto. Qed.
Lemma Quiet_recordNonMember b c : Quiet (recordNonMember b c).
Proof. unfold recordNonMember. keeps_auto. Qed.
Lemma Quiet_bestEffortDelete b c m : Quiet (bestEffortDelete b c m).
Proof. unfold bestEffortDelete. keeps_auto. Qed.
Lemma Quiet_deleteStale b : Quiet (deleteStaleFileID b).
Proof. unfold deleteStaleFileID. keeps_auto. Qed.
Lemma Quiet_verify bl b d : Quiet (verifyIntegrity bl b d).
Proof. unfold verifyIntegrity. keeps_auto. Qed.

Hint Resolve Quiet_parkBot Quiet_recordNonMember Quiet_bestEffortDelete Quiet_deleteStale Quiet_verify : keeps.

Lemma Quiet_react b c e : Quiet (react b c e).
Proof. unfold react. keeps_auto. Qed.
Hint Resolve Quiet_react : keeps.

Lemma Quiet_recover bl c b : Quiet (recover bl c b).
Proof. unfold recover, IncTelegramReq. keeps_auto. Qed.
Hint Resolve Quiet_recover : keeps.

Lemma Quiet_tryCandidate bl c cd : Quiet (tryCandidate bl c cd).
Proof. unfold tryCandidate, IncTelegramReq. keeps_auto. Qed.
Hint Resolve Quiet_tryCandidate : keeps.

Lemma Quiet_try_all bl c cs g : Quiet (try_all bl c cs g).
Proof. revert g. induction cs as [|cd cs IH]; intros g; simpl; keeps_auto. Qed.

Lemma Quiet_candidates bl : Quiet (candidates bots bl).
Proof. unfold candidates. keeps_auto. Qed.

End reader.

#[export] Hint Resolve Quiet_try_all Quiet_candidates : keeps.

(** ** Verified bytes *)

(** What [verifyIntegrity] accepts. *)
Definition verified (blob : Blob) (data : bytes) : Prop :=
  b_ContentHash blob = [] ∨ sha256 data = b_ContentHash blob.

Section verifying.
Context {E : Env} {C : Aead} {A : BotAPI} (bots : BotRepository).

Lemma verifyIntegrity_Ok blob bot data u w w' :
  verifyIntegrity blob bot data w = (Ok (Ok u), w') → verified blob data.
Proof.
  unfold verifyIntegrity. destruct (Z.eqb_spec (blen (b_ContentHash blob)) 0) as [H0|H0].
  { intros _. left. by apply blen_nil_inv. }
  destruct (bool_decide_reflect (sha256 data = b_ContentHash blob)); [by right|].
  rewrite try_run. by intros [= ].
Qed.

(** Bytes that came over the wire. *)
Definition fetched (data : bytes) : Prop :=
  ∃ n bot path code, api_file n bot path = DlStatus code (Some data).

Lemma DownloadFile_Ok bot f data w w' : DownloadFile bot f w = (Ok data, w') → fetched data.
Proof.
  intros H. unfold DownloadFile in H. apply bind_Ok in H as (raw & w1 & _ & H).
  apply bind_Ok in H as (p & w2 & _ & H). destruct (String.eqb p ""); [done|].
  unfold downloadPath in H. apply bind_Ok in H as (? & w3 & _ & H). apply bind_Ok in H as (ex & w4 & Hx & H).
  injection Hx as Hx _. destruct ex as [e|code body]; [done|].
  destruct (code =? 404); [done|]. destruct (negb _); [done|]. destruct body as [d|]; [|done].
  injection H as <- _. by exists (w_step w3), bot, p, code.
Qed.

Lemma react_Ok bot ch e x w w' : react bot ch e w = (Ok x, w') → x = (false, Err e).
Proof.
  unfold react. destruct (isRateLimit e); [|destruct (errors_Is e TgForbidden)]; intros H;
    [apply bind_Ok in H as (? & ? & _ & H)..|]; by injection H.
Qed.

(** "Gone" is said for one reason: the forward did not find the message. *)
Lemma recover_Ok blob ch bot g r w w' : recover blob ch bot w = (Ok (g, r), w') →
  (∀ data, r = Ok data → verified blob data ∧ fetched data) ∧ (g = true → r = Err TgMessageNotFound).
Proof.
  intros H. unfold recover in H. apply bind_Ok in H as (? & w1 & _ & H). rewrite try_run in H.
  destruct (ForwardMessage _ _ _ _ w1) as [[fwd|e] w2]; simpl in H.
  2: { unfold errors_Is in H. destruct (bool_decide_reflect (e = TgMessageNotFound)) as [->|].
       - by injection H as <- <- _.
       - apply react_Ok in H. by simplify_eq. }
  apply bind_Ok in H as (? & w3 & _ & H). rewrite try_run in H.
  apply bind_Ok in H as (? & w4 & _ & H). destruct (DownloadFile _ _ w3) as [[data|e] w5] eqn:Hd; simpl in H.
  2: { destruct (errors_Is e TgMessageNotFound); [by injection H as <- <- _|]. apply react_Ok in H. by simplify_eq. }
  apply bind_Ok in H as (v & w6 & Hv & H). destruct v as [u|e].
  - apply verifyIntegrity_Ok in Hv. apply bind_Ok in H as (now & w7 & _ & H). rewrite try_run in H.
    injection H as <- <- _. split; [|done]. intros ? [= <-]. split; [done|by eapply DownloadFile_Ok].
  - by injection H as <- <- _.
Qed.

Lemma tryCandidate_Ok blob ch c g r w w' : tryCandidate blob ch c w = (Ok (g, r), w') →
  (∀ data, r = Ok data → verified blob data ∧ fetched data) ∧ (g = true → r = Err TgMessageNotFound).
Proof.
  intros H. unfold tryCandidate in H. destruct (String.eqb _ _); [by apply recover_Ok in H|].
  apply bind_Ok in H as (? & w1 & _ & H). rewrite try_run in H.
  destruct (DownloadFile _ _ w1) as [[data|e] w2] eqn:Hd; simpl in H.
  - apply bind_Ok in H as (v & w3 & Hv & H). destruct v as [u|e].
    + apply verifyIntegrity_Ok in Hv. injection H as <- <- _. split; [|done]. intros ? [= <-].
      split; [done|by eapply DownloadFile_Ok].
    + apply bind_Ok in H as (? & w4 & _ & H). by apply recover_Ok in H.
  - destruct (errors_Is e TgMessageNotFound).
    + apply bind_Ok in H as (? & w4 & _ & H). by apply recover_Ok in H.
    + apply react_Ok in H. by simplify_eq.
Qed.

(** The candidates one after the other, each from where the one before left. *)
Fixpoint attempts (blob : Blob) (ch : Channel) (cs : list candidate) (w : World) : list tried :=
  match cs with
  | [] => []
  | c :: rest => match tryCandidate blob ch c w with
                 | (Ok t, w') => t :: attempts blob ch rest w'
                 | (Err _, _) => []
                 end
  end.

Lemma try_all_Ok blob ch cs g g' r w w' : try_all blob ch cs g w = (Ok (g', r), w') →
  match r with
  | Ok data => verified blob data ∧ fetched data
  | Err e => e = ErrBlobUnavailable ∧ length (attempts blob ch cs w) = length cs
             ∧ Forall (λ t, ∃ e', t.2 = Err e') (attempts blob ch cs w)
             ∧ g' = g || existsb fst (attempts blob ch cs w)
  end.
Proof.
  revert g w. induction cs as [|c cs IH]; intros g w H; simpl in H.
  - injection H as <- <- <-. simpl. by rewrite orb_false_r.
  - unfold bind in H. destruct (tryCandidate blob ch c w) as [[[gone r0]|e0] w1] eqn:Ht; [|done].
    destruct r0 as [data|e1].
    + injection H as <- <- _. apply tryCandidate_Ok in Ht as [Hv _]. by apply Hv.
    + apply IH in H. destruct r as [d|e]; [done|]. destruct H as (-> & Hl & Hf & ->). simpl. rewrite Ht. simpl.
      split; [done|]. split; [by rewrite Hl|]. split; [constructor; [by exists e1|done]|]. by rewrite orb_assoc.
Qed.

End verifying.

(** ** Errors other than EOF *)

Section errors.
Context {E : Env} {C : Aead} {A : BotAPI} (bots : BotRepository).

Definition NoEOF {X} (m : M X) : Prop := ∀ w e w', m w = (Err e, w') → e ≠ IoEOF.

Lemma NoEOF_bind {X Y} (m : M X) (k : X → M Y) : NoEOF m → (∀ a, NoEOF (k a)) → NoEOF (bind m k).
Proof.
  intros Hm Hk w e w' [(a & w1 & H1 & H2)|(e' & H1 & [= ->])]%bind_cases; [by eapply Hk|by eapply Hm].
Qed.

Lemma NoEOF_try {X Y} (m : M X) (k : res X → M Y) : (∀ r, NoEOF (k r)) → NoEOF (try m k).
Proof. intros Hk w e w' H. rewrite try_run in H. by eapply Hk. Qed.

Lemma NoEOF_ret {X} (a : X) : NoEOF (ret a).
Proof. by intros w e w'. Qed.

Lemma NoEOF_fail {X} e : e ≠ IoEOF → NoEOF (fail (A := X) e).
Proof. by intros He w e' w' [= <- _]. Qed.

Lemma NoEOF_gets {X} (f : World → X) : NoEOF (gets f).
Proof. by intros w e w'. Qed.

Lemma NoEOF_modify f : NoEOF (modify f).
Proof. by intros w e w'. Qed.

Lemma NoEOF_if {X} (b : bool) (m1 m2 : M X) : NoEOF m1 → NoEOF m2 → NoEOF (if b then m1 else m2).
Proof. by destruct b. Qed.

Lemma NoEOF_Now : NoEOF Now.
Proof. by intros w e w'. Qed.

Lemma NoEOF_stmt {X} (q : sql X) : NoEOF (translate (stmt q)).
Proof.
  intros w e w' (e0 & H & ->)%translate_Err. apply query_Err in H as (_ & _ & _ & H).
  destruct H as [(-> & _)|[Hh _]]; [done|]. destruct e0; try done. simpl. by destruct e.
Qed.

Lemma NoEOF_hydrate r m : NoEOF (of_res (hydrate r m)).
Proof.
  intros w e w' [= H _]. unfold hydrate, decryptToken in H. repeat case_match; by simplify_eq.
Qed.

Lemma NoEOF_map_each {X Y} (l : list X) (f : X → M Y) : (∀ x, NoEOF (f x)) → NoEOF (map_each l f).
Proof.
  intros Hf. induction l as [|x l IH]; simpl; [apply NoEOF_ret|].
  apply NoEOF_bind; [done|]. intros y. apply NoEOF_bind; [done|]. intros ys. apply NoEOF_ret.
Qed.

Lemma NoEOF_candidates bl : NoEOF (candidates bots bl).
Proof.
  unfold candidates. apply NoEOF_bind; [apply NoEOF_Now|intros now].
  apply NoEOF_bind; [apply NoEOF_stmt|intros bcs].
  apply NoEOF_bind; [|intros loaded; apply NoEOF_bind; [apply NoEOF_stmt|intros; apply NoEOF_ret]].
  unfold BotRepository_ListByIDs. destruct (members ∅ bcs); [apply NoEOF_ret|].
  apply NoEOF_bind; [apply NoEOF_stmt|]. intros ms. apply NoEOF_map_each. intros x. apply NoEOF_hydrate.
Qed.

End errors.

(** ** Bookkeeping never fails *)

Create HintDb total.

Section total.
Context {E : Env} {C : Aead} {A : BotAPI}.

Definition Total {X} (m : M X) : Prop := ∀ w, ∃ a w', m w = (Ok a, w').

Lemma Total_ret {X} (a : X) : Total (ret a).
Proof. intros w. by eexists _, _. Qed.
Lemma Total_modify f : Total (modify f).
Proof. intros w. by eexists _, _. Qed.
Lemma Total_Now : Total Now.
Proof. intros w. by eexists _, _. Qed.
Lemma Total_bind {X Y} (m : M X) (k : X → M Y) : Total m → (∀ a, Total (k a)) → Total (bind m k).
Proof. intros Hm Hk w. unfold bind. destruct (Hm w) as (a & w1 & ->). apply Hk. Qed.
Lemma Total_try {X Y} (m : M X) (k : res X → M Y) : (∀ r, Total (k r)) → Total (try m k).
Proof. intros Hk w. rewrite try_run. apply Hk. Qed.

#[local] Hint Resolve Total_ret Total_modify Total_Now : total.

Ltac total_auto :=
  repeat first
    [ progress auto with total
    | match goal with
      | |- Total (bind _ _) => apply Total_bind; [|intros ?]
      | |- Total (try _ _) => apply Total_try; intros ?
      end
    | case_match ].

Lemma Total_parkBot b e : Total (parkBot b e).
Proof. unfold parkBot. total_auto. Qed.
Lemma Total_recordNonMember b c : Total (recordNonMember b c).
Proof. unfold recordNonMember. total_auto. Qed.
Lemma Total_bestEffortDelete b c m : Total (bestEffortDelete b c m).
Proof. unfold bestEffortDelete. total_auto. Qed.
Lemma Total_deleteStale b : Total (deleteStaleFileID b).
Proof. unfold deleteStaleFileID. total_auto. Qed.
Lemma Total_verify bl b d : Total (verifyIntegrity bl b d).
Proof. unfold verifyIntegrity. total_auto. Qed.
#[local] Hint Resolve Total_parkBot Total_recordNonMember Total_bestEffortDelete Total_deleteStale Total_verify : total.

Lemma Total_react b c e : Total (react b c e).
Proof. unfold react. total_auto. Qed.
#[local] Hint Resolve Total_react : total.
Lemma Total_recover bl c b : Total (recover bl c b).
Proof. unfold recover, IncTelegramReq, bump. total_auto. Qed.
#[local] Hint Resolve Total_recover : total.
Lemma Total_tryCandidate bl c cd : Total (tryCandidate bl c cd).
Proof. unfold tryCandidate, IncTelegramReq, bump. total_auto. Qed.

Lemma Total_try_all bl c cs g : Total (try_all bl c cs g).
Proof.
  revert g. induction cs as [|cd cs IH]; intros g; simpl; [total_auto|].
  apply Total_bind; [apply Total_tryCandidate|]. intros [gone r]. destruct r; total_auto.
Qed.

Lemma Total_markPerm bl : Total (markPermUnavailable bl).
Proof. unfold markPermUnavailable. total_auto. Qed.

End total.

(** ** ReadBlob *)

Section readblob.
Context {E : Env} {C : Aead} {A : BotAPI} (bots : BotRepository).

(** A put, whatever it returns, keeps the index within its bound. *)
Lemma cache_Put_ok id data w r w' : cache_ok (w_cache w) → blen data < 2 ^ 62 → cache_Put id data w = (r, w') →
  cache_ok (w_cache w').
Proof.
  intros Hok Hlen H. unfold cache_Put, bind in H. destruct (put_file id data w) as [rf w1] eqn:Hf.
  assert (cache_ok (w_cache w1)) as Hok1.
  { unfold put_file, io_ok, Now, upd_cache, modify, bind, fail in Hf. simpl in Hf.
    repeat (destruct (env_io_fault _); simpl in Hf; [by injection Hf as _ <-|]).
    injection Hf as _ <-. destruct Hok as [Hw Hb]. split; [by apply wf_files|done]. }
  destruct rf as [[]|e]; [|by injection H as _ <-].
  destruct (put_index_run id (blen data) w1 Hok1) as (w2 & c & Hr & Hok2 & _); [split; [blen_lia|done]|].
  rewrite Hr in H. by injection H as _ <-.
Qed.

(** A body is shorter than the address space. *)
Definition bodies_ok : Prop := ∀ data, fetched data → blen data < 2 ^ 62.

Lemma GetBlob_Ok id w blob w' : blobRepository_GetByID id w = (Ok blob, w') → d_blobs (w_db w) !! id = Some blob.
Proof.
  intros (_ & _ & d & Hq & _)%translate_Ok%stmt_Ok. unfold GetBlobByID, one_opt in Hq.
  destruct (d_blobs (w_db w) !! id); [|done]. by injection Hq as -> _.
Qed.

(** Where the bytes of a successful read come from, and what the read leaves. *)
Lemma ReadBlob_Ok id w data w' : ReadBlob bots id w = (Ok data, w') →
  ∃ blob, d_blobs (w_db w) !! id = Some blob ∧ b_State blob = BlobStateStored
    ∧ ((∃ t, ca_files (w_cache w) !! id = Some (data, t)) ∨ (verified blob data ∧ fetched data))
    ∧ side (w_db w) (w_db w') ∧ (w_tx w = None → w_tx w' = None)
    ∧ (bodies_ok → cache_ok (w_cache w) → cache_ok (w_cache w')).
Proof.
  intros H. unfold ReadBlob in H. apply bind_Ok in H as (blob & w1 & Hb & H).
  pose proof (Quiet_GetBlob _ _ _ _ Hb) as Hq1. apply GetBlob_Ok in Hb as Hblob.
  destruct (negb (Readable (b_State blob))) eqn:Hread; [done|].
  assert (b_State blob = BlobStateStored) as Hst by (by apply negb_false_iff, bool_decide_eq_true in Hread).
  exists blob. split; [done|]. split; [done|].
  apply bind_Ok in H as (hit & w2 & Hg & H). rewrite <- (qu_cache _ _ Hq1).
  apply cache_Get_db in Hg as Hd2. destruct Hd2 as (_ & Hdb2 & Htx2).
  assert (cache_ok (w_cache w1) → cache_ok (w_cache w2)) as Hok2.
  { intros (Hwf & Hmax & Ht). apply Get_spec in Hg as (Hle & _); [|done]. split; [apply Hle|].
    destruct (le_max _ _ Hle) as [-> _]. pose proof (le_total _ _ Hle). lia. }
  destruct hit as [d|].
  { apply bind_Ok in H as (? & w3 & Hi & H). injection Hi as _ <-. injection H as <- <-. simpl.
    split; [left; by eapply Get_bytes|]. rewrite Hdb2, Htx2. split; [apply Hq1|]. split; [apply (qu_none _ _ Hq1)|]. auto. }
  apply bind_Ok in H as (? & w3 & Hi & H). injection Hi as _ <-.
  apply bind_Ok in H as (ch & w4 & Hch & H). pose proof (Quiet_GetChannel _ _ _ _ Hch) as Hq4.
  apply bind_Ok in H as (cs & w5 & Hcs & H). pose proof (Quiet_candidates _ _ _ _ _ Hcs) as Hq5.
  destruct cs as [|c0 cs0]; [done|]. apply bind_Ok in H as ([g r] & w6 & Ht & H).
  pose proof (Quiet_try_all _ _ _ _ _ _ _ Ht) as Hq6. destruct r as [d|e].
  2: { destruct g; [apply bind_Ok in H as (? & ? & _ & H)|]; done. }
  apply try_all_Ok in Ht. rewrite try_run in H. destruct (cache_Put id d w6) as [rp w7] eqn:Hp. simpl in H.
  apply bind_Ok in H as (? & w8 & Ha & H). injection Ha as _ <-. injection H as <- <-.
  assert (w_cache w6 = w_cache w2) as Hc6
    by (rewrite (qu_cache _ _ Hq6), (qu_cache _ _ Hq5), (qu_cache _ _ Hq4); done).
  pose proof (cache_Put_db _ _ _ _ _ Hp) as [Hdb7 Htx7].
  split; [by right|]. simpl. rewrite Hdb7, Htx7. split; [|split].
  - etrans; [apply Hq1|]. rewrite <- Hdb2. etrans; [|apply Hq6]. etrans; [|apply Hq5]. apply Hq4.
  - intros Htx. apply (qu_none _ _ Hq6), (qu_none _ _ Hq5), (qu_none _ _ Hq4). simpl. rewrite Htx2. by apply (qu_none _ _ Hq1).
  - intros Hbo Hok. eapply cache_Put_ok; [|by apply Hbo, Ht|exact Hp]. rewrite Hc6. by apply Hok2.
Qed.

Lemma Keeps_culled {X} (m : M X) w x w' : Keeps (leaves whatever) m → m w = (x, w') → culled w w'.
Proof. by intros Hm [_ _ ?]%Hm. Qed.

(** What a read, whatever it returns, puts into the cache: bytes that came over the
    wire and hash as the blob they are put for. *)
Lemma ReadBlob_adds id w r w' : ReadBlob bots id w = (r, w') →
  ∀ x b t, ca_files (w_cache w') !! x = Some (b, t) →
    (x = id ∧ r = Ok b ∧ ∃ blob, d_blobs (w_db w) !! x = Some blob ∧ verified blob b ∧ fetched b)
    ∨ ∃ t', ca_files (w_cache w) !! x = Some (b, t').
Proof.
  intros H. assert (∀ wa, culled w wa → culled wa w' → ∀ x b t, ca_files (w_cache w') !! x = Some (b, t) →
    (x = id ∧ r = Ok b ∧ ∃ blob, d_blobs (w_db w) !! x = Some blob ∧ verified blob b ∧ fetched b)
    ∨ ∃ t', ca_files (w_cache w) !! x = Some (b, t')) as Hno
    by (intros wa H1 H2 x b t Hx; right; destruct (H2 x b t Hx) as [t1 Hx1]; by eapply H1).
  unfold ReadBlob in H. apply bind_cases in H as [(blob & w1 & Hb & H)|(e & Hb & _)].
  2: { apply (Hno w); [done|]. apply culled_same. by apply Quiet_GetBlob in Hb as []. }
  apply GetBlob_Ok in Hb as Hblob. apply Quiet_GetBlob in Hb as Hq1.
  pose proof (culled_same _ _ (qu_cache _ _ Hq1)) as Hc1. destruct (negb _); [injection H as _ <-; by apply (Hno w1)|].
  apply bind_cases in H as [(hit & w2 & Hg & H)|(e & Hg & _)]; apply (leaves_Get whatever) in Hg as [_ _ Hc2]; [|by apply (Hno w1)].
  assert (culled w w2) as Hc by by etrans. destruct hit as [d|]; [injection H as _ <-; apply (Hno w2); [done|by apply culled_same]|].
  apply bind_cases in H as [(u & w3 & H3 & H)|(e & H3 & _)]; [injection H3 as _ <-|done].
  apply bind_cases in H as [(ch & w4 & H4 & H)|(e & H4 & _)]; apply Quiet_GetChannel in H4 as Hq4.
  2: { apply (Hno w2); [done|]. apply culled_same. by destruct Hq4. }
  apply bind_cases in H as [(cs & w5 & H5 & H)|(e & H5 & _)]; apply Quiet_candidates in H5 as Hq5.
  2: { apply (Hno w2); [done|]. apply culled_same. rewrite (qu_cache _ _ Hq5). by destruct Hq4. }
  assert (w_cache w5 = w_cache w2) as Hc5 by (rewrite (qu_cache _ _ Hq5), (qu_cache _ _ Hq4); done).
  destruct cs as [|c0 cs0]; [injection H as _ <-; apply (Hno w2); [done|by apply culled_same]|].
  apply bind_cases in H as [([g x] & w6 & H6 & H)|(e & H6 & _)]; apply Quiet_try_all in H6 as Hq6;
    assert (w_cache w' = w_cache w2 → ∀ x b t, ca_files (w_cache w') !! x = Some (b, t) →
      (x = id ∧ r = Ok b ∧ ∃ blob, d_blobs (w_db w) !! x = Some blob ∧ verified blob b ∧ fetched b)
      ∨ ∃ t', ca_files (w_cache w) !! x = Some (b, t')) as Hno2 by (intros Heq; apply (Hno w2); [done|by apply culled_same]).
  2: { apply Hno2. by rewrite (qu_cache _ _ Hq6), Hc5. }
  destruct x as [d|e].
  2: { apply (Hno w2); [done|]. transitivity w6; [apply culled_same; by rewrite (qu_cache _ _ Hq6)|].
       eapply (Keeps_culled _ w6 r w'); [|exact H]. unfold markPermUnavailable, cascade_tx, blobRepository_SetState, EventRepository_Log,
         extentRepository_ListNodesSolelyOnBlob, NodeRepository_Delete. keeps_auto. }
  apply try_all_Ok in H6 as [Hv Hf]. rewrite try_run in H. destruct (cache_Put id d w6) as [rp w7] eqn:Hp. simpl in H.
  injection H as <- <-. intros x b t Hx. simpl in Hx. destruct (Put_bytes _ _ _ _ _ Hp x b t Hx) as [[-> ->]|[t1 Hx1]]; [left; split_and!; [done..|by exists blob]|right].
  rewrite (qu_cache _ _ Hq6), Hc5 in Hx1. by eapply Hc.
Qed.

Lemma ReadBlob_Err id w e w' : ReadBlob bots id w = (Err e, w') → e ≠ IoEOF.
Proof.
  intros H. unfold ReadBlob in H. apply bind_cases in H as [(blob & w1 & Hb & H)|(e' & Hb & [= ->])].
  2: by eapply NoEOF_stmt.
  destruct (negb _); [by injection H as <- _|].
  apply bind_cases in H as [(hit & w2 & Hg & H)|(e' & Hg & _)].
  2: { apply cache_Get_db in Hg as ((o & ?) & _); done. }
  destruct hit as [d|]; [done|]. apply bind_cases in H as [(? & w3 & _ & H)|(? & Hi & _)]; [|done].
  apply bind_cases in H as [(ch & w4 & _ & H)|(e' & Hch & [= ->])]; [|by eapply NoEOF_stmt].
  apply bind_cases in H as [(cs & w5 & _ & H)|(e' & Hcs & [= ->])]; [|by eapply NoEOF_candidates].
  destruct cs as [|c0 cs0]; [by injection H as <- _|].
  apply bind_cases in H as [([g r] & w6 & _ & H)|(e' & Ht & _)].
  2: { destruct (Total_try_all blob ch (c0 :: cs0) false w5) as (? & ? & Ht'). congruence. }
  destruct r as [d|e1]; [by rewrite try_run in H|]. destruct g; [|by injection H as <- _].
  apply bind_cases in H as [(? & w7 & _ & H)|(e' & Hm & _)]; [by injection H as <- _|].
  destruct (Total_markPerm blob w6) as (? & ? & Ht'). congruence.
Qed.

(** The blob service the filesystem is proved against: [st] is what some of the blobs
    hold.  The cache only holds those bytes for them, and among the bodies Telegram
    ever serves only those have the blob's hash. *)
Record pinned (st : uuid → option bytes) (w : World) : Prop := {
  pi_files : ∀ id data t bs, ca_files (w_cache w) !! id = Some (data, t) → st id = Some bs → data = bs;
  pi_hash : ∀ id b data bs, d_blobs (w_db w) !! id = Some b → b_State b = BlobStateStored →
    verified b data → fetched data → st id = Some bs → data = bs }.

Lemma reader_laws st : BlobLaws (B := blob_reader bots) st (pinned st).
Proof.
  split.
  - intros w w' [Hdb Hca] []. split; by rewrite ?Hdb, ?Hca.
  - intros id w r w' [Hf Hh] H. destruct r as [data|e]; [|exact (ReadBlob_Err _ _ _ _ H)].
    pose proof (ReadBlob_adds _ _ _ _ H) as Hadd. apply ReadBlob_Ok in H as (blob & Hb & Hs & Hfrom & Hside & Htx & _).
    assert (∀ bs, st id = Some bs → data = bs) as Hd
      by (intros bs; destruct Hfrom as [[t Ht]|[Hv Hfe]]; [by eapply Hf|by apply (Hh id blob)]).
    split_and!; try done; [|split; apply Hside]. split; [|by rewrite (si_blobs _ _ Hside)].
    intros x b t bs Hx. destruct (Hadd x b t Hx) as [(-> & _ & bl & Hbl & Hv & Hfe)|[t' Hx']]; [|by eapply Hf].
    rewrite Hb in Hbl. injection Hbl as <-. by apply (Hh id blob).
Qed.

End readblob.
