(* ===== verification/SelectFacts.v ===== *)
(** * Facts about the choice of a bot: membership rows, loaded bots, candidates

    Shared by the reader (blob.go) and the upload side (bot.go, channel.go). *)
From Stdlib Require Import ZArith Lia Strings.Byte Strings.String.
From stdpp Require Import base tactics list gmap sets strings.
From S2P Require Import Prelude Model Sql SqlFacts World Repository Crypto Accounts File Cache Telegram BlobReader.
#[local] Open Scope string_scope.
#[local] Open Scope Z_scope.
Open Scope m_scope.

(** The columns of a bot decide whether it may be used now. *)
Definition row_available (r : BotRow) (now : time) : bool :=
  br_Enabled r && match br_UnavailableUntil r with Some u => negb (Before now u) | None => true end.

(** The bot is recorded as a member of the channel. *)
Definition member_of (bot ch : uuid) (d : Db) : Prop :=
  ∃ k bc, d_bot_channel d !! k = Some bc ∧ bc_ChannelID bc = ch ∧ bc_BotID bc = bot ∧ bc_Member bc = true.

Definition bots_keyed (d : Db) : Prop := ∀ k r, d_bots d !! k = Some r → br_ID r = k.

(** A member that is enabled and not parked. *)
Definition usable (bot ch : uuid) (now : time) (d : Db) : Prop :=
  member_of bot ch d ∧ ∃ r, d_bots d !! bot = Some r ∧ row_available r now = true.

Section loading.
Context {E : Env} {C : Aead} (bots : BotRepository).

(** A bot in memory is its row with the token decrypted. *)
Definition loads (r : BotRow) (b : Bot) : Prop :=
  bot_ID b = br_ID r ∧ bot_Enabled b = br_Enabled r ∧ ∀ now, Available b now = row_available r now.

Lemma hydrate_loads r b : hydrate bots r = Ok b → loads r b.
Proof.
  unfold hydrate. destruct (decryptToken bots (br_TokenEnc r)); [|done]. intros [= <-]. split; [done|]. split; [done|].
  intros now. unfold Available, row_available. simpl. destruct (br_Enabled r); simpl; [|done].
  destruct (br_UnavailableUntil r); [|done]. by destruct (Before now _).
Qed.

Lemma map_hydrate ms w l w' : map_each ms (λ m, of_res (hydrate bots m)) w = (Ok l, w') →
  w' = w ∧ Forall2 loads ms l.
Proof.
  revert w l. induction ms as [|m ms IH]; intros w l H; cbn [map_each] in H.
  - unfold ret in H. by simplify_eq.
  - apply bind_Ok in H as (b & w1 & Hb & H). unfold of_res in Hb. injection Hb as Hb <-.
    apply bind_Ok in H as (bs & w2 & Hbs & H). unfold ret in H. simplify_eq.
    apply IH in Hbs as [-> Hf]. split; [done|]. constructor; [by apply hydrate_loads|done].
Qed.

Lemma map_hydrate_Err ms w e w' : map_each ms (λ m, of_res (hydrate bots m)) w = (Err e, w') → w' = w.
Proof.
  revert w e. induction ms as [|m ms IH]; intros w e H; cbn [map_each] in H; [done|].
  apply bind_cases in H as [(b & w1 & Hb & H)|(e' & Hb & _)]; unfold of_res in Hb; injection Hb as _ <-; [|done].
  apply bind_cases in H as [(bs & w2 & Hbs & H)|(e' & Hbs & _)]; [done|by eapply IH].
Qed.

Lemma loads_elem ms l b : Forall2 loads ms l → b ∈ l → ∃ m, m ∈ ms ∧ loads m b.
Proof.
  intros Hf. induction Hf as [|m b' ms l Hm Hf IH]; [by intros ?%elem_of_nil|].
  intros [->|Hb]%elem_of_cons; [exists m; by split; [left|]|].
  destruct (IH Hb) as (m' & ? & ?). exists m'. by split; [right|].
Qed.

Lemma loads_elem_l ms l m : Forall2 loads ms l → m ∈ ms → ∃ b, b ∈ l ∧ loads m b.
Proof.
  intros Hf. induction Hf as [|m' b ms l Hm Hf IH]; [by intros ?%elem_of_nil|].
  intros [->|Hb]%elem_of_cons; [exists b; by split; [left|]|].
  destruct (IH Hb) as (b' & ? & ?). exists b'. by split; [right|].
Qed.

(** A listed bot is a row of the table and every row asked for is listed. *)
Definition listed (P : uuid → Prop) (d : Db) (l : list Bot) : Prop :=
  (∀ b, b ∈ l → P (bot_ID b) ∧ ∃ r, d_bots d !! bot_ID b = Some r ∧ loads r b)
  ∧ ∀ id r, P id → d_bots d !! id = Some r → ∃ b, b ∈ l ∧ bot_ID b = id ∧ loads r b.

Lemma rows_listed (P : uuid → bool) d l w w' : bots_keyed d →
  map_each (rows (λ r, P (br_ID r)) (d_bots d)) (λ m, of_res (hydrate bots m)) w = (Ok l, w') →
  w' = w ∧ listed (λ id, P id = true) d l.
Proof.
  intros Hk [-> Hf]%map_hydrate. split; [done|]. split.
  - intros b Hb. destruct (loads_elem _ _ b Hf Hb) as (m & (k & Hm & HP)%elem_of_rows & Hid & Hav).
    rewrite Hid. split; [done|]. exists m. rewrite (Hk _ _ Hm). by split.
  - intros id r HP Hr. destruct (loads_elem_l _ _ r Hf) as (b & Hb & Hid & Hav).
    { apply elem_of_rows. exists id. by rewrite (Hk _ _ Hr). }
    exists b. by rewrite Hid, (Hk _ _ Hr).
Qed.

Lemma ListByIDs_Ok ids w l w' : bots_keyed (w_db w) → BotRepository_ListByIDs bots ids w = (Ok l, w') →
  w_db w' = w_db w ∧ listed (λ id, id ∈ ids) (w_db w) l.
Proof.
  intros Hk H. unfold BotRepository_ListByIDs in H. destruct ids as [|i ids].
  { unfold ret in H. simplify_eq. split; [done|]. split; [by intros b ?%elem_of_nil|by intros id r ?%elem_of_nil]. }
  m_inv. unfold ListBotsByIDs, many in Hq. simplify_eq.
  rewrite (rows_ext _ (λ r, bool_decide (br_ID r ∈ i :: ids))) in H by (intros; by apply bool_decide_ext).
  destruct (rows_listed (λ id, bool_decide (id ∈ i :: ids)) (w_db w) l _ w' Hk H) as [-> [H1 H2]].
  split; [done|]. split.
  - intros b Hb. destruct (H1 b Hb) as [?%bool_decide_eq_true ?]. done.
  - intros id r Hid. apply H2. by apply bool_decide_eq_true.
Qed.

Lemma ListBots_Ok w l w' : bots_keyed (w_db w) → BotRepository_List bots w = (Ok l, w') →
  w_db w' = w_db w ∧ listed (λ _, True) (w_db w) l.
Proof.
  intros Hk H. unfold BotRepository_List in H. m_inv. unfold ListBots, many in Hq. simplify_eq.
  apply map_hydrate in H as [-> Hf]. split; [done|].
  assert (∀ m, m ∈ sort_by br_CreatedAt (rows (λ _, true) (d_bots (w_db w))) ↔ ∃ k, d_bots (w_db w) !! k = Some m) as Hm.
  { intros m. rewrite sort_by_perm, elem_of_rows. naive_solver. }
  split.
  - intros b Hb. destruct (loads_elem _ _ b Hf Hb) as (m & [k Hkm]%Hm & Hid & Hav). split; [done|].
    exists m. by rewrite Hid, (Hk _ _ Hkm).
  - intros id r _ Hr. destruct (loads_elem_l _ _ r Hf) as (b & Hb & Hid & Hav); [apply Hm; by exists id|].
    exists b. by rewrite Hid, (Hk _ _ Hr).
Qed.

Lemma ListBots_tick w l w' : BotRepository_List bots w = (Ok l, w') → w' = tick w.
Proof.
  intros H. unfold BotRepository_List in H. m_inv. unfold ListBots, many in Hq. simplify_eq.
  apply map_hydrate in H as [-> _]. by rewrite set_db_id.
Qed.

(** ** The candidates of the reader *)

Lemma elem_members seen bcs id : id ∈ members seen bcs ↔
  id ∉ seen ∧ ∃ bc, bc ∈ bcs ∧ bc_BotID bc = id ∧ bc_Member bc = true.
Proof.
  revert seen. induction bcs as [|bc bcs IH]; intros seen; cbn [members].
  { split; [by intros ?%elem_of_nil|intros (_ & bc & ?%elem_of_nil & _); done]. }
  destruct (bc_Member bc) eqn:Hm; simpl; [case_bool_decide as Hin|].
  - rewrite IH. split; intros (Hs & bc' & Hb & Hid & Hmb); (split; [done|]).
    + exists bc'. by split; [right|].
    + apply elem_of_cons in Hb as [->|Hb]; [by subst|by exists bc'].
  - rewrite elem_of_cons, IH, not_elem_of_union, not_elem_of_singleton. split.
    + intros [->|((_ & Hs) & bc' & Hb & Hid & Hmb)]; (split; [done|]); [exists bc|exists bc']; set_solver.
    + intros (Hs & bc' & Hb & Hid & Hmb). destruct (decide (id = bc_BotID bc)) as [->|Hne]; [by left|right].
      split; [done|]. exists bc'. apply elem_of_cons in Hb as [->|Hb]; [done|by split].
  - rewrite IH. split; intros (Hs & bc' & Hb & Hid & Hmb); (split; [done|]).
    + exists bc'. by split; [right|].
    + apply elem_of_cons in Hb as [->|Hb]; [congruence|by exists bc'].
Qed.

Lemma NoDup_members seen bcs : NoDup (members seen bcs).
Proof.
  revert seen. induction bcs as [|bc bcs IH]; intros seen; cbn [members]; [constructor|].
  destruct (_ || _); [done|]. constructor; [|done]. rewrite elem_members. set_solver.
Qed.

(** The last binding of an association list. *)
Lemma foldl_lookup {X} (key : X → uuid) {Y} (val : X → Y) (l : list X) (m : gmap uuid Y) id :
  match foldl (λ m x, <[key x := val x]> m) m l !! id with
  | Some y => (∃ x, x ∈ l ∧ key x = id ∧ val x = y) ∨ (m !! id = Some y ∧ ∀ x, x ∈ l → key x ≠ id)
  | None => m !! id = None ∧ ∀ x, x ∈ l → key x ≠ id
  end.
Proof.
  revert m. induction l as [|x l IH]; intros m; simpl.
  { destruct (m !! id) as [y|]; [right|]; (split; [done|by intros x ?%elem_of_nil]). }
  specialize (IH (<[key x := val x]> m)). destruct (foldl _ _ l !! id) as [y|].
  - destruct IH as [(z & Hz & Hk & Hv)|[Hl Hn]]; [left; exists z; by split; [right|]|].
    apply lookup_insert_Some in Hl as [[Hk Hv]|[Hk Hl]].
    + left. exists x. by split; [left|].
    + right. split; [done|]. intros z [->|Hz]%elem_of_cons; [done|by apply Hn].
  - destruct IH as [Hl Hn]. apply lookup_insert_None in Hl as [Hl Hk]. split; [done|].
    intros z [->|Hz]%elem_of_cons; [done|by apply Hn].
Qed.

Lemma usable_bots_spec now ids loaded d : listed (λ id, id ∈ ids) d loaded → NoDup ids →
  NoDup (bot_ID <$> usable_bots now ids loaded)
  ∧ (∀ b, b ∈ usable_bots now ids loaded → b ∈ loaded)
  ∧ ∀ id, id ∈ (bot_ID <$> usable_bots now ids loaded) ↔
      id ∈ ids ∧ ∃ r, d_bots d !! id = Some r ∧ row_available r now = true.
Proof.
  intros [Hl1 Hl2] Hnd. unfold usable_bots.
  set (byID := foldl (λ (m : gmap uuid Bot) b, <[bot_ID b := b]> m) ∅ loaded).
  assert (∀ id b, byID !! id = Some b → b ∈ loaded ∧ bot_ID b = id) as Hby.
  { intros id b Hb. pose proof (foldl_lookup bot_ID (λ b : Bot, b) loaded ∅ id) as H. cbv beta in H. fold byID in H.
    rewrite Hb in H. destruct H as [(x & Hx & <- & <-)|[Hn _]]; [done|by rewrite lookup_empty in Hn]. }
  assert (∀ id b, b ∈ loaded → bot_ID b = id → is_Some (byID !! id)) as Hby2.
  { intros id b Hb Hid. pose proof (foldl_lookup bot_ID (λ b : Bot, b) loaded ∅ id) as H. cbv beta in H. fold byID in H.
    destruct (byID !! id); [by eexists|]. destruct H as [_ Hn]. by destruct (Hn b Hb). }
  clearbody byID. set (pick := λ id, match byID !! id with
     | Some b => if Available b now then Some b else None | None => None end).
  assert (∀ id b, pick id = Some b → byID !! id = Some b ∧ Available b now = true) as Hpick.
  { intros id b. unfold pick. destruct (byID !! id) as [b'|]; [|done]. destruct (Available b' now) eqn:Ha; [|done].
    intros. by simplify_eq. }
  split_and!.
  - clear Hl1 Hl2. induction ids as [|i ids IH]; [constructor|]. apply NoDup_cons in Hnd as [Hi Hnd]. simpl.
    destruct (pick i) as [b|] eqn:Hp; [|by apply IH]. apply Hpick in Hp as [Hp _]. apply Hby in Hp as [_ Hid].
    change (NoDup (bot_ID b :: (bot_ID <$> omap pick ids))). constructor; [|by apply IH].
    intros (b' & Heq & Hb')%list_elem_of_fmap. apply list_elem_of_omap in Hb' as (j & Hj & Hb').
    apply Hpick in Hb' as [Hb' _]. apply Hby in Hb' as [_ Hid']. congruence.
  - intros b (i & _ & Hp)%list_elem_of_omap. apply Hpick in Hp as [Hp _]. by apply Hby in Hp as [].
  - intros id. rewrite list_elem_of_fmap. split.
    + intros (b & -> & (i & Hi & Hp)%list_elem_of_omap). apply Hpick in Hp as [Hp Ha]. apply Hby in Hp as [Hb <-].
      split; [done|]. destruct (Hl1 b Hb) as (_ & r & Hr & _ & _ & Hav). exists r. by rewrite <- Hav.
    + intros [Hin (r & Hr & Ha)]. destruct (Hl2 id r Hin Hr) as (b & Hb & Hid & _ & _ & Hav).
      destruct (Hby2 id b Hb Hid) as [b' Hb']. exists b'. destruct (Hby _ _ Hb') as [Hb'l Hid'].
      split; [done|]. apply list_elem_of_omap. exists id. split; [done|]. unfold pick. rewrite Hb'.
      destruct (Hl1 b' Hb'l) as (_ & r' & Hr' & _ & _ & Hav'). rewrite Hid', Hr in Hr'. injection Hr' as <-.
      by rewrite Hav', Ha.
Qed.

Lemma order_bots order files :
  cd_bot <$> order_candidates order files ≡ₚ order.
Proof.
  unfold order_candidates. rewrite fmap_app. induction order as [|b l IH]; [done|]. simpl.
  destruct (files !! bot_ID b); simpl; [by f_equiv|]. rewrite <- Permutation_middle. by f_equiv.
Qed.

Lemma order_parts order files : ∃ l1 l2, order_candidates order files = (l1 ++ l2)%list
  ∧ (∀ c, c ∈ l1 → files !! bot_ID (cd_bot c) = Some (cd_fileID c))
  ∧ (∀ c, c ∈ l2 → files !! bot_ID (cd_bot c) = None ∧ cd_fileID c = "").
Proof.
  eexists _, _. split; [done|]. split; intros c (b & _ & Hc)%list_elem_of_omap;
    destruct (files !! bot_ID b) eqn:Hf; simplify_eq; done.
Qed.

(** What the reader tries, in terms of the tables. *)
Definition cached_file (blob bot : uuid) (fid : string) (d : Db) : Prop :=
  ∃ k f, d_blob_bot_files d !! k = Some f ∧ f_BlobID f = blob ∧ f_BotID f = bot ∧ f_FileID f = fid.

Lemma candidates_Ok blob w cs w' : bots_keyed (w_db w) → candidates bots blob w = (Ok cs, w') →
  NoDup (bot_ID ∘ cd_bot <$> cs)
  ∧ (∀ id, id ∈ (bot_ID ∘ cd_bot <$> cs) ↔ usable id (b_ChannelID blob) (env_now (w_step w)) (w_db w))
  ∧ ∃ l1 l2, cs = (l1 ++ l2)%list
      ∧ (∀ c, c ∈ l1 → cached_file (b_ID blob) (bot_ID (cd_bot c)) (cd_fileID c) (w_db w))
      ∧ (∀ c, c ∈ l2 → cd_fileID c = "" ∧ ∀ fid, ¬ cached_file (b_ID blob) (bot_ID (cd_bot c)) fid (w_db w)).
Proof.
  intros Hk H. unfold candidates in H. apply bind_Ok in H as (now & w1 & Hnow & H). unfold Now in Hnow.
  injection Hnow as <- <-. apply bind_Ok in H as (bcs & w2 & Hb & H).
  unfold BotChannelRepository_ListByChannel in Hb. m_inv. unfold ListBotChannelsByChannel, many in Hq. simplify_eq.
  apply ListByIDs_Ok in Hm as [Hdb Hlist]; [|done]. cbn [w_db tick set_db] in Hdb, Hlist.
  unfold BlobBotFileRepository_ListByBlob in Hm0. m_inv. unfold ListBlobBotFilesByBlob, many in Hq. simplify_eq.
  rewrite Hdb. set (bcs := rows _ (d_bot_channel (w_db w))) in *. set (files := fileIDByBot _).
  destruct (usable_bots_spec (env_now (w_step w)) _ _ _ Hlist (NoDup_members ∅ bcs)) as (Hnd & _ & Hin).
  set (order := usable_bots _ _ _) in *. pose proof (order_bots order files) as Hp.
  assert (bot_ID ∘ cd_bot <$> order_candidates order files ≡ₚ bot_ID <$> order) as Hpb
    by (rewrite list_fmap_compose; by rewrite Hp).
  split_and!.
  - by rewrite Hpb.
  - intros id. rewrite Hpb, Hin, elem_members. unfold usable, member_of. f_equiv. split.
    + intros (_ & bc & (k & Hkb & Hch%N.eqb_eq)%elem_of_rows & Hid & Hm'). by exists k, bc.
    + intros (k & bc & Hkb & Hch & Hid & Hm'). split; [apply not_elem_of_empty|]. exists bc. split; [|done].
      apply elem_of_rows. exists k. split; [done|by apply N.eqb_eq].
  - destruct (order_parts order files) as (l1 & l2 & Heq & H1 & H2). exists l1, l2. split; [done|].
    set (rws := rows (λ f, N.eqb (f_BlobID f) (b_ID blob)) (d_blob_bot_files (w_db w))) in *.
    assert (∀ f, f ∈ rws ↔ ∃ k, d_blob_bot_files (w_db w) !! k = Some f ∧ f_BlobID f = b_ID blob) as Hrows.
    { intros f. unfold rws. rewrite elem_of_rows. by setoid_rewrite N.eqb_eq. }
    split; intros c Hc.
    + specialize (H1 c Hc). pose proof (foldl_lookup f_BotID f_FileID rws ∅ (bot_ID (cd_bot c))) as Hf.
      unfold files, fileIDByBot in H1. rewrite H1 in Hf. destruct Hf as [(f & (k & Hkf & Hbl)%Hrows & Hbo & Hfi)|[Hn _]];
        [by exists k, f|by rewrite lookup_empty in Hn].
    + destruct (H2 c Hc) as [Hn Hfid]. split; [done|]. intros fid (k & f & Hkf & Hbl & Hbo & _).
      pose proof (foldl_lookup f_BotID f_FileID rws ∅ (bot_ID (cd_bot c))) as Hf.
      unfold files, fileIDByBot in Hn. rewrite Hn in Hf. destruct Hf as [_ Hf].
      apply (Hf f); [|done]. apply Hrows. by exists k.
Qed.

End loading.
