(* ===== verification/Bots.v ===== *)
(** * internal/service/bot.go, channel.go, settings.go

    The lifecycle of bots and channels, the membership matrix, the availability of
    channels with its effect on their blobs, and the choice of a channel and a bot
    for an upload. *)
From Stdlib Require Import ZArith Lia Strings.Byte Strings.String Strings.Ascii.
From stdpp Require Import base tactics list gmap sets strings pretty.
From S2P Require Import Prelude Model Sql World Repository Crypto Accounts Telegram.
#[local] Open Scope string_scope.
#[local] Open Scope Z_scope.
Open Scope m_scope.

(** ** strconv *)

Definition FormatInt (z : Z) : string := pretty z.

Definition digit (c : ascii) : option Z :=
  let n := Z.of_nat (nat_of_ascii c) in
  if (48 <=? n) && (n <=? 57) then Some (n - 48) else None.

Fixpoint digits (acc : Z) (s : string) : option Z :=
  match s with
  | EmptyString => Some acc
  | String c t => match digit c with Some d => digits (10 * acc + d) t | None => None end
  end.

(** [strconv.ParseInt(s, 10, 64)]: an optional sign, at least one digit, in range. *)
Definition ParseInt (s : string) : option Z :=
  let '(neg, t) := match s with
                   | String c t => if Ascii.eqb c "-" then (true, t)
                                   else if Ascii.eqb c "+" then (false, t) else (false, s)
                   | EmptyString => (false, s)
                   end in
  if String.eqb t "" then None
  else match digits 0 t with
       | Some n => let z := if neg then - n else n in if in_int64 z then Some z else None
       | None => None
       end.

Definition chatIDFromBareID (bareID : Z) : res Z :=
  match ParseInt ("-100" +:+ FormatInt bareID) with
  | Some c => Ok c
  | None => Err (ErrOther "compute chat id from bare id")
  end.

Definition errorsIsNotFound (e : error) : bool := errors_Is e ErrNotFound.

(** ** Round robin *)

(** [int(rr.Add(1)-1) % n]: the counter before the step, as a signed integer. *)
Definition rr_index (rr n : Z) : Z := Z.rem (wrap64 rr) n.

(** Indexing with a negative or too large index panics. *)
Definition at_index {A} (l : list A) (i : Z) : M A :=
  if i <? 0 then panic "index out of range"
  else match l !! Z.to_nat i with Some x => ret x | None => panic "index out of range" end.

(** [lo.Associate]: the last pair of a key wins. *)
Definition Associate {A V} (key : A → uuid) (val : A → V) (l : list A) : gmap uuid V :=
  foldl (λ m a, <[key a := val a]> m) ∅ l.

Section services.
Context {E : Env} {C : Aead} {A : BotAPI} (bots : BotRepository).

(** ** Shared availability *)

Definition channelHasEnabledMember (ch : uuid) (enabled : gmap uuid bool) : M bool :=
  let! members := BotChannelRepository_ListByChannel ch in
  ret (existsb (λ m, bc_Member m && default false (enabled !! bc_BotID m)) members).

Definition channelHasUsableMember (ch : uuid) (usable : gmap uuid bool) : M bool :=
  let! members := BotChannelRepository_ListByChannel ch in
  ret (existsb (λ m, bc_Member m && default false (usable !! bc_BotID m)) members).

Definition applyChannelAvailability (ch : Channel) (available : bool) : M unit :=
  WithTx (do! ChannelRepository_SetAvailable (ch_ID ch) available in
          if available then blobRepository_MarkChannelAvailable (ch_ID ch)
          else blobRepository_MarkChannelUnavailable (ch_ID ch)).

Definition reevaluateAvailability : M unit :=
  let! chs := ChannelRepository_List in
  let! bs := BotRepository_List bots in
  let enabled := Associate bot_ID bot_Enabled bs in
  for_each chs (λ ch,
    let! available := channelHasEnabledMember (ch_ID ch) enabled in
    applyChannelAvailability ch available).

(** ** BotService *)

(** One cell of the membership matrix. *)
Definition record_membership (bot : Bot) (ch : Channel) (now : option time) : M unit :=
  let! '(_, member) := GetChat bot (ch_TGChatID ch) in
  let! t := match now with Some t => ret t | None => Now end in
  BotChannelRepository_Upsert (mkBotChannel (bot_ID bot) (ch_ID ch) member t).

Definition Bot_Add (token : string) : M Bot :=
  let! id := uuid_New in
  let bot := mkBot id "" token true None 0 in
  let! username := GetMe bot in
  let? existing := BotRepository_GetByUsername bots username in
  let! bot := match existing with
              | Ok b =>
                  let b' := mkBot (bot_ID b) (bot_Username b) token true (bot_UnavailableUntil b) (bot_CreatedAt b) in
                  do! BotRepository_Update bots b' in ret b'
              | Err e =>
                  if errorsIsNotFound e
                  then BotRepository_Create bots (mkBot id username token true None 0)
                  else fail e
              end in
  let! channels := ChannelRepository_List in
  do! for_each channels (λ ch, record_membership bot ch None) in
  do! reevaluateAvailability in
  ret bot.

Definition Bot_Remove (id : uuid) : M unit :=
  do! BotRepository_Delete id in
  do! reevaluateAvailability in
  EventRepository_Log EventBotDisabled "bot removed" (env_uuid_string id).

Definition Bot_SetEnabled (id : uuid) (enabled : bool) : M unit :=
  let! b := BotRepository_GetByID bots id in
  do! BotRepository_Update bots
        (mkBot (bot_ID b) (bot_Username b) (bot_Token b) enabled (bot_UnavailableUntil b) (bot_CreatedAt b)) in
  do! reevaluateAvailability in
  if enabled then ret tt else EventRepository_Log EventBotDisabled "bot disabled" (env_uuid_string id).

Definition Bot_List : M (list Bot) := BotRepository_List bots.
Definition Bot_Get (id : uuid) : M Bot := BotRepository_GetByID bots id.

Definition RefreshMembership : M unit :=
  let! bs := BotRepository_List bots in
  let! channels := ChannelRepository_List in
  let! now := Now in
  do! for_each bs (λ bot, for_each channels (λ ch, record_membership bot ch (Some now))) in
  reevaluateAvailability.

Definition eligibleBots (ch : uuid) : M (list Bot) :=
  let! members := BotChannelRepository_ListByChannel ch in
  let memberIDs := Associate bc_BotID (λ _, tt) (List.filter bc_Member members) in
  if decide (memberIDs = ∅) then ret []
  else
    let! bs := BotRepository_List bots in
    let! now := Now in
    ret (List.filter (λ b, bool_decide (is_Some (memberIDs !! bot_ID b)) && Available b now) bs).

(** [s.rr.Add(1)-1]. *)
Definition next_bot : M Z := λ w, (Ok (w_rr w), set_rr (wrapu64 (w_rr w + 1)) w).

Definition Bot_PickForUpload (ch : uuid) : M Bot :=
  let! eligible := eligibleBots ch in
  match eligible with
  | [] => fail ErrNoBot
  | _ => let! rr := next_bot in at_index eligible (rr_index rr (blen eligible))
  end.

(** ** SettingsService *)

Definition Settings_Get : M Settings := SettingsRepository_Get.
Definition Settings_Update (s : Settings) : M unit := SettingsRepository_Update s.

(** ** ChannelService *)

Definition with_title (c : Channel) (title : string) : Channel :=
  mkChannel (ch_ID c) (ch_TGChatID c) title (ch_MessageCounter c) (ch_EvictionThreshold c)
    (ch_Available c) (ch_CreatedAt c).

(** The membership loop; the first bot that sees the channel gives it its title. *)
Fixpoint probe_bots (now : time) (chat : Z) (channel : Channel) (bs : list Bot) : M Channel :=
  match bs with
  | [] => ret channel
  | bot :: rest =>
      let! '(title, member) := GetChat bot chat in
      let! channel :=
        if member && negb (String.eqb title "") && String.eqb (ch_Title channel) ""
        then do! ChannelRepository_Update (with_title channel title) in ret (with_title channel title)
        else ret channel in
      do! BotChannelRepository_Upsert (mkBotChannel (bot_ID bot) (ch_ID channel) member now) in
      probe_bots now chat channel rest
  end.

Definition Channel_Add (bareID : Z) : M Channel :=
  let! chat := of_res (chatIDFromBareID bareID) in
  let? found := ChannelRepository_GetByChatID chat in
  let! channel := match found with
                  | Ok c => ret c
                  | Err e =>
                      if errorsIsNotFound e
                      then let! s := Settings_Get in
                           let! id := uuid_New in
                           ChannelRepository_Create
                             (mkChannel id chat "" 0 (DefaultEvictionThreshold s) true 0)
                      else fail e
                  end in
  let! bs := BotRepository_List bots in
  let! now := Now in
  let! channel := probe_bots now chat channel bs in
  do! reevaluateAvailability in
  ret channel.

Definition remove_tx (id : uuid) : M unit :=
  do! ChannelRepository_SetAvailable id false in
  blobRepository_MarkChannelUnavailable id.

Definition Channel_Remove (id : uuid) : M unit :=
  do! WithTx (remove_tx id) in
  EventRepository_Log EventChannelDisabled "channel disabled" (env_uuid_string id).

Definition SetEvictionThreshold (id : uuid) (threshold : Z) : M unit :=
  let! c := ChannelRepository_GetByID id in
  ChannelRepository_Update (mkChannel (ch_ID c) (ch_TGChatID c) (ch_Title c) (ch_MessageCounter c)
    threshold (ch_Available c) (ch_CreatedAt c)).

Definition Channel_List : M (list Channel) := ChannelRepository_List.
Definition Channel_Get (id : uuid) : M Channel := ChannelRepository_GetByID id.

Fixpoint eligible_loop (usable : gmap uuid bool) (chs : list Channel) : M (list Channel) :=
  match chs with
  | [] => ret []
  | ch :: rest =>
      if negb (ch_Available ch) then eligible_loop usable rest
      else
        let! hasMember := channelHasUsableMember (ch_ID ch) usable in
        let! more := eligible_loop usable rest in
        ret (if hasMember then ch :: more else more)
  end.

Definition eligibleChannels : M (list Channel) :=
  let! chs := ChannelRepository_List in
  let! bs := BotRepository_List bots in
  let! now := Now in
  eligible_loop (Associate bot_ID (λ b, Available b now) bs) chs.

Definition next_channel : M Z := λ w, (Ok (w_rrc w), set_rrc (wrapu64 (w_rrc w + 1)) w).

Definition Channel_PickForUpload : M Channel :=
  let! eligible := eligibleChannels in
  match eligible with
  | [] => fail ErrNoBot
  | _ => let! rr := next_channel in at_index eligible (rr_index rr (blen eligible))
  end.

End services.
