(* ===== verification/Management.v ===== *)
(** * internal/handler/http: the Management API

    The administrator gate, the handlers of every operation and the mapping of
    errors to status codes.  The handlers take their parameters bound and their body
    decoded; how a request gets to them is in [Server].  JSON encoding is left out: a
    response carries the value encoded. *)
From Stdlib Require Import ZArith Lia Strings.Byte Strings.String Strings.Ascii.
From stdpp Require Import base tactics list gmap strings.
From S2P Require Import Prelude Model Sql World Repository Crypto Text Password Accounts Identity Limiter.
From S2P Require Import FileSystem Telegram Bots WebDav.
#[local] Open Scope string_scope.
#[local] Open Scope Z_scope.
Open Scope m_scope.

(** ** The types of the API *)

Record APIUser := mkAPIUser {
  au_Id : uuid; au_Login : string; au_IsAdmin : bool; au_QuotaBytes : Z; au_BandwidthBps : Z;
  au_RatePerMin : Z; au_CreatedAt : time }.
Record APIUserToken := mkAPIUserToken {
  at_Id : uuid; at_UserId : uuid; at_Name : string; at_CreatedAt : time; at_LastUsedAt : option time }.
Record APICreatedToken := mkAPICreatedToken {
  ac_Id : uuid; ac_UserId : uuid; ac_Name : string; ac_Token : string; ac_CreatedAt : time }.
Record APIBot := mkAPIBot {
  ab_Id : uuid; ab_Username : string; ab_Enabled : bool; ab_UnavailableUntil : option time; ab_CreatedAt : time }.
Record APIChannel := mkAPIChannel {
  ah_Id : uuid; ah_TgChatId : Z; ah_Title : string; ah_MessageCounter : Z; ah_EvictionThreshold : Z;
  ah_Available : bool; ah_CreatedAt : time }.
Record APISettings := mkAPISettings {
  as_BlobMaxSize : Z; as_WalIdleTimeoutMs : Z; as_MaxFileSize : Z; as_DefaultEvictionThreshold : Z; as_UpdatedAt : time }.
Record APIStatPoint := mkAPIStatPoint { ap_Ts : time; ap_Metric : string; ap_Label : string; ap_Value : Z }.
Record APIEvent := mkAPIEvent { ae_Id : uuid; ae_Ts : time; ae_Kind : string; ae_Message : string; ae_Ref : string }.

Definition toAPIUser (u : User) : APIUser :=
  mkAPIUser (u_ID u) (u_Login u) (u_IsAdmin u) (u_QuotaBytes u) (u_BandwidthBPS u) (int32_of (u_RatePerMin u)) (u_CreatedAt u).
Definition toAPIToken (t : APIToken) : APIUserToken :=
  mkAPIUserToken (t_ID t) (t_UserID t) (t_Name t) (t_CreatedAt t) (t_LastUsedAt t).
Definition toAPIBot (b : Bot) : APIBot :=
  mkAPIBot (bot_ID b) (bot_Username b) (bot_Enabled b) (bot_UnavailableUntil b) (bot_CreatedAt b).
Definition toAPIChannel (c : Channel) : APIChannel :=
  mkAPIChannel (ch_ID c) (ch_TGChatID c) (ch_Title c) (ch_MessageCounter c) (ch_EvictionThreshold c)
    (ch_Available c) (ch_CreatedAt c).
Definition toAPISettings (s : Settings) : APISettings :=
  mkAPISettings (BlobMaxSize s) (Milliseconds (WALIdleTimeout s)) (MaxFileSize s) (DefaultEvictionThreshold s) (UpdatedAt s).
Definition toAPIStatPoint (s : StatSample) : APIStatPoint :=
  mkAPIStatPoint (s_TS s) (s_Metric s) (s_Label s) (s_Value s).
Definition toAPIEvent (e : Event) : APIEvent :=
  mkAPIEvent (ev_ID e) (ev_TS e) (ev_Kind e) (ev_Message e) (ev_Ref e).

(** The bodies and the queries. *)
Record CreateUserBody := mkCreateUserBody {
  cu_Login : string; cu_Password : string; cu_IsAdmin : option bool; cu_QuotaBytes : option Z;
  cu_BandwidthBps : option Z; cu_RatePerMin : option Z }.
Record UpdateSettingsBody := mkUpdateSettingsBody {
  us_BlobMaxSize : option Z; us_WalIdleTimeoutMs : option Z; us_MaxFileSize : option Z;
  us_DefaultEvictionThreshold : option Z }.
Record QueryStatsParams := mkQueryStatsParams {
  qs_Metric : string; qs_Label : option string; qs_From : option time; qs_To : option time }.
Record ListEventsParams := mkListEventsParams {
  le_Kind : option string; le_Limit : option Z; le_Offset : option Z }.

(** An operation with its decoded parameters; a body that does not decode is [None]. *)
Inductive operation :=
  | OpHealthz
  | OpListUsers | OpCreateUser (body : option CreateUserBody) | OpGetUser (id : uuid) | OpDeleteUser (id : uuid)
  | OpSetUserPassword (id : uuid) (body : option string)
  | OpListUserTokens (id : uuid) | OpCreateUserToken (id : uuid) (body : option string)
  | OpDeleteUserToken (id token : uuid)
  | OpListBots | OpAddBot (body : option string) | OpDeleteBot (id : uuid) | OpSetBotEnabled (id : uuid) (body : option bool)
  | OpListChannels | OpAddChannel (body : option Z) | OpDeleteChannel (id : uuid)
  | OpSetChannelEviction (id : uuid) (body : option Z)
  | OpGetSettings | OpUpdateSettings (body : option UpdateSettingsBody)
  | OpQueryStats (p : QueryStatsParams) | OpListEvents (p : ListEventsParams).

Inductive apiBody :=
  | BNone | BText (msg : string) | BSpec | BError | BHealth
  | BUsers (l : list APIUser) | BUser (u : APIUser)
  | BTokens (l : list APIUserToken) | BCreatedToken (t : APICreatedToken)
  | BBots (l : list APIBot) | BBot (b : APIBot)
  | BChannels (l : list APIChannel) | BChannel (c : APIChannel)
  | BSettings (s : APISettings)
  | BStats (l : list APIStatPoint) | BEvents (l : list APIEvent) (total : Z).

Record apiResp := mkApiResp { ar_Status : Z; ar_Header : list (string * string); ar_Body : apiBody }.

Definition writeJSON (status : Z) (b : apiBody) : apiResp := mkApiResp status [("Content-Type", "application/json")] b.
Definition noContent : apiResp := mkApiResp 204 [] BNone.
Definition badRequest : apiResp := writeJSON 400 BError.

(** ** Errors *)

(** Sentinels of the package that no service returns. *)
Definition ErrConflict : error := ErrOther "conflict".
Definition ErrFileTooLarge : error := ErrOther "file too large".
Definition ErrRateLimited : error := ErrOther "rate limited".
Definition ErrInvalidPath : error := ErrOther "invalid path".
Definition ErrNotDir : error := ErrOther "not a directory".
Definition ErrIsDir : error := ErrOther "is a directory".
Definition ErrNotEmpty : error := ErrOther "directory not empty".

Definition statusForError (e : error) : Z :=
  if errors_Is e ErrNotFound then 404
  else if errors_Is e ErrAlreadyExists then 409
  else if errors_Is e ErrConflict then 409
  else if errors_Is e ErrUnauthorized then 401
  else if errors_Is e ErrForbidden then 403
  else if errors_Is e ErrInvalidPath || errors_Is e ErrNotDir || errors_Is e ErrIsDir || errors_Is e ErrNotEmpty then 400
  else if errors_Is e ErrQuotaExceeded then 507
  else if errors_Is e ErrFileTooLarge then 413
  else if errors_Is e ErrRateLimited then 429
  else if errors_Is e ErrNoBot || errors_Is e ErrBlobUnavailable then 503
  else 500.

Definition writeError (e : error) : apiResp := writeJSON (statusForError e) BError.

(** [if err != nil { h.writeError(w, err); return }; ...], where a panic goes on to
    the Recoverer. *)
Definition respond {X} (m : M X) (k : X → apiResp) : M apiResp :=
  let? r := m in
  match r with
  | Ok x => ret (k x)
  | Err e => if is_panic e then fail e else ret (writeError e)
  end.

(** The fields of a body that may be left out. *)
Definition derefBool (p : option bool) : bool := match p with None => false | Some b => b end.
Definition derefInt64 (p : option Z) : Z := match p with None => 0 | Some n => n end.
Definition derefInt32 (p : option Z) : Z := match p with None => 0 | Some n => n end.

Section management.
Context {E : Env} {C : Aead} {A : BotAPI} {K : Kdf} (bots : BotRepository).

(** ** users.go, tokens.go *)

Definition ListUsers_ : M apiResp := respond User_List (λ l, writeJSON 200 (BUsers (toAPIUser <$> l))).

Definition CreateUser_ (body : option CreateUserBody) : M apiResp :=
  match body with
  | None => ret badRequest
  | Some b =>
      if String.eqb (cu_Login b) "" || String.eqb (cu_Password b) "" then ret badRequest
      else respond (User_Create (mkCreateUserParams (cu_Login b) (cu_Password b) (derefBool (cu_IsAdmin b))
                      (derefInt64 (cu_QuotaBytes b)) (derefInt64 (cu_BandwidthBps b)) (derefInt32 (cu_RatePerMin b))))
             (λ u, writeJSON 201 (BUser (toAPIUser u)))
  end.

Definition GetUser_ (id : uuid) : M apiResp := respond (User_Get id) (λ u, writeJSON 200 (BUser (toAPIUser u))).
Definition DeleteUser_ (id : uuid) : M apiResp := respond (User_Delete id) (λ _, noContent).

Definition SetUserPassword (id : uuid) (body : option string) : M apiResp :=
  match body with
  | None => ret badRequest
  | Some password => if String.eqb password "" then ret badRequest
                     else respond (SetPassword id password) (λ _, noContent)
  end.

Definition ListUserTokens (id : uuid) : M apiResp :=
  respond (ListTokens id) (λ l, writeJSON 200 (BTokens (toAPIToken <$> l))).

Definition CreateUserToken (id : uuid) (body : option string) : M apiResp :=
  match body with
  | None => ret badRequest
  | Some name =>
      if String.eqb name "" then ret badRequest
      else respond (CreateToken id name) (λ '(plaintext, tok),
             writeJSON 201 (BCreatedToken (mkAPICreatedToken (t_ID tok) (t_UserID tok) (t_Name tok) plaintext (t_CreatedAt tok))))
  end.

Definition DeleteUserToken (id token : uuid) : M apiResp := respond (DeleteToken id token) (λ _, noContent).

(** ** bots.go, channels.go *)

Definition ListBots_ : M apiResp := respond (Bot_List bots) (λ l, writeJSON 200 (BBots (toAPIBot <$> l))).

Definition AddBot (body : option string) : M apiResp :=
  match body with
  | None => ret badRequest
  | Some token => if String.eqb token "" then ret badRequest
                  else respond (Bot_Add bots token) (λ b, writeJSON 201 (BBot (toAPIBot b)))
  end.

Definition DeleteBot_ (id : uuid) : M apiResp := respond (Bot_Remove bots id) (λ _, noContent).

Definition SetBotEnabled (id : uuid) (body : option bool) : M apiResp :=
  match body with
  | None => ret badRequest
  | Some enabled => respond (Bot_SetEnabled bots id enabled) (λ _, noContent)
  end.

Definition ListChannels_ : M apiResp := respond Channel_List (λ l, writeJSON 200 (BChannels (toAPIChannel <$> l))).

Definition AddChannel (body : option Z) : M apiResp :=
  match body with
  | None => ret badRequest
  | Some bareID => if bareID =? 0 then ret badRequest
                   else respond (Channel_Add bots bareID) (λ c, writeJSON 201 (BChannel (toAPIChannel c)))
  end.

Definition DeleteChannel_ (id : uuid) : M apiResp := respond (Channel_Remove id) (λ _, noContent).

Definition SetChannelEviction (id : uuid) (body : option Z) : M apiResp :=
  match body with
  | None => ret badRequest
  | Some threshold => if threshold <? 0 then ret badRequest
                      else respond (SetEvictionThreshold id threshold) (λ _, noContent)
  end.

(** ** settings.go *)

Definition GetSettings_ : M apiResp := respond Settings_Get (λ s, writeJSON 200 (BSettings (toAPISettings s))).

(** The fields given, checked in order; [None] for a value out of range. *)
Definition merge_settings (b : UpdateSettingsBody) (s : Settings) : option Settings :=
  blob ← match us_BlobMaxSize b with
         | Some v => if v <=? 0 then None else Some v | None => Some (BlobMaxSize s) end;
  idle ← match us_WalIdleTimeoutMs b with
         | Some v => if v <? 0 then None else Some (wrap64 (v * Millisecond)) | None => Some (WALIdleTimeout s) end;
  maxFile ← match us_MaxFileSize b with
            | Some v => if v <? 0 then None else Some v | None => Some (MaxFileSize s) end;
  evict ← match us_DefaultEvictionThreshold b with
          | Some v => if v <? 0 then None else Some v | None => Some (DefaultEvictionThreshold s) end;
  Some (mkSettings blob idle maxFile evict (UpdatedAt s)).

Definition UpdateSettings (body : option UpdateSettingsBody) : M apiResp :=
  match body with
  | None => ret badRequest
  | Some b =>
      let? got := Settings_Get in
      match got with
      | Err e => ret (writeError e)
      | Ok s =>
          match merge_settings b s with
          | None => ret badRequest
          | Some s' => respond (do! Settings_Update s' in Settings_Get)
                         (λ updated, writeJSON 200 (BSettings (toAPISettings updated)))
          end
      end
  end.

(** ** stats.go, events.go, health.go *)

Definition QueryStats_ (p : QueryStatsParams) : M apiResp :=
  if String.eqb (qs_Metric p) "" then ret badRequest
  else
    let label := default "" (qs_Label p) in
    let from := default 0 (qs_From p) in
    let! now := Now in
    let to := default now (qs_To p) in
    if negb (IsZero from) && Before to from then ret badRequest
    else respond (Stats_Query (qs_Metric p) label from to) (λ l, writeJSON 200 (BStats (toAPIStatPoint <$> l))).

Definition ListEvents_ (p : ListEventsParams) : M apiResp :=
  let kind := default "" (le_Kind p) in
  let limit := default 100 (le_Limit p) in
  let limit := if limit <=? 0 then 100 else limit in
  let offset := default 0 (le_Offset p) in
  let offset := if offset <? 0 then 0 else offset in
  respond (Events_List kind limit offset) (λ '(l, total), writeJSON 200 (BEvents (toAPIEvent <$> l) total)).

Definition Healthz : M apiResp := ret (writeJSON 200 BHealth).

(** The handler of an operation, whose parameters are bound and whose body is decoded. *)
Definition perform (op : operation) : M apiResp :=
  match op with
  | OpHealthz => Healthz
  | OpListUsers => ListUsers_ | OpCreateUser b => CreateUser_ b | OpGetUser id => GetUser_ id
  | OpDeleteUser id => DeleteUser_ id | OpSetUserPassword id b => SetUserPassword id b
  | OpListUserTokens id => ListUserTokens id | OpCreateUserToken id b => CreateUserToken id b
  | OpDeleteUserToken id t => DeleteUserToken id t
  | OpListBots => ListBots_ | OpAddBot b => AddBot b | OpDeleteBot id => DeleteBot_ id
  | OpSetBotEnabled id b => SetBotEnabled id b
  | OpListChannels => ListChannels_ | OpAddChannel b => AddChannel b | OpDeleteChannel id => DeleteChannel_ id
  | OpSetChannelEviction id b => SetChannelEviction id b
  | OpGetSettings => GetSettings_ | OpUpdateSettings b => UpdateSettings b
  | OpQueryStats p => QueryStats_ p | OpListEvents p => ListEvents_ p
  end.

(** ** The administrator gate *)

Definition authenticateAdmin (authorization : string) : M User :=
  match bearerToken authorization with
  | Some token =>
      let? u := AuthenticateBearer token in
      match u with
      | Err _ => fail ErrUnauthorized
      | Ok user => if u_IsAdmin user then ret user else fail ErrForbidden
      end
  | None =>
      match BasicCredentials authorization with
      | Some (username, password) =>
          let? p := AuthenticateBasic username password in
          match p with
          | Err e => if is_panic e then fail e else if errors_Is e ErrForbidden then fail ErrForbidden else fail ErrUnauthorized
          | Ok pr =>
              if Principal_IsAdmin pr
              then match Auth pr with Some u => ret u | None => panic "nil user" end
              else fail ErrForbidden
          end
      | None => fail ErrUnauthorized
      end
  end.

Definition AdminAuth (next : Principal → M apiResp) (authorization : string) : M apiResp :=
  let? u := authenticateAdmin authorization in
  match u with
  | Err e =>
      if is_panic e then fail e
      else if errors_Is e ErrForbidden then ret (writeJSON 403 BError)
      else ret (mkApiResp 401 [("WWW-Authenticate", "Basic realm=" +:+ quoted "tgwebdav management" +:+ ", Bearer");
                               ("Content-Type", "application/json")] BError)
  | Ok user => next (mkPrincipal (Some user) (Some user))
  end.

Definition isManagementPublic (path : string) : bool :=
  String.eqb path "/healthz" || String.eqb path "/openapi.yaml".

End management.
