(* ===== verification/Server.v ===== *)
(** * pkg/openapi/management/server.gen.go and the routing of the Management API

    The generated server: a wrapper per operation that binds the parameters and calls
    the handler, and the registration of the wrappers on a ServeMux; the part of
    net/http's ServeMux that these patterns use; and the whole endpoint, from a
    request's path and headers to its answer.  Binding of parameters is the runtime
    library of oapi-codegen and the decoding of bodies is encoding/json, as the
    classes [Oapi] and [BodyDecoder]. *)
From Stdlib Require Import ZArith Lia Strings.Byte Strings.String Strings.Ascii.
From stdpp Require Import base tactics list gmap strings.
From S2P Require Import Prelude Model Sql World Repository Crypto Text Password Accounts Identity Limiter Path.
From S2P Require Import FileSystem Telegram Bots WebDav Management.
#[local] Open Scope string_scope.
#[local] Open Scope Z_scope.
Open Scope m_scope.

(** ** Requests *)

(** The query's parameters in order. *)
Abbreviation values := (list (string * string)) (only parsing).

(** [r.URL.Path], [r.URL.EscapedPath()], [r.URL.Query()]; the path values set by the
    mux and the values of the context. *)
Record apiReq := mkApiReq {
  rq_Method : string; rq_Path : string; rq_Escaped : string; rq_Query : values;
  rq_Authorization : string; rq_Body : bytes;
  rq_PathValues : list (string * string); rq_Context : list (string * list string) }.

Definition set_PathValues (l : list (string * string)) (r : apiReq) : apiReq :=
  mkApiReq (rq_Method r) (rq_Path r) (rq_Escaped r) (rq_Query r) (rq_Authorization r) (rq_Body r) l (rq_Context r).
Definition WithValue (key : string) (v : list string) (r : apiReq) : apiReq :=
  mkApiReq (rq_Method r) (rq_Path r) (rq_Escaped r) (rq_Query r) (rq_Authorization r) (rq_Body r) (rq_PathValues r)
    ((key, v) :: rq_Context r).

(** The first value of a key, or the empty string. *)
Definition first_value (l : list (string * string)) (key : string) : string :=
  match find_first (λ kv : string * string, String.eqb kv.1 key) l with Some kv => kv.2 | None => "" end.
Definition PathValue (r : apiReq) (name : string) : string := first_value (rq_PathValues r) name.
Definition Query_Get (r : apiReq) (key : string) : string := first_value (rq_Query r) key.

Definition handler : Type := apiReq → M apiResp.

(** runtime.BindStyledParameterWithOptions into a UUID and runtime.BindQueryParameter
    into the types of the parameters, by name; [None] is an error, and an optional
    parameter that is absent is [Some None]. *)
Class Oapi := {
  bind_uuid : string → string → option uuid;
  bind_string : bool → string → values → option (option string);
  bind_int32 : bool → string → values → option (option Z);
  bind_time : bool → string → values → option (option time) }.

(** [decodeBody] into the body of each operation; [None] is an error. *)
Class BodyDecoder := {
  decode_AddBot : bytes → option string;
  decode_SetEnabled : bytes → option bool;
  decode_AddChannel : bytes → option Z;
  decode_SetEviction : bytes → option Z;
  decode_UpdateSettings : bytes → option UpdateSettingsBody;
  decode_CreateUser : bytes → option CreateUserBody;
  decode_SetPassword : bytes → option string;
  decode_CreateToken : bytes → option string }.

(** ** The generated server *)

(** The errors a wrapper raises; the other error types of the file are not raised. *)
Inductive paramError := RequiredParamError (ParamName : string) | InvalidParamFormatError (ParamName : string).

Definition BasicAuthScopes : string := "basicAuth.Scopes".
Definition BearerAuthScopes : string := "bearerAuth.Scopes".

(** The interface that the handlers implement. *)
Record ServerInterface := mkServerInterface {
  si_ListBots : handler; si_AddBot : handler;
  si_DeleteBot : apiReq → uuid → M apiResp; si_SetBotEnabled : apiReq → uuid → M apiResp;
  si_ListChannels : handler; si_AddChannel : handler;
  si_DeleteChannel : apiReq → uuid → M apiResp; si_SetChannelEviction : apiReq → uuid → M apiResp;
  si_ListEvents : apiReq → ListEventsParams → M apiResp;
  si_GetSettings : handler; si_UpdateSettings : handler;
  si_QueryStats : apiReq → QueryStatsParams → M apiResp;
  si_ListUsers : handler; si_CreateUser : handler;
  si_DeleteUser : apiReq → uuid → M apiResp; si_GetUser : apiReq → uuid → M apiResp;
  si_SetUserPassword : apiReq → uuid → M apiResp; si_ListUserTokens : apiReq → uuid → M apiResp;
  si_CreateUserToken : apiReq → uuid → M apiResp; si_DeleteUserToken : apiReq → uuid → uuid → M apiResp;
  si_Healthz : handler }.

Record ServerInterfaceWrapper := mkServerInterfaceWrapper {
  siw_Handler : ServerInterface;
  siw_HandlerMiddlewares : list (handler → handler);
  siw_ErrorHandlerFunc : apiReq → paramError → M apiResp }.

Section wrappers.
Context {O : Oapi} (siw : ServerInterfaceWrapper).

(** The security schemes of the operation, put into the context. *)
Definition scoped (r : apiReq) : apiReq := WithValue BearerAuthScopes [] (WithValue BasicAuthScopes [] r).

(** The handler within the middlewares, the first of which is the innermost. *)
Definition with_middlewares (h : handler) : handler := foldl (λ h mw, mw h) h (siw_HandlerMiddlewares siw).

(** A parameter that binds, or the error handler. *)
Definition bound {A} (name : string) (x : option A) (r : apiReq) (k : A → M apiResp) : M apiResp :=
  match x with Some a => k a | None => siw_ErrorHandlerFunc siw r (InvalidParamFormatError name) end.

Definition siw_ListBots (r : apiReq) : M apiResp := with_middlewares (si_ListBots (siw_Handler siw)) (scoped r).
Definition siw_AddBot (r : apiReq) : M apiResp := with_middlewares (si_AddBot (siw_Handler siw)) (scoped r).

Definition siw_DeleteBot (r : apiReq) : M apiResp :=
  bound "botId" (bind_uuid "botId" (PathValue r "botId")) r (λ botId,
  with_middlewares (λ r, si_DeleteBot (siw_Handler siw) r botId) (scoped r)).

Definition siw_SetBotEnabled (r : apiReq) : M apiResp :=
  bound "botId" (bind_uuid "botId" (PathValue r "botId")) r (λ botId,
  with_middlewares (λ r, si_SetBotEnabled (siw_Handler siw) r botId) (scoped r)).

Definition siw_ListChannels (r : apiReq) : M apiResp := with_middlewares (si_ListChannels (siw_Handler siw)) (scoped r).
Definition siw_AddChannel (r : apiReq) : M apiResp := with_middlewares (si_AddChannel (siw_Handler siw)) (scoped r).

Definition siw_DeleteChannel (r : apiReq) : M apiResp :=
  bound "channelId" (bind_uuid "channelId" (PathValue r "channelId")) r (λ channelId,
  with_middlewares (λ r, si_DeleteChannel (siw_Handler siw) r channelId) (scoped r)).

Definition siw_SetChannelEviction (r : apiReq) : M apiResp :=
  bound "channelId" (bind_uuid "channelId" (PathValue r "channelId")) r (λ channelId,
  with_middlewares (λ r, si_SetChannelEviction (siw_Handler siw) r channelId) (scoped r)).

Definition siw_ListEvents (r : apiReq) : M apiResp :=
  let r := scoped r in
  bound "kind" (bind_string false "kind" (rq_Query r)) r (λ kind,
  bound "limit" (bind_int32 false "limit" (rq_Query r)) r (λ limit,
  bound "offset" (bind_int32 false "offset" (rq_Query r)) r (λ offset,
  with_middlewares (λ r, si_ListEvents (siw_Handler siw) r (mkListEventsParams kind limit offset)) r))).

Definition siw_GetSettings (r : apiReq) : M apiResp := with_middlewares (si_GetSettings (siw_Handler siw)) (scoped r).
Definition siw_UpdateSettings (r : apiReq) : M apiResp := with_middlewares (si_UpdateSettings (siw_Handler siw)) (scoped r).

Definition siw_QueryStats (r : apiReq) : M apiResp :=
  let r := scoped r in
  if String.eqb (Query_Get r "metric") "" then siw_ErrorHandlerFunc siw r (RequiredParamError "metric")
  else
    bound "metric" (bind_string true "metric" (rq_Query r)) r (λ metric,
    bound "label" (bind_string false "label" (rq_Query r)) r (λ label,
    bound "from" (bind_time false "from" (rq_Query r)) r (λ from,
    bound "to" (bind_time false "to" (rq_Query r)) r (λ to,
    with_middlewares (λ r, si_QueryStats (siw_Handler siw) r (mkQueryStatsParams (default "" metric) label from to)) r)))).

Definition siw_ListUsers (r : apiReq) : M apiResp := with_middlewares (si_ListUsers (siw_Handler siw)) (scoped r).
Definition siw_CreateUser (r : apiReq) : M apiResp := with_middlewares (si_CreateUser (siw_Handler siw)) (scoped r).

Definition siw_DeleteUser (r : apiReq) : M apiResp :=
  bound "userId" (bind_uuid "userId" (PathValue r "userId")) r (λ userId,
  with_middlewares (λ r, si_DeleteUser (siw_Handler siw) r userId) (scoped r)).

Definition siw_GetUser (r : apiReq) : M apiResp :=
  bound "userId" (bind_uuid "userId" (PathValue r "userId")) r (λ userId,
  with_middlewares (λ r, si_GetUser (siw_Handler siw) r userId) (scoped r)).

Definition siw_SetUserPassword (r : apiReq) : M apiResp :=
  bound "userId" (bind_uuid "userId" (PathValue r "userId")) r (λ userId,
  with_middlewares (λ r, si_SetUserPassword (siw_Handler siw) r userId) (scoped r)).

Definition siw_ListUserTokens (r : apiReq) : M apiResp :=
  bound "userId" (bind_uuid "userId" (PathValue r "userId")) r (λ userId,
  with_middlewares (λ r, si_ListUserTokens (siw_Handler siw) r userId) (scoped r)).

Definition siw_CreateUserToken (r : apiReq) : M apiResp :=
  bound "userId" (bind_uuid "userId" (PathValue r "userId")) r (λ userId,
  with_middlewares (λ r, si_CreateUserToken (siw_Handler siw) r userId) (scoped r)).

Definition siw_DeleteUserToken (r : apiReq) : M apiResp :=
  bound "userId" (bind_uuid "userId" (PathValue r "userId")) r (λ userId,
  bound "tokenId" (bind_uuid "tokenId" (PathValue r "tokenId")) r (λ tokenId,
  with_middlewares (λ r, si_DeleteUserToken (siw_Handler siw) r userId tokenId) (scoped r))).

Definition siw_Healthz (r : apiReq) : M apiResp := with_middlewares (si_Healthz (siw_Handler siw)) r.

End wrappers.

(** ** net/http: ServeMux *)

Inductive pseg := Lit (s : string) | Wild (name : string).

(** A pattern: its method and the segments of its path. *)
Record pattern := mkPattern { pt_method : string; pt_segs : list pseg }.

Definition parse_seg (s : string) : pseg :=
  match s with
  | String "{" t => let '(name, _, _) := Cut "}" t in Wild name
  | _ => Lit s
  end.
Definition parsePattern (s : string) : pattern :=
  let '(method, path, _) := Cut " " s in mkPattern method (parse_seg <$> tail (Split "/" path)).

Abbreviation mux := (list (pattern * handler)) (only parsing).

(** [mux.HandleFunc]. *)
Definition HandleFunc (m : mux) (p : string * handler) : mux := (m ++ [(parsePattern p.1, p.2)])%list.

Definition hex_value (c : ascii) : option Z :=
  match scan_digit c with
  | Some d => Some d
  | None => let n := Z.of_nat (nat_of_ascii (fold_ascii c)) in if (97 <=? n) && (n <=? 102) then Some (n - 87) else None
  end.

(** [url.PathUnescape]. *)
Fixpoint PathUnescape (s : string) : option string :=
  match s with
  | EmptyString => Some EmptyString
  | String "%" t =>
      match t with
      | String a (String b rest) =>
          match hex_value a, hex_value b with
          | Some x, Some y => String (ascii_of_nat (Z.to_nat (16 * x + y))) <$> PathUnescape rest
          | _, _ => None
          end
      | _ => None
      end
  | String c t => String c <$> PathUnescape t
  end.
Definition pathUnescape (s : string) : string := default s (PathUnescape s).

(** [cleanPath]. *)
Definition cleanPath (p : string) : string :=
  if String.eqb p "" then "/"
  else
    let p := match p with String c _ => if Ascii.eqb c slash then p else String slash p | EmptyString => p end in
    let np := Clean p in
    if bool_decide (String.get (String.length p - 1) p = Some slash) && negb (String.eqb np "/") then np +:+ "/" else np.

(** The segments that a path is matched by; a final slash is a segment of its own. *)
Fixpoint segments (parts : list string) : list string :=
  match parts with
  | [] => []
  | [EmptyString] => ["/"]
  | p :: rest => pathUnescape p :: segments rest
  end.
Definition path_segments (path : string) : list string :=
  match path with EmptyString => [] | String _ rest => segments (Split "/" rest) end.

(** The values of the wildcards, when the segments match. *)
Fixpoint match_segs (ps : list pseg) (segs : list string) : option (list (string * string)) :=
  match ps, segs with
  | [], [] => Some []
  | Lit l :: ps, s :: segs => if String.eqb l s then match_segs ps segs else None
  | Wild name :: ps, s :: segs =>
      if String.eqb s "/" then None else cons (name, s) <$> match_segs ps segs
  | _, _ => None
  end.

(** A pattern for GET serves HEAD too. *)
Definition match_method (pm m : string) : bool := String.eqb pm m || (String.eqb pm "GET" && String.eqb "HEAD" m).

Fixpoint mux_match (m : mux) (method : string) (segs : list string) : option (handler * list (string * string)) :=
  match m with
  | [] => None
  | (p, h) :: rest =>
      match (if match_method (pt_method p) method then match_segs (pt_segs p) segs else None) with
      | Some vals => Some (h, vals)
      | None => mux_match rest method segs
      end
  end.

(** The methods of the patterns that match but for the method. *)
Definition allowed_methods (m : mux) (segs : list string) : list string :=
  let ms := (pt_method ∘ fst) <$> List.filter (λ ph, match match_segs (pt_segs ph.1) segs with Some _ => true | None => false end) m in
  let all := (ms ++ if bool_decide ("GET" ∈ ms) then ["HEAD"] else [])%list in
  sort_by_str id (remove_dups all).

Definition text_error (status : Z) (msg : string) : apiResp :=
  mkApiResp status [("Content-Type", "text/plain; charset=utf-8"); ("X-Content-Type-Options", "nosniff")] (BText msg).

Definition Join (sep : string) (l : list string) : string :=
  match l with [] => "" | x :: rest => foldl (λ a b, a +:+ sep +:+ b) x rest end.

(** What the mux does with a request: a handler with the path values, a redirect to
    the clean path, or an answer of its own. *)
Inductive found := Found (h : handler) (vals : list (string * string)) | Redirect (path : string) | Answer (x : apiResp).

Definition findHandler (m : mux) (r : apiReq) : found :=
  let connect := String.eqb (rq_Method r) "CONNECT" in
  let path := if connect then rq_Escaped r else cleanPath (rq_Escaped r) in
  if negb (String.eqb path (rq_Escaped r)) then Redirect path
  else
    match mux_match m (rq_Method r) (path_segments path) with
    | Some (h, vals) => Found h vals
    | None =>
        match allowed_methods m (path_segments path) with
        | [] => Answer (text_error 404 "404 page not found")
        | ms => let x := text_error 405 "Method Not Allowed" in
                Answer (mkApiResp (ar_Status x) (("Allow", Join ", " ms) :: ar_Header x) (ar_Body x))
        end
    end.

Section endpoint.
Context {E : Env} {C : Aead} {A : BotAPI} {K : Kdf} {O : Oapi} {D : BodyDecoder} (bots : BotRepository).
(** [http.RedirectHandler] to a path. *)
Context (redirect : string → apiReq → apiResp).

Definition mux_ServeHTTP (m : mux) (r : apiReq) : M apiResp :=
  if String.eqb (rq_Escaped r) "*" then ret (mkApiResp 400 [("Connection", "close")] BNone)
  else match findHandler m r with
       | Found h vals => h (set_PathValues vals r)
       | Redirect path => ret (redirect path r)
       | Answer x => ret x
       end.

(** [HandlerWithOptions]: the patterns and their wrappers, in order. *)
Definition HandlerWithOptions (siw : ServerInterfaceWrapper) (BaseURL : string) (m : mux) : mux :=
  foldl HandleFunc m
    [("GET " +:+ BaseURL +:+ "/api/v1/bots", siw_ListBots siw);
     ("POST " +:+ BaseURL +:+ "/api/v1/bots", siw_AddBot siw);
     ("DELETE " +:+ BaseURL +:+ "/api/v1/bots/{botId}", siw_DeleteBot siw);
     ("PUT " +:+ BaseURL +:+ "/api/v1/bots/{botId}/enabled", siw_SetBotEnabled siw);
     ("GET " +:+ BaseURL +:+ "/api/v1/channels", siw_ListChannels siw);
     ("POST " +:+ BaseURL +:+ "/api/v1/channels", siw_AddChannel siw);
     ("DELETE " +:+ BaseURL +:+ "/api/v1/channels/{channelId}", siw_DeleteChannel siw);
     ("PUT " +:+ BaseURL +:+ "/api/v1/channels/{channelId}/eviction", siw_SetChannelEviction siw);
     ("GET " +:+ BaseURL +:+ "/api/v1/events", siw_ListEvents siw);
     ("GET " +:+ BaseURL +:+ "/api/v1/settings", siw_GetSettings siw);
     ("PUT " +:+ BaseURL +:+ "/api/v1/settings", siw_UpdateSettings siw);
     ("GET " +:+ BaseURL +:+ "/api/v1/stats", siw_QueryStats siw);
     ("GET " +:+ BaseURL +:+ "/api/v1/users", siw_ListUsers siw);
     ("POST " +:+ BaseURL +:+ "/api/v1/users", siw_CreateUser siw);
     ("DELETE " +:+ BaseURL +:+ "/api/v1/users/{userId}", siw_DeleteUser siw);
     ("GET " +:+ BaseURL +:+ "/api/v1/users/{userId}", siw_GetUser siw);
     ("PUT " +:+ BaseURL +:+ "/api/v1/users/{userId}/password", siw_SetUserPassword siw);
     ("GET " +:+ BaseURL +:+ "/api/v1/users/{userId}/tokens", siw_ListUserTokens siw);
     ("POST " +:+ BaseURL +:+ "/api/v1/users/{userId}/tokens", siw_CreateUserToken siw);
     ("DELETE " +:+ BaseURL +:+ "/api/v1/users/{userId}/tokens/{tokenId}", siw_DeleteUserToken siw);
     ("GET " +:+ BaseURL +:+ "/healthz", siw_Healthz siw)].

(** ** internal/handler/http/management.go: the endpoint *)

(** [Handler] as the generated interface: each operation decodes its body first. *)
Definition Handler : ServerInterface := {|
  si_ListBots := λ _, ListBots_ bots;
  si_AddBot := λ r, AddBot bots (decode_AddBot (rq_Body r));
  si_DeleteBot := λ _ id, DeleteBot_ bots id;
  si_SetBotEnabled := λ r id, SetBotEnabled bots id (decode_SetEnabled (rq_Body r));
  si_ListChannels := λ _, ListChannels_;
  si_AddChannel := λ r, AddChannel bots (decode_AddChannel (rq_Body r));
  si_DeleteChannel := λ _ id, DeleteChannel_ id;
  si_SetChannelEviction := λ r id, SetChannelEviction id (decode_SetEviction (rq_Body r));
  si_ListEvents := λ _ p, ListEvents_ p;
  si_GetSettings := λ _, GetSettings_;
  si_UpdateSettings := λ r, UpdateSettings (decode_UpdateSettings (rq_Body r));
  si_QueryStats := λ _ p, QueryStats_ p;
  si_ListUsers := λ _, ListUsers_;
  si_CreateUser := λ r, CreateUser_ (decode_CreateUser (rq_Body r));
  si_DeleteUser := λ _ id, DeleteUser_ id;
  si_GetUser := λ _ id, GetUser_ id;
  si_SetUserPassword := λ r id, SetUserPassword id (decode_SetPassword (rq_Body r));
  si_ListUserTokens := λ _ id, ListUserTokens id;
  si_CreateUserToken := λ r id, CreateUserToken id (decode_CreateToken (rq_Body r));
  si_DeleteUserToken := λ _ id t, DeleteUserToken id t;
  si_Healthz := λ _, Healthz |}.

Definition specPath : string := "/openapi.yaml".
Definition serveSpec (r : apiReq) : M apiResp := ret (mkApiResp 200 [("Content-Type", "application/yaml")] BSpec).

(** A parameter that does not bind is a bad request. *)
Definition writeJSONError (status : Z) : apiResp := mkApiResp status [("Content-Type", "application/json")] BError.

Definition management_mux : mux :=
  HandlerWithOptions (mkServerInterfaceWrapper Handler [] (λ _ _, ret (writeJSONError 400))) ""
    (HandleFunc [] ("GET " +:+ specPath, serveSpec)).

(** The dispatcher that [NewManagementHandler] returns, within the Recoverer. *)
Definition ManagementHandler (r : apiReq) : M apiResp :=
  let? x := (if isManagementPublic (rq_Path r) then mux_ServeHTTP management_mux r
             else AdminAuth (λ _, mux_ServeHTTP management_mux r) (rq_Authorization r)) in
  match x with Ok a => ret a | Err _ => ret (mkApiResp 500 [] BNone) end.

End endpoint.
