(* ===== verification/ServerFacts.v ===== *)
(** * Facts about the routing of the Management API

    The operation a request asks for, as a table on methods and segments; the mux
    with its registered wrappers serves exactly that operation; and what is served
    on the paths that need no credentials. *)
From Stdlib Require Import ZArith Lia Strings.Byte Strings.String Strings.Ascii.
From stdpp Require Import base tactics list gmap strings.
From S2P Require Import Prelude Model Sql World Repository Crypto Text Password Accounts Identity Limiter Path.
From S2P Require Import FileSystem Telegram Bots WebDav Management Server.
#[local] Open Scope string_scope.
#[local] Open Scope Z_scope.
Open Scope m_scope.

(** ** The documented operations *)

Section documented.
Context {O : Oapi} {D : BodyDecoder} (r : apiReq).

Definition is_ (m : string) : bool := String.eqb m (rq_Method r).
Definition is_get : bool := is_ "GET" || is_ "HEAD".

(** An operation on a resource with an id, which must bind. *)
Definition with_id (name s : string) (op : uuid → operation) : option (option operation) :=
  if String.eqb s "/" then None else Some (op <$> bind_uuid name s).

Definition ListEvents_op : option operation :=
  kind ← bind_string false "kind" (rq_Query r);
  limit ← bind_int32 false "limit" (rq_Query r);
  offset ← bind_int32 false "offset" (rq_Query r);
  Some (OpListEvents (mkListEventsParams kind limit offset)).

Definition QueryStats_op : option operation :=
  if String.eqb (Query_Get r "metric") "" then None
  else
    metric ← bind_string true "metric" (rq_Query r);
    label ← bind_string false "label" (rq_Query r);
    from ← bind_time false "from" (rq_Query r);
    to ← bind_time false "to" (rq_Query r);
    Some (OpQueryStats (mkQueryStatsParams (default "" metric) label from to)).

(** /api/v1/c *)
Definition collection_op (c : string) : option (option operation) :=
  if String.eqb "bots" c then
    if is_get then Some (Some OpListBots) else if is_ "POST" then Some (Some (OpAddBot (decode_AddBot (rq_Body r)))) else None
  else if String.eqb "channels" c then
    if is_get then Some (Some OpListChannels)
    else if is_ "POST" then Some (Some (OpAddChannel (decode_AddChannel (rq_Body r)))) else None
  else if String.eqb "events" c then if is_get then Some ListEvents_op else None
  else if String.eqb "settings" c then
    if is_get then Some (Some OpGetSettings)
    else if is_ "PUT" then Some (Some (OpUpdateSettings (decode_UpdateSettings (rq_Body r)))) else None
  else if String.eqb "stats" c then if is_get then Some QueryStats_op else None
  else if String.eqb "users" c then
    if is_get then Some (Some OpListUsers)
    else if is_ "POST" then Some (Some (OpCreateUser (decode_CreateUser (rq_Body r)))) else None
  else None.

(** /api/v1/c/s *)
Definition item_op (c s : string) : option (option operation) :=
  if String.eqb "bots" c then if is_ "DELETE" then with_id "botId" s OpDeleteBot else None
  else if String.eqb "channels" c then if is_ "DELETE" then with_id "channelId" s OpDeleteChannel else None
  else if String.eqb "users" c then
    if is_ "DELETE" then with_id "userId" s OpDeleteUser else if is_get then with_id "userId" s OpGetUser else None
  else None.

(** /api/v1/c/s/d *)
Definition part_op (c s d : string) : option (option operation) :=
  if String.eqb "bots" c then
    if String.eqb "enabled" d && is_ "PUT"
    then with_id "botId" s (λ id, OpSetBotEnabled id (decode_SetEnabled (rq_Body r))) else None
  else if String.eqb "channels" c then
    if String.eqb "eviction" d && is_ "PUT"
    then with_id "channelId" s (λ id, OpSetChannelEviction id (decode_SetEviction (rq_Body r))) else None
  else if String.eqb "users" c then
    if String.eqb "password" d then
      if is_ "PUT" then with_id "userId" s (λ id, OpSetUserPassword id (decode_SetPassword (rq_Body r))) else None
    else if String.eqb "tokens" d then
      if is_get then with_id "userId" s OpListUserTokens
      else if is_ "POST" then with_id "userId" s (λ id, OpCreateUserToken id (decode_CreateToken (rq_Body r))) else None
    else None
  else None.

(** /api/v1/users/s/tokens/t *)
Definition token_op (c s d t : string) : option (option operation) :=
  if String.eqb "users" c && String.eqb "tokens" d && is_ "DELETE" then
    if String.eqb s "/" || String.eqb t "/" then None
    else Some (id ← bind_uuid "userId" s; tok ← bind_uuid "tokenId" t; Some (OpDeleteUserToken id tok))
  else None.

Definition under_api {A} (a b : string) (x : option A) : option A :=
  if String.eqb "api" a && String.eqb "v1" b then x else None.

(** [None]: there is no such operation; [Some None]: its parameters do not bind. *)
Definition operation_at (segs : list string) : option (option operation) :=
  match segs with
  | [a] => if String.eqb "healthz" a && is_get then Some (Some OpHealthz) else None
  | [a; b; c] => under_api a b (collection_op c)
  | [a; b; c; s] => under_api a b (item_op c s)
  | [a; b; c; s; d] => under_api a b (part_op c s d)
  | [a; b; c; s; d; t] => under_api a b (token_op c s d t)
  | _ => None
  end.
Definition operation_of : option (option operation) := operation_at (path_segments (rq_Escaped r)).

Lemma operation_connect segs : rq_Method r = "CONNECT" → operation_at segs = None.
Proof.
  intros Hm. unfold operation_at, collection_op, item_op, part_op, token_op, is_get, is_, under_api. rewrite Hm. cbn.
  destruct segs as [|a [|b [|c [|s [|d [|t [|u segs]]]]]]]; try done; rewrite ?andb_false_r; try done.
  all: repeat match goal with |- (if ?x then _ else _) = _ => destruct x; try done end.
Qed.

(** The embedded specification. *)
Definition spec_at (segs : list string) : bool :=
  match segs with [a] => String.eqb "openapi.yaml" a && is_get | _ => false end.

End documented.

(** ** The mux serves them *)

(** Evaluate the patterns of the registered routes. *)
Ltac eval_patterns :=
  repeat match goal with |- context [parsePattern ?s] => let v := eval vm_compute in (parsePattern s) in change (parsePattern s) with v end.

(** Evaluate the comparisons of closed strings. *)
Ltac eval_eqb :=
  repeat match goal with
  | |- context [String.eqb ?a ?b] =>
      let v := eval vm_compute in (String.eqb a b) in
      lazymatch v with true => idtac | false => idtac end; change (String.eqb a b) with v
  end; cbn [orb andb].

(** Decide what the segments are, one comparison after the other. *)
Ltac decide_segments :=
  repeat match goal with
  | |- context [String.eqb ?l ?x] => is_var x; destruct (String.eqb_spec l x) as [<-|_]; eval_eqb
  | |- context [String.eqb ?x "/"] => is_var x; destruct (String.eqb x "/"); eval_eqb
  end.

Section dispatch.
Context {E : Env} {C : Aead} {A : BotAPI} {K : Kdf} {O : Oapi} {D : BodyDecoder} (bots : BotRepository).
Context (redirect : string → apiReq → apiResp).

Definition wrapper : ServerInterfaceWrapper :=
  mkServerInterfaceWrapper (Handler bots) [] (λ _ _, ret (writeJSONError 400)).

(** An operation runs, or a parameter did not bind. *)
Definition run_op (p : option operation) : M apiResp :=
  match p with Some op => perform bots op | None => ret (writeJSONError 400) end.

Lemma ListEvents_wrapped r vals : siw_ListEvents wrapper (set_PathValues vals r) = run_op (ListEvents_op r).
Proof.
  unfold siw_ListEvents, ListEvents_op, bound. cbn.
  destruct (bind_string _ _ _) as [kind|]; [|done]. destruct (bind_int32 _ "limit" _) as [limit|]; [|done]. cbn.
  by destruct (bind_int32 _ "offset" _).
Qed.

Lemma QueryStats_wrapped r vals : siw_QueryStats wrapper (set_PathValues vals r) = run_op (QueryStats_op r).
Proof.
  unfold siw_QueryStats, QueryStats_op, bound, Query_Get. cbn. destruct (String.eqb _ ""); [done|].
  destruct (bind_string _ "metric" _) as [metric|]; [|done]. destruct (bind_string _ "label" _) as [label|]; [|done].
  cbn. destruct (bind_time _ "from" _) as [from|]; [|done]. cbn. by destruct (bind_time _ "to" _).
Qed.

(** What the mux finds for a method and segments. *)
Definition found_ok (r : apiReq) (segs : list string) (x : option (handler * list (string * string))) : Prop :=
  match operation_at r segs with
  | Some p => ∃ h vals, x = Some (h, vals) ∧ h (set_PathValues vals r) = run_op p
  | None => if spec_at r segs then ∃ vals, x = Some (serveSpec, vals) else x = None
  end.

(** The wrapper found is the operation's. *)
Ltac run_wrapper :=
  eexists _, _; split; [reflexivity|];
  first [reflexivity | apply ListEvents_wrapped | apply QueryStats_wrapped
        | unfold siw_DeleteBot, siw_SetBotEnabled, siw_DeleteChannel, siw_SetChannelEviction, siw_DeleteUser, siw_GetUser,
            siw_SetUserPassword, siw_ListUserTokens, siw_CreateUserToken, siw_DeleteUserToken, bound;
          repeat match goal with |- context [PathValue ?q ?n] =>
            let v := eval vm_compute in (PathValue q n) in change (PathValue q n) with v end;
          repeat match goal with |- context [bind_uuid ?a ?b] => destruct (bind_uuid a b) end; reflexivity].

Lemma mux_match_ok r segs : found_ok r segs (mux_match (management_mux bots) (rq_Method r) segs).
Proof.
  unfold management_mux, HandlerWithOptions, HandleFunc. cbn [foldl app fst snd]. eval_patterns. fold wrapper.
  unfold found_ok, operation_at, spec_at, collection_op, item_op, part_op, token_op, is_get, is_.
  cbn [mux_match pt_method pt_segs]. unfold match_method, under_api, with_id.
  destruct (String.eqb_spec "GET" (rq_Method r)) as [Hm|_]; [|
  destruct (String.eqb_spec "HEAD" (rq_Method r)) as [Hm|_]; [|
  destruct (String.eqb_spec "POST" (rq_Method r)) as [Hm|_]; [|
  destruct (String.eqb_spec "PUT" (rq_Method r)) as [Hm|_]; [|
  destruct (String.eqb_spec "DELETE" (rq_Method r)) as [Hm|_]]]]].
  all: try rewrite <- Hm.
  all: eval_eqb.
  all: destruct segs as [|a [|b [|c [|s [|d [|t [|u segs]]]]]]]; cbn [match_segs].
  all: decide_segments; cbn [fmap option_fmap option_map].
  all: first [reflexivity | match goal with |- ∃ _ : list _, _ => by eexists end | run_wrapper].
Qed.

(** A request's own answer: nothing runs. *)
Lemma mux_cases r :
  (∃ p, operation_of r = Some p ∧ cleanPath (rq_Escaped r) = rq_Escaped r
        ∧ mux_ServeHTTP redirect (management_mux bots) r = run_op p)
  ∨ ∃ x, mux_ServeHTTP redirect (management_mux bots) r = ret x.
Proof.
  unfold mux_ServeHTTP. destruct (String.eqb (rq_Escaped r) "*"); [right; by eexists|].
  unfold findHandler. destruct (String.eqb (rq_Method r) "CONNECT") eqn:Hcon.
  - apply String.eqb_eq in Hcon. rewrite String.eqb_refl. cbn [negb].
    pose proof (mux_match_ok r (path_segments (rq_Escaped r))) as Hf. unfold found_ok in Hf.
    rewrite operation_connect in Hf by done.
    assert (spec_at r (path_segments (rq_Escaped r)) = false) as Hs.
    { unfold spec_at, is_get, is_. rewrite Hcon. destruct (path_segments _) as [|? []]; [done| |done]. by rewrite andb_false_r. }
    rewrite Hs in Hf. rewrite Hf. right. destruct (allowed_methods _ _); by eexists.
  - destruct (String.eqb_spec (cleanPath (rq_Escaped r)) (rq_Escaped r)) as [Hc|Hc]; cbn [negb]; [|right; by eexists].
    rewrite Hc. pose proof (mux_match_ok r (path_segments (rq_Escaped r))) as Hf. unfold found_ok in Hf.
    fold (operation_of r) in Hf. destruct (operation_of r) as [p|] eqn:Hop.
    + left. destruct Hf as (h & vals & -> & Hh). by exists p.
    + right. destruct (spec_at _ _); [destruct Hf as [vals ->]; by eexists|]. rewrite Hf.
      destruct (allowed_methods _ _); by eexists.
Qed.

(** A request with a clean path for a documented operation runs it. *)
Lemma mux_dispatch r p : operation_of r = Some p → cleanPath (rq_Escaped r) = rq_Escaped r →
  mux_ServeHTTP redirect (management_mux bots) r = run_op p.
Proof.
  intros Hop Hc. unfold mux_ServeHTTP. replace (String.eqb (rq_Escaped r) "*") with false.
  2:{ symmetry. apply String.eqb_neq. intros He. rewrite He in Hc. by vm_compute in Hc. }
  unfold findHandler. rewrite Hc.
  replace (if String.eqb (rq_Method r) "CONNECT" then rq_Escaped r else rq_Escaped r) with (rq_Escaped r) by by destruct (String.eqb _ _).
  rewrite String.eqb_refl. cbn [negb].
  pose proof (mux_match_ok r (path_segments (rq_Escaped r))) as Hf. unfold found_ok in Hf. fold (operation_of r) in Hf.
  rewrite Hop in Hf. by destruct Hf as (h & vals & -> & Hh).
Qed.

End dispatch.

(** ** The patterns do not overlap *)

Definition seg_overlap (p q : pseg) : bool :=
  match p, q with Lit a, Lit b => String.eqb a b | _, _ => true end.
Fixpoint segs_overlap (ps qs : list pseg) : bool :=
  match ps, qs with
  | [], [] => true
  | p :: ps, q :: qs => seg_overlap p q && segs_overlap ps qs
  | _, _ => false
  end.
Definition overlap (p q : pattern) : bool :=
  (match_method (pt_method p) (pt_method q) || match_method (pt_method q) (pt_method p)) && segs_overlap (pt_segs p) (pt_segs q).

Lemma segs_overlap_sound ps qs segs vs vs' : match_segs ps segs = Some vs → match_segs qs segs = Some vs' →
  segs_overlap ps qs = true.
Proof.
  revert qs segs vs vs'. induction ps as [|p ps IH]; intros qs segs vs vs'; [destruct segs; [by destruct qs as [|[] qs]|done]|].
  destruct segs as [|s segs]; [by destruct p|]. destruct qs as [|q qs]; [done|]. cbn [match_segs segs_overlap].
  assert (∀ p ps vs, match p with Lit l => if String.eqb l s then match_segs ps segs else None
    | Wild name => if String.eqb s "/" then None else cons (name, s) <$> match_segs ps segs end = Some vs →
    (∃ v, match_segs ps segs = Some v) ∧ match p with Lit l => l = s | _ => True end) as Hone.
  { intros [l|name] ps' v; [destruct (String.eqb_spec l s); [|done]; intros ->; split; [by eexists|done]|].
    destruct (String.eqb s "/"); [done|]. destruct (match_segs ps' segs); [|done]. intros _. split; [by eexists|done]. }
  intros [[v Hv] Hp]%Hone [[v' Hv'] Hq]%Hone. rewrite (IH _ _ _ _ Hv Hv'), andb_true_r.
  destruct p, q; try done. simpl. subst. apply String.eqb_refl.
Qed.

(** Two patterns that serve one request are the same: the order of registration and
    the mux's rule of precedence do not matter. *)
Lemma patterns_disjoint `{Env, Aead, BotAPI, Kdf, Oapi, BodyDecoder} bots i j (x y : pattern * handler) method segs vs vs' :
  management_mux bots !! i = Some x → management_mux bots !! j = Some y →
  match_method (pt_method x.1) method = true → match_method (pt_method y.1) method = true →
  match_segs (pt_segs x.1) segs = Some vs → match_segs (pt_segs y.1) segs = Some vs' → i = j.
Proof.
  intros Hx Hy Hmx Hmy Hsx Hsy. pose proof (segs_overlap_sound _ _ _ _ _ Hsx Hsy) as Ho.
  assert (match_method (pt_method x.1) (pt_method y.1) || match_method (pt_method y.1) (pt_method x.1) = true) as Hm.
  { unfold match_method in *. rewrite !orb_true_iff, !andb_true_iff, !String.eqb_eq in *.
    destruct Hmx as [->|[-> <-]], Hmy as [->|[-> Hh]]; auto. }
  set (pats := fst <$> management_mux bots) in *.
  assert (pats !! i = Some x.1) as Hpx by (unfold pats; by rewrite list_lookup_fmap, Hx).
  assert (pats !! j = Some y.1) as Hpy by (unfold pats; by rewrite list_lookup_fmap, Hy).
  assert (forallb (λ a, forallb (λ b, bool_decide (a = b) || negb (overlap (default (mkPattern "" []) (pats !! a))
    (default (mkPattern "" []) (pats !! b)))) (seq 0 22)) (seq 0 22) = true) as Hall by (vm_compute; reflexivity).
  assert (length pats = 22%nat) as Hlen by (vm_compute; reflexivity).
  rewrite forallb_forall in Hall. assert (i ∈ seq 0 22 ∧ j ∈ seq 0 22) as [Hi Hj].
  { apply lookup_lt_Some in Hpx, Hpy. rewrite !elem_of_seq. lia. }
  specialize (Hall i ltac:(by apply list_elem_of_In)). rewrite forallb_forall in Hall.
  specialize (Hall j ltac:(by apply list_elem_of_In)). rewrite Hpx, Hpy in Hall. unfold overlap in Hall. cbn [default] in Hall.
  unfold id in Hall. rewrite Hm, Ho in Hall. simpl in Hall. rewrite orb_false_r in Hall. by apply bool_decide_eq_true in Hall.
Qed.

(** ** Public paths *)

Fixpoint count_slash (s : string) : nat :=
  match s with EmptyString => 0 | String c t => (if Ascii.eqb c slash then 1 else 0) + count_slash t end.

Lemma length_Split s : length (Split "/" s) = S (count_slash s).
Proof.
  induction s as [|c s IH]; [done|]. cbn [Split count_slash]. unfold slash in *. destruct (Ascii.eqb c "/"); simpl; [by rewrite IH|].
  by destruct (Split "/" s).
Qed.

Lemma length_segments l : length (segments l) = length l.
Proof.
  induction l as [|x l IH]; [done|]. destruct (decide (x = "" ∧ l = [])) as [[-> ->]|Hne]; [done|].
  assert (segments (x :: l) = pathUnescape x :: segments l) as -> by (destruct x, l; try done; by destruct Hne).
  simpl. by rewrite IH.
Qed.

(** Decoding keeps the slashes of a path. *)
Lemma PathUnescape_slash s t : PathUnescape s = Some t → (count_slash s ≤ count_slash t)%nat.
Proof.
  revert t. induction s as [s IH] using (induction_ltof1 _ String.length); unfold ltof in IH. intros t.
  destruct s as [|c s]; [by intros [= <-]|].
  destruct (Ascii.eqb_spec c "%") as [->|Hne].
  - destruct s as [|a [|b s]]; try done. cbn [PathUnescape]. destruct (hex_value a) eqn:Ha; [|done]. destruct (hex_value b) eqn:Hb; [|done].
    destruct (PathUnescape s) as [u|] eqn:Hu; [|done]. intros [= <-]. specialize (IH s ltac:(simpl; lia) u Hu).
    assert (Ascii.eqb a slash = false ∧ Ascii.eqb b slash = false) as [Has Hbs].
    { split; apply Ascii.eqb_neq; intros ->; done. }
    cbn [count_slash]. rewrite Has, Hbs. cbn. lia.
  - assert (PathUnescape (String c s) = String c <$> PathUnescape s) as ->.
    { destruct c as [[] [] [] [] [] [] [] []]; try done. }
    destruct (PathUnescape s) as [u|] eqn:Hu; [|done]. intros [= <-]. specialize (IH s ltac:(simpl; lia) u Hu).
    cbn [count_slash]. lia.
Qed.

Lemma render_slash l : ∃ t, render l = String slash t.
Proof. destruct l as [|x l]; [by exists ""|]. simpl. by eexists. Qed.

Lemma cleanPath_slash p : ∃ t, cleanPath p = String slash t.
Proof.
  unfold cleanPath. destruct (String.eqb p ""); [by exists ""|]. set (q := match p with String c _ => _ | EmptyString => _ end).
  unfold Clean. destruct (render_slash (clean_segs [] (split_slash q))) as [t ->].
  destruct (_ && _); by eexists.
Qed.

(** The path and its escaped form. *)
Definition url_ok (r : apiReq) : Prop := PathUnescape (rq_Escaped r) = Some (rq_Path r).

(** Whatever the encoding of the path, the only operation reached without credentials
    is the health check. *)
Lemma public_operation {O : Oapi} {D : BodyDecoder} r p : url_ok r → isManagementPublic (rq_Path r) = true →
  cleanPath (rq_Escaped r) = rq_Escaped r → operation_of r = Some p → p = Some OpHealthz.
Proof.
  intros Hu Hp Hc Hop. destruct (cleanPath_slash (rq_Escaped r)) as [t Ht]. rewrite Hc in Ht. unfold url_ok in Hu.
  apply PathUnescape_slash in Hu. rewrite Ht in Hu. cbn in Hu.
  assert (count_slash (rq_Path r) = 1%nat) as Hone.
  { unfold isManagementPublic in Hp. apply orb_true_iff in Hp. rewrite !String.eqb_eq in Hp. by destruct Hp as [-> | ->]. }
  unfold operation_of in Hop. rewrite Ht in Hop. cbn [path_segments] in Hop.
  assert (length (segments (Split "/" t)) = 1%nat) as Hl by (rewrite length_segments, length_Split; lia).
  destruct (segments (Split "/" t)) as [|a [|]]; [done| |done]. cbn in Hop.
  destruct (_ && _); congruence.
Qed.
