(* ===== verification/Maintenance.v ===== *)
(** * internal/service/maintenance.go: housekeeping

    Reaping the messages of unreferenced blobs, eviction past the retention window
    and the membership refresh, as the ticks of [Run]'s loop. *)
From Stdlib Require Import ZArith Lia Strings.Byte Strings.String.
From stdpp Require Import base tactics list gmap sets strings.
From S2P Require Import Prelude Model Sql World Repository Crypto Accounts Telegram Bots.
#[local] Open Scope string_scope.
#[local] Open Scope Z_scope.
Open Scope m_scope.

Definition reapBatch : Z := 50.
Definition reapThrottle : Z := 250 * Millisecond.

Section maintenance.
Context {E : Env} {C : Aead} {A : BotAPI} (bots : BotRepository).

(** The loop of [reap]; every early [return] ends it. *)
Fixpoint reap_loop (l : list Blob) : M unit :=
  match l with
  | [] => ret tt
  | b :: rest =>
      let! stop := ctx_Err in
      if stop then ret tt else
      let? ch := ChannelRepository_GetByID (b_ChannelID b) in
      match ch with
      | Err _ => reap_loop rest
      | Ok channel =>
          let? picked := Bot_PickForUpload bots (b_ChannelID b) in
          match picked with
          | Err e => if is_panic e then fail e else reap_loop rest
          | Ok bot =>
              let? sent := DeleteMessage bot (ch_TGChatID channel) (b_MessageID b) in
              let reaped :=
                let? gone := blobRepository_Delete (b_ID b) in
                match gone with
                | Err _ => reap_loop rest
                | Ok _ =>
                    ignore! EventRepository_Log EventBlobReaped
                      "unreferenced blob message deleted from Telegram" (env_uuid_string (b_ID b)) in
                    let! stop := ctx_Err in
                    if stop then ret tt else reap_loop rest
                end in
              match sent with
              | Ok _ => reaped
              | Err TgMessageNotFound => reaped
              | Err (TgRateLimit retry) =>
                  let! now := Now in
                  ignore! BotRepository_SetUnavailableUntil (bot_ID bot) (Some (now + retry)) in
                  ret tt
              | Err _ => reap_loop rest
              end
          end
      end
  end.

Definition reap : M unit :=
  let? l := blobRepository_ListCollectable reapBatch in
  match l with Err _ => ret tt | Ok l => reap_loop l end.

Definition evict_channel (c : Channel) : M unit :=
  let minSeq := wrap64 (ch_MessageCounter c - ch_EvictionThreshold c) in
  if minSeq <=? 0 then ret tt
  else
    let? n := blobRepository_EvictOlderThan (ch_ID c) minSeq in
    match n with
    | Err _ => ret tt
    | Ok n => if 0 <? n
              then ignore! EventRepository_Log EventChannelEvicted
                     "blobs evicted past retention window" (env_uuid_string (ch_ID c)) in ret tt
              else ret tt
    end.

Definition evict_old : M unit :=
  let? l := ChannelRepository_List in
  match l with Err _ => ret tt | Ok l => for_each l evict_channel end.

(** [Run]: one of its tickers fires. *)
Inductive ticker := ReapTick | EvictTick | RefreshTick.

Definition maintenance_turn (t : ticker) : M unit :=
  match t with
  | ReapTick => reap
  | EvictTick => evict_old
  | RefreshTick => ignore! RefreshMembership bots in ret tt
  end.

End maintenance.
