(* ===== verification/Packer.v ===== *)
(** * internal/service/wal.go: the packer

    The builder claims buffered nodes, splits large files into blob-sized jobs and
    packs small ones together; the workers upload the jobs; a node whose blobs have
    all landed is finalized.  Tracks are shared between the builder and the workers
    by pointer: [ps_tracks] is that store.  A goroutine's code between two uses of
    the mutex or of the job channel is one definition; [pstep] interleaves them. *)
From Stdlib Require Import ZArith Lia Strings.Byte Strings.String.
From stdpp Require Import base tactics list gmap sets strings.
From S2P Require Import Prelude Model Sql World Repository Crypto Accounts File Telegram BlobReader Bots.
#[local] Open Scope string_scope.
#[local] Open Scope Z_scope.
Open Scope m_scope.

(** ** State *)

Record track := mkTrack {
  tr_node : Node; tr_remaining : Z; tr_planned : bool; tr_failed : bool; tr_extents : list Extent }.

Record blobJob := mkBlobJob { jb_blobID : uuid; jb_data : bytes; jb_channel : Channel; jb_tracks : list nat }.

Record pendingExtent := mkPendingExtent {
  pe_track : nat; pe_seq : Z; pe_fileOffset : Z; pe_blobOffset : Z; pe_length : Z }.

Record run := mkRun { run_buf : bytes; run_segs : list pendingExtent }.
Definition empty_run : run := mkRun [] [].

(** The tracks by pointer, the next fresh pointer, [packState.pendingSmall], the
    jobs sent and not yet received, the builder's [cur] and [lastActivity]. *)
Record packState := mkPackState {
  ps_tracks : gmap nat track; ps_next : nat; ps_pendingSmall : list nat;
  ps_jobs : list blobJob; ps_cur : run; ps_lastActivity : time }.

Definition set_tracks (m : gmap nat track) (st : packState) : packState :=
  mkPackState m (ps_next st) (ps_pendingSmall st) (ps_jobs st) (ps_cur st) (ps_lastActivity st).
Definition set_pending (l : list nat) (st : packState) : packState :=
  mkPackState (ps_tracks st) (ps_next st) l (ps_jobs st) (ps_cur st) (ps_lastActivity st).
Definition set_jobs (l : list blobJob) (st : packState) : packState :=
  mkPackState (ps_tracks st) (ps_next st) (ps_pendingSmall st) l (ps_cur st) (ps_lastActivity st).
Definition set_cur (r : run) (st : packState) : packState :=
  mkPackState (ps_tracks st) (ps_next st) (ps_pendingSmall st) (ps_jobs st) r (ps_lastActivity st).
Definition set_last (t : time) (st : packState) : packState :=
  mkPackState (ps_tracks st) (ps_next st) (ps_pendingSmall st) (ps_jobs st) (ps_cur st) t.

(** [t := &track{node: node}]. *)
Definition new_track (node : Node) (st : packState) : nat * packState :=
  (ps_next st, mkPackState (<[ps_next st := mkTrack node 0 false false []]> (ps_tracks st)) (S (ps_next st))
                 (ps_pendingSmall st) (ps_jobs st) (ps_cur st) (ps_lastActivity st)).

Definition upd_track (t : nat) (f : track → track) (st : packState) : packState :=
  set_tracks (alter f t (ps_tracks st)) st.

(** [t.extents = append(t.extents, e)]. *)
Definition add_extent (e : Extent) (tr : track) : track :=
  mkTrack (tr_node tr) (tr_remaining tr) (tr_planned tr) (tr_failed tr) (tr_extents tr ++ [e])%list.
Definition add_remaining (n : Z) (tr : track) : track :=
  mkTrack (tr_node tr) (tr_remaining tr + n) (tr_planned tr) (tr_failed tr) (tr_extents tr).
Definition set_planned (tr : track) : track :=
  mkTrack (tr_node tr) (tr_remaining tr) true (tr_failed tr) (tr_extents tr).
Definition set_failed (tr : track) : track :=
  mkTrack (tr_node tr) (tr_remaining tr) (tr_planned tr) true (tr_extents tr).

(** [t.planned && t.remaining == 0 && !t.failed]. *)
Definition done_track (tr : track) : bool := tr_planned tr && (tr_remaining tr =? 0) && negb (tr_failed tr).
Definition is_done (st : packState) (t : nat) : bool :=
  match ps_tracks st !! t with Some tr => done_track tr | None => false end.

(** [jobs <- job]. *)
Definition send_job (j : blobJob) (st : packState) : packState := set_jobs (ps_jobs st ++ [j])%list st.

(** The critical section of [splitLarge] and the send that follows it. *)
Definition plan_piece (t : nat) (ch : Channel) (blobID extID : uuid) (off seq : Z) (data : bytes)
    (st : packState) : packState :=
  let node := match ps_tracks st !! t with Some tr => n_ID (tr_node tr) | None => uuid_Nil end in
  send_job (mkBlobJob blobID data ch [t])
    (upd_track t (λ tr, add_remaining 1 (add_extent (mkExtent extID node seq off (blen data) blobID 0) tr)) st).

(** The loop of [seal] over the segments: [seen] and [distinct]. *)
Fixpoint seal_segs (blobID : uuid) (ids : list uuid) (segs : list pendingExtent) (seen : list nat)
    (st : packState) : list nat * packState :=
  match segs, ids with
  | s :: segs, id :: ids =>
      let t := pe_track s in
      let node := match ps_tracks st !! t with Some tr => n_ID (tr_node tr) | None => uuid_Nil end in
      let st := upd_track t (add_extent (mkExtent id node (pe_seq s) (pe_fileOffset s) (pe_length s)
                                           blobID (pe_blobOffset s))) st in
      if bool_decide (t ∈ seen) then seal_segs blobID ids segs seen st
      else seal_segs blobID ids segs (seen ++ [t])%list (upd_track t (add_remaining 1) st)
  | _, _ => (seen, st)
  end.

(** The critical section of [uploadWorker] after a blob is stored. *)
Definition landed (j : blobJob) (st : packState) : list nat * packState :=
  let st := foldl (λ st t, upd_track t (add_remaining (-1)) st) st (jb_tracks j) in
  (List.filter (is_done st) (jb_tracks j), st).

(** [deltas[e.BlobID]++]. *)
Definition ref_deltas (es : list Extent) : gmap uuid Z :=
  foldl (λ m e, <[e_BlobID e := default 0 (m !! e_BlobID e) + 1]> m) ∅ es.

Definition AddWriteBytes (n : Z) : M unit := modify (λ w, let k := w_stats w in
  set_stats (mkCounters (k_readBytes k) (wrap64 (k_writeBytes k + n)) (k_readOps k) (k_writeOps k)
    (k_cacheHit k) (k_cacheMiss k) (k_telegramReq k)) w).

Section packer.
Context {E : Env} {C : Aead} {A : BotAPI} (bots : BotRepository).
(** [err.Error()]: the errors of this model carry no text. *)
Context (error_text : error → string).
(** The fields of [Packer]: [uuid.NewString()], ten minutes, 64, 0 when built by [NewPacker]. *)
Context (leaseOwner : string) (leaseFor batchLimit uploadConcurrency : Z).

Definition workerCount : M Z :=
  let! n := if uploadConcurrency <=? 0
            then let? r := Bot_List bots in
                 match r with Ok l => ret (blen (List.filter bot_Enabled l)) | Err _ => ret uploadConcurrency end
            else ret uploadConcurrency in
  ret (Z.min 16 (Z.max 1 n)).

Definition ReleaseLease_ (id : uuid) : M unit := ignore! NodeRepository_ReleaseLease id in ret tt.

(** ** finalize *)

Definition store_extents (es : list Extent) : M unit :=
  if blen es =? 0 then ret tt
  else do! extentRepository_CreateBatch es in blobRepository_AddRefcounts (ref_deltas es).

Definition finalize_tx (tr : track) : M unit :=
  let! owned := NodeRepository_MarkStoredIfOwner (n_ID (tr_node tr)) leaseOwner in
  if negb owned then ret tt
  else do! store_extents (tr_extents tr) in WALRepository_DeleteByNode (n_ID (tr_node tr)).

(** The error is logged; the node stays buffered. *)
Definition finalize (tr : track) : M unit := ignore! WithTx (finalize_tx tr) in ret tt.

Definition finalize_ptr (st : packState) (t : nat) : M unit :=
  match ps_tracks st !! t with Some tr => finalize tr | None => ret tt end.

Definition finalizeEmpty (node : Node) : M unit :=
  WithTx (let! owned := NodeRepository_MarkStoredIfOwner (n_ID node) leaseOwner in
          if negb owned then ret tt else WALRepository_DeleteByNode (n_ID node)).

(** ** Failures *)

Definition failTrack (t : nat) (st : packState) : M packState :=
  match ps_tracks st !! t with
  | Some tr =>
      do! (if tr_failed tr then ret tt else ReleaseLease_ (n_ID (tr_node tr))) in
      ret (upd_track t set_failed st)
  | None => ret st
  end.

Fixpoint failJob (ts : list nat) (st : packState) : M packState :=
  match ts with
  | [] => ret st
  | t :: rest => let! st := failTrack t st in failJob rest st
  end.

(** ** splitLarge *)

(** [None]: the loop ended early, with the track failed. *)
Fixpoint split_loop (fuel : nat) (t : nat) (node : Node) (ch : Channel) (blobMax off seq : Z)
    (st : packState) : M (packState * bool) :=
  if n_Size node <=? off then ret (st, true)
  else match fuel with
  | O => fail (ErrOther "out of fuel")
  | S k =>
      let n := Z.min blobMax (n_Size node - off) in
      let? r := WALRepository_ReadRange (n_ID node) off n in
      match r with
      | Err _ => let! st := failTrack t st in ret (st, false)
      | Ok data =>
          let! blobID := uuid_New in
          let! extID := uuid_New in
          split_loop k t node ch blobMax (off + blen data) (seq + 1)
            (plan_piece t ch blobID extID off seq data st)
      end
  end.

Definition planned_ (t : nat) (st : packState) : M packState :=
  let st := upd_track t set_planned st in
  do! (if is_done st t then finalize_ptr st t else ret tt) in
  ret st.

Definition splitLarge (fuel : nat) (t : nat) (node : Node) (blobMax : Z) (st : packState) : M packState :=
  let? picked := Channel_PickForUpload bots in
  match picked with
  | Err _ => failTrack t st
  | Ok ch =>
      let! '(st, whole) := split_loop fuel t node ch blobMax 0 0 st in
      if whole then planned_ t st else ret st
  end.

(** ** seal and packSmall *)

(** Without a channel the files in the buffer are given back. *)
Definition release_pending (st : packState) : M unit :=
  for_each (ps_pendingSmall st) (λ t, match ps_tracks st !! t with
    | Some tr => ReleaseLease_ (n_ID (tr_node tr)) | None => ret tt end).

Definition seal (st : packState) : M packState :=
  let cur := ps_cur st in
  if blen (run_buf cur) =? 0 then ret st
  else
    let? picked := Channel_PickForUpload bots in
    match picked with
    | Err _ =>
        do! release_pending st in
        ret (set_pending [] st)
    | Ok ch =>
        let! blobID := uuid_New in
        let! ids := map_each (run_segs cur) (λ _, uuid_New) in
        let '(distinct, st1) := seal_segs blobID ids (run_segs cur) [] st in
        let pending := ps_pendingSmall st1 in
        let st2 := send_job (mkBlobJob blobID (run_buf cur) ch distinct) (set_pending [] st1) in
        let st3 := foldl (λ st t, upd_track t set_planned st) st2 pending in
        do! for_each (List.filter (is_done st3) pending) (finalize_ptr st3) in
        ret st3
    end.

(** The append to the current buffer. *)
Definition append_small (t : nat) (data : bytes) (st : packState) : packState :=
  let cur := ps_cur st in
  set_pending (ps_pendingSmall st ++ [t])%list
    (set_cur (mkRun (run_buf cur ++ data)
                (run_segs cur ++ [mkPendingExtent t 0 0 (blen (run_buf cur)) (blen data)]))%list st).

Definition packSmall (t : nat) (node : Node) (blobMax : Z) (st : packState) : M packState :=
  let? r := WALRepository_ReadRange (n_ID node) 0 (n_Size node) in
  match r with
  | Err _ => do! ReleaseLease_ (n_ID node) in ret st
  | Ok data =>
      let! st :=
        if (blobMax <? blen (run_buf (ps_cur st)) + blen data) && (0 <? blen (run_buf (ps_cur st)))
        then let! st := seal st in ret (set_cur empty_run st)
        else ret st in
      ret (append_small t data st)
  end.

(** ** The builder *)

(** Enough for a file whose WAL is complete: one round per blob. *)
Definition split_fuel (node : Node) : nat := S (Z.to_nat (n_Size node)).

Definition handle_empty (node : Node) : M unit :=
  let? r := finalizeEmpty node in
  match r with Ok _ => ret tt | Err _ => ReleaseLease_ (n_ID node) end.

Definition handle_node (blobMax : Z) (node : Node) (st : packState) : M packState :=
  if n_Size node =? 0 then do! handle_empty node in ret st
  else
    let '(t, st) := new_track node st in
    let! st := if blobMax <? n_Size node then splitLarge (split_fuel node) t node blobMax st
               else packSmall t node blobMax st in
    let! now := Now in
    ret (set_last now st).

Fixpoint handle_nodes (blobMax : Z) (nodes : list Node) (st : packState) : M packState :=
  match nodes with
  | [] => ret st
  | n :: rest => let! st := handle_node blobMax n st in handle_nodes blobMax rest st
  end.

Definition blob_max (set : Settings) : Z :=
  if BlobMaxSize set <=? 0 then BlobMaxSize DefaultSettings else BlobMaxSize set.

(** One tick of [builder]. *)
Definition builder_turn (st : packState) : M packState :=
  let? s := Settings_Get in
  match s with
  | Err _ => ret st
  | Ok set =>
      let? claimed := NodeRepository_ClaimBufferedForPacking leaseOwner leaseFor batchLimit in
      match claimed with
      | Err _ => ret st
      | Ok [] =>
          if (0 <? blen (run_buf (ps_cur st))) && negb (IsZero (ps_lastActivity st))
          then let! now := Now in
               if WALIdleTimeout set <=? now - ps_lastActivity st
               then let! st := seal st in ret (set_cur empty_run st)
               else ret st
          else ret st
      | Ok nodes => handle_nodes (blob_max set) nodes st
      end
  end.

(** ** The upload workers *)

Definition upload_react (bot : Bot) (ch : Channel) (e : error) : M unit :=
  match e with
  | TgRateLimit retry =>
      let! now := Now in
      ignore! BotRepository_SetUnavailableUntil (bot_ID bot) (Some (now + retry)) in
      ignore! EventRepository_Log EventBotUnavailable "rate limited on upload" (env_uuid_string (bot_ID bot)) in
      ret tt
  | TgForbidden =>
      let! now := Now in
      ignore! BotChannelRepository_Upsert (mkBotChannel (bot_ID bot) (ch_ID ch) false now) in
      ret tt
  | _ => ignore! EventRepository_Log EventUploadFailed (error_text e) (env_uuid_string (ch_ID ch)) in ret tt
  end.

Fixpoint upload_loop (attempts : nat) (filename : string) (ch : Channel) (data : bytes)
    (lastErr : option error) : M (TGSendResult * Bot) :=
  match attempts with
  | O => fail (default TgOther lastErr)
  | S k =>
      let? picked := Bot_PickForUpload bots (ch_ID ch) in
      match picked with
      | Err e => fail (default e lastErr)
      | Ok bot =>
          do! IncTelegramReq in
          let? r := SendDocument bot (ch_TGChatID ch) filename data in
          match r with
          | Ok res => ret (res, bot)
          | Err e => do! upload_react bot ch e in upload_loop k filename ch data (Some e)
          end
      end
  end.

Definition upload (ch : Channel) (data : bytes) : M (TGSendResult * Bot) :=
  let! name := uuid_New in
  upload_loop 6 (env_uuid_string name +:+ ".bin") ch data None.

Definition persist_tx (j : blobJob) (ch : Channel) (bot : Bot) (r : TGSendResult) (now : time) : M unit :=
  let! seq := ChannelRepository_IncrementCounter (ch_ID ch) 1 in
  do! blobRepository_Create (mkBlob (jb_blobID j) (ch_ID ch) (up_MessageID r) seq (blen (jb_data j))
        (sha256 (jb_data j)) BlobStateStored 0 now (Some now)) in
  BlobBotFileRepository_Upsert
    (mkBlobBotFile (jb_blobID j) (bot_ID bot) (up_FileID r) (up_FileUniqueID r) now).

Definition persistBlob (j : blobJob) (ch : Channel) (bot : Bot) (r : TGSendResult) : M unit :=
  let! now := Now in WithTx (persist_tx j ch bot r now).

(** One job of [uploadWorker] up to the end of its critical section: the tracks it
    has completed. *)
Definition worker_store (j : blobJob) (st : packState) : M (list nat * packState) :=
  let ch := jb_channel j in
  let? up := upload ch (jb_data j) in
  match up with
  | Err _ => let! st := failJob (jb_tracks j) st in ret ([], st)
  | Ok (res, bot) =>
      let? p := persistBlob j ch bot res in
      match p with
      | Err _ => let! st := failJob (jb_tracks j) st in ret ([], st)
      | Ok _ => do! AddWriteBytes (blen (jb_data j)) in ret (landed j st)
      end
  end.

(** One job of [uploadWorker]. *)
Definition worker_job (j : blobJob) (st : packState) : M packState :=
  let! '(ready, st) := worker_store j st in
  do! for_each ready (finalize_ptr st) in
  ret st.

(** [job := <-jobs], by one worker after the other. *)
Fixpoint worker_all (fuel : nat) (st : packState) : M packState :=
  match fuel, ps_jobs st with
  | S k, j :: rest => let! st := worker_job j (set_jobs rest st) in worker_all k st
  | _, _ => ret st
  end.

(** ** Interleavings of the builder and the workers *)

(** Where the builder is: between nodes; in the loop of [splitLarge]; in
    [packSmall] with a file read and not yet appended; in [seal] after the send. *)
Inductive phase :=
  | Idle
  | Splitting (t : nat) (node : Node) (ch : Channel) (blobMax off seq : Z)
  | Holding (t : nat) (data : bytes) (blobMax : Z)
  | Sealing (pending : list nat) (next : phase).

(** What has happened so far, for the statements only: the blobs stored and, by
    track, the bytes the builder has read of its file. *)
Record history := mkHistory { h_landed : list (uuid * bytes); h_read : gmap nat bytes }.

Definition got (G : gmap nat bytes) (t : nat) : bytes := default [] (G !! t).
Definition note_read (t : nat) (data : bytes) (h : history) : history :=
  mkHistory (h_landed h) (<[t := data]> (h_read h)).
Definition note_landed (j : blobJob) (h : history) : history :=
  mkHistory ((jb_blobID j, jb_data j) :: h_landed h) (h_read h).

(** The world, the shared state, the jobs being uploaded, the tracks about to be
    finalized, the history and the builder. *)
Record cfg := mkCfg {
  cf_world : World; cf_st : packState; cf_up : list blobJob; cf_ready : list nat;
  cf_hist : history; cf_phase : phase }.

(** Would the file overflow the buffer? *)
Definition overflows (blobMax : Z) (data : bytes) (st : packState) : bool :=
  (blobMax <? blen (run_buf (ps_cur st)) + blen data) && (0 <? blen (run_buf (ps_cur st))).

(** A step of the builder or of a worker that touches the shared state. *)
Inductive pact : cfg → cfg → Prop :=
  (* splitLarge *)
  | PSplit w st up rd la node blobMax ch w' t st' :
      Channel_PickForUpload bots w = (Ok ch, w') → new_track node st = (t, st') →
      pact (mkCfg w st up rd la Idle) (mkCfg w' st' up rd (note_read t [] la) (Splitting t node ch blobMax 0 0))
  | PSplitNoChannel w st up rd la node e w1 w' t st1 st' :
      Channel_PickForUpload bots w = (Err e, w1) → new_track node st = (t, st1) →
      failTrack t st1 w1 = (Ok st', w') →
      pact (mkCfg w st up rd la Idle) (mkCfg w' st' up rd (note_read t [] la) Idle)
  | PPiece w st up rd la t node ch blobMax off seq data blobID extID w1 w2 w' :
      off < n_Size node →
      WALRepository_ReadRange (n_ID node) off (Z.min blobMax (n_Size node - off)) w = (Ok data, w1) →
      uuid_New w1 = (Ok blobID, w2) → uuid_New w2 = (Ok extID, w') →
      pact (mkCfg w st up rd la (Splitting t node ch blobMax off seq))
        (mkCfg w' (plan_piece t ch blobID extID off seq data st) up rd
           (note_read t (got (h_read la) t ++ data) la)
           (Splitting t node ch blobMax (off + blen data) (seq + 1)))
  | PPieceErr w st up rd la t node ch blobMax off seq e w1 st' w' :
      off < n_Size node →
      WALRepository_ReadRange (n_ID node) off (Z.min blobMax (n_Size node - off)) w = (Err e, w1) →
      failTrack t st w1 = (Ok st', w') →
      pact (mkCfg w st up rd la (Splitting t node ch blobMax off seq)) (mkCfg w' st' up rd la Idle)
  | PPlanned w st up rd la t node ch blobMax off seq st' :
      n_Size node ≤ off → st' = upd_track t set_planned st →
      pact (mkCfg w st up rd la (Splitting t node ch blobMax off seq))
        (mkCfg w st' up (if is_done st' t then t :: rd else rd) la Idle)
  (* packSmall *)
  | PSmall w st up rd la node blobMax data w' t st' :
      WALRepository_ReadRange (n_ID node) 0 (n_Size node) w = (Ok data, w') → new_track node st = (t, st') →
      pact (mkCfg w st up rd la Idle) (mkCfg w' st' up rd (note_read t data la) (Holding t data blobMax))
  | PAppend w st up rd la t data blobMax :
      overflows blobMax data st = false →
      pact (mkCfg w st up rd la (Holding t data blobMax)) (mkCfg w (append_small t data st) up rd la Idle)
  (* seal, when a file overflows the buffer or after an idle period *)
  | PSealSend w st up rd la ph ch blobID ids w1 w2 w' distinct st' :
      match ph with Idle => True | Holding _ data blobMax => overflows blobMax data st = true | _ => False end →
      0 < blen (run_buf (ps_cur st)) → Channel_PickForUpload bots w = (Ok ch, w1) →
      uuid_New w1 = (Ok blobID, w2) → map_each (run_segs (ps_cur st)) (λ _, uuid_New) w2 = (Ok ids, w') →
      seal_segs blobID ids (run_segs (ps_cur st)) [] st = (distinct, st') →
      pact (mkCfg w st up rd la ph)
        (mkCfg w' (set_cur empty_run (send_job (mkBlobJob blobID (run_buf (ps_cur st)) ch distinct) (set_pending [] st')))
           up rd la (Sealing (ps_pendingSmall st) ph))
  | PSealNoChannel w st up rd la ph e w1 w' :
      match ph with Idle => True | Holding _ data blobMax => overflows blobMax data st = true | _ => False end →
      Channel_PickForUpload bots w = (Err e, w1) → release_pending st w1 = (Ok tt, w') →
      pact (mkCfg w st up rd la ph) (mkCfg w' (set_cur empty_run (set_pending [] st)) up rd la ph)
  | PSealPlan w st up rd la pending ph st' :
      st' = foldl (λ st t, upd_track t set_planned st) st pending →
      pact (mkCfg w st up rd la (Sealing pending ph))
        (mkCfg w st' up (List.filter (is_done st') pending ++ rd) la ph)
  (* the workers *)
  | PTake w st up rd la ph j rest :
      ps_jobs st = j :: rest →
      pact (mkCfg w st up rd la ph) (mkCfg w (set_jobs rest st) (j :: up) rd la ph)
  | PLanded w st up1 up2 rd la ph j res bot w1 w' ready st' :
      upload (jb_channel j) (jb_data j) w = (Ok (res, bot), w1) →
      persistBlob j (jb_channel j) bot res w1 = (Ok tt, w') → landed j st = (ready, st') →
      pact (mkCfg w st (up1 ++ j :: up2) rd la ph)
        (mkCfg w' st' (up1 ++ up2) (ready ++ rd) (note_landed j la) ph)
  | PFailed w st up1 up2 rd la ph j st' w' :
      failJob (jb_tracks j) st w = (Ok st', w') →
      pact (mkCfg w st (up1 ++ j :: up2) rd la ph) (mkCfg w' st' (up1 ++ up2) rd la ph)
  | PFinalize w st up rd1 rd2 la ph t w' x :
      finalize_ptr st t w = (x, w') →
      pact (mkCfg w st up (rd1 ++ t :: rd2) la ph) (mkCfg w' st up (rd1 ++ rd2) la ph).

(** Among claims, empty files, requests and other services, whatever they do to the
    world. *)
Inductive pstep : cfg → cfg → Prop :=
  | POther w st up rd la ph w' : pstep (mkCfg w st up rd la ph) (mkCfg w' st up rd la ph)
  | PAct c c' : pact c c' → pstep c c'.

(** A packer that has just been started. *)
Definition started (w : World) : cfg := mkCfg w (mkPackState ∅ 0 [] [] empty_run 0) [] [] (mkHistory [] ∅) Idle.

End packer.
