(* ===== verification/PackerFacts.v ===== *)
(** * Facts about the packer's coordination: the invariant of its interleavings

    What a track, a job and the builder's buffer promise at every point, whatever
    the order in which the builder and the workers run. *)
From Stdlib Require Import ZArith Lia Strings.Byte Strings.String.
From stdpp Require Import base tactics list gmap sets strings relations.
From S2P Require Import Prelude Model Sql SqlFacts World Repository Crypto Accounts Path FileSystem File Tree FsFacts RenameFacts CreateFacts WalFacts WriteFacts ReadFacts Telegram BlobReader Bots Packer.
#[local] Open Scope string_scope.
#[local] Open Scope Z_scope.
Open Scope m_scope.

(** ** Jobs and tracks *)

(** The number of jobs not yet stored that carry data of the track. *)
Definition pend (t : nat) (jobs : list blobJob) : nat :=
  length (List.filter (λ j, bool_decide (t ∈ jb_tracks j)) jobs).

(** The extent's span lies within the blob and holds its part of the file [g]. *)
Definition carries (g : bytes) (e : Extent) (data : bytes) : Prop :=
  0 ≤ e_FileOffset e ∧ 0 ≤ e_BlobOffset e ∧ 0 ≤ e_Length e
  ∧ e_BlobOffset e + e_Length e ≤ blen data ∧ e_FileOffset e + e_Length e ≤ blen g
  ∧ slice (e_BlobOffset e) (e_BlobOffset e + e_Length e) data
    = slice (e_FileOffset e) (e_FileOffset e + e_Length e) g.

(** The extents of the track cover the file. *)
Definition whole (g : bytes) (tr : track) : Prop :=
  ∀ pos, 0 ≤ pos < blen g → ∃ e, e ∈ tr_extents tr ∧ covers e pos = true.

(** The blob of an extent is in a job of the track, or has been stored. *)
Definition located (g : bytes) (t : nat) (e : Extent) (jobs : list blobJob) (la : list (uuid * bytes)) : Prop :=
  ∃ data, carries g e data ∧
    ((∃ j, j ∈ jobs ∧ jb_blobID j = e_BlobID e ∧ jb_data j = data ∧ t ∈ jb_tracks j)
     ∨ (e_BlobID e, data) ∈ la).

Definition open_track (T : gmap nat track) (small : list nat) (t : nat) (P : track → Prop) : Prop :=
  ∃ tr, T !! t = Some tr ∧ tr_planned tr = false ∧ t ∉ small ∧ P tr.

Fixpoint phase_ok (T : gmap nat track) (G : gmap nat bytes) (small : list nat) (ph : phase) : Prop :=
  match ph with
  | Idle => True
  | Splitting t _ _ _ off _ => off = blen (got G t) ∧ open_track T small t (whole (got G t))
  | Holding t data _ => got G t = data ∧ open_track T small t (λ _, True)
  | Sealing pending next =>
      small = [] ∧ phase_ok T G small next
      ∧ (∀ t, t ∈ pending → ∃ tr, T !! t = Some tr ∧ whole (got G t) tr)
      ∧ match next with Idle => True | Holding t _ _ => t ∉ pending | _ => False end
  end.

Record inv (T : gmap nat track) (next : nat) (small : list nat) (cur : run)
    (jobs : list blobJob) (rd : list nat) (h : history) (ph : phase) : Prop := {
  in_fresh : ∀ t tr, T !! t = Some tr → (t < next)%nat;
  in_jobs : ∀ j, j ∈ jobs → NoDup (jb_tracks j) ∧ ∀ t, t ∈ jb_tracks j → is_Some (T !! t);
  in_rem : ∀ t tr, T !! t = Some tr → tr_failed tr = false → tr_remaining tr = Z.of_nat (pend t jobs);
  in_ext : ∀ t tr e, T !! t = Some tr → tr_failed tr = false → e ∈ tr_extents tr →
    e_NodeID e = n_ID (tr_node tr) ∧ located (got (h_read h) t) t e jobs (h_landed h);
  in_whole : ∀ t tr, T !! t = Some tr → tr_planned tr = true → whole (got (h_read h) t) tr;
  in_ready : ∀ t, t ∈ rd → ∃ tr, T !! t = Some tr ∧ done_track tr = true;
  in_small : ∀ t, t ∈ small → (∃ tr, T !! t = Some tr ∧ tr_planned tr = false)
               ∧ ∃ s, s ∈ run_segs cur ∧ pe_track s = t;
  in_segs : ∀ s, s ∈ run_segs cur → pe_track s ∈ small ∧ 0 ≤ pe_blobOffset s ∧ pe_fileOffset s = 0
              ∧ pe_length s = blen (got (h_read h) (pe_track s))
              ∧ pe_blobOffset s + pe_length s ≤ blen (run_buf cur)
              ∧ slice (pe_blobOffset s) (pe_blobOffset s + pe_length s) (run_buf cur) = got (h_read h) (pe_track s);
  in_phase : phase_ok T (h_read h) small ph }.

Definition pack_ok (c : cfg) : Prop :=
  let st := cf_st c in
  inv (ps_tracks st) (ps_next st) (ps_pendingSmall st) (ps_cur st)
    (ps_jobs st ++ cf_up c)%list (cf_ready c) (cf_hist c) (cf_phase c).

Lemma pend_perm t l1 l2 : l1 ≡ₚ l2 → pend t l1 = pend t l2.
Proof. intros H. unfold pend. by rewrite (Lfilter_perm _ _ _ H). Qed.

Lemma pend_cons t j l : pend t (j :: l) = ((if bool_decide (t ∈ jb_tracks j) then 1 else 0) + pend t l)%nat.
Proof. unfold pend. simpl. by case_bool_decide. Qed.

Lemma pend_none t (T : gmap nat track) l : (∀ j, j ∈ l → ∀ t, t ∈ jb_tracks j → is_Some (T !! t)) →
  T !! t = None → pend t l = 0%nat.
Proof.
  intros Hj Ht. induction l as [|j l IH]; [done|]. rewrite pend_cons, IH by set_solver.
  rewrite bool_decide_false; [done|]. intros Hin. destruct (Hj j ltac:(by left) t Hin) as [? ?]. congruence.
Qed.

Lemma located_mono g t e j1 j2 l1 l2 : (∀ j, j ∈ j1 → t ∈ jb_tracks j → j ∈ j2 ∨ (jb_blobID j, jb_data j) ∈ l2) →
  l1 ⊆ l2 → located g t e j1 l1 → located g t e j2 l2.
Proof.
  intros Hj Hl (data & Hw & [(j & Hin & Hb & <- & Ht)|Hin]); exists data || eexists; (split; [done|]); [|right; by apply Hl].
  destruct (Hj j Hin Ht) as [?|Hla]; [left; by exists j|right]. by rewrite <- Hb.
Qed.

Lemma ext_mono (x y : uuid) g t e j1 j2 l1 l2 :
  (∀ j, j ∈ j1 → t ∈ jb_tracks j → j ∈ j2 ∨ (jb_blobID j, jb_data j) ∈ l2) → l1 ⊆ l2 → y = x →
  e_NodeID e = y ∧ located g t e j1 l1 → e_NodeID e = x ∧ located g t e j2 l2.
Proof. intros ? ? -> [-> Hl]. split; [done|]. by eapply located_mono. Qed.

Lemma carries_app g data e bs : carries g e bs → carries (g ++ data) e bs.
Proof.
  intros (Hf & Hb & Hl & Hbb & Hg & Heq). split_and!; try done.
  - blen_lia.
  - rewrite Heq. unfold slice. unfold blen in Hg. rewrite drop_app_le by lia. rewrite take_app_le; [done|].
    rewrite length_drop. lia.
Qed.

Lemma located_app g data t e jobs la : located g t e jobs la → located (g ++ data) t e jobs la.
Proof. intros (bs & Hc & H). exists bs. split; [by apply carries_app|done]. Qed.

(** The next piece of a file. *)
Lemma carries_piece g data node b seq id : carries (g ++ data) (mkExtent id node seq (blen g) (blen data) b 0) data.
Proof.
  unfold carries, blen, slice. simpl. rewrite length_app. split_and!; try lia.
  rewrite drop_0, Nat2Z.id, drop_app_length. f_equal. lia.
Qed.

Lemma whole_piece g data tr e : e_FileOffset e = blen g → e_Length e = blen data →
  whole g tr → whole (g ++ data) (add_remaining 1 (add_extent e tr)).
Proof.
  intros He Hl Hw pos Hpos. unfold blen in Hpos. rewrite length_app in Hpos. simpl.
  destruct (decide (pos < blen g)) as [Hlt|Hge].
  - destruct (Hw pos ltac:(lia)) as (x & Hx & Hc). exists x. split; [|done]. apply elem_of_app. by left.
  - exists e. split; [apply elem_of_app; right; by left|]. unfold covers. rewrite He, Hl. unfold blen in *.
    apply andb_true_iff. split; [apply Z.leb_le|apply Z.ltb_lt]; lia.
Qed.

Lemma got_insert G t data t' : got (<[t := data]> G) t' = if decide (t = t') then data else got G t'.
Proof. unfold got. destruct (decide (t = t')) as [->|]; [by rewrite lookup_insert_eq|by rewrite lookup_insert_ne]. Qed.

Lemma got_eq G t data : got (<[t := data]> G) t = data.
Proof. by rewrite got_insert, decide_True. Qed.
Lemma got_ne G t data t' : t ≠ t' → got (<[t := data]> G) t' = got G t'.
Proof. intros. by rewrite got_insert, decide_False. Qed.

(** The order of the jobs does not matter. *)
Lemma inv_perm T n sm cur j1 j2 rd la ph : j1 ≡ₚ j2 →
  inv T n sm cur j1 rd la ph → inv T n sm cur j2 rd la ph.
Proof.
  intros Hp []. split; try done.
  - intros j Hj. rewrite <- Hp in Hj. auto.
  - intros t tr Ht Hf. rewrite <- (pend_perm t _ _ Hp). auto.
  - intros t tr e Ht Hf He. eapply ext_mono; [|done|done|by eauto]. intros j Hj _. left. by rewrite <- Hp.
Qed.

(** A finalization under way may leave the list at any time. *)
Lemma inv_ready T n sm cur jobs rd rd' la ph : (∀ t, t ∈ rd' → t ∈ rd) →
  inv T n sm cur jobs rd la ph → inv T n sm cur jobs rd' la ph.
Proof. intros Hs []. split; auto. Qed.

Lemma inv_phase T n sm cur jobs rd la ph ph' : phase_ok T (h_read la) sm ph' →
  inv T n sm cur jobs rd la ph → inv T n sm cur jobs rd la ph'.
Proof. intros Hp []. by split. Qed.

(** ** A change of one track *)

Lemma open_alter T sm t t' f (P : track → Prop) : (∀ tr, tr_planned (f tr) = tr_planned tr) →
  (∀ tr, P tr → P (f tr)) → open_track T sm t P → open_track (alter f t' T) sm t P.
Proof.
  intros Hf HP (tr & Ht & Hp & Hs & HPt). destruct (decide (t = t')) as [->|Hne].
  - exists (f tr). rewrite lookup_alter_eq, Ht. split_and!; try done; [by rewrite Hf|by apply HP].
  - exists tr. by rewrite lookup_alter_ne by done.
Qed.

Lemma phase_alter T G sm ph t f : (∀ tr, tr_planned (f tr) = tr_planned tr) →
  (∀ tr, tr_extents (f tr) = tr_extents tr) →
  phase_ok T G sm ph → phase_ok (alter f t T) G sm ph.
Proof.
  intros Hf He. assert (∀ g tr, whole g tr → whole g (f tr)) as Hw by (intros g tr Hw pos; rewrite He; apply Hw).
  induction ph as [| | |pending ph IH]; simpl; [done|intros [? ?]; split; auto using open_alter..|].
  intros (? & ? & Hp & ?). split_and!; try done; [by apply IH|]. intros t' (tr & Ht & Hwt)%Hp.
  destruct (decide (t' = t)) as [->|Hne]; [exists (f tr); rewrite lookup_alter_eq, Ht|exists tr; rewrite lookup_alter_ne by done];
    auto.
Qed.

(** Failing a track that is not about to be finalized. *)
Lemma inv_fail T n sm cur jobs rd la ph t :
  (∀ tr, T !! t = Some tr → done_track tr = false) →
  inv T n sm cur jobs rd la ph → inv (alter set_failed t T) n sm cur jobs rd la ph.
Proof.
  intros Hd [Ifr Ijo Irm Iex Iwh Ird Ism Isg Iph].
  assert (∀ t' tr, alter set_failed t T !! t' = Some tr → (t' = t ∧ tr_failed tr = true) ∨ (t' ≠ t ∧ T !! t' = Some tr)) as Hlk.
  { intros t' tr. destruct (decide (t' = t)) as [->|Hne]; [|rewrite lookup_alter_ne by done; by right].
    rewrite lookup_alter_eq. destruct (T !! t); simpl; [|done]. intros [= <-]. by left. }
  assert (∀ t', is_Some (T !! t') → is_Some (alter set_failed t T !! t')) as Hdom by (intros ?; by rewrite lookup_alter_is_Some).
  split; try done.
  - intros t' tr Ht. destruct (T !! t') as [x|] eqn:Hx; [by eapply Ifr|]. exfalso.
    destruct (decide (t' = t)) as [->|Hne]; [|rewrite lookup_alter_ne in Ht by done; congruence].
    rewrite lookup_alter_eq, Hx in Ht. done.
  - intros j Hj. destruct (Ijo j Hj). split; [done|]. auto.
  - intros t' tr [[-> Hf]|[Hne Ht]]%Hlk ?; [congruence|by apply Irm].
  - intros t' tr e [[-> Hf]|[Hne Ht]]%Hlk ? ?; [congruence|by eapply Iex].
  - intros t' tr Ht Hp. destruct (decide (t' = t)) as [->|Hne].
    + rewrite lookup_alter_eq in Ht. destruct (T !! t) as [x|] eqn:Hx; simpl in Ht; [|done]. injection Ht as <-.
      by apply (Iwh t x).
    + rewrite lookup_alter_ne in Ht by done. by apply Iwh.
  - intros t' Ht'. destruct (Ird t' Ht') as (tr & Ht & Hdn). exists tr. split; [|done].
    rewrite lookup_alter_ne; [done|]. intros ->. rewrite (Hd _ Ht) in Hdn. done.
  - intros t' Ht'. destruct (Ism t' Ht') as [(tr & Ht & Hp) ?]. split; [|done]. destruct (decide (t' = t)) as [->|Hne].
    + exists (set_failed tr). by rewrite lookup_alter_eq, Ht.
    + exists tr. by rewrite lookup_alter_ne.
  - by apply phase_alter.
Qed.

(** A fresh track. *)
Lemma inv_new T n sm cur jobs rd la node g :
  inv T n sm cur jobs rd la Idle →
  inv (<[n := mkTrack node 0 false false []]> T) (S n) sm cur jobs rd (note_read n g la) Idle
  ∧ open_track (<[n := mkTrack node 0 false false []]> T) sm n (λ tr, tr_extents tr = []).
Proof.
  intros [Ifr Ijo Irm Iex Iwh Ird Ism Isg Iph].
  assert (T !! n = None) as Hn by (destruct (T !! n) eqn:Hx; [apply Ifr in Hx; lia|done]).
  assert (∀ t x, T !! t = Some x → <[n := mkTrack node 0 false false []]> T !! t = Some x) as Hkeep
    by (intros t x Ht; rewrite lookup_insert_ne; [done|]; intros <-; congruence).
  assert (∀ t tr, T !! t = Some tr → got (<[n := g]> (h_read la)) t = got (h_read la) t) as Hg
    by (intros t tr Ht; apply got_ne; intros ->; congruence).
  split; [split|]; try done.
  - intros t tr [[<- _]|[_ Ht]]%lookup_insert_Some; [lia|]. apply Ifr in Ht. lia.
  - intros j Hj. destruct (Ijo j Hj) as [? Hts]. split; [done|]. intros t [x Hx]%Hts. exists x. by apply Hkeep.
  - intros t tr [[<- <-]|[_ Ht]]%lookup_insert_Some Hf; [|by apply Irm]. simpl.
    erewrite pend_none; [done| |exact Hn]. intros j Hj. apply (Ijo j Hj).
  - intros t tr e [[<- <-]|[_ Ht]]%lookup_insert_Some Hf He; [by apply elem_of_nil in He|].
    simpl. rewrite (Hg _ _ Ht). by eapply Iex.
  - intros t tr [[<- <-]|[_ Ht]]%lookup_insert_Some Hp; [done|]. simpl. rewrite (Hg _ _ Ht). by apply Iwh.
  - intros t Ht. destruct (Ird t Ht) as (tr & Htr & Hd). exists tr. split; [by apply Hkeep|done].
  - intros t Ht. destruct (Ism t Ht) as [(tr & Htr & Hd) ?]. split; [|done]. exists tr. split; [by apply Hkeep|done].
  - intros s Hs. destruct (Isg s Hs) as (Hin & Hr). split; [done|]. destruct (Ism _ Hin) as [(tr & Htr & _) _].
    simpl. by rewrite (Hg _ _ Htr).
  - eexists. rewrite lookup_insert_eq. split_and!; [done..| |done]. intros Hs.
    destruct (Ism n Hs) as [(? & ? & _) _]. congruence.
Qed.

(** One piece of a large file is planned and sent. *)
Lemma inv_piece T n sm cur jobs rd la t node ch bm off seq j e off' seq' :
  jb_tracks j = [t] → e_BlobID e = jb_blobID j →
  (∀ tr, T !! t = Some tr → e_NodeID e = n_ID (tr_node tr)) →
  carries (got (h_read la) t ++ jb_data j) e (jb_data j) → e_FileOffset e = off → e_Length e = blen (jb_data j) →
  off' = off + blen (jb_data j) →
  inv T n sm cur jobs rd la (Splitting t node ch bm off seq) →
  inv (alter (λ tr, add_remaining 1 (add_extent e tr)) t T) n sm cur (j :: jobs) rd
    (note_read t (got (h_read la) t ++ jb_data j) la) (Splitting t node ch bm off' seq').
Proof.
  intros Hj Hb Hnd Hw He Hl -> [Ifr Ijo Irm Iex Iwh Ird Ism Isg Iph]. simpl in Iph.
  set (f := λ tr, add_remaining 1 (add_extent e tr)). destruct Iph as (-> & tr0 & Ht0 & Hp0 & Hs0 & Hw0).
  assert (∀ t' tr, alter f t T !! t' = Some tr → (t' = t ∧ tr = f tr0) ∨ (t ≠ t' ∧ T !! t' = Some tr)) as Hlk.
  { intros t' tr. destruct (decide (t' = t)) as [->|Hne]; [|rewrite lookup_alter_ne by done; by right].
    rewrite lookup_alter_eq, Ht0. intros [= <-]. by left. }
  assert (∀ j', j' ∈ jobs → ∀ t', t' ∈ jb_tracks j' → is_Some (alter f t T !! t')) as Hdom.
  { intros j' Hj' t' Ht'. rewrite lookup_alter_is_Some. by apply (Ijo j' Hj'). }
  assert (whole (got (h_read la) t ++ jb_data j) (f tr0)) as Hwf by (by apply whole_piece).
  split; try done.
  - intros t' tr [[-> _]|[_ Ht]]%Hlk; by eapply Ifr.
  - intros j' [->|Hj']%elem_of_cons; [rewrite Hj; split; [apply NoDup_singleton|]|split; [by apply Ijo|by apply Hdom]].
    intros t' ->%list_elem_of_singleton. rewrite lookup_alter_eq, Ht0. by eexists.
  - intros t' tr Ht Hf. rewrite pend_cons, Hj. apply Hlk in Ht as [[-> ->]|[Hne Ht]].
    + simpl in *. rewrite bool_decide_true by by left. rewrite (Irm t tr0 Ht0 Hf). lia.
    + rewrite bool_decide_false by set_solver. by apply Irm.
  - intros t' tr x Ht Hf Hx. simpl. apply Hlk in Ht as [[-> ->]|[Hne Ht]].
    + rewrite got_eq. simpl in Hx. apply elem_of_app in Hx as [Hx|Hx%list_elem_of_singleton].
      * destruct (Iex t tr0 x Ht0 Hf Hx) as [Hn Hlo]. split; [done|]. apply located_app.
        eapply located_mono; [|done|exact Hlo]. intros j' Hj' _. left. by right.
      * subst x. split; [exact (Hnd tr0 Ht0)|]. exists (jb_data j). split; [done|left]. exists j.
        split_and!; [by left|done|done|rewrite Hj; by left].
    + rewrite got_ne by done. eapply ext_mono; [|done|done|by eapply Iex]. intros j' Hj' _. left. by right.
  - intros t' tr Ht Hp. simpl. apply Hlk in Ht as [[-> ->]|[Hne Ht]]; [by rewrite got_eq|]. rewrite got_ne by done. by apply Iwh.
  - intros t' Ht'. destruct (Ird t' Ht') as (tr & Ht & Hdn). exists tr. split; [|done].
    rewrite lookup_alter_ne; [done|]. intros <-. rewrite Ht0 in Ht. injection Ht as <-. unfold done_track in Hdn. by rewrite Hp0 in Hdn.
  - intros t' Ht'. destruct (Ism t' Ht') as [(tr & Ht & Hp) ?]. split; [|done]. exists tr.
    rewrite lookup_alter_ne; [done|]. by intros <-.
  - intros s Hs. destruct (Isg s Hs) as (Hin & Hr). split; [done|]. simpl. rewrite got_ne; [done|]. intros Heq; apply Hs0; by rewrite Heq.
  - simpl. rewrite got_eq. split; [blen_lia|].
    exists (f tr0). rewrite lookup_alter_eq, Ht0. by split_and!.
Qed.

(** A change of many tracks. *)
Lemma alters_lookup {X} (f : X → X) ts (T : gmap nat X) t : NoDup ts →
  foldl (λ T t, alter f t T) T ts !! t = (if decide (t ∈ ts) then f <$> T !! t else T !! t).
Proof.
  revert T. induction ts as [|u ts IH]; intros T Hnd; [by rewrite decide_False by apply not_elem_of_nil|].
  apply NoDup_cons in Hnd as [Hu Hnd]. cbn [foldl]. rewrite IH by done. destruct (decide (t = u)) as [->|Hne].
  - rewrite decide_False by done. rewrite decide_True by by left. by rewrite lookup_alter_eq.
  - rewrite lookup_alter_ne by done. destruct (decide (t ∈ ts)); [by rewrite decide_True by by right|].
    rewrite decide_False; [done|]. by intros [?|?]%elem_of_cons.
Qed.

Lemma alters_idem_lookup {X} (f : X → X) ts (T : gmap nat X) t : (∀ x, f (f x) = f x) →
  foldl (λ T t, alter f t T) T ts !! t = (if decide (t ∈ ts) then f <$> T !! t else T !! t).
Proof.
  intros Hf. revert T. induction ts as [|u ts IH]; intros T; [by rewrite decide_False by apply not_elem_of_nil|].
  cbn [foldl]. rewrite IH. destruct (decide (t = u)) as [->|Hne].
  - rewrite (decide_True (P := u ∈ u :: ts)) by by left. rewrite lookup_alter_eq.
    destruct (decide (u ∈ ts)); [|done]. destruct (T !! u); simpl; [by rewrite Hf|done].
  - rewrite lookup_alter_ne by done. destruct (decide (t ∈ ts)); [by rewrite decide_True by by right|].
    rewrite decide_False; [done|]. by intros [?|?]%elem_of_cons.
Qed.

(** A job is stored: its tracks are owed one blob less. *)
Lemma inv_land T n sm cur jobs rd la ph j :
  inv T n sm cur (j :: jobs) rd la ph →
  let T' := foldl (λ T t, alter (add_remaining (-1)) t T) T (jb_tracks j) in
  inv T' n sm cur jobs (List.filter (λ t, match T' !! t with Some tr => done_track tr | None => false end) (jb_tracks j) ++ rd)
    (note_landed j la) ph.
Proof.
  intros [Ifr Ijo Irm Iex Iwh Ird Ism Isg Iph] T'. destruct (Ijo j ltac:(by left)) as [Hnd Hdom].
  assert (∀ t, T' !! t = (if decide (t ∈ jb_tracks j) then add_remaining (-1) <$> T !! t else T !! t)) as Hlk
    by (intros t; by apply alters_lookup).
  assert (∀ t tr, T' !! t = Some tr → ∃ tr0, T !! t = Some tr0 ∧ tr_failed tr = tr_failed tr0
    ∧ tr_extents tr = tr_extents tr0 ∧ tr_node tr = tr_node tr0 ∧ tr_planned tr = tr_planned tr0
    ∧ tr_remaining tr = tr_remaining tr0 - (if bool_decide (t ∈ jb_tracks j) then 1 else 0)) as Hback.
  { intros t tr Ht. rewrite Hlk in Ht. destruct (decide (t ∈ jb_tracks j)) as [Hin|Hin].
    - destruct (T !! t) as [tr0|]; simpl in Ht; [|done]. injection Ht as <-. exists tr0.
      rewrite bool_decide_true by done. split_and!; done.
    - exists tr. rewrite bool_decide_false by done. split_and!; try done. lia. }
  assert (∀ t tr0, T !! t = Some tr0 → ∃ tr, T' !! t = Some tr ∧ tr_planned tr = tr_planned tr0 ∧ tr_extents tr = tr_extents tr0) as Hfwd.
  { intros t tr0 Ht. rewrite Hlk, Ht. destruct (decide _); by eexists. }
  split; try done.
  - intros t tr (tr0 & Ht & _)%Hback. by eapply Ifr.
  - intros j' Hj'. destruct (Ijo j' ltac:(by right)) as [? Hts]. split; [done|]. intros t [x Hx]%Hts.
    destruct (Hfwd t x Hx) as (tr & Htr & _). by eexists.
  - intros t tr (tr0 & Ht & Hf & He & _ & _ & Hr)%Hback Hnf. rewrite Hf in Hnf. rewrite Hr, (Irm t tr0 Ht Hnf), pend_cons.
    case_bool_decide; lia.
  - intros t tr e (tr0 & Ht & Hf & He & Hn & _ & Hr)%Hback Hnf Hin. rewrite Hf in Hnf. rewrite He in Hin.
    eapply ext_mono; [| | |by eapply Iex]; [|by intros x Hx; right|by rewrite Hn].
    intros j' [->|Hj']%elem_of_cons _; [right; by left|by left].
  - intros t tr (tr0 & Ht & _ & He & _ & Hp & _)%Hback Hpl pos. rewrite He. apply (Iwh t tr0 Ht). congruence.
  - intros t [Ht|Ht]%elem_of_app.
    + apply elem_of_Lfilter in Ht as [Hin Hd]. destruct (T' !! t) as [tr|]; [|done]. by exists tr.
    + destruct (Ird t Ht) as (tr & Htr & Hd). exists tr. split; [|done]. rewrite Hlk, decide_False; [done|].
      intros Hin. unfold done_track in Hd. apply andb_true_iff in Hd as [[_ Hz%Z.eqb_eq]%andb_true_iff Hnf%negb_true_iff].
      rewrite (Irm t tr Htr Hnf), pend_cons, bool_decide_true in Hz by done. lia.
  - intros t Ht. destruct (Ism t Ht) as [(tr0 & Htr & Hp) ?]. split; [|done].
    destruct (Hfwd t tr0 Htr) as (tr & Htr' & Hp' & _). exists tr. by rewrite Hp'.
  - assert (∀ g tr tr', tr_extents tr' = tr_extents tr → whole g tr → whole g tr') as Hw
      by (intros g tr tr' He Hw pos; rewrite He; apply Hw).
    assert (∀ t g, open_track T sm t (whole g) → open_track T' sm t (whole g)) as Hop.
    { intros t g (tr0 & Ht & Hp & Hs & Hwt). destruct (Hfwd t tr0 Ht) as (tr & Ht' & Hp' & He). exists tr.
      rewrite Hp'. split_and!; try done. by eapply Hw. }
    assert (∀ t, open_track T sm t (λ _, True) → open_track T' sm t (λ _, True)) as Hop'.
    { intros t (tr0 & Ht & Hp & Hs & _). destruct (Hfwd t tr0 Ht) as (tr & Ht' & Hp' & He). exists tr. by rewrite Hp'. }
    assert (∀ t g, (∃ tr, T !! t = Some tr ∧ whole g tr) → ∃ tr, T' !! t = Some tr ∧ whole g tr) as Hpe.
    { intros t g (tr0 & Ht & Hwt). destruct (Hfwd t tr0 Ht) as (tr & Ht' & Hp' & He). exists tr. split; [done|]. by eapply Hw. }
    simpl. clear -Iph Hop Hop' Hpe. induction ph as [| | |pending ph IH]; simpl in *; naive_solver.
Qed.

(** A job failed with its tracks. *)
Lemma inv_drop T n sm cur jobs rd la ph j :
  (∀ t tr, t ∈ jb_tracks j → T !! t = Some tr → tr_failed tr = true) →
  inv T n sm cur (j :: jobs) rd la ph → inv T n sm cur jobs rd la ph.
Proof.
  intros Hfail [Ifr Ijo Irm Iex Iwh Ird Ism Isg Iph]. split; try done.
  - intros j' Hj'. apply Ijo. by right.
  - intros t tr Ht Hf. rewrite (Irm t tr Ht Hf), pend_cons, bool_decide_false; [done|].
    intros Hin. rewrite (Hfail t tr Hin Ht) in Hf. done.
  - intros t tr e Ht Hf He. eapply ext_mono; [|done|done|by eapply Iex].
    intros j' [->|Hj']%elem_of_cons Hin; [|by left]. rewrite (Hfail t tr Hin Ht) in Hf. done.
Qed.

Lemma inv_fails T n sm cur jobs rd la ph ts :
  (∀ t tr, t ∈ ts → T !! t = Some tr → done_track tr = false) →
  inv T n sm cur jobs rd la ph → inv (foldl (λ T t, alter set_failed t T) T ts) n sm cur jobs rd la ph.
Proof.
  revert T. induction ts as [|t ts IH]; intros T Hd Hi; [done|]. cbn [foldl]. apply IH.
  - intros t' tr Hin Ht. destruct (decide (t' = t)) as [->|Hne].
    + rewrite lookup_alter_eq in Ht. destruct (T !! t); simpl in Ht; [|done]. injection Ht as <-.
      unfold done_track. simpl. by rewrite andb_false_r.
    + rewrite lookup_alter_ne in Ht by done. eapply Hd; [by right|done].
  - apply inv_fail; [|done]. intros tr Ht. eapply Hd; [by left|done].
Qed.

(** A track owed a blob is not about to be finalized. *)
Lemma owed_not_done T n sm cur jobs rd la ph j t tr :
  inv T n sm cur jobs rd la ph → j ∈ jobs → t ∈ jb_tracks j → T !! t = Some tr → done_track tr = false.
Proof.
  intros [_ _ Irm _ _ _ _ _ _] Hj Hin Ht. unfold done_track. destruct (tr_failed tr) eqn:Hf; simpl; [by rewrite andb_false_r|].
  rewrite (Irm t tr Ht Hf). assert (0 < pend t jobs)%nat as Hp.
  { unfold pend. destruct (List.filter _ jobs) eqn:Hn; simpl; [|lia].
    assert (j ∈ List.filter (λ j, bool_decide (t ∈ jb_tracks j)) jobs) as Hj'.
    { apply elem_of_Lfilter. split; [done|]. by apply bool_decide_eq_true. }
    rewrite Hn in Hj'. by apply elem_of_nil in Hj'. }
  destruct (Z.eqb_spec (Z.of_nat (pend t jobs)) 0); [lia|]. by rewrite andb_false_r.
Qed.

(** Every blob of the tracks of [ts] has been sent: they are planned. *)
Lemma inv_plans T n sm cur jobs rd la ph ph' ts :
  (∀ t, t ∈ ts → t ∉ sm) →
  (∀ t, t ∈ ts → ∃ tr, T !! t = Some tr ∧ whole (got (h_read la) t) tr) →
  let T' := foldl (λ T t, alter set_planned t T) T ts in
  phase_ok T' (h_read la) sm ph' → inv T n sm cur jobs rd la ph →
  inv T' n sm cur jobs
    (List.filter (λ t, match T' !! t with Some tr => done_track tr | None => false end) ts ++ rd) la ph'.
Proof.
  intros Hts Hwts T' Hph [Ifr Ijo Irm Iex Iwh Ird Ism Isg Iph].
  assert (∀ t, T' !! t = (if decide (t ∈ ts) then set_planned <$> T !! t else T !! t)) as Hlk
    by (intros t; by apply alters_idem_lookup).
  assert (∀ t tr, T' !! t = Some tr → ∃ tr0, T !! t = Some tr0 ∧ tr_failed tr = tr_failed tr0
    ∧ tr_extents tr = tr_extents tr0 ∧ tr_remaining tr = tr_remaining tr0 ∧ tr_node tr = tr_node tr0
    ∧ (t ∈ ts ∨ tr_planned tr = tr_planned tr0)) as Hback.
  { intros t tr Ht. rewrite Hlk in Ht. destruct (decide (t ∈ ts)); [|exists tr; split_and!; auto].
    destruct (T !! t) as [tr0|]; simpl in Ht; [|done]. injection Ht as <-. exists tr0. split_and!; auto. }
  split; try done.
  - intros t tr (tr0 & Ht & _)%Hback. by eapply Ifr.
  - intros j Hj. destruct (Ijo j Hj) as [? Hin]. split; [done|]. intros t [x Hx]%Hin.
    rewrite Hlk, Hx. destruct (decide _); by eexists.
  - intros t tr (tr0 & Ht & Hf & _ & -> & _)%Hback Hnf. apply Irm; congruence.
  - intros t tr e (tr0 & Ht & Hf & He & _ & Hn & _)%Hback Hnf Hin. rewrite He in Hin. rewrite Hn. eapply Iex; [done|congruence|done].
  - intros t tr (tr0 & Ht & _ & He & _ & _ & Hp)%Hback Hpl. assert (whole (got (h_read la) t) tr0) as Hw.
    { destruct Hp as [Hin|Hp]; [|apply (Iwh t tr0 Ht); congruence]. destruct (Hwts t Hin) as (x & Hx & Hwx). by simplify_eq. }
    intros pos. rewrite He. apply Hw.
  - intros t [Ht|Ht]%elem_of_app.
    + apply elem_of_Lfilter in Ht as [Hin Hd]. destruct (T' !! t) as [tr|]; [|done]. by exists tr.
    + destruct (Ird t Ht) as (tr & Htr & Hd). rewrite Hlk, Htr. destruct (decide _); [|by exists tr].
      exists (set_planned tr). split; [done|]. unfold done_track in *. simpl.
      apply andb_true_iff in Hd as [[_ ->]%andb_true_iff ->]. done.
  - intros t Ht. destruct (Ism t Ht) as [(tr & Htr & Hp) ?]. split; [|done]. exists tr. rewrite Hlk, decide_False; [done|].
    intros Hin. by apply (Hts t Hin).
Qed.

(** A small file joins the buffer. *)
Lemma inv_append T n sm cur jobs rd la t data bm :
  inv T n sm cur jobs rd la (Holding t data bm) →
  inv T n (sm ++ [t]) (mkRun (run_buf cur ++ data)
    (run_segs cur ++ [mkPendingExtent t 0 0 (blen (run_buf cur)) (blen data)])) jobs rd la Idle.
Proof.
  intros [Ifr Ijo Irm Iex Iwh Ird Ism Isg (Hg & tr & Ht & Hp & _)]. split; try done.
  - simpl. intros t' [Hs|Hs%list_elem_of_singleton]%elem_of_app.
    + destruct (Ism t' Hs) as [? (s & Hin & <-)]. split; [done|]. exists s. split; [set_solver|done].
    + subst t'. split; [by exists tr|]. eexists. split; [apply elem_of_app; right; by left|done].
  - simpl. intros s [Hs|Hs%list_elem_of_singleton]%elem_of_app.
    + destruct (Isg s Hs) as (? & ? & ? & Hl & Hb & Hsl). unfold blen in *. rewrite length_app.
      split_and!; try done; [set_solver|lia|]. rewrite <- Hsl. unfold slice.
      rewrite drop_app_le, take_app_le; rewrite ?length_drop; [done|lia..].
    + subst s. simpl. rewrite Hg. unfold blen, slice. rewrite length_app, Nat2Z.id, drop_app_length.
      split_and!; [set_solver|lia|done|done|lia|]. rewrite take_ge; [done|lia].
Qed.

(** ** seal *)

Definition segment (s : pendingExtent) (e : Extent) : Prop :=
  e_FileOffset e = pe_fileOffset s ∧ e_BlobOffset e = pe_blobOffset s ∧ e_Length e = pe_length s.

Definition sealed_track (blobID : uuid) (segs : list pendingExtent) (one : bool) (t : nat) (tr tr' : track) : Prop :=
  tr_planned tr' = tr_planned tr ∧ tr_failed tr' = tr_failed tr ∧ tr_node tr' = tr_node tr
  ∧ tr_remaining tr' = tr_remaining tr + (if one then 1 else 0)
  ∧ (∀ e, e ∈ tr_extents tr' → e ∈ tr_extents tr ∨
      (e_BlobID e = blobID ∧ e_NodeID e = n_ID (tr_node tr) ∧ ∃ s, s ∈ segs ∧ pe_track s = t ∧ segment s e))
  ∧ (∀ e, e ∈ tr_extents tr → e ∈ tr_extents tr')
  ∧ (∀ s, s ∈ segs → pe_track s = t → ∃ e, e ∈ tr_extents tr' ∧ segment s e).

Definition fresh_in (t : nat) (seen d : list nat) : bool := bool_decide (t ∈ d) && negb (bool_decide (t ∈ seen)).

(** One segment more. *)
Lemma sealed_step blobID s segs e (one1 one2 : bool) t tr tr1 tr' :
  tr1 = mkTrack (tr_node tr) (tr_remaining tr + (if one1 then 1 else 0)) (tr_planned tr) (tr_failed tr)
          (tr_extents tr ++ (if decide (t = pe_track s) then [e] else [])) →
  segment s e → e_BlobID e = blobID → (t = pe_track s → e_NodeID e = n_ID (tr_node tr)) →
  one1 && one2 = false → sealed_track blobID segs one2 t tr1 tr' →
  sealed_track blobID (s :: segs) (one1 || one2) t tr tr'.
Proof.
  intros -> Hseg Hb Hn Hone (P & F & N & R & Ex & Ek & Es). simpl in *. split_and!; try done.
  - rewrite R. destruct one1, one2; simpl in *; try done; lia.
  - intros x Hx. destruct (Ex x Hx) as [Hin|(? & ? & y & Hy & Hr)].
    + apply elem_of_app in Hin as [?|Hin]; [by left|right]. destruct (decide (t = pe_track s)) as [Ht|]; [|by apply elem_of_nil in Hin].
      apply list_elem_of_singleton in Hin as ->. split_and!; [done|by apply Hn|]. exists s. by split; [left|].
    + right. split_and!; try done. exists y. by split; [right|].
  - intros x Hx. apply Ek, elem_of_app. by left.
  - intros y [->|Hy]%elem_of_cons Ht; [|by apply Es]. exists e. split; [|done]. apply Ek, elem_of_app. right.
    rewrite decide_True by done. by left.
Qed.

Lemma seal_segs_spec blobID ids segs seen st d st' :
  seal_segs blobID ids segs seen st = (d, st') → length ids = length segs → NoDup seen →
  NoDup d ∧ (∀ t, t ∈ d ↔ t ∈ seen ∨ ∃ s, s ∈ segs ∧ pe_track s = t)
  ∧ st' = set_tracks (ps_tracks st') st
  ∧ ∀ t, match ps_tracks st !! t, ps_tracks st' !! t with
         | Some tr, Some tr' => sealed_track blobID segs (fresh_in t seen d) t tr tr'
         | None, None => True | _, _ => False end.
Proof.
  revert ids seen st. induction segs as [|s segs IH]; intros [|id ids] seen st H Hlen Hnd; try done; cbn [seal_segs] in H.
  { injection H as <- <-. split_and!; [done| |by destruct st|].
    - intros t. split; [by left|]. intros [?|(s & Hs & _)]; [done|by apply elem_of_nil in Hs].
    - intros t. destruct (ps_tracks st !! t) as [tr|]; [|done]. unfold fresh_in.
      destruct (bool_decide (t ∈ seen)); simpl; split_and!; try done; try lia; try (by left); intros s Hs; by apply elem_of_nil in Hs. }
  set (e := mkExtent _ _ _ _ _ _ _) in H. set (u := pe_track s) in *. injection Hlen as Hlen.
  set (new := negb (bool_decide (u ∈ seen))).
  set (f := λ tr, if new then add_remaining 1 (add_extent e tr) else add_extent e tr).
  assert (seal_segs blobID ids segs (if new then seen ++ [u] else seen)%list (upd_track u f st) = (d, st')) as H'.
  { rewrite <- H. unfold f, new. case_bool_decide; simpl; [done|]. unfold upd_track, set_tracks. simpl.
    by rewrite (alter_alter_eq (add_remaining 1) (add_extent e)). }
  clear H. destruct (IH _ _ _ H' Hlen) as (Hd & Hmem & Hst & Htr).
  { unfold new. case_bool_decide; simpl; [done|]. apply NoDup_app. split; [done|]. split; [|apply NoDup_singleton].
    intros x Hx Hxu%list_elem_of_singleton. by subst. }
  assert (∀ t, t ∈ (if new then seen ++ [u] else seen)%list ↔ t ∈ seen ∨ t = u) as Hseen.
  { intros t. unfold new. case_bool_decide as Hin; simpl; [|by rewrite elem_of_app, list_elem_of_singleton].
    split; [by left|]. by intros [?| ->]. }
  split_and!; [done| | |].
  - intros t. rewrite Hmem, Hseen. split.
    + intros [[?| ->]|(x & Hx & Hxt)]; [by left|right; exists s; by split; [left|]|right]. exists x. by split; [right|].
    + intros [?|(x & [->|Hx]%elem_of_cons & Hxt)]; [by left; left|by left; right|right; by exists x].
  - rewrite Hst. by destruct st.
  - intros t. specialize (Htr t). simpl in Htr.
    assert (fresh_in t seen d = (bool_decide (t = u) && new) || fresh_in t (if new then seen ++ [u] else seen)%list d
            ∧ (bool_decide (t = u) && new) && fresh_in t (if new then seen ++ [u] else seen)%list d = false) as [-> Hone].
    { unfold fresh_in. rewrite (bool_decide_ext (t ∈ (if new then seen ++ [u] else seen)%list) (t ∈ seen ∨ t = u)) by apply Hseen.
      unfold new. destruct (decide (t = u)) as [->|Hne].
      - rewrite (bool_decide_true (u = u)) by done. rewrite (bool_decide_true (u ∈ seen ∨ u = u)) by (by right).
        rewrite (bool_decide_true (u ∈ d)) by (apply Hmem; left; apply Hseen; by right). by destruct (bool_decide (u ∈ seen)).
      - rewrite (bool_decide_false (t = u)) by done. rewrite (bool_decide_ext (t ∈ seen ∨ t = u) (t ∈ seen)) by naive_solver.
        done. }
    destruct (decide (t = u)) as [Htu|Hne].
    + subst t. rewrite lookup_alter_eq in Htr. destruct (ps_tracks st !! u) as [tr|] eqn:Htrk, (ps_tracks st' !! u) as [tr'|]; try done.
      eapply (sealed_step _ _ _ e); [|done|done| |done|exact Htr].
      * unfold f, add_remaining, add_extent. fold u. rewrite decide_True, bool_decide_true by done.
        destruct new; simpl; f_equal; lia.
      * intros _. unfold e. simpl. by rewrite ?Htrk.
    + rewrite lookup_alter_ne in Htr by done. destruct (ps_tracks st !! t) as [tr|], (ps_tracks st' !! t) as [tr'|]; try done.
      eapply (sealed_step _ _ _ e _ _ _ tr tr); [|done|done|done|done|exact Htr].
      fold u. rewrite decide_False, bool_decide_false by done. simpl. rewrite app_nil_r, Z.add_0_r. by destruct tr.
Qed.

(** The buffer is sealed into a job of the distinct tracks of its segments. *)
Lemma inv_seal st jobs rd la ph blobID ids ch d st' :
  match ph with Idle => True | Holding _ _ _ => True | _ => False end →
  inv (ps_tracks st) (ps_next st) (ps_pendingSmall st) (ps_cur st) jobs rd la ph →
  length ids = length (run_segs (ps_cur st)) →
  seal_segs blobID ids (run_segs (ps_cur st)) [] st = (d, st') →
  inv (ps_tracks st') (ps_next st) [] empty_run (mkBlobJob blobID (run_buf (ps_cur st)) ch d :: jobs) rd la
    (Sealing (ps_pendingSmall st) ph).
Proof.
  intros Hph [Ifr Ijo Irm Iex Iwh Ird Ism Isg Iph] Hlen H.
  destruct (seal_segs_spec _ _ _ _ _ _ _ H Hlen ltac:(constructor)) as (Hnd & Hmem & _ & Htr).
  set (T := ps_tracks st) in *. set (T' := ps_tracks st') in *. set (segs := run_segs (ps_cur st)) in *.
  assert (∀ t, t ∈ d → t ∈ ps_pendingSmall st) as Hsmall.
  { intros t [Hn|(s & Hs & <-)]%Hmem; [by apply elem_of_nil in Hn|]. by apply Isg. }
  assert (∀ t tr', T' !! t = Some tr' → ∃ tr, T !! t = Some tr ∧ sealed_track blobID segs (fresh_in t [] d) t tr tr') as Hback.
  { intros t tr' Ht. specialize (Htr t). rewrite Ht in Htr. destruct (T !! t) as [tr|]; [by exists tr|done]. }
  assert (∀ t tr, T !! t = Some tr → ∃ tr', T' !! t = Some tr' ∧ sealed_track blobID segs (fresh_in t [] d) t tr tr') as Hfwd.
  { intros t tr Ht. specialize (Htr t). rewrite Ht in Htr. destruct (T' !! t) as [tr'|]; [by exists tr'|done]. }
  assert (∀ t, fresh_in t [] d = bool_decide (t ∈ d)) as Hfr.
  { intros t. unfold fresh_in. rewrite (bool_decide_false (t ∈ [])) by apply not_elem_of_nil. by rewrite andb_true_r. }
  assert (∀ t, t ∉ ps_pendingSmall st → ∀ tr, T !! t = Some tr → ∃ tr', T' !! t = Some tr' ∧ tr_planned tr' = tr_planned tr
    ∧ tr_remaining tr' = tr_remaining tr ∧ tr_failed tr' = tr_failed tr) as Hother.
  { intros t Hn tr Ht. destruct (Hfwd t tr Ht) as (tr' & Ht' & P & F & _ & R & _). exists tr'. split_and!; try done.
    rewrite Hfr, bool_decide_false in R by auto. lia. }
  assert (∀ t tr tr', T !! t = Some tr → T' !! t = Some tr' → ∀ e, e ∈ tr_extents tr → e ∈ tr_extents tr') as Hkeep.
  { intros t tr tr' Ht Ht' e He. destruct (Hfwd t tr Ht) as (x & Hx & _ & _ & _ & _ & _ & Hk & _). simplify_eq. by apply Hk. }
  split.
  - intros t tr' (tr & Ht & _)%Hback. by eapply Ifr.
  - intros j [->|Hj]%elem_of_cons; simpl.
    + split; [done|]. intros t Ht%Hsmall. destruct (Ism t Ht) as [(tr & Htr0 & _) _].
      destruct (Hfwd t tr Htr0) as (tr' & Ht' & _). by eexists.
    + destruct (Ijo j Hj) as [? Hin]. split; [done|]. intros t [x Hx]%Hin.
      destruct (Hfwd t x Hx) as (tr' & Ht' & _). by eexists.
  - intros t tr' (tr & Ht & P & F & _ & R & _)%Hback Hf. rewrite R, Hfr, pend_cons, (Irm t tr Ht) by congruence.
    simpl. case_bool_decide; lia.
  - intros t tr' e (tr & Ht & P & F & N & R & Ex & _)%Hback Hf He. rewrite N.
    destruct (Ex e He) as [Hin|(Hb & Hnid & s & Hs & Hst & Hfo & Hbo & Hlen')].
    + eapply ext_mono; [|done|done|by eapply Iex; [done|congruence|done]]. intros j Hj _. left. by right.
    + destruct (Isg s Hs) as (_ & B1 & B2 & B3 & B4 & B5). split; [done|]. exists (run_buf (ps_cur st)). split.
      * unfold carries. rewrite Hfo, Hbo, Hlen', B2, <- Hst, B5. split_and!; try lia; [blen_lia|].
        unfold slice. simpl. rewrite drop_0, take_ge; [done|]. blen_lia.
      * left. eexists. split; [by left|]. simpl. split_and!; try done. apply Hmem. right. by exists s.
  - intros t tr' Ht' Hp. destruct (Hback t tr' Ht') as (tr & Ht & P & _). intros pos Hpos.
    destruct (Iwh t tr Ht ltac:(congruence) pos Hpos) as (e & He & Hc). exists e. split; [|done]. by apply (Hkeep t tr).
  - intros t Ht. destruct (Ird t Ht) as (tr & Htr0 & Hd). assert (t ∉ ps_pendingSmall st) as Hn.
    { intros Hin. destruct (Ism t Hin) as [(tr2 & Htr2 & Hp) _]. rewrite Htr0 in Htr2. injection Htr2 as <-.
      unfold done_track in Hd. by rewrite Hp in Hd. }
    destruct (Hother t Hn tr Htr0) as (tr' & Ht' & P & R & F). exists tr'. split; [done|].
    unfold done_track in *. by rewrite P, R, F.
  - intros t Ht. by apply elem_of_nil in Ht.
  - intros s Hs. by apply elem_of_nil in Hs.
  - simpl. split; [done|]. split_and!.
    + destruct ph; simpl in *; try done. destruct Iph as (Hg & tr & Ht & Hp & Hs & _). split; [done|].
      destruct (Hother t Hs tr Ht) as (tr' & Ht' & P & _).
      exists tr'. rewrite P. split_and!; try done. by intros ?%elem_of_nil.
    + intros t Ht. destruct (Ism t Ht) as [(tr & Htr0 & _) (s & Hs & Hst)].
      destruct (Hfwd t tr Htr0) as (tr' & Ht' & _ & _ & _ & _ & _ & _ & Es). exists tr'. split; [done|].
      destruct (Es s Hs Hst) as (e & He & Hfo & Hbo & Hl). destruct (Isg s Hs) as (_ & _ & B2 & B3 & _).
      intros pos Hpos. exists e. split; [done|]. unfold covers. rewrite Hfo, Hl, B2, B3, Hst.
      apply andb_true_iff. split; [apply Z.leb_le|apply Z.ltb_lt]; lia.
    + destruct ph; simpl in *; try done. by destruct Iph as (_ & tr & _ & _ & Hs & _).
Qed.

(** A track about to be finalized: every extent's blob has been stored, and
    together they represent what was read of the file. *)
Lemma ready_landed c t : pack_ok c → t ∈ cf_ready c → ∃ tr, ps_tracks (cf_st c) !! t = Some tr
  ∧ tr_failed tr = false ∧ whole (got (h_read (cf_hist c)) t) tr
  ∧ ∀ e, e ∈ tr_extents tr → e_NodeID e = n_ID (tr_node tr)
      ∧ ∃ data, (e_BlobID e, data) ∈ h_landed (cf_hist c) ∧ carries (got (h_read (cf_hist c)) t) e data.
Proof.
  intros Hi Ht. pose proof Hi as [_ _ Irm Iex Iwh Ird _ _ _]. destruct (Ird t Ht) as (tr & Htr & Hd). exists tr.
  pose proof Hd as Hd'. unfold done_track in Hd.
  apply andb_true_iff in Hd as [[Hp _]%andb_true_iff Hnf%negb_true_iff]. split_and!; [done|done|by apply Iwh|].
  intros e He. destruct (Iex t tr e Htr Hnf He) as (Hn & data & Hc & Hloc). split; [done|]. exists data.
  split; [|done]. destruct Hloc as [(j & Hj & _ & _ & Hin)|?]; [|done].
  rewrite (owed_not_done _ _ _ _ _ _ _ _ j t tr Hi Hj Hin Htr) in Hd'. done.
Qed.

Section steps.
Context {E : Env} {C : Aead} {A : BotAPI} (bots : BotRepository) (error_text : error → string) (leaseOwner : string).

Lemma failTrack_run t st w st' w' : failTrack t st w = (Ok st', w') → st' = upd_track t set_failed st.
Proof.
  unfold failTrack. destruct (ps_tracks st !! t) as [tr|] eqn:Ht.
  - intros (u & w1 & _ & H)%bind_Ok. by injection H as <- _.
  - intros [= <- _]. unfold upd_track, set_tracks.
    assert (alter set_failed t (ps_tracks st) = ps_tracks st) as ->; [|by destruct st].
    apply map_eq. intros u. destruct (decide (u = t)) as [->|Hne]; [by rewrite lookup_alter_eq, Ht|by rewrite lookup_alter_ne].
Qed.

Lemma failJob_run ts st w st' w' : failJob ts st w = (Ok st', w') →
  st' = set_tracks (foldl (λ T t, alter set_failed t T) (ps_tracks st) ts) st.
Proof.
  revert st w. induction ts as [|t ts IH]; intros st w H; cbn [failJob] in H.
  - injection H as <- _. by destruct st.
  - apply bind_Ok in H as (st1 & w1 & Hf & H). apply failTrack_run in Hf as ->. by apply IH in H as ->.
Qed.

Lemma upd_tracks_fold f ts st :
  foldl (λ st t, upd_track t f st) st ts = set_tracks (foldl (λ T t, alter f t T) (ps_tracks st) ts) st.
Proof. revert st. induction ts as [|t ts IH]; intros st; [by destruct st|]. cbn [foldl]. by rewrite IH. Qed.

Lemma map_each_length {X Y} (l : list X) (f : X → M Y) w ys w' : map_each l f w = (Ok ys, w') → length ys = length l.
Proof.
  revert w ys. induction l as [|x l IH]; intros w ys H; cbn [map_each] in H; [by injection H as <- _|].
  apply bind_Ok in H as (y & w1 & _ & H). apply bind_Ok in H as (ys' & w2 & H2 & H). injection H as <- <-. simpl.
  f_equal. by eapply IH.
Qed.

Lemma started_ok w : pack_ok (started w).
Proof.
  split; simpl; try done.
  all: intros t; rewrite ?lookup_empty; try done.
  all: intros H; by apply elem_of_nil in H.
Qed.

Lemma pact_ok c c' : pact bots error_text leaseOwner c c' → pack_ok c → pack_ok c'.
Proof.
  unfold pack_ok. destruct 1 as
    [ w st up rd la node bm ch w' t st' _ Hn | w st up rd la node e w1 w' t st1 st' _ Hn Hf
    | w st up rd la t node ch bm off seq data b x w1 w2 w' _ Hr Hb Hx
    | w st up rd la t node ch bm off seq e w1 st' w' _ _ Hf
    | w st up rd la t node ch bm off seq st' _ ->
    | w st up rd la node bm data w' t st' _ Hn | w st up rd la t data bm Ho
    | w st up rd la ph ch b ids w1 w2 w' d st' Hph _ _ _ Hids Hseal
    | w st up rd la ph e w1 w' Hph _ _ | w st up rd la pending ph st' ->
    | w st up rd la ph j rest Hj | w st up1 up2 rd la ph j r bot w1 w' ready st' _ _ Hl
    | w st up1 up2 rd la ph j st' w' Hf | w st up rd1 rd2 la ph t w' x _ ]; cbn [cf_st cf_up cf_ready cf_hist cf_phase]; intros Hi.
  - injection Hn as <- <-. destruct (inv_new _ _ _ _ _ _ _ node [] Hi) as [Hi' (tr & Ht & Hp & Hs & He)].
    eapply inv_phase; [|exact Hi']. simpl. rewrite got_eq. split; [done|]. exists tr. split_and!; try done.
    intros pos Hpos. unfold blen in Hpos. simpl in Hpos. lia.
  - injection Hn as <- <-. apply failTrack_run in Hf as ->. destruct (inv_new _ _ _ _ _ _ _ node [] Hi) as [Hi' Ho].
    simpl. apply inv_fail; [|done]. intros tr. rewrite lookup_insert_eq. by intros [= <-].
  - eapply (inv_perm _ _ _ _ (mkBlobJob b data ch [t] :: ps_jobs st ++ up)%list).
    { simpl. rewrite <- (app_assoc (ps_jobs st)). simpl. apply Permutation_middle. }
    destruct (in_phase _ _ _ _ _ _ _ _ Hi) as (-> & tr & Ht & _).
    eapply (inv_piece _ _ _ _ _ _ _ _ _ _ _ _ _ (mkBlobJob b data ch [t])); [done|done| | |done|done|done|exact Hi].
    + intros y Hy. simpl. by rewrite Hy.
    + apply carries_piece.
  - apply failTrack_run in Hf as ->. simpl. eapply (inv_phase _ _ _ _ _ _ _ _ Idle); [done|]. apply inv_fail; [|exact Hi].
    intros tr Ht. destruct (in_phase _ _ _ _ _ _ _ _ Hi) as (_ & tr0 & Ht0 & Hp & _). rewrite Ht in Ht0. injection Ht0 as <-.
    unfold done_track. by rewrite Hp.
  - pose proof (in_phase _ _ _ _ _ _ _ _ Hi) as (_ & tr0 & Ht0 & Hp & Hs & Hw).
    assert (∀ t', t' ∈ [t] → t' ∉ ps_pendingSmall st) as Hdis by (by intros t' ->%list_elem_of_singleton).
    pose proof (inv_plans _ _ _ _ _ _ _ _ Idle [t] Hdis
      (λ t' H', ltac:(apply list_elem_of_singleton in H' as ->; by exists tr0)) I Hi) as Hi'. simpl in *.
    unfold is_done. simpl. destruct (match alter set_planned t (ps_tracks st) !! t with Some tr => done_track tr | None => false end); done.
  - injection Hn as <- <-. destruct (inv_new _ _ _ _ _ _ _ node data Hi) as [Hi' (tr & Ht & Hp & Hs & He)].
    eapply inv_phase; [|exact Hi']. simpl. rewrite got_eq. split; [done|]. by exists tr.
  - by apply (inv_append _ _ _ _ _ _ _ t data bm).
  - eapply (inv_perm _ _ _ _ (mkBlobJob b (run_buf (ps_cur st)) ch d :: ps_jobs st ++ up)%list).
    { assert (ps_jobs st' = ps_jobs st) as Heq.
      { destruct (seal_segs_spec _ _ _ _ _ _ _ Hseal (map_each_length _ _ _ _ _ Hids) ltac:(constructor)) as (_ & _ & -> & _). done. }
      simpl. rewrite Heq. rewrite <- (app_assoc (ps_jobs st)). simpl. apply Permutation_middle. }
    assert (ps_next st' = ps_next st) as Hnx.
    { destruct (seal_segs_spec _ _ _ _ _ _ _ Hseal (map_each_length _ _ _ _ _ Hids) ltac:(constructor)) as (_ & _ & -> & _). done. }
    simpl. rewrite Hnx. eapply inv_seal; [|exact Hi|by eapply map_each_length|done]. by destruct ph.
  - destruct Hi as [Ifr Ijo Irm Iex Iwh Ird Ism Isg Iph]. split; simpl; try done.
    + intros t Ht. by apply elem_of_nil in Ht.
    + intros s Hs. by apply elem_of_nil in Hs.
    + destruct ph; simpl in *; try done. destruct Iph as (Hg & tr & Ht & Hp & _). split; [done|]. exists tr. split_and!; try done.
      by intros ?%elem_of_nil.
  - pose proof (in_phase _ _ _ _ _ _ _ _ Hi) as Hp. simpl in Hp. destruct Hp as (Hs & Hp & Hw & Hd).
    rewrite upd_tracks_fold. simpl. rewrite Hs in *.
    apply (inv_plans _ _ _ _ _ _ _ _ ph pending) in Hi; [done|by intros t _ ?%elem_of_nil|done|].
    destruct ph; simpl in *; try done. destruct Hp as (Hg & tr & Ht & Hpl & Hns & _). split; [done|].
    exists tr. split_and!; try done. rewrite alters_idem_lookup by done. by rewrite decide_False.
  - simpl. eapply inv_perm; [|exact Hi]. rewrite Hj. simpl. apply Permutation_middle.
  - assert (inv (ps_tracks st) (ps_next st) (ps_pendingSmall st) (ps_cur st) (j :: (ps_jobs st ++ up1 ++ up2)) rd la ph) as Hi'.
    { eapply inv_perm; [|exact Hi]. rewrite !app_assoc. by rewrite <- Permutation_middle. }
    apply inv_land in Hi'. unfold landed in Hl. injection Hl as <- <-. rewrite upd_tracks_fold. simpl. done.
  - assert (inv (ps_tracks st) (ps_next st) (ps_pendingSmall st) (ps_cur st) (j :: (ps_jobs st ++ up1 ++ up2)) rd la ph) as Hi'.
    { eapply inv_perm; [|exact Hi]. rewrite !app_assoc. by rewrite <- Permutation_middle. }
    apply failJob_run in Hf as ->. simpl. apply (inv_drop _ _ _ _ _ _ _ _ j).
    + intros t tr Hin. rewrite alters_idem_lookup by done. rewrite decide_True by done.
      destruct (ps_tracks st !! t); simpl; [|done]. by intros [= <-].
    + apply inv_fails; [|done]. intros t tr Hin Ht. eapply owed_not_done; [exact Hi'|by left|done|done].
  - eapply inv_ready; [|exact Hi]. intros t'. rewrite !elem_of_app. set_solver.
Qed.

Lemma pstep_ok c c' : pstep bots error_text leaseOwner c c' → pack_ok c → pack_ok c'.
Proof. destruct 1; [done|by apply pact_ok]. Qed.

Lemma psteps_ok c c' : rtc (pstep bots error_text leaseOwner) c c' → pack_ok c → pack_ok c'.
Proof. induction 1 as [|c1 c2 c3 H _ IH]; [done|]. intros Hi. by eapply IH, pstep_ok. Qed.

End steps.
