(* ===== verification/BotsFacts.v ===== *)
(** * Facts about bots and channels: selection, round robin, availability;
    and about maintenance: what a reaping cycle may remove *)
From Stdlib Require Import ZArith Lia Strings.Byte Strings.String.
From stdpp Require Import base tactics list gmap sets sorting strings.
From S2P Require Import Prelude Model Sql SqlFacts World Keeps Repository Crypto Accounts File Cache CacheFacts.
From S2P Require Import Telegram BlobReader BlobFacts SelectFacts Bots Maintenance.
#[local] Open Scope string_scope.
#[local] Open Scope Z_scope.
Open Scope m_scope.

(** ** Round robin *)

(** The counter after a few picks. *)
Lemma next_bot_iter i w : 0 ≤ w_rr w → w_rr w + Z.of_nat i < 2 ^ 64 →
  w_rr (Nat.iter i (λ w, (next_bot w).2) w) = w_rr w + Z.of_nat i.
Proof.
  induction i as [|i IH]; intros H0 H1; [simpl; lia|]. simpl Nat.iter.
  transitivity (wrapu64 (w_rr (Nat.iter i (λ w, (next_bot w).2) w) + 1)); [by destruct (Nat.iter _ _ _)|].
  rewrite IH by lia. unfold wrapu64. rewrite Z.mod_small; lia.
Qed.

Lemma rr_index_small rr n : 0 ≤ rr < 2 ^ 63 → 0 < n → rr_index rr n = rr mod n.
Proof.
  intros Hr Hn. unfold rr_index. rewrite wrap64_id by (int_lia).
  by rewrite Z.rem_mod_nonneg by lia.
Qed.

Lemma at_index_Ok {A} (l : list A) i w x w' : at_index l i w = (Ok x, w') → x ∈ l ∧ w' = w ∧ 0 ≤ i ∧ l !! Z.to_nat i = Some x.
Proof.
  unfold at_index. destruct (Z.ltb_spec i 0); [done|]. destruct (l !! Z.to_nat i) as [y|] eqn:Hl; [|done].
  intros [= <- <-]. split_and!; try done. by eapply list_elem_of_lookup_2.
Qed.

Lemma at_index_runs {A} (l : list A) i w : 0 ≤ i < blen l → ∃ x, at_index l i w = (Ok x, w) ∧ l !! Z.to_nat i = Some x.
Proof.
  intros Hi. unfold at_index. destruct (Z.ltb_spec i 0); [lia|].
  destruct (lookup_lt_is_Some_2 l (Z.to_nat i)) as [x Hx]; [blen_lia|]. rewrite Hx. by exists x.
Qed.

(** ** Looking up an association *)

Lemma Associate_lookup {A V} (key : A → uuid) (val : A → V) l id :
  match Associate key val l !! id with
  | Some v => ∃ a, a ∈ l ∧ key a = id ∧ val a = v
  | None => ∀ a, a ∈ l → key a ≠ id
  end.
Proof.
  pose proof (foldl_lookup key val l ∅ id) as H. unfold Associate.
  destruct (foldl _ _ l !! id); [destruct H as [?|[Hn _]]; [done|by rewrite lookup_empty in Hn]|apply H].
Qed.

Section selection.
Context {E : Env} {C : Aead} {A : BotAPI} (bots : BotRepository).

Lemma ListMembers_Ok ch w l w' : BotChannelRepository_ListByChannel ch w = (Ok l, w') →
  w' = tick w ∧ ∀ bc, bc ∈ l ↔ ∃ k, d_bot_channel (w_db w) !! k = Some bc ∧ bc_ChannelID bc = ch.
Proof.
  unfold BotChannelRepository_ListByChannel. intros H. m_inv. unfold ListBotChannelsByChannel, many in Hq.
  simplify_eq. rewrite set_db_id. split; [done|]. intros bc. rewrite elem_of_rows. by setoid_rewrite N.eqb_eq.
Qed.

Lemma eligibleBots_Ok ch w l w' : bots_keyed (w_db w) → eligibleBots bots ch w = (Ok l, w') →
  w_db w' = w_db w ∧ ∃ now,
  (∀ b, b ∈ l → usable (bot_ID b) ch now (w_db w) ∧ ∃ r, d_bots (w_db w) !! bot_ID b = Some r ∧ loads r b)
  ∧ ∀ id, usable id ch now (w_db w) → ∃ b, b ∈ l ∧ bot_ID b = id.
Proof.
  intros Hk H. unfold eligibleBots in H. apply bind_Ok in H as (ms & w1 & Hm & H).
  apply ListMembers_Ok in Hm as [-> Hms]. set (ids := Associate bc_BotID _ _) in *.
  assert (∀ id, is_Some (ids !! id) ↔ member_of id ch (w_db w)) as Hids.
  { intros id. pose proof (Associate_lookup bc_BotID (λ _ : BotChannel, tt) (List.filter bc_Member ms) id) as Ha.
    fold ids in Ha. unfold member_of. destruct (ids !! id) as [[]|].
    - destruct Ha as (bc & [Hb Hmb]%elem_of_Lfilter & Hid & _). apply Hms in Hb as (k & Hkb & Hch).
      split; [|by eexists]. intros _. by exists k, bc.
    - split; [by intros []|]. intros (k & bc & Hkb & Hch & Hid & Hmb). destruct (Ha bc); [|done].
      apply elem_of_Lfilter. split; [|done]. apply Hms. by exists k. }
  destruct (decide (ids = ∅)) as [He|Hne].
  - injection H as <- <-. split; [done|]. exists 0. split; [by intros b ?%elem_of_nil|].
    intros id [Hmb%Hids _]. rewrite He, lookup_empty in Hmb. by destruct Hmb.
  - apply bind_Ok in H as (bs & w2 & Hl & H). apply (ListBots_Ok bots) in Hl as [Hdb [L1 L2]]; [|done].
    apply bind_Ok in H as (now & w3 & Hn & H). injection Hn as <- <-. injection H as <- <-. simpl in *.
    split; [done|]. exists (env_now (w_step w2)). split.
    + intros b [Hb [Hmb%bool_decide_eq_true Hav]%andb_true_iff]%elem_of_Lfilter.
      destruct (L1 b Hb) as (_ & r & Hr & Hlo). split; [|by exists r]. split; [by apply Hids|].
      exists r. split; [done|]. by rewrite <- (proj2 (proj2 Hlo)).
    + intros id [Hmb%Hids (r & Hr & Hav)]. destruct (L2 id r I Hr) as (b & Hb & Hid & Hlo). exists b.
      split; [|done]. apply elem_of_Lfilter. split; [done|]. apply andb_true_iff. split.
      * apply bool_decide_eq_true. by rewrite Hid.
      * by rewrite (proj2 (proj2 Hlo)).
Qed.

Lemma eligibleBots_rr ch w l w' : eligibleBots bots ch w = (Ok l, w') → w_rr w' = w_rr w.
Proof.
  intros H. unfold eligibleBots in H. apply bind_Ok in H as (ms & w1 & Hm & H).
  apply ListMembers_Ok in Hm as [-> _]. destruct (decide _); [by injection H as <- <-|].
  apply bind_Ok in H as (bs & w2 & Hl & H). apply ListBots_tick in Hl as ->.
  apply bind_Ok in H as (now & w3 & Hn & H). by injection Hn as <- <-; injection H as <- <-.
Qed.

Lemma eligible_loop_Ok usable chs w l w' : eligible_loop usable chs w = (Ok l, w') →
  w_db w' = w_db w ∧ ∀ c, c ∈ l ↔ c ∈ chs ∧ ch_Available c = true
    ∧ ∃ bot, member_of bot (ch_ID c) (w_db w) ∧ usable !! bot = Some true.
Proof.
  revert w l. induction chs as [|ch chs IH]; intros w l H; cbn [eligible_loop] in H.
  { injection H as <- <-. split; [done|]. intros c. pose proof (not_elem_of_nil c). naive_solver. }
  destruct (ch_Available ch) eqn:Hav; simpl in H.
  - apply bind_Ok in H as (has & w1 & Hh & H). apply bind_Ok in H as (more & w2 & Hm & H).
    injection H as <- <-. unfold channelHasUsableMember in Hh. apply bind_Ok in Hh as (ms & w3 & Hms & Hh).
    apply ListMembers_Ok in Hms as [-> Hms]. injection Hh as <- <-.
    apply IH in Hm as [Hdb Hm]. split; [done|]. cbn [w_db tick] in Hm. intros c.
    assert (existsb (λ m, bc_Member m && default false (usable !! bc_BotID m)) ms = true ↔
            ∃ bot, member_of bot (ch_ID ch) (w_db w) ∧ usable !! bot = Some true) as Hex.
    { rewrite existsb_exists. split.
      - intros (bc & Hin%list_elem_of_In%Hms & [Hmb Hu]%andb_true_iff). destruct Hin as (k & Hkb & Hch).
        exists (bc_BotID bc). split; [by exists k, bc|]. by destruct (usable !! bc_BotID bc) as [[]|].
      - intros (bot & (k & bc & Hkb & Hch & Hid & Hmb) & Hu). exists bc. split.
        + apply list_elem_of_In, Hms. by exists k.
        + rewrite Hmb, Hid, Hu. done. }
    destruct (existsb _ ms); rewrite ?elem_of_cons, Hm; [|naive_solver].
    destruct Hex as [Hex _]. specialize (Hex eq_refl). naive_solver.
  - apply IH in H as [Hdb Hm]. split; [done|]. intros c. rewrite Hm, elem_of_cons. naive_solver congruence.
Qed.

Lemma eligible_loop_rr usable chs w l w' : eligible_loop usable chs w = (Ok l, w') → w_rrc w' = w_rrc w.
Proof.
  revert w l. induction chs as [|ch chs IH]; intros w l H; cbn [eligible_loop] in H; [by injection H as <- <-|].
  destruct (negb _); [by eapply IH|]. apply bind_Ok in H as (has & w1 & Hh & H).
  apply bind_Ok in H as (more & w2 & Hm & H). injection H as <- <-.
  unfold channelHasUsableMember in Hh. apply bind_Ok in Hh as (ms & w3 & Hms & Hh).
  apply ListMembers_Ok in Hms as [-> Hms]. injection Hh as <- <-. by apply IH in Hm.
Qed.

Lemma eligibleChannels_rr w l w' : eligibleChannels bots w = (Ok l, w') → w_rrc w' = w_rrc w.
Proof.
  intros H. unfold eligibleChannels in H. apply bind_Ok in H as (chs & w1 & Hc & H).
  unfold ChannelRepository_List in Hc. m_inv. apply ListBots_tick in Hm as ->. by apply eligible_loop_rr in H.
Qed.

Lemma Quiet_eligible ch : Quiet (eligibleBots bots ch).
Proof.
  unfold eligibleBots. apply (Keeps_bind _); [auto with keeps|]. intros ms. destruct (decide _); [auto with keeps|].
  apply (Keeps_bind _); [auto with keeps|]. intros bs. apply (Keeps_bind _); auto with keeps.
Qed.

(** A failed selection changes no table. *)
Lemma eligible_db ch w e w' : eligibleBots bots ch w = (Err e, w') → w_db w' = w_db w.
Proof.
  intros H. unfold eligibleBots in H. apply bind_cases in H as [(ms & w1 & Hm & H)|(e' & Hm & _)].
  - apply ListMembers_Ok in Hm as [-> _]. destruct (decide _); [done|].
    apply bind_cases in H as [(bs & w2 & Hl & H)|(e' & Hl & _)].
    + apply bind_cases in H as [(now & w3 & Hn & H)|(e' & Hn & _)]; done.
    + unfold BotRepository_List in Hl. apply bind_cases in Hl as [(rs & w2 & Hr & Hl)|(e2 & Hr & _)].
      * unfold ListBots, many in Hr. m_inv. apply map_hydrate_Err in Hl. rewrite Hl. simpl in *. by simplify_eq.
      * apply translate_Err in Hr as (e3 & Hr & _). by apply query_Err in Hr as (-> & _).
  - unfold BotChannelRepository_ListByChannel in Hm. apply translate_Err in Hm as (e3 & Hr & _).
    by apply query_Err in Hr as (-> & _).
Qed.

(** A channel that may take an upload now. *)
Definition open_channel (c : Channel) (now : time) (d : Db) : Prop :=
  (∃ k, d_channels d !! k = Some c) ∧ ch_Available c = true ∧ ∃ bot, usable bot (ch_ID c) now d.

Lemma eligibleChannels_Ok w l w' : bots_keyed (w_db w) → eligibleChannels bots w = (Ok l, w') →
  w_db w' = w_db w ∧ ∃ now, ∀ c, c ∈ l ↔ open_channel c now (w_db w).
Proof.
  intros Hk H. unfold eligibleChannels in H. apply bind_Ok in H as (chs & w1 & Hc & H).
  unfold ChannelRepository_List in Hc. m_inv. unfold ListChannels, many in Hq. simplify_eq.
  apply (ListBots_Ok bots) in Hm as [Hdb [L1 L2]]; [|done]. cbn [w_db tick set_db] in *.
  apply eligible_loop_Ok in H as [Hdb' Hl]. cbn [w_db tick] in *. split; [congruence|]. exists (env_now (w_step w0)).
  intros c. rewrite Hl, Hdb, sort_by_perm, elem_of_rows. unfold open_channel.
  set (m := Associate _ _ x). assert (∀ bot, m !! bot = Some true ↔
    ∃ r, d_bots (w_db w) !! bot = Some r ∧ row_available r (env_now (w_step w0)) = true) as Hm.
  { intros bot. pose proof (Associate_lookup bot_ID (λ b, Available b (env_now (w_step w0))) x bot) as Ha. fold m in Ha.
    destruct (m !! bot) as [v|].
    - destruct Ha as (b & Hb & <- & <-). destruct (L1 b Hb) as (_ & r & Hr & Hlo). rewrite (proj2 (proj2 Hlo)). split.
      + intros [= Hv]. by exists r.
      + intros (r' & Hr' & Hv). simplify_eq; congruence.
    - split; [done|]. intros (r & Hr & _). destruct (L2 bot r I Hr) as (b & Hb & Hid & _). by destruct (Ha b). }
  unfold usable. setoid_rewrite Hm. naive_solver.
Qed.

(** Within the first [2^63] picks the index is in range. *)
Lemma Bot_Pick_cases ch w r w' : bots_keyed (w_db w) → 0 ≤ w_rr w < 2 ^ 63 →
  Bot_PickForUpload bots ch w = (r, w') →
  w_db w' = w_db w ∧ match r with
  | Ok b => ∃ now row, usable (bot_ID b) ch now (w_db w) ∧ d_bots (w_db w) !! bot_ID b = Some row ∧ loads row b
  | Err e => (e = ErrNoBot ∧ ∃ now, ∀ id, ¬ usable id ch now (w_db w))
             ∨ ∃ w1, eligibleBots bots ch w = (Err e, w1)
  end.
Proof.
  intros Hk Hrr H. unfold Bot_PickForUpload in H.
  apply bind_cases in H as [(l & w1 & Hl & H)|(e & Hl & ->)].
  2: { split; [by eapply eligible_db|right; by exists w']. }
  pose proof (eligibleBots_rr _ _ _ _ Hl) as Hr1. apply eligibleBots_Ok in Hl as (Hdb & now & L1 & L2); [|done].
  destruct l as [|b0 l0]; [injection H as <- <-; split; [done|left; split; [done|]]|].
  { exists now. intros id Hu. destruct (L2 id Hu) as (b & Hb & _). by apply elem_of_nil in Hb. }
  remember (b0 :: l0) as l. unfold next_bot, bind in H.
  assert (0 < blen l) as Hlen by (subst l; blen_lia).
  rewrite Hr1, rr_index_small in H by lia. pose proof (Z.mod_pos_bound (w_rr w) (blen l) Hlen) as Hb.
  destruct (at_index_runs l _ (set_rr (wrapu64 (w_rr w + 1)) w1) Hb) as (b & Hi & Hlk).
  rewrite Hi in H. injection H as <- <-. split; [done|]. apply list_elem_of_lookup_2 in Hlk.
  destruct (L1 b Hlk) as [Hu (row & Hrow & Hlo)]. by exists now, row.
Qed.

Lemma Channel_Pick_cases w r w' : bots_keyed (w_db w) → 0 ≤ w_rrc w < 2 ^ 63 →
  Channel_PickForUpload bots w = (r, w') →
  match r with
  | Ok c => w_db w' = w_db w ∧ ∃ now, open_channel c now (w_db w)
  | Err e => (e = ErrNoBot ∧ ∃ now, ∀ c, ¬ open_channel c now (w_db w))
             ∨ ∃ w1, eligibleChannels bots w = (Err e, w1)
  end.
Proof.
  intros Hk Hrr H. unfold Channel_PickForUpload in H.
  apply bind_cases in H as [(l & w1 & Hl & H)|(e & Hl & ->)]; [|right; by exists w'].
  pose proof (eligibleChannels_rr _ _ _ Hl) as Hr1. apply eligibleChannels_Ok in Hl as (Hdb & now & Hin); [|done].
  destruct l as [|b0 l0]; [injection H as <- <-; left; split; [done|]|].
  { exists now. intros c Hc%Hin. by apply elem_of_nil in Hc. }
  remember (b0 :: l0) as l. unfold next_channel, bind in H.
  assert (0 < blen l) as Hlen by (subst l; blen_lia).
  rewrite Hr1, rr_index_small in H by lia. pose proof (Z.mod_pos_bound (w_rrc w) (blen l) Hlen) as Hb.
  destruct (at_index_runs l _ (set_rrc (wrapu64 (w_rrc w + 1)) w1) Hb) as (c & Hi & Hlk).
  rewrite Hi in H. injection H as <- <-. split; [done|]. apply list_elem_of_lookup_2 in Hlk.
  exists now. by apply Hin.
Qed.

End selection.

(** ** Availability *)

(** The blob state a channel's availability calls for; a permanent loss stays. *)
Definition moved (available : bool) (b : Blob) : Blob :=
  if available
  then if bool_decide (b_State b = BlobStateUnavailable) then blob_with_state BlobStateStored b else b
  else if bool_decide (b_State b = BlobStatePermUnavailable) then b else blob_with_state BlobStateUnavailable b.

Definition flagged (a : bool) (c : Channel) : Channel :=
  mkChannel (ch_ID c) (ch_TGChatID c) (ch_Title c) (ch_MessageCounter c) (ch_EvictionThreshold c) a (ch_CreatedAt c).

Definition channels_keyed (d : Db) : Prop := ∀ k c, d_channels d !! k = Some c → ch_ID c = k.

(** Only the availability of channels and the states of their blobs differ. *)
Record rebalanced (up : uuid → bool) (S : list uuid) (d d' : Db) : Prop := {
  rb_channels : ∀ id, d_channels d' !! id = if decide (id ∈ S) then flagged (up id) <$> d_channels d !! id else d_channels d !! id;
  rb_blobs : ∀ k, d_blobs d' !! k =
    (λ b, if decide (b_ChannelID b ∈ S) then moved (up (b_ChannelID b)) b else b) <$> d_blobs d !! k;
  rb_bots : d_bots d' = d_bots d;
  rb_members : d_bot_channel d' = d_bot_channel d;
  rb_nodes : d_nodes d' = d_nodes d;
  rb_extents : d_extents d' = d_extents d;
  rb_wal : d_wal_chunks d' = d_wal_chunks d;
  rb_users : d_users d' = d_users d }.

Lemma moved_channel a b : b_ChannelID (moved a b) = b_ChannelID b.
Proof. unfold moved. by repeat case_match. Qed.

Lemma rebalanced_refl up d : rebalanced up [] d d.
Proof.
  split; try done; intros k.
  by destruct (d_blobs d !! k) as [b|].
Qed.

Lemma rebalanced_cons up i S d1 d2 d3 : i ∉ S → rebalanced up [i] d1 d2 → rebalanced up S d2 d3 →
  rebalanced up (i :: S) d1 d3.
Proof.
  intros Hi [C1 B1] [C2 B2]. split; try congruence.
  - intros id. rewrite C2, C1. destruct (decide (id = i)) as [->|Hne].
    + rewrite decide_False by done. by rewrite !decide_True by set_solver.
    + rewrite (decide_False (P := id ∈ [i])) by set_solver.
      destruct (decide (id ∈ S)); [by rewrite decide_True by set_solver|by rewrite decide_False by set_solver].
  - intros k. rewrite B2, B1. destruct (d_blobs d1 !! k) as [b|]; simpl; [f_equal|done].
    destruct (decide (b_ChannelID b = i)) as [<-|Hne].
    + rewrite (decide_True (P := _ ∈ [_])) by set_solver. rewrite moved_channel.
      rewrite decide_False by done. by rewrite decide_True by set_solver.
    + rewrite (decide_False (P := _ ∈ [_])) by set_solver.
      destruct (decide (b_ChannelID b ∈ S)); [by rewrite decide_True by set_solver|by rewrite decide_False by set_solver].
Qed.

Section availability.
Context {E : Env} {C : Aead} {A : BotAPI} (bots : BotRepository).

Lemma mark_blobs (up : uuid → bool) ch b d : update_blobs
    (if up ch then λ b, N.eqb (b_ChannelID b) ch && bool_decide (b_State b = BlobStateUnavailable)
     else λ b, N.eqb (b_ChannelID b) ch && negb (bool_decide (b_State b = BlobStatePermUnavailable)))
    (if up ch then BlobStateStored else BlobStateUnavailable) d = b →
  ∀ k, d_blobs b !! k = (λ b, if decide (b_ChannelID b ∈ [ch]) then moved (up (b_ChannelID b)) b else b) <$> d_blobs d !! k.
Proof.
  intros <- k. unfold update_blobs. simpl. rewrite lookup_fmap. destruct (d_blobs d !! k) as [b|]; simpl; [f_equal|done].
  destruct (decide (b_ChannelID b ∈ [ch])) as [Hin|Hin].
  - apply list_elem_of_singleton in Hin as <-. unfold moved.
    destruct (up (b_ChannelID b)); cbv beta iota; rewrite N.eqb_refl; simpl; by repeat case_bool_decide.
  - rewrite list_elem_of_singleton in Hin. apply N.eqb_neq in Hin.
    destruct (up ch); cbv beta iota; by rewrite Hin.
Qed.

Lemma apply_Ok up ch w u w' : w_tx w = None → channels_keyed (w_db w) →
  applyChannelAvailability ch (up (ch_ID ch)) w = (Ok u, w') →
  w_tx w' = None ∧ rebalanced up [ch_ID ch] (w_db w) (w_db w').
Proof.
  intros Htx Hk H. unfold applyChannelAvailability in H. apply WithTx_Ok in H as (w1 & H & _ & ->); [|done].
  split; [done|]. apply bind_Ok in H as ([] & w2 & Hs & H). unfold ChannelRepository_SetAvailable in Hs. m_inv.
  unfold SetChannelAvailable in Hq. cbn [w_db tick set_tx] in *.
  destruct (d_channels (w_db w) !! ch_ID ch) as [c|] eqn:Hc; [|by simplify_eq]. simplify_eq.
  set (d1 := set_channels _ (w_db w)) in *.
  assert (d_channels (w_db w1) = d_channels d1 ∧ w_db w1 = update_blobs
    (if up (ch_ID ch) then λ b, N.eqb (b_ChannelID b) (ch_ID ch) && bool_decide (b_State b = BlobStateUnavailable)
     else λ b, N.eqb (b_ChannelID b) (ch_ID ch) && negb (bool_decide (b_State b = BlobStatePermUnavailable)))
    (if up (ch_ID ch) then BlobStateStored else BlobStateUnavailable) d1) as [Hch Hw1].
  { destruct (up (ch_ID ch)); [unfold blobRepository_MarkChannelAvailable, MarkChannelBlobsAvailable in H
                              |unfold blobRepository_MarkChannelUnavailable, MarkChannelBlobsUnavailable in H];
      m_inv; simplify_eq; done. }
  clear H. cbn [w_db tick set_tx]. pose proof (mark_blobs up (ch_ID ch) (w_db w1) d1 (eq_sym Hw1)) as Hb.
  rewrite Hw1 in *. split; try done. intros id. rewrite Hch. simpl.
  destruct (decide (id ∈ [ch_ID ch])) as [->%list_elem_of_singleton|Hout].
  - by rewrite lookup_insert_eq, Hc.
  - rewrite lookup_insert_ne; [done|]. set_solver.
Qed.

(** What [channelHasEnabledMember] answers on the tables. *)
Definition has_enabled (enabled : gmap uuid bool) (d : Db) (ch : uuid) : bool :=
  existsb (λ m, bc_Member m && default false (enabled !! bc_BotID m))
    (rows (λ bc, N.eqb (bc_ChannelID bc) ch) (d_bot_channel d)).

Lemma availability_loop enabled l w u w' :
  w_tx w = None → channels_keyed (w_db w) → NoDup (ch_ID <$> l) →
  for_each l (λ ch, let! available := channelHasEnabledMember (ch_ID ch) enabled in
                    applyChannelAvailability ch available) w = (Ok u, w') →
  w_tx w' = None ∧ rebalanced (has_enabled enabled (w_db w)) (ch_ID <$> l) (w_db w) (w_db w').
Proof.
  revert w. induction l as [|ch l IH]; intros w Htx Hk Hnd H; cbn [for_each] in H.
  { injection H as <- <-. split; [done|]. apply rebalanced_refl. }
  apply bind_Ok in H as ([] & w1 & Ha & H). apply bind_Ok in Ha as (a & w2 & Hh & Ha).
  unfold channelHasEnabledMember in Hh. apply bind_Ok in Hh as (ms & w3 & Hms & Hh). injection Hh as <- <-.
  unfold BotChannelRepository_ListByChannel in Hms. m_inv. unfold ListBotChannelsByChannel, many in Hq. simplify_eq.
  rewrite set_db_id in Ha.
  change (existsb _ _) with (has_enabled enabled (w_db w) (ch_ID ch)) in Ha.
  apply apply_Ok in Ha as [Htx1 Hr]; [|done|done]. cbn [w_db tick] in Hr.
  change (NoDup (ch_ID ch :: (ch_ID <$> l))) in Hnd. apply NoDup_cons in Hnd as [Hni Hnd].
  apply IH in H as [Htx' Hr']; [|done| |done].
  - split; [done|]. change (ch_ID <$> ch :: l) with (ch_ID ch :: (ch_ID <$> l)).
    eapply rebalanced_cons; [done|exact Hr|].
    unfold has_enabled in *. by rewrite (rb_members _ _ _ _ Hr) in Hr'.
  - intros k c. rewrite (rb_channels _ _ _ _ Hr). destruct (decide _); [|by apply Hk].
    destruct (d_channels (w_db w) !! k) eqn:Hc; simpl; [|done]. intros [= <-]. simpl. by apply Hk.
Qed.

(** A channel is up when an enabled bot is recorded as its member. *)
Definition up (d : Db) (ch : uuid) : Prop :=
  ∃ bot r, member_of bot ch d ∧ d_bots d !! bot = Some r ∧ br_Enabled r = true.

Lemma reevaluate_Ok w u w' : w_tx w = None → channels_keyed (w_db w) → bots_keyed (w_db w) →
  reevaluateAvailability bots w = (Ok u, w') →
  w_tx w' = None ∧ ∃ f S, (∀ ch, f ch = true ↔ up (w_db w) ch)
    ∧ (∀ id, id ∈ S ↔ is_Some (d_channels (w_db w) !! id)) ∧ rebalanced f S (w_db w) (w_db w').
Proof.
  intros Htx Hk Hkb H. unfold reevaluateAvailability in H. apply bind_Ok in H as (chs & w1 & Hc & H).
  unfold ChannelRepository_List in Hc. m_inv. unfold ListChannels, many in Hq. simplify_eq. rewrite set_db_id in Hm.
  pose proof Hm as Hl. apply (ListBots_Ok bots) in Hl as [Hdb [L1 L2]]; [|done].
  assert (w_tx w0 = None) as Htx0
    by (apply Quiet_Bots in Hm as [_ _ HT]; by apply (same_tx_None _ _ HT)).
  assert (∀ c, c ∈ sort_by ch_CreatedAt (rows (λ _, true) (d_channels (w_db w))) ↔ ∃ k, d_channels (w_db w) !! k = Some c) as Hchs.
  { intros c. rewrite sort_by_perm, elem_of_rows. naive_solver. }
  cbn [w_db tick] in *. apply availability_loop in H as [Htx' Hr]; [|done|by rewrite Hdb|].
  - split; [done|]. rewrite Hdb in Hr. eexists _, _. split; [|split; [|exact Hr]].
    + intros ch. unfold has_enabled. rewrite existsb_exists. unfold up, member_of.
      set (m := Associate bot_ID bot_Enabled x) in *.
      assert (∀ bot, default false (m !! bot) = true ↔ ∃ r, d_bots (w_db w) !! bot = Some r ∧ br_Enabled r = true) as Hm'.
      { intros bot. pose proof (Associate_lookup bot_ID bot_Enabled x bot) as Ha. fold m in Ha.
        destruct (m !! bot) as [v|]; simpl.
        - destruct Ha as (b & Hb & <- & <-). destruct (L1 b Hb) as (_ & r & Hr' & Hlo). rewrite (proj1 (proj2 Hlo)).
          split; [intros; by exists r|]. intros (r' & Hr'' & He). by simplify_eq.
        - split; [done|]. intros (r & Hr' & _). destruct (L2 bot r I Hr') as (b & Hb & Hid & _). by destruct (Ha b). }
      split.
      * intros (bc & (k & Hkb' & Hch%N.eqb_eq)%list_elem_of_In%elem_of_rows & [Hmb He%Hm']%andb_true_iff).
        destruct He as (r & Hr' & He). exists (bc_BotID bc), r. split; [by exists k, bc|done].
      * intros (bot & r & (k & bc & Hkb' & Hch & Hid & Hmb) & Hr' & He). exists bc. split.
        -- apply list_elem_of_In, elem_of_rows. exists k. split; [done|by apply N.eqb_eq].
        -- rewrite Hmb. apply Hm'. rewrite Hid. by exists r.
    + intros id. rewrite list_elem_of_fmap. split.
      * intros (c & -> & [k Hkc]%Hchs). rewrite (Hk _ _ Hkc). by eexists.
      * intros [c Hc]. exists c. split; [by rewrite (Hk _ _ Hc)|]. apply Hchs. by exists id.
  - assert (ch_ID <$> sort_by ch_CreatedAt (rows (λ _, true) (d_channels (w_db w)))
            ≡ₚ ch_ID <$> (map_to_list (d_channels (w_db w))).*2) as ->.
    { apply fmap_Permutation. rewrite sort_by_perm. unfold rows. by rewrite filter_all. }
    assert (ch_ID <$> (map_to_list (d_channels (w_db w))).*2 = (map_to_list (d_channels (w_db w))).*1) as ->.
    { rewrite <- list_fmap_compose. apply list_fmap_ext. intros i [k c] Hi%list_elem_of_lookup_2%elem_of_map_to_list.
      simpl. by apply Hk. }
    apply NoDup_fst_map_to_list.
Qed.

End availability.

(** ** maintenance.go: what a reaping cycle may remove *)

(** Only blobs of [l] that no extent refers to may have gone. *)
Record reaped (l : list uuid) (d d' : Db) : Prop := {
  re_nodes : d_nodes d' = d_nodes d;
  re_extents : d_extents d' = d_extents d;
  re_wal : d_wal_chunks d' = d_wal_chunks d;
  re_users : d_users d' = d_users d;
  re_channels : d_channels d' = d_channels d;
  re_blobs : ∀ k, d_blobs d' !! k = d_blobs d !! k
    ∨ d_blobs d' !! k = None ∧ k ∈ l ∧ ∀ x e, d_extents d !! x = Some e → e_BlobID e ≠ k }.

Lemma reaped_side l d d' : side d d' → reaped l d d'.
Proof. intros []. split; try done. intros k. left. congruence. Qed.

Lemma reaped_trans l d1 d2 d3 : reaped l d1 d2 → reaped l d2 d3 → reaped l d1 d3.
Proof.
  intros [N1 E1 W1 U1 C1 B1] [N2 E2 W2 U2 C2 B2]. split; try congruence.
  intros k. destruct (B2 k) as [->|(? & ? & Hk)]; [done|right]. split_and!; try done. by rewrite <- E1.
Qed.

#[global] Instance reaped_tolerates l : Tolerates (reaped l).
Proof. split; [split; [intros d; by apply reaped_side|intros d1 d2 d3; apply reaped_trans]|apply reaped_side]. Qed.

Section maintenance.
Context {E : Env} {C : Aead} {A : BotAPI} (bots : BotRepository).

Notation Reaps l := (Keeps (leaves (reaped l))).

Lemma Keeps_at_index R `{!Frame R} {X} (l : list X) i : Keeps R (at_index l i).
Proof. unfold at_index. keeps_auto. Qed.
Lemma Keeps_next_bot R `{!Frame R} : Keeps R next_bot.
Proof. by apply (Keeps_same _); intros w r w' [= _ <-]. Qed.
Hint Resolve Keeps_at_index Keeps_next_bot : keeps.

Lemma Quiet_Pick ch : Quiet (Bot_PickForUpload bots ch).
Proof. unfold Bot_PickForUpload, eligibleBots. keeps_auto. Qed.
Hint Resolve Quiet_Pick Quiet_DeleteMessage : keeps.

Lemma Reaps_Delete l id : id ∈ l → Reaps l (blobRepository_Delete id).
Proof.
  intros Hid. apply (Keeps_need_row _), (Keeps_translate _), (leaves_stmt _). unfold DeleteBlob. intros d n d' Hq.
  destruct (d_blobs d !! id); [|by simplify_eq].
  destruct (row_exists _ _) eqn:Hrow; [done|]. simplify_eq. split; try done. intros k. simpl.
  destruct (decide (k = id)) as [->|Hne]; [right|left; by rewrite lookup_delete_ne].
  rewrite lookup_delete_eq. split_and!; try done. intros y e He Hb.
  pose proof (proj1 (row_exists_false _ _) Hrow y e He) as Hf. simpl in Hf. by rewrite Hb, N.eqb_refl in Hf.
Qed.

Lemma reap_loop_reaps l bs : (∀ b, b ∈ bs → b_ID b ∈ l) → Reaps l (reap_loop bots bs).
Proof.
  induction bs as [|b bs IH]; intros Hl; cbn [reap_loop]; [auto with keeps|].
  assert (Reaps l (reap_loop bots bs)) as Hrest by (apply IH; intros x Hx; apply Hl; by right).
  pose proof (Reaps_Delete l (b_ID b) ltac:(apply Hl; by left)) as Hdel. keeps_auto.
Qed.

(** A cycle ends without an error, unless the picking of a bot panics, and removes only
    collectable blobs. *)
Definition ended (r : res unit) : Prop := r = Ok tt ∨ ∃ e, r = Err e ∧ is_panic e = true.

Lemma reap_loop_total bs w : ∃ r w', reap_loop bots bs w = (r, w') ∧ ended r.
Proof.
  assert (∀ w, ∃ r w', ret tt w = (r, w') ∧ ended r) as Hret by (intros w0; eexists _, _; split; [done|by left]).
  revert w. induction bs as [|b bs IH]; intros w; cbn [reap_loop]; [apply Hret|].
  unfold ctx_Err, bind at 1. destruct (env_done _); [apply Hret|]. rewrite try_run.
  destruct (ChannelRepository_GetByID _ _) as [[ch|e] w1]; cbn [fst snd]; [|apply IH]. rewrite try_run.
  destruct (Bot_PickForUpload bots _ _) as [[bot|e] w2]; cbn [fst snd].
  2: { destruct (is_panic e) eqn:He; [|apply IH]. eexists _, _. split; [done|]. right. by eexists. }
  rewrite try_run.
  assert (∀ w, ∃ r w', (let? gone := blobRepository_Delete (b_ID b) in
                match gone with
                | Err _ => reap_loop bots bs
                | Ok _ =>
                    ignore! EventRepository_Log EventBlobReaped
                      "unreferenced blob message deleted from Telegram" (env_uuid_string (b_ID b)) in
                    let! stop := ctx_Err in
                    if stop then ret tt else reap_loop bots bs
                end) w = (r, w') ∧ ended r) as Hr.
  { intros w3. rewrite try_run. destruct (blobRepository_Delete _ _) as [[u|e] w4]; cbn [fst snd]; [|apply IH].
    rewrite try_run. destruct (EventRepository_Log _ _ _ _) as [r5 w5]; cbn [fst snd].
    unfold ctx_Err, bind. destruct (env_done _); [apply Hret|apply IH]. }
  destruct (DeleteMessage bot _ _ w2) as [[u|e] w3]; cbn [fst snd]; [apply Hr|].
  destruct e; try apply IH; [|apply Hr]. unfold Now, bind. rewrite try_run. apply Hret.
Qed.

Lemma reap_Ok w : ∃ r w' l, reap bots w = (r, w') ∧ ended r ∧ reaped l (w_db w) (w_db w')
  ∧ ∀ id, id ∈ l → ∃ k b, d_blobs (w_db w) !! k = Some b ∧ b_ID b = id
      ∧ collectable (env_dbnow (w_step w)) BlobStateStored b = true.
Proof.
  unfold reap. rewrite try_run. destruct (blobRepository_ListCollectable reapBatch w) as [[bs|e] w1] eqn:Hl; cbn [fst snd].
  - destruct (reap_loop_total bs w1) as (r & w' & Hr & He). exists r, w', (b_ID <$> bs). split; [done|]. split; [done|].
    unfold blobRepository_ListCollectable in Hl. m_inv. unfold ListCollectableBlobs, many in Hq. simplify_eq.
    split.
    + eapply reap_loop_reaps in Hr as [Hr _]; [by rewrite set_db_id in Hr|]. intros b Hb. apply list_elem_of_fmap. by exists b.
    + intros id (b & -> & Hb)%list_elem_of_fmap. unfold limit in Hb. apply elem_of_take in Hb as (i & Hb & _).
      apply list_elem_of_lookup_2 in Hb. rewrite sort_by_perm, elem_of_rows in Hb. destruct Hb as (k & Hk & Hc).
      by exists k, b.
  - exists (Ok tt), w1, []. split; [done|]. split; [by left|]. unfold blobRepository_ListCollectable in Hl. apply translate_Err in Hl as (e0 & Hl & _).
    apply query_Err in Hl as (-> & _). split; [done|]. by intros id ?%elem_of_nil.
Qed.

End maintenance.
