(* ===== verification/SparesFacts.v ===== *)
(** * What leaves the files alone

    [spares]: the nodes, the extents, the log and the blobs are as they were, but for
    the states of blobs.  Everything the Management API does is such, except for the
    deletion of a user, and so is everything maintenance does, except for reaping. *)
From Stdlib Require Import ZArith Lia Strings.Byte Strings.String.
From stdpp Require Import base tactics list gmap sets strings.
From S2P Require Import Prelude Model Sql SqlFacts World Keeps Repository Crypto Text Password Accounts Identity Limiter.
From S2P Require Import File Telegram BlobReader BlobFacts Bots WebDav Management Maintenance.
#[local] Open Scope string_scope.
#[local] Open Scope Z_scope.
Open Scope m_scope.

(** A blob up to its state. *)
Abbreviation stateless b := (blob_with_state BlobStateStored b) (only parsing).

Record spares (d d' : Db) : Prop := {
  sp_nodes : d_nodes d' = d_nodes d;
  sp_extents : d_extents d' = d_extents d;
  sp_wal : d_wal_chunks d' = d_wal_chunks d;
  sp_blobs : ∀ b, (λ x, stateless x) <$> d_blobs d' !! b = (λ x, stateless x) <$> d_blobs d !! b }.

#[global] Instance spares_tolerates : Tolerates spares.
Proof.
  split; [split|].
  - intros d. by split.
  - intros d1 d2 d3 [N1 E1 W1 B1] [N2 E2 W2 B2]. split; [congruence..|]. intros b. by rewrite B2, B1.
  - intros d d' []. split; [done..|]. intros b. congruence.
Qed.

(** ** Statements *)

Lemma spares_update P s d : spares d (update_blobs P s d).
Proof.
  split; try done. intros b. simpl. rewrite lookup_fmap. destruct (d_blobs d !! b) as [x|]; [|done]. simpl.
  by destruct (P x).
Qed.

Create HintDb repo.
#[export] Hint Unfold BotRepository_Create BotRepository_Update BotRepository_Delete BotRepository_GetByID
  BotRepository_GetByUsername ChannelRepository_Create ChannelRepository_Update ChannelRepository_GetByID
  ChannelRepository_GetByChatID ChannelRepository_List ChannelRepository_SetAvailable ChannelRepository_IncrementCounter
  blobRepository_MarkChannelUnavailable blobRepository_MarkChannelAvailable blobRepository_EvictOlderThan
  EventRepository_List StatRepository_Record StatRepository_Query SettingsRepository_Get SettingsRepository_Update
  TokenRepository_Create TokenRepository_GetByHash TokenRepository_ListByUser TokenRepository_Delete
  TokenRepository_TouchLastUsed UserRepository_Create UserRepository_Update UserRepository_GetByID
  UserRepository_GetByLogin UserRepository_List : repo.

Ltac head t := match t with ?f _ => head f | _ => t end.

(** A statement whose text touches none of the four tables, or only states. *)
Ltac spares_stmt :=
  apply (leaves_stmt _);
  let H := fresh in intros ? ? ? H;
  match type of H with ?q _ = _ => let h := head q in unfold h, many, one, one_opt in H end;
  repeat (case_match; try discriminate H); simplify_eq; first [done | by split | apply spares_update].

#[export] Hint Extern 3 (Keeps (leaves spares) (stmt _)) => spares_stmt : keeps.

(** The whole of a method: its repositories unfolded, then its structure. *)
Ltac spares := repeat autounfold with repo; keeps_auto.

(** ** The services *)

Section services.
Context {E : Env} {C : Aead} {A : BotAPI} {K : Kdf} {RL : RateLib} (bots : BotRepository).
Notation Spares := (Keeps (leaves spares)).

Lemma Keeps_encrypt R `{!Frame R} r token : Keeps R (encryptToken r token).
Proof.
  apply (Keeps_same _). intros w x w'. unfold encryptToken.
  destruct (aead r); [destruct (rand_bytes _)|]; by intros [= _ <-].
Qed.
Lemma Keeps_hash R `{!Frame R} pw : Keeps R (HashPassword pw).
Proof. apply (Keeps_same _). intros w x w'. unfold HashPassword. by repeat case_match; intros [= _ <-]. Qed.
Lemma Keeps_token R `{!Frame R} : Keeps R generateAPIToken.
Proof. apply (Keeps_same _). intros w x w'. unfold generateAPIToken. by case_match; intros [= _ <-]. Qed.
Hint Resolve Keeps_encrypt Keeps_hash Keeps_token Quiet_do Quiet_decoded : keeps.

Lemma Spares_GetMe bot : Spares (GetMe bot).
Proof. unfold GetMe. spares. Qed.
Lemma Spares_GetChat bot chat : Spares (GetChat bot chat).
Proof. unfold GetChat. spares. Qed.
Hint Resolve Spares_GetMe Spares_GetChat : keeps.

Lemma Spares_reevaluate : Spares (reevaluateAvailability bots).
Proof. unfold reevaluateAvailability, channelHasEnabledMember, applyChannelAvailability. spares. Qed.
Lemma Spares_record bot ch now : Spares (record_membership bot ch now).
Proof. unfold record_membership. spares. Qed.
Hint Resolve Spares_reevaluate Spares_record : keeps.

Lemma Spares_Bot_Add token : Spares (Bot_Add bots token).
Proof. unfold Bot_Add. spares. Qed.
Lemma Spares_Bot_Remove id : Spares (Bot_Remove bots id).
Proof. unfold Bot_Remove. spares. Qed.
Lemma Spares_Bot_SetEnabled id enabled : Spares (Bot_SetEnabled bots id enabled).
Proof. unfold Bot_SetEnabled. spares. Qed.
Lemma Spares_Refresh : Spares (RefreshMembership bots).
Proof. unfold RefreshMembership. spares. Qed.

Lemma Spares_probe now chat channel bs : Spares (probe_bots now chat channel bs).
Proof. revert channel. induction bs as [|bot bs IH]; intros channel; cbn [probe_bots]; spares. Qed.
Hint Resolve Spares_probe : keeps.
Lemma Spares_Channel_Add bareID : Spares (Channel_Add bots bareID).
Proof. unfold Channel_Add, Settings_Get. spares. Qed.
Lemma Spares_Channel_Remove id : Spares (Channel_Remove id).
Proof. unfold Channel_Remove, remove_tx. spares. Qed.
Lemma Spares_Eviction id threshold : Spares (SetEvictionThreshold id threshold).
Proof. unfold SetEvictionThreshold. spares. Qed.

Hint Resolve Spares_Bot_Add Spares_Bot_Remove Spares_Bot_SetEnabled Spares_Refresh
  Spares_Channel_Add Spares_Channel_Remove Spares_Eviction : keeps.

(** ** Authentication *)

Lemma Spares_lookup login pw : Spares (lookupAndVerify login pw).
Proof. unfold lookupAndVerify, verifiedRecently, markVerified. spares. Qed.
Hint Resolve Spares_lookup : keeps.
Lemma Spares_Basic username pw : Spares (AuthenticateBasic username pw).
Proof. unfold AuthenticateBasic, authenticateImpersonation. spares. Qed.
Lemma Spares_Bearer token : Spares (AuthenticateBearer token).
Proof. unfold AuthenticateBearer. spares. Qed.
Hint Resolve Spares_Basic Spares_Bearer : keeps.
Lemma Spares_admin authorization : Spares (authenticateAdmin authorization).
Proof. unfold authenticateAdmin. spares. Qed.

Lemma Spares_User_Create p : Spares (User_Create p).
Proof. unfold User_Create. spares. Qed.
Hint Resolve Spares_User_Create : keeps.
Lemma Spares_bootstrap firstUser : Spares (bootstrapAdmin firstUser).
Proof. unfold bootstrapAdmin, User_List. spares. Qed.

(** ** Maintenance, statistics, limits *)

Lemma Spares_evict : Spares evict_old.
Proof. unfold evict_old, evict_channel. spares. Qed.

Lemma Spares_counters l : Spares (record_counters l).
Proof. induction l as [|[metric delta] l IH]; cbn [record_counters]; spares. Qed.
Lemma Spares_gauges gs : Forall (λ g : gauge, Spares g.2) gs → Spares (record_gauges gs).
Proof. induction 1 as [|[[metric label] fn] gs Hfn _ IH]; cbn [record_gauges snd] in *; spares. Qed.
Hint Resolve Spares_counters Spares_gauges : keeps.
Lemma Spares_flush gs : Forall (λ g : gauge, Spares g.2) gs → Spares (flush gs).
Proof. intros Hgs. unfold flush. spares. Qed.
Lemma Spares_sweep : Spares limiter_sweep.
Proof. unfold limiter_sweep. spares. Qed.

(** ** The operations of the Management API *)

Lemma Spares_perform op : (∀ id, op ≠ OpDeleteUser id) → Spares (perform bots op).
Proof.
  intros Hop. destruct op; cbn [perform]; try by destruct (Hop id).
  all: unfold Healthz, ListUsers_, CreateUser_, GetUser_, SetUserPassword, ListUserTokens, CreateUserToken,
    DeleteUserToken, ListBots_, AddBot, DeleteBot_, SetBotEnabled, ListChannels_, AddChannel, DeleteChannel_,
    SetChannelEviction, GetSettings_, UpdateSettings, QueryStats_, ListEvents_.
  all: unfold User_List, User_Get, SetPassword, ListTokens, CreateToken, DeleteToken, Bot_List, Channel_List,
    Settings_Get, Settings_Update, Stats_Query, Events_List, respond.
  all: spares.
Qed.

End services.
