(* ===== verification/LossFacts.v ===== *)
(** * Facts about the loss of a blob: the cascade of blob.go and whom it touches

    When a blob's message is gone, the nodes whose whole content lay on it are
    deleted: what [cascade_tx] does to the tables, and what a request may then do to
    the files of others. *)
From Stdlib Require Import ZArith Lia Strings.Byte Strings.String.
From stdpp Require Import base tactics list gmap sets strings.
From S2P Require Import Prelude Model Sql SqlFacts World Keeps Repository Crypto Accounts Path FileSystem Tree.
From S2P Require Import FsFacts RenameFacts File Cache CacheFacts BlobFacts Telegram BlobReader ReadFacts Tenants.
#[local] Open Scope string_scope.
#[local] Open Scope Z_scope.
Open Scope m_scope.

(** Every extent of the node, and there is one, lies on the blob. *)
Definition solely_on (blob n : uuid) (d : Db) : Prop :=
  (∃ k e, d_extents d !! k = Some e ∧ e_NodeID e = n)
  ∧ ∀ k e, d_extents d !! k = Some e → e_NodeID e = n → e_BlobID e = blob.

(** The nodes of [l] are gone with all that hangs off them, and nothing else is. *)
Record purged (l : list uuid) (d d' : Db) : Prop := {
  pu_nodes : ∀ j s, d_nodes d' !! j = Some s ↔ d_nodes d !! j = Some s ∧ j ∉ l;
  pu_extents : ∀ k e, d_extents d' !! k = Some e ↔ d_extents d !! k = Some e ∧ e_NodeID e ∉ l;
  pu_wal : ∀ k c, d_wal_chunks d' !! k = Some c ↔ d_wal_chunks d !! k = Some c ∧ c_NodeID c ∉ l;
  pu_blobs : d_blobs d' = d_blobs d;
  pu_users : d_users d' = d_users d }.

Lemma purged_side d d' : side d d' → purged [] d d'.
Proof.
  intros [Sn Se Sw]. split; [..|done|done]; intros; [rewrite Sn|rewrite Se|rewrite Sw];
    pose proof (not_elem_of_nil (A := uuid)); naive_solver.
Qed.

Lemma purged_trans l1 l2 d1 d2 d3 : purged l1 d1 d2 → purged l2 d2 d3 → purged (l1 ++ l2) d1 d3.
Proof.
  intros [N1 E1 W1 B1 U1] [N2 E2 W2 B2 U2]. split; [..|congruence|congruence];
    intros; [rewrite N2, N1|rewrite E2, E1|rewrite W2, W1]; rewrite not_elem_of_app; tauto.
Qed.

(** The tree only depends on four tables. *)
Lemma tree_ok_tables d d' : d_nodes d' = d_nodes d → d_extents d' = d_extents d →
  d_wal_chunks d' = d_wal_chunks d → (∀ k b, d_blobs d' !! k = Some b → b_ID b = k) →
  tree_ok d → tree_ok d'.
Proof.
  intros Hn He Hw Hb []. split; rewrite ?Hn, ?He, ?Hw; try done.
Qed.

Lemma tree_ok_side d d' : side d d' → tree_ok d → tree_ok d'.
Proof.
  intros [Sn Se Sw Sb] Hd. apply (tree_ok_tables d d'); try done. intros k b. rewrite Sb. apply (tk_blob _ Hd).
Qed.

(** A file has nothing below it. *)
Lemma file_cascade d i r : tree_ok d → d_nodes d !! i = Some r → rdir r = false →
  ∀ j, j ∈ cascade_set (d_nodes d) {[i]} ↔ j = i.
Proof.
  intros Hd Hr Hf j. rewrite (cascade_tree d Hd i r j Hr). split.
  - intros (s & Hs & Hin). by destruct (file_subtree d i r j s Hd Hr Hf Hs Hin).
  - intros ->. exists r. split; [done|]. split; [done|]. apply below_refl.
Qed.

Lemma purged_file d i r : tree_ok d → d_nodes d !! i = Some r → rdir r = false →
  purged [i] d (delete_nodes {[i]} d).
Proof.
  intros Hd Hr Hf. pose proof (file_cascade d i r Hd Hr Hf) as Hc.
  assert (∀ j, j ∉ cascade_set (d_nodes d) {[i]} ↔ j ∉ [i]) as Hn
    by (intros j; by rewrite Hc, list_elem_of_singleton).
  split; [..|done|done]; intros; unfold delete_nodes; simpl; rewrite map_lookup_filter_Some; simpl; by rewrite Hn.
Qed.

Section cascade.
Context {E : Env} {C : Aead} {A : BotAPI}.

Definition cascade_each (id : uuid) : M unit :=
  do! NodeRepository_Delete id in
  EventRepository_Log EventCascadeDelete "node deleted: only content lived on a now-gone blob"
    (env_uuid_string id).

Lemma cascade_loop l w u w' :
  tree_ok (w_db w) → (∀ i r, i ∈ l → d_nodes (w_db w) !! i = Some r → rdir r = false) →
  for_each l cascade_each w = (Ok u, w') →
  purged l (w_db w) (w_db w') ∧ tree_ok (w_db w').
Proof.
  revert w. induction l as [|i l IH]; intros w Hd Hfile H.
  { unfold for_each, ret in H. injection H as <- <-. split; [by apply purged_side|done]. }
  cbn [for_each] in H. apply bind_Ok in H as ([] & w1 & Hi & H). unfold cascade_each in Hi.
  apply bind_Ok in Hi as ([] & w0 & Hdel & Hlog). apply Delete_Ok in Hdel as [[r Hr] Hw0].
  apply Quiet_Log in Hlog as [Hside _ _].
  pose proof (purged_file (w_db w) i r Hd Hr (Hfile i r (list_elem_of_here _ _) Hr)) as Hpu.
  rewrite <- Hw0 in Hpu. pose proof (purged_trans _ _ _ _ _ Hpu (purged_side _ _ Hside)) as Hp1.
  rewrite app_nil_r in Hp1. destruct (IH w1) as [Hpl Ht]; [| |done|].
  - apply (tree_ok_side _ _ Hside). rewrite Hw0. by apply tree_ok_delete.
  - intros j s Hj Hs. apply (pu_nodes _ _ _ Hp1) in Hs as [Hs _]. eapply Hfile; [by right|done].
  - split; [|done]. by apply (purged_trans [i] l (w_db w) (w_db w1)).
Qed.

Lemma sole_nodes blob d x d' : ListNodesSolelyOnBlob blob d = SqlOk x d' →
  d' = d ∧ ∀ n, n ∈ x ↔ solely_on blob n d.
Proof.
  unfold ListNodesSolelyOnBlob, many. intros [= <- <-]. split; [done|]. intros n.
  rewrite list_elem_of_In, List.filter_In, <- list_elem_of_In, elem_of_remove_dups, list_elem_of_fmap, forallb_forall.
  assert (∀ e, e ∈ (map_to_list (d_extents d)).*2 ↔ ∃ k, d_extents d !! k = Some e) as Hrows.
  { intros e. rewrite list_elem_of_fmap. split.
    - intros ([k e'] & -> & Hk%elem_of_map_to_list). by exists k.
    - intros [k Hk]. exists (k, e). split; [done|]. by apply elem_of_map_to_list. }
  unfold solely_on. split.
  - intros [(e & -> & [k Hk]%Hrows) Hall]. split; [by exists k, e|]. intros k' e' Hk' Hn.
    specialize (Hall e'). rewrite <- list_elem_of_In, Hrows, Hn, N.eqb_refl in Hall. simpl in Hall.
    apply N.eqb_eq, Hall. by exists k'.
  - intros [(k & e & Hk & <-) Hall]. split; [exists e; split; [done|apply Hrows; by exists k]|].
    intros e' [k' Hk']%list_elem_of_In%Hrows. destruct (N.eqb_spec (e_NodeID e') (e_NodeID e)) as [Hn|]; [|done].
    simpl. apply N.eqb_eq. by eapply Hall.
Qed.

(** What a committed cascade did. *)
Record cascaded (blob : uuid) (d d' : Db) : Prop := {
  ca_state : ∃ b, d_blobs d !! blob = Some b
             ∧ d_blobs d' = <[blob := blob_with_state BlobStatePermUnavailable b]> (d_blobs d);
  ca_nodes : ∀ j s, d_nodes d' !! j = Some s ↔ d_nodes d !! j = Some s ∧ ¬ solely_on blob j d;
  ca_extents : ∀ k e, d_extents d' !! k = Some e ↔ d_extents d !! k = Some e ∧ ¬ solely_on blob (e_NodeID e) d;
  ca_wal : ∀ k c, d_wal_chunks d' !! k = Some c ↔ d_wal_chunks d !! k = Some c ∧ ¬ solely_on blob (c_NodeID c) d;
  ca_users : d_users d' = d_users d;
  ca_tree : tree_ok d' }.

Lemma cascade_tx_Ok blob w u w' : tree_ok (w_db w) → cascade_tx blob w = (Ok u, w') →
  cascaded blob (w_db w) (w_db w').
Proof.
  intros Hd H. unfold cascade_tx in H. change (for_each ?l _) with (for_each l cascade_each) in H.
  apply bind_Ok in H as ([] & w1 & Hset & H). apply bind_Ok in H as ([] & w2 & Hlog & H).
  apply bind_Ok in H as (l & w3 & Hlist & H). apply Quiet_Log in Hlog as [Hside _ _].
  unfold blobRepository_SetState in Hset. m_inv. unfold SetBlobState in Hq.
  destruct (d_blobs (w_db w) !! blob) as [b|] eqn:Hb; [|by simplify_eq]. simplify_eq.
  unfold extentRepository_ListNodesSolelyOnBlob in Hlist. m_inv. apply sole_nodes in Hq as [-> Hl].
  set (d1 := set_blobs (<[blob := blob_with_state BlobStatePermUnavailable b]> (d_blobs (w_db w))) (w_db w)) in *.
  simpl in Hside. assert (tree_ok d1) as Hd1.
  { apply (tree_ok_tables (w_db w)); try done. intros k b'. simpl. intros [[<- <-]|[_ Hk]]%lookup_insert_Some;
      [by apply (tk_blob _ Hd) in Hb|by apply (tk_blob _ Hd) in Hk]. }
  pose proof (tree_ok_side _ _ Hside Hd1) as Hd2.
  assert (∀ n, n ∈ l ↔ solely_on blob n (w_db w)) as Hsole.
  { intros n. rewrite Hl. unfold solely_on. by rewrite (si_extents _ _ Hside). }
  destruct (cascade_loop l (tick (set_db (w_db w2) w2)) u w') as [Hp Ht]; [done| |done|].
  { intros i r [(k & e & Hk & <-) _]%Hsole Hr. cbn [w_db tick set_db] in Hr. rewrite (si_nodes _ _ Hside) in Hr.
    destruct (tk_extent _ Hd k e Hk) as (s & Hs & Hf). simpl in Hr. by simplify_eq. }
  pose proof (purged_trans _ _ _ _ _ (purged_side _ _ Hside) Hp) as [Pn Pe Pw Pb Pu]. simpl in Pn, Pe, Pw.
  split; [exists b; by split|..|by rewrite Pu|done]; intros.
  - by rewrite Pn, Hsole.
  - by rewrite Pe, Hsole.
  - by rewrite Pw, Hsole.
Qed.

(** The error of the transaction is only logged: all of the cascade or nothing. *)
Lemma markPermUnavailable_run blob w : w_tx w = None → tree_ok (w_db w) →
  ∃ w', markPermUnavailable blob w = (Ok tt, w') ∧ w_tx w' = None
    ∧ (w_db w' = w_db w ∨ cascaded (b_ID blob) (w_db w) (w_db w')).
Proof.
  intros Htx Hd. unfold markPermUnavailable. rewrite try_run. eexists. split; [done|].
  destruct (WithTx (cascade_tx (b_ID blob)) w) as [[u|e] w1] eqn:H; simpl.
  - apply WithTx_Ok in H as (w2 & H & _ & ->); [|done]. split; [done|]. right.
    by apply cascade_tx_Ok in H.
  - apply WithTx_Err in H as [-> ?]; [|done]. split; [done|by left].
Qed.

Lemma cascaded_side b d d1 d2 : side d d1 → cascaded b d1 d2 → cascaded b d d2.
Proof.
  intros [Sn Se Sw Sb Su _] [Cs Cn Ce Cw Cu Ct].
  split; [by rewrite <- Sb|..|congruence|done]; unfold solely_on in *;
    intros; rewrite <- ?Sn, <- ?Se, <- ?Sw; auto.
Qed.

Context (bots : BotRepository).

(** The reads of [ReadBlob] before any bot is asked, in the world [w]: the blob, the
    cache that does not have it, its channel; they leave [w1]. *)
Definition looked_up (id : uuid) (w : World) (blob : Blob) (ch : Channel) (w1 : World) : Prop :=
  ∃ wa wb, blobRepository_GetByID id w = (Ok blob, wa) ∧ cache_Get id wa = (Ok None, wb)
    ∧ (do! IncCacheMiss in ChannelRepository_GetByID (b_ChannelID blob)) wb = (Ok ch, w1).

(** The candidates are tried one after the other, each in the world the one before left,
    and every one fails: what each said, and the world in the end. *)
Inductive all_fail (blob : Blob) (ch : Channel) : list candidate → World → list tried → World → Prop :=
  | af_nil w : all_fail blob ch [] w [] w
  | af_cons c cs w gone e w1 l w2 : tryCandidate blob ch c w = (Ok (gone, Err e), w1) →
      all_fail blob ch cs w1 l w2 → all_fail blob ch (c :: cs) w ((gone, Err e) :: l) w2.

(** The run from [w] to [w'] tried every candidate, all failed, a forward of one of them
    said that the message is gone, and only then the blob was given up. *)
Definition exhausted (id : uuid) (blob : Blob) (w w' : World) : Prop :=
  ∃ ch w1 cs w2 l w3, looked_up id w blob ch w1 ∧ w_db w1 = w_db w
    ∧ candidates bots blob w1 = (Ok cs, w2) ∧ all_fail blob ch cs w2 l w3
    ∧ (∃ e, (true, Err e) ∈ l) ∧ markPermUnavailable blob w3 = (Ok tt, w').

Lemma try_all_fail blob ch cs g g' e w w' : try_all blob ch cs g w = (Ok (g', Err e), w') →
  ∃ l, all_fail blob ch cs w l w' ∧ g' = g || existsb fst l ∧ ∀ x, x ∈ l → ∃ e', x.2 = Err e'.
Proof.
  revert g w. induction cs as [|c cs IH]; intros g w H; cbn [try_all] in H.
  - injection H as <- _ <-. exists []. split_and!; [constructor|by rewrite orb_false_r|by intros x ?%elem_of_nil].
  - unfold bind in H. destruct (tryCandidate blob ch c w) as [[[gone [d|e1]]|e0] w1] eqn:Ht; [done| |done].
    apply IH in H as (l & Hl & -> & He). exists ((gone, Err e1) :: l). split_and!.
    + by eapply af_cons.
    + cbn. by rewrite orb_assoc.
    + intros x [->|Hx]%elem_of_cons; [by exists e1|by apply He].
Qed.

Lemma ReadBlob_effect id w r w' : w_tx w = None → tree_ok (w_db w) →
  ReadBlob bots id w = (r, w') →
  w_tx w' = None ∧ (side (w_db w) (w_db w')
    ∨ r = Err ErrBlobUnavailable ∧ ∃ blob, d_blobs (w_db w) !! id = Some blob
        ∧ exhausted id blob w w' ∧ cascaded id (w_db w) (w_db w')).
Proof.
  intros Htx Hd H. unfold ReadBlob in H.
  apply bind_cases in H as [(blob & w1 & Hb & H)|(e & Hb & ->)].
  2: { apply Quiet_GetBlob in Hb as [? _ T1]. split; [by apply (same_tx_None _ _ T1)|by left]. }
  pose proof (Quiet_GetBlob _ _ _ _ Hb) as Hq1.
  assert (d_blobs (w_db w) !! id = Some blob ∧ w_db w1 = w_db w) as [Hblob E1].
  { pose proof Hb as Hb'. apply translate_Ok, stmt_Ok in Hb' as (_ & _ & d & Hq & ->). unfold GetBlobByID, one_opt in Hq.
    destruct (d_blobs (w_db w) !! id); [|done]. by injection Hq as -> <-. }
  assert (b_ID blob = id) as Hid by by apply (tk_blob _ Hd).
  destruct Hq1 as [S1 C1 T1]. apply same_tx_None in T1; [|exact Htx].
  destruct (negb _); [injection H as <- <-; split; [done|by left]|].
  apply bind_cases in H as [(hit & w2 & Hg & H)|(e & Hg & _)]; pose proof Hg as Hget; apply cache_Get_db in Hg as ([o Ho] & D2 & T2); [|done].
  clear o Ho. rewrite T1 in T2.
  destruct hit as [data|].
  { injection H as <- <-. simpl. rewrite D2, T2. split; [done|by left]. }
  apply bind_cases in H as [(? & w3 & Hi & H)|(? & ? & _)]; [|done]. pose proof Hi as Hinc. injection Hi as _ Hw3. rewrite <- Hw3 in H.
  assert (side (w_db w) (w_db w2)) as S2 by by rewrite D2.
  apply bind_cases in H as [(ch & w4 & Hch & H)|(e & Hch & ->)].
  2: { apply Quiet_GetChannel in Hch as [S4 _ T4]. split; [by apply (same_tx_None _ _ T4)|left]. by etrans. }
  assert (w_db w4 = w_db w) as E4.
  { pose proof Hch as Hc'. apply translate_Ok, stmt_Ok in Hc' as (_ & _ & d & Hq & ->). unfold GetChannelByID, one_opt in Hq.
    cbn [w_db set_stats] in Hq. destruct (d_channels _ !! _); [|done]. injection Hq as _ <-. cbn. congruence. }
  assert (looked_up id w blob ch w4) as Hlook.
  { exists w1, w2. split_and!; [done..|]. unfold bind at 1. by rewrite Hinc, <- Hw3. }
  apply Quiet_GetChannel in Hch as [S4 _ T4]. apply same_tx_None in T4; [|exact T2]. simpl in S4.
  assert (side (w_db w) (w_db w4)) as SS4 by by etrans.
  apply bind_cases in H as [(cs & w5 & Hcs & H)|(e & Hcs & ->)].
  2: { apply Quiet_candidates in Hcs as [S5 _ T5]. split; [by apply (same_tx_None _ _ T5)|left]. by etrans. }
  pose proof (Quiet_candidates _ _ _ _ _ Hcs) as [S5 _ T5]. apply same_tx_None in T5; [|exact T4].
  assert (side (w_db w) (w_db w5)) as SS5 by by etrans.
  destruct cs as [|c0 cs0]; [injection H as <- <-; split; [done|by left]|].
  apply bind_cases in H as [([g o] & w6 & Ht & H)|(e & Ht & _)].
  2: { destruct (Total_try_all blob ch (c0 :: cs0) false w5) as (? & ? & Ht'). congruence. }
  pose proof (Quiet_try_all _ _ _ _ _ _ _ Ht) as [S6 _ T6]. apply same_tx_None in T6; [|exact T5].
  assert (side (w_db w) (w_db w6)) as SS6 by by etrans.
  destruct o as [data|e].
  { rewrite try_run in H. destruct (cache_Put id data w6) as [rp w7] eqn:Hp. simpl in H.
    apply cache_Put_db in Hp as [D7 T7]. apply bind_cases in H as [(? & w8 & Ha & H)|(? & ? & _)]; [|done].
    injection Ha as _ <-. injection H as <- <-. simpl. rewrite D7, T7. split; [done|by left]. }
  apply try_all_fail in Ht as (l & Hl & -> & Hfail).
  destruct (false || _) eqn:Hg; [|injection H as <- <-; split; [done|by left]].
  destruct (markPermUnavailable_run blob w6 T6 (tree_ok_side _ _ SS6 Hd)) as (w7 & Hr & T7 & Hdb).
  unfold bind in H. rewrite Hr in H. injection H as <- <-. split; [done|].
  destruct Hdb as [->|Hca]; [by left|right]. split; [done|]. exists blob. split; [done|].
  rewrite Hid in Hca. split; [|by eapply cascaded_side].
  exists ch, w4, (c0 :: cs0), w5, l, w6. split_and!; try done.
  cbn [orb] in Hg. apply existsb_exists in Hg as ([b r] & Hin%list_elem_of_In & Hb'). cbn in Hb'. subst b.
  destruct (Hfail _ Hin) as [e' He]. cbn in He. subst r. by exists e'.
Qed.

End cascade.

(** ** What a request may do to the files of others

    A request stays within its user ([Tenants.confined]), except that a read may find
    out that a blob is lost, which deletes the files that lay on it, whoever owns
    them: [touched] is closed under both. *)

(** The blob is known to be gone from Telegram. *)
Definition lost (d : Db) (b : uuid) : Prop :=
  ∃ x, d_blobs d !! b = Some x ∧ b_State x = BlobStatePermUnavailable.

(** The node has bytes on the blob. *)
Definition lies_on (d : Db) (id b : uuid) : Prop :=
  ∃ k e, d_extents d !! k = Some e ∧ e_NodeID e = id ∧ e_BlobID e = b.

(** The node, its extents and its chunks are as they were. *)
Definition kept (id : uuid) (r : NodeRow) (d d' : Db) : Prop :=
  d_nodes d' !! id = Some r
  ∧ (∀ k e, e_NodeID e = id → d_extents d' !! k = Some e ↔ d_extents d !! k = Some e)
  ∧ (∀ k c, c_NodeID c = id → d_wal_chunks d' !! k = Some c ↔ d_wal_chunks d !! k = Some c).

(** A blob row may only move with its extents, or be marked lost. *)
Definition blob_moves (b : uuid) (x x' : Blob) (d d' : Db) : Prop :=
  (lost d' b ∨ x' = blob_with_refcount (b_Refcount x + (refs b d' - refs b d)) x)
  ∧ b_Refcount x - refs b d ≤ b_Refcount x' - refs b d'.

Record touched (u : uuid) (d d' : Db) : Prop := {
  to_tree : tree_ok d';
  to_users : d_users d' = d_users d;
  to_new : ∀ id r, ruser r ≠ u → d_nodes d' !! id = Some r → d_nodes d !! id = Some r;
  to_kept : ∀ id r, ruser r ≠ u → d_nodes d !! id = Some r →
    kept id r d d' ∨ ∃ b, lost d' b ∧ lies_on d id b;
  to_dom : ∀ b, is_Some (d_blobs d' !! b) ↔ is_Some (d_blobs d !! b);
  to_blobs : ∀ b x x', d_blobs d !! b = Some x → d_blobs d' !! b = Some x' → blob_moves b x x' d d';
  to_hash : ∀ b x x', d_blobs d !! b = Some x → d_blobs d' !! b = Some x' → b_ContentHash x' = b_ContentHash x;
  to_lost : ∀ b, lost d b → lost d' b;
  to_refers : ∀ k e, d_extents d' !! k = Some e →
    d_extents d !! k = Some e ∨ is_Some (d_blobs d !! e_BlobID e) }.

Lemma kept_trans id r d1 d2 d3 : kept id r d1 d2 → kept id r d2 d3 → kept id r d1 d3.
Proof. intros (N1 & E1 & W1) (N2 & E2 & W2). split_and!; [done|intros; rewrite E2, E1 by done..|intros; rewrite W2, W1 by done]; done. Qed.

Lemma touched_trans u d1 d2 d3 : touched u d1 d2 → touched u d2 d3 → touched u d1 d3.
Proof.
  intros [T1 U1 N1 K1 D1 B1 H1 L1 R1] [T2 U2 N2 K2 D2 B2 H2 L2 R2]. split; [done|congruence|auto| |intros b; by rewrite D2| | |auto|].
  - intros id r Hr Hid. destruct (K1 id r Hr Hid) as [Hk1|(b & Hl & Ho)]; [|right; exists b; auto].
    pose proof Hk1 as (Hn & He & _). destruct (K2 id r Hr Hn) as [Hk2|(b & Hl & k & e & Hk & Hi & Hb)]; [left; by eapply kept_trans|].
    right. exists b. split; [done|]. exists k, e. by rewrite <- (He k e Hi).
  - intros b x x3 Hx Hx3. destruct (proj2 (D1 b)) as [x2 Hx2]; [by eexists|].
    destruct (B1 b x x2 Hx Hx2) as [M1 S1], (B2 b x2 x3 Hx2 Hx3) as [M2 S2]. split; [|lia].
    destruct M1 as [M1| ->]; [left; auto|]. destruct M2 as [M2| ->]; [by left|right].
    unfold blob_with_refcount. simpl. f_equal. lia.
  - intros b x x3 Hx Hx3. destruct (proj2 (D1 b)) as [x2 Hx2]; [by eexists|]. by rewrite (H2 b x2 x3), (H1 b x x2).
  - intros k e [He|Hb]%R2; [auto|right]. by apply D1.
Qed.

Lemma confined_touched u d d' : tree_ok d → confined u d d' → touched u d d'.
Proof.
  intros Hd [Ct Cc Cu Cr Ce Cw Cf]. split; [done|done| | | | | | |done].
  - intros id r Hr. by apply Cr.
  - intros id r Hr Hid. left. assert (foreign u d id) as Hf by by exists r. split; [by apply Cr|].
    split; intros k x <-; [by apply Ce|by apply Cw].
  - intros b. rewrite Cc. by rewrite fmap_is_Some.
  - intros b x x' Hx Hx'. rewrite Cc, Hx in Hx'. injection Hx' as <-. split; [by right|]. simpl. lia.
  - intros b x x' Hx Hx'. rewrite Cc, Hx in Hx'. by injection Hx' as <-.
  - intros b (x & Hx & Hs). exists (blob_with_refcount (b_Refcount x + (refs b d' - refs b d)) x).
    split; [|done]. by rewrite Cc, Hx.
Qed.

Lemma cascaded_touched u b d d' : cascaded b d d' → touched u d d'.
Proof.
  intros [(x0 & Hx0 & Hbl) Cn Ce Cw Cu Ct].
  assert (lost d' b) as Hlost by (exists (blob_with_state BlobStatePermUnavailable x0); rewrite Hbl, lookup_insert_eq; done).
  assert (d_extents d' ⊆ d_extents d) as Hsub by (apply map_subseteq_spec; intros k e [? _]%Ce; done).
  split; [done|done| | | | | | |].
  - intros id r _ [? _]%Cn. done.
  - intros id r _ Hid. destruct (d_nodes d' !! id) as [r'|] eqn:Hn.
    + left. apply Cn in Hn as Hn'. destruct Hn' as [Hr' Hns]. rewrite Hid in Hr'. injection Hr' as <-.
      split; [done|]. split; intros k y <-; rewrite ?Ce, ?Cw; tauto.
    + right. exists b. split; [done|]. assert (¬ ¬ solely_on b id d) as Hso by (intros Hns; by rewrite (proj2 (Cn id r)) in Hn).
      destruct (decide (row_exists (λ e, N.eqb (e_NodeID e) id && N.eqb (e_BlobID e) b) (d_extents d) = true)) as [Hex|Hex].
      * apply row_exists_true in Hex as (k & e & He & Hb). apply andb_true_iff in Hb as [Hi%N.eqb_eq Hb%N.eqb_eq]. by exists k, e.
      * exfalso. apply Hso. intros ((k & e & He & Hi) & Hall). apply Hex, row_exists_true. exists k, e. split; [done|].
        cbn beta. by rewrite (Hall k e He Hi), <- Hi, !N.eqb_refl.
  - intros b'. rewrite Hbl. destruct (decide (b = b')) as [->|Hne]; [rewrite lookup_insert_eq, Hx0; by split; eexists|by rewrite lookup_insert_ne].
  - intros b' x x' Hx Hx'. destruct (cnt_sub (λ e, N.eqb (e_BlobID e) b' && true) _ _ Hsub) as [Hle Heq].
    change (refs b' d' ≤ refs b' d) in Hle. rewrite Hbl in Hx'. destruct (decide (b = b')) as [->|Hne].
    + rewrite lookup_insert_eq in Hx'. injection Hx' as <-. rewrite Hx0 in Hx. injection Hx as <-. split; [by left|]. simpl. lia.
    + rewrite lookup_insert_ne in Hx' by done. rewrite Hx in Hx'. injection Hx' as <-.
      assert (refs b' d' = refs b' d) as Hr.
      { apply Heq. intros k e He Hn. rewrite andb_true_r. apply N.eqb_neq. intros Hb. apply Hne.
        assert (¬ ¬ solely_on b (e_NodeID e) d) as Hso by (intros Hns; by rewrite (proj2 (Ce k e)) in Hn).
        destruct (decide (b = b')) as [|Hbb]; [done|]. exfalso. apply Hso. intros [_ Hall]. apply Hbb. by rewrite <- Hb, <- (Hall k e). }
      split; [right|lia]. rewrite Hr, Z.sub_diag, Z.add_0_r. by rewrite blob_with_refcount_id.
  - intros b' x x' Hx Hx'. rewrite Hbl in Hx'. destruct (decide (b = b')) as [->|Hne].
    + rewrite lookup_insert_eq in Hx'. injection Hx' as <-. rewrite Hx0 in Hx. by injection Hx as <-.
    + rewrite lookup_insert_ne in Hx' by done. congruence.
  - intros b' (x & Hx & Hs). destruct (decide (b = b')) as [->|Hne]; [done|]. exists x. split; [|done]. by rewrite Hbl, lookup_insert_ne.
  - intros k e [? _]%Ce. by left.
Qed.

(** A file that is kept keeps its content. *)
Lemma kept_stores st id r d d' c : kept id r d d' → stores st id r d c → stores st id r d' c.
Proof. intros (_ & He & Hw). by apply stores_same. Qed.

Lemma side_touched u d d' : tree_ok d → side d d' → touched u d d'.
Proof.
  intros Hd Hs. apply confined_touched; [done|]. pose proof (tree_ok_side _ _ Hs Hd) as Hd'. destruct Hs as [Sn Se Sw Sb Su _].
  split; [done|by apply conserves_frame|done|..]; intros; rewrite ?Sn, ?Se, ?Sw in *; auto.
Qed.

(** ** Computations *)

Definition touches (u : uuid) (w w' : World) : Prop := touched u (w_db w) (w_db w') ∧ w_tx w' = None.

Lemma touches_trans u w1 w2 w3 : touches u w1 w2 → touches u w2 w3 → touches u w1 w3.
Proof. intros [H1 _] [H2 T2]. split; [by eapply touched_trans|done]. Qed.

Lemma acts_touches u w w' : tree_ok (w_db w) → acts u w w' → touches u w w'.
Proof. intros Hd [Hc Ht]. split; [by apply confined_touched|done]. Qed.

(** What a blob service may do to the tables when asked for a blob. *)
Class LossyReads {B : BlobService} : Prop :=
  lossy_read id w r w' : w_tx w = None → tree_ok (w_db w) → blob_ReadBlob id w = (r, w') →
    w_tx w' = None ∧ (side (w_db w) (w_db w') ∨ ∃ b, cascaded b (w_db w) (w_db w')).

Lemma read_touches `{LossyReads} u id w r w' : w_tx w = None → tree_ok (w_db w) →
  blob_ReadBlob id w = (r, w') → touches u w w'.
Proof.
  intros Htx Hd Hr. destruct (lossy_read id w r w' Htx Hd Hr) as [Ht [Hs|[b Hc]]]; (split; [|done]).
  - by apply side_touched.
  - by eapply cascaded_touched.
Qed.

(** The blob reader of the program is such a service. *)
#[global] Instance reader_lossy {E : Env} {C : Aead} {A : BotAPI} (bots : BotRepository) : LossyReads (B := blob_reader bots).
Proof.
  intros id w r w' Htx Hd H. apply (ReadBlob_effect bots id w r w' Htx Hd) in H as [Ht [Hs|(_ & b & _ & _ & Hc)]]; [auto|].
  split; [done|right]. by exists id.
Qed.
