(* ===== verification/CopyFacts.v ===== *)
(** * COPY: the destination mirrors the source

    Extents are duplicated with fresh ids, chunks are re-read and appended, rows
    are created level by level.  [mirror] states what the destination subtree is;
    the fuel [Copy] supplies exceeds the height of any subtree. *)
From Stdlib Require Import ZArith Lia Strings.Byte Strings.String Strings.Ascii.
From stdpp Require Import base tactics list gmap sets sorting strings.
From S2P Require Import Prelude Model Sql SqlFacts World Repository Crypto Path FileSystem File Copy.
From S2P Require Import Tree FsFacts RenameFacts CreateFacts WalFacts WriteFacts ReadFacts Session.
From S2P Require Import Tenants.
#[local] Open Scope string_scope.
#[local] Open Scope Z_scope.

(** ** Extents *)

Lemma CreateExtents_Ok es d n d' : CreateExtents es d = SqlOk n d' →
  d' = set_extents (d_extents d') d
  ∧ (∀ k e, d_extents d' !! k = Some e ↔ d_extents d !! k = Some e ∨ (e ∈ es ∧ e_ID e = k))
  ∧ (∀ e, e ∈ es → is_Some (d_nodes d !! e_NodeID e) ∧ is_Some (d_blobs d !! e_BlobID e))
  ∧ (∀ P, rows P (d_extents d') ≡ₚ List.filter P es ++ rows P (d_extents d)).
Proof.
  revert d n. induction es as [|e es IH]; intros d n H; simpl in H.
  - simplify_eq. split_and!; [by destruct d'|set_solver|set_solver|done].
  - case_bool_decide as Hid; [done|]. destruct (negb (extent_fk d e)) eqn:Hfk; [done|].
    destruct (CreateExtents es _) as [|m d1] eqn:Hc; [done|]. simplify_eq.
    apply IH in Hc as (He & Hl & Hf & Hp). simpl in *.
    assert (d_extents d !! e_ID e = None) as Hn by by apply eq_None_not_Some.
    apply negb_false_iff, andb_true_iff in Hfk as [H1%bool_decide_eq_true H2%bool_decide_eq_true].
    split_and!.
    + by rewrite He at 1.
    + intros k x. rewrite Hl, lookup_insert_Some, elem_of_cons. naive_solver.
    + intros x [->|Hx]%elem_of_cons; [done|]. by apply Hf.
    + intros P. rewrite Hp, rows_insert by done. destruct (P e); [|done].
      by rewrite <- Permutation_middle.
Qed.

Definition ext_copies (gen : nat → uuid) (dst : uuid) (es : list Extent) : list Extent :=
  imap (λ i e, copied_extent dst (gen i) e) es.

Lemma ext_copies_elem gen dst es x : x ∈ ext_copies gen dst es →
  e_NodeID x = dst ∧ ∃ e, e ∈ es ∧ e_Seq x = e_Seq e ∧ e_FileOffset x = e_FileOffset e
    ∧ e_Length x = e_Length e ∧ e_BlobID x = e_BlobID e ∧ e_BlobOffset x = e_BlobOffset e.
Proof.
  intros (i & e & -> & Hi)%elem_of_lookup_imap. split; [done|]. exists e.
  split; [by eapply list_elem_of_lookup_2|done].
Qed.

Lemma ext_copies_image gen dst es e : e ∈ es → ∃ x, x ∈ ext_copies gen dst es
  ∧ e_FileOffset x = e_FileOffset e ∧ e_Length x = e_Length e.
Proof.
  intros [i Hi]%list_elem_of_lookup. exists (copied_extent dst (gen i) e). split; [|done].
  apply elem_of_lookup_imap. by exists i, e.
Qed.

Lemma ext_copies_count gen dst es id :
  blen (List.filter (λ e, N.eqb (e_BlobID e) id) (ext_copies gen dst es))
  = blen (List.filter (λ e, N.eqb (e_BlobID e) id) es).
Proof.
  unfold ext_copies, blen. f_equal. revert gen. induction es as [|e es IH]; intros gen; [done|].
  simpl. specialize (IH (λ i, gen (S i))). destruct (N.eqb (e_BlobID e) id); simpl; [f_equal|]; exact IH.
Qed.

(** The copies represent what the originals represent. *)
Lemma ext_copies_ok st content gen dst es es1 es2 : es1 ≡ₚ es → es2 ≡ₚ ext_copies gen dst es →
  extents_ok st content es1 → extents_ok st content es2.
Proof.
  intros H1 H2 [Hall Hcov]. split.
  - rewrite H2. rewrite H1 in Hall. rewrite Forall_forall in *. intros x Hx.
    apply ext_copies_elem in Hx as (_ & e & He & _ & Hfo & Hl & Hb & Hbo).
    specialize (Hall e He). unfold ext_ok in *. by rewrite Hfo, Hl, Hb, Hbo.
  - intros pos Hpos. destruct (Hcov pos Hpos) as (e & He & Hc). rewrite H1 in He.
    destruct (ext_copies_image gen dst es e He) as (x & Hx & Hfo & Hl). exists x.
    split; [by rewrite H2|]. unfold covers in *. by rewrite Hfo, Hl.
Qed.

Section stored.
Context {E : Env}.

Lemma conserves_refcounts (ds : gmap uuid Z) d bl m :
  rebased (λ id, default 0 (ds !! id)) (d_blobs d) bl →
  (∀ id, default 0 (ds !! id) = cnt (λ e, N.eqb (e_BlobID e) id && true) m - refs id d) →
  conserves d (set_blobs bl (set_extents m d)).
Proof.
  intros Hb Hd id. simpl. rewrite Hb. destruct (d_blobs d !! id) as [b|]; [|done]. simpl.
  do 2 f_equal. unfold refs at 1, refs_if. simpl. rewrite Hd. lia.
Qed.

(** The copy of a stored file: its extents duplicated, its blobs counted again. *)
Lemma copy_stored_Ok src dst w u w' : extents_of dst (w_db w) = [] →
  copy_stored src dst w = (Ok u, w') →
  ∃ gen m bl, w_db w' = set_blobs bl (set_extents m (w_db w))
    ∧ conserves (w_db w) (w_db w') ∧ w_tx w' = w_tx w
    ∧ (∀ k e, m !! k = Some e ↔ d_extents (w_db w) !! k = Some e
         ∨ (e ∈ ext_copies gen dst (extents_of src (w_db w)) ∧ e_ID e = k))
    ∧ extents_of dst (w_db w') ≡ₚ ext_copies gen dst (extents_of src (w_db w))
    ∧ (∀ k b, bl !! k = Some b → ∃ b0, d_blobs (w_db w) !! k = Some b0 ∧ b_ID b = b_ID b0)
    ∧ (∀ k e, m !! k = Some e → d_extents (w_db w) !! k = Some e ∨ is_Some (d_blobs (w_db w) !! e_BlobID e)).
Proof.
  intros Hex H. unfold copy_stored in H. apply bind_Ok in H as (es & w1 & Hl & H).
  apply bind_Ok in H as (u1 & w2 & Hcp & H).
  unfold extentRepository_ListByNode in Hl. unfold extentRepository_CopyForNode in Hcp.
  m_inv. unfold ListExtentsByNode, many in Hq. simplify_eq. simpl in *.
  unfold CopyExtentsForNode in Hq0. destruct (CreateExtents _ _) as [|n d1] eqn:Hce; [done|].
  simplify_eq. set (gen := env_uuid (S (w_step w))) in *. fold (ext_copies gen dst (extents_of src (w_db w))) in Hce.
  set (es := extents_of src (w_db w)) in *.
  apply CreateExtents_Ok in Hce as (He & Hl & Hf & Hp).
  assert (∃ bl, w_db w' = set_blobs bl d0
    ∧ rebased (λ id, default 0 (blob_deltas 1 (sort_by e_Seq es) !! id)) (d_blobs d0) bl
    ∧ w_tx w' = w_tx w) as (bl & Hw & Hbl & Htx).
  { destruct (sort_by e_Seq es) as [|e0 es0] eqn:Hes.
    - m_inv. exists (d_blobs d0). split; [by destruct d0|]. split; [apply rebased_id|done].
    - pose proof H as H'. apply AddRefcounts_Ok in H as (bl & Hw & Hbl). exists bl.
      split; [done|]. split; [done|]. unfold blobRepository_AddRefcounts in H'.
      destruct (decide _); by m_inv. }
  assert (extents_of dst d0 ≡ₚ ext_copies gen dst es) as Hex'.
  { unfold extents_of in *. rewrite Hp, Hex, app_nil_r.
    assert (∀ l, (∀ x, x ∈ l → e_NodeID x = dst) → List.filter (λ e, N.eqb (e_NodeID e) dst) l = l) as Hfil.
    { clear. induction l as [|x l IH]; intros Hx; [done|]. simpl.
      rewrite (Hx x) by set_solver. rewrite N.eqb_refl, IH; [done|]. set_solver. }
    rewrite Hfil; [done|]. intros x Hx. by apply ext_copies_elem in Hx as [? _]. }
  exists gen, (d_extents d0), bl. rewrite He in Hw. split_and!; try done.
  - rewrite Hw. apply (conserves_refcounts (blob_deltas 1 (sort_by e_Seq es))).
    + by rewrite He in Hbl.
    + intros id. rewrite blob_deltas_default.
      rewrite (cnt_perm _ _ (Lfilter_perm _ _ _ (sort_by_perm e_Seq es))), <- (ext_copies_count gen dst).
      unfold cnt. rewrite (cnt_perm _ _ (Hp _)).
      rewrite (List.filter_ext (λ e, N.eqb (e_BlobID e) id && true) (λ e, N.eqb (e_BlobID e) id))
        by (intros; by rewrite andb_true_r).
      unfold refs, refs_if, cnt.
      blen_lia.
  - rewrite Hw. unfold extents_of in *. by rewrite <- He in *.
  - intros k b Hk. rewrite Hbl in Hk. apply fmap_Some in Hk as (b0 & Hb0 & ->). rewrite He in Hb0.
    by exists b0.
  - intros k e [?|[Hin _]]%Hl; [by left|right]. by apply Hf.
Qed.

End stored.

(** ** Chunks *)

(** The copying loop at [off], with [seq] chunks written. *)
Record copying (dst : uuid) (C : bytes) (size off seq : Z) (d : Db) : Prop := {
  cg_off : 0 ≤ off ≤ blen C;
  cg_size : off ≤ Z.max 0 size;
  cg_seqs : seqs_ok (node_chunks dst d);
  cg_seq : seq = Z.of_nat (length (node_chunks dst d));
  cg_chunked : chunked chunk_nat (c_Data <$> node_chunks dst d);
  cg_full : off < size → off < blen C →
    Forall (λ b, length b = chunk_nat) (c_Data <$> node_chunks dst d);
  cg_bytes : wal_content dst d = take (Z.to_nat off) C }.

Section buffered.
Context {E : Env}.

Lemma copy_block_chunk : copy_block = WALChunkSize.
Proof. done. Qed.

(** One more chunk. *)
Lemma copying_step dst C size off seq d d' c n :
  copying dst C size off seq d → off < size → 0 < n → n = Z.min WALChunkSize (size - off) →
  node_chunks dst d' = (node_chunks dst d ++ [c])%list → seqs_ok (node_chunks dst d') →
  c_Data c = take (Z.to_nat n) (drop (Z.to_nat off) C) → 0 < blen (c_Data c) →
  copying dst C size (off + blen (c_Data c)) (seq + 1) d'.
Proof.
  intros [Ho Hs Hso Hq Hc Hf Hb] Hlt Hn Hmin Hch Hso' Hdata Hpos.
  assert (blen (c_Data c) = Z.min n (blen C - off)) as Hlen.
  { rewrite Hdata. unfold blen. rewrite length_take, length_drop. blen_lia. }
  pose proof chunk_nat_Z as HK.
  assert (Forall (λ b, length b = chunk_nat) (c_Data <$> node_chunks dst d)) as Hfull
    by (apply Hf; lia).
  assert ((length (c_Data c) ≤ chunk_nat)%nat) as Hle by (blen_lia).
  split; [lia|lia|done| | | |].
  - rewrite Hch, length_app, Hq. simpl. lia.
  - rewrite Hch, fmap_app. by apply chunked_full_snoc.
  - intros H1 H2. rewrite Hch, fmap_app. apply Forall_app. split; [done|]. simpl. constructor; [|done].
    blen_lia.
  - rewrite (wal_content_snoc _ _ _ _ Hch), Hb, Hdata.
    assert (blen (c_Data c) = Z.of_nat (length (c_Data c))) as Hbl by done. rewrite Hdata in Hbl.
    rewrite <- Hdata. rewrite Z2Nat.inj_add by lia.
    rewrite <- take_take_drop. f_equal. rewrite Hdata at 1. rewrite Hlen.
    rewrite Z2Nat.inj_min. rewrite <- take_take. f_equal. symmetry. apply take_ge.
    rewrite length_drop. blen_lia.
Qed.

Lemma copy_wal_Ok fuel src dst size off seq C w u w' :
  src ≠ dst → wal_ok src (w_db w) → wal_content src (w_db w) = C → size ≤ max_file →
  copying dst C size off seq (w_db w) → size - off ≤ Z.of_nat fuel →
  copy_wal fuel src dst size off seq w = (Ok u, w') →
  wal_ok dst (w_db w') ∧ wal_content dst (w_db w') = take (Z.to_nat size) C
  ∧ wal_frame dst (w_db w) (w_db w') ∧ w_tx w' = w_tx w.
Proof.
  intros Hne. revert off seq w. induction fuel as [|k IH]; intros off seq w Hwal HC Hmax Hcg Hf H; simpl in H.
  - m_inv. destruct Hcg as [Ho Hs Hso Hq Hc Hfu Hb]. split_and!; try done. rewrite Hb. f_equal.
    simpl in Hf. lia.
  - destruct (Z.ltb_spec off size) as [Hlt|Hge].
    2: { m_inv. destruct Hcg as [Ho Hs Hso Hq Hc Hfu Hb]. split_and!; try done. rewrite Hb. f_equal. lia. }
    set (n := if _ <? _ then _ else _) in H.
    assert (n = Z.min WALChunkSize (size - off)) as Hn.
    { unfold n. rewrite copy_block_chunk, wrap64_id by (destruct Hcg; unfold max_file, WALChunkSize in *; int_lia). destruct (Z.ltb_spec size (off + WALChunkSize)); lia. }
    clearbody n. assert (0 < n) as Hn0 by (unfold WALChunkSize in Hn; lia).
    apply bind_Ok in H as (data & w1 & Hr & H). pose proof (ReadRange_idle _ _ _ _ _ _ Hr) as [Htx [Hdb _]].
    apply ReadRange_Ok in Hr as [Hdata _]; [|done|apply Hcg|unfold max_file in *; lia]. rewrite HC in Hdata.
    destruct (Z.eqb_spec (blen data) 0) as [H0|H0].
    + unfold ret in H. injection H as _ <-. rewrite Hdb. destruct Hcg as [Ho Hs Hso Hq Hc Hfu Hb].
      split_and!; [done| |done|done]. rewrite Hb.
      assert (blen data = 0) as Hd0 by done. rewrite Hdata in Hd0. unfold blen in Hd0, Ho.
      rewrite length_take, length_drop in Hd0. rewrite !take_ge; [done|lia|lia].
    + apply bind_Ok in H as (id & w2 & Hid & H). unfold uuid_New in Hid. injection Hid as <- <-.
      apply bind_Ok in H as ([] & w2 & Ha & H).
      apply AppendChunk_Ok in Ha as (c & Hcn & Hcs & Hcd & Hw2 & Hfree & Htx2). simpl in *.
      rewrite Hdb in *. pose proof Hcg as [Ho Hs Hso Hq Hc Hfu Hb].
      destruct (appended_chunks c (w_db w)) as [Hch Hso']; [done|by rewrite Hcn|by rewrite Hcn, Hcs|].
      rewrite Hcn in Hch. rewrite Hcn in Hso'.
      assert (wal_frame dst (w_db w) (w_db w2)) as Hfr by (rewrite Hw2, <- Hcn; by apply appended_frame).
      pose proof (wal_frame_other _ _ _ _ Hfr Hne Hwal) as Hsame.
      rewrite <- Hcd in H.
      assert (blen (c_Data c) ≤ n) as Hcl by (rewrite Hcd, Hdata; blen_lia).
      rewrite wrap64_id in H by (unfold max_file in *; int_lia).
      apply IH in H as (Hok & Hcont & Hfr2 & Htx3).
      * split_and!; try done; [by etrans|congruence].
      * unfold wal_ok. by rewrite Hsame.
      * unfold wal_content. by rewrite Hsame.
      * done.
      * rewrite Hw2. apply (copying_step _ _ _ _ _ (w_db w) _ c n); try done.
        -- by rewrite Hch.
        -- by rewrite Hcd.
        -- rewrite Hcd. blen_lia.
      * rewrite Hcd. blen_lia.
Qed.

End buffered.

(** ** Growth *)

(** [d'] has the rows of [d], with their bytes, and new rows of [u] at places
    that satisfy [P]. *)
Record grown (u : uuid) (P : list string → Prop) (d d' : Db) : Prop := {
  gr_tree : tree_ok d';
  gr_conserves : conserves d d';
  gr_users : d_users d' = d_users d;
  gr_old : ∀ j r, d_nodes d !! j = Some r → d_nodes d' !! j = Some r;
  gr_new : ∀ j r, d_nodes d' !! j = Some r →
    d_nodes d !! j = Some r ∨ (d_nodes d !! j = None ∧ ruser r = u ∧ P (rsegs r));
  gr_ext : ∀ k e, is_Some (d_nodes d !! e_NodeID e) →
    d_extents d' !! k = Some e ↔ d_extents d !! k = Some e;
  gr_wal : ∀ k c, is_Some (d_nodes d !! c_NodeID c) →
    d_wal_chunks d' !! k = Some c ↔ d_wal_chunks d !! k = Some c;
  gr_refers : ∀ k e, d_extents d' !! k = Some e →
    d_extents d !! k = Some e ∨ is_Some (d_blobs d !! e_BlobID e) }.

Lemma grown_refl u P d : tree_ok d → grown u P d d.
Proof. intros Hd. split; try done; intros; by left. Qed.

Lemma grown_weaken u (P Q : list string → Prop) d d' :
  (∀ q, P q → Q q) → grown u P d d' → grown u Q d d'.
Proof.
  intros HPQ [H1 H2 H3 H4 H5 H6 H7 H8]. split; try done.
  intros j r Hj. destruct (H5 j r Hj) as [?|(? & ? & ?)]; [by left|right; auto].
Qed.

Lemma grown_trans u P d1 d2 d3 : grown u P d1 d2 → grown u P d2 d3 → grown u P d1 d3.
Proof.
  intros H1 H2.
  assert (∀ j, is_Some (d_nodes d1 !! j) → is_Some (d_nodes d2 !! j)) as Hs
    by (intros j [r Hr]; exists r; by apply (gr_old _ _ _ _ H1)).
  split.
  - apply (gr_tree _ _ _ _ H2).
  - etrans; [apply (gr_conserves _ _ _ _ H1)|apply (gr_conserves _ _ _ _ H2)].
  - rewrite (gr_users _ _ _ _ H2). apply (gr_users _ _ _ _ H1).
  - intros j r Hj. by apply (gr_old _ _ _ _ H2), (gr_old _ _ _ _ H1).
  - intros j r Hj. destruct (gr_new _ _ _ _ H2 j r Hj) as [Hj2|(Hn & ? & ?)].
    + by apply (gr_new _ _ _ _ H1).
    + right. split; [|done]. destruct (d_nodes d1 !! j) as [x|] eqn:Hx; [|done].
      apply (gr_old _ _ _ _ H1) in Hx. congruence.
  - intros k e He. rewrite (gr_ext _ _ _ _ H2) by auto. by apply (gr_ext _ _ _ _ H1).
  - intros k c Hc. rewrite (gr_wal _ _ _ _ H2) by auto. by apply (gr_wal _ _ _ _ H1).
  - intros k e [He|Hb]%(gr_refers _ _ _ _ H2); [by apply (gr_refers _ _ _ _ H1)|right].
    by apply (conserves_blob _ _ _ (gr_conserves _ _ _ _ H1)).
Qed.

Lemma confined_grown u P d d' : grown u P d d' → confined u d d'.
Proof.
  intros H. split.
  - apply (gr_tree _ _ _ _ H).
  - apply (gr_conserves _ _ _ _ H).
  - apply (gr_users _ _ _ _ H).
  - intros id r Hr. split; [|apply (gr_old _ _ _ _ H)]. intros Hid.
    destruct (gr_new _ _ _ _ H id r Hid) as [?|(_ & ? & _)]; congruence.
  - intros k e (r & Hr & _). apply (gr_ext _ _ _ _ H). by eexists.
  - intros k c (r & Hr & _). apply (gr_wal _ _ _ _ H). by eexists.
  - apply (gr_refers _ _ _ _ H).
Qed.

(** Nodes that were there keep their bytes. *)
Lemma stores_grown st u P d d' id r C : grown u P d d' → is_Some (d_nodes d !! id) →
  stores st id r d C → stores st id r d' C.
Proof.
  intros Hg Hid. apply stores_same; [done|].
  split; intros k x <-; [by apply (gr_ext _ _ _ _ Hg)|by apply (gr_wal _ _ _ _ Hg)].
Qed.

(** ** The destination mirrors the source *)

Record copy_row (s t : NodeRow) : Prop := {
  cr_dir : rdir t = rdir s;
  cr_size : n_Size (nr_node t) = n_Size (nr_node s);
  cr_hash : n_ContentHash (nr_node t) = n_ContentHash (nr_node s);
  cr_etag : n_ETag (nr_node t) = n_ETag (nr_node s);
  cr_type : n_ContentType (nr_node t) = n_ContentType (nr_node s) }.

Definition at_segs (u : uuid) (d : Db) (q : list string) (r : NodeRow) : Prop :=
  d_nodes d !! n_ID (nr_node r) = Some r ∧ ruser r = u ∧ rsegs r = q.

(** Row [t] of [d'] is a copy of row [s] of [d], with its bytes when it is a file. *)
Definition copies (d : Db) (s : NodeRow) (d' : Db) (t : NodeRow) : Prop :=
  copy_row s t ∧ (rdir s = false → ∀ st C, stores st (n_ID (nr_node s)) s d C →
                                   stores st (n_ID (nr_node t)) t d' C).

Definition mirror (u : uuid) (a b : list string) (d d' : Db) : Prop :=
  ∀ c, (∀ s, at_segs u d (a ++ c) s → ∃ t, at_segs u d' (b ++ c) t ∧ copies d s d' t)
       ∧ (∀ t, at_segs u d' (b ++ c) t → ∃ s, at_segs u d (a ++ c) s).

Lemma at_segs_uniq u d q r s : tree_ok d → at_segs u d q r → at_segs u d q s → r = s.
Proof.
  intros Hd (Hr & Hu & Hq) (Hs & Hu' & Hq').
  assert (n_ID (nr_node r) = n_ID (nr_node s)) by (eapply (tk_uniq d Hd); [done..|congruence|congruence]).
  congruence.
Qed.

Lemma at_segs_grown u v P d d' q r : grown v P d d' → at_segs u d q r → at_segs u d' q r.
Proof. intros Hg (Hr & ? & ?). split_and!; try done. by apply (gr_old _ _ _ _ Hg). Qed.

Lemma copies_grown u P d s d' d'' t : grown u P d' d'' → is_Some (d_nodes d' !! n_ID (nr_node t)) →
  copies d s d' t → copies d s d'' t.
Proof.
  intros Hg Ht [Hr Hc]. split; [done|]. intros Hd st C Hs. by eapply stores_grown, Hc.
Qed.

(** [uuid.New] never returns the zero id. *)
Definition uuids_ok {E : Env} : Prop := ∀ n k, env_uuid n k ≠ uuid_Nil.

(** Where [copyNode] puts its row. *)
Definition dst_ok (u : uuid) (d : Db) (b bl : list string) (bx : string) (rp : NodeRow) : Prop :=
  b = (bl ++ [bx])%list ∧ segs_ok b ∧ at_segs u d bl rp ∧ rdir rp = true.

Section copying.
Context {E : Env}.

Lemma copy_wal_frame fuel src dst size off seq w r w' :
  copy_wal fuel src dst size off seq w = (r, w') → wal_frame dst (w_db w) (w_db w').
Proof.
  revert off seq w. induction fuel as [|k IH]; intros off seq w H; simpl in H.
  { unfold ret in H. by simplify_eq. }
  destruct (off <? size); [|unfold ret in H; by simplify_eq].
  apply bind_cases in H as [(data & w1 & Hr & H)|(e & Hr & _)].
  2: { apply ReadRange_Err in Hr as (-> & _). done. }
  apply ReadRange_idle in Hr as [_ [Hdb _]]. rewrite <- Hdb.
  destruct (blen data =? 0); [unfold ret in H; by simplify_eq|].
  unfold uuid_New, bind at 1 in H.
  apply bind_cases in H as [([] & w2 & Ha & H)|(e & Ha & _)]; apply AppendChunk_frame in Ha as [Hf _].
  - etrans; [exact Hf|]. by eapply IH.
  - exact Hf.
Qed.

Lemma copy_wal_tx fuel src dst size off seq w u w' :
  copy_wal fuel src dst size off seq w = (Ok u, w') → w_tx w' = w_tx w.
Proof.
  revert off seq w. induction fuel as [|k IH]; intros off seq w H; simpl in H; [by m_inv|].
  destruct (off <? size); [|by m_inv].
  apply bind_Ok in H as (data & w1 & Hr & H). apply ReadRange_idle in Hr as [Ht _].
  destruct (blen data =? 0); [by m_inv|]. unfold uuid_New, bind at 1 in H.
  apply bind_Ok in H as ([] & w2 & Ha & H). apply AppendChunk_Ok in Ha as (_ & _ & _ & _ & _ & _ & Ht2).
  apply IH in H. simpl in *. congruence.
Qed.

(** The row [copyNode] creates. *)
Lemma copy_create_Ok u d b bl bx rp s id st now w n w' :
  w_db w = d → tree_ok d → dst_ok u d b bl bx rp → id ≠ uuid_Nil →
  (n_IsDir s = true → st = NodeStateStored) →
  with_fs_err (NodeRepository_Create
    (copied_node s id u (Some (n_ID (nr_node rp))) (render b) st now)) w = (Ok n, w') →
  n_ID n = id ∧ n_State n = st ∧ w_db w' = added n d ∧ w_tx w' = w_tx w ∧ d_nodes d !! id = None
  ∧ grown u (λ q, q = b) d (added n d) ∧ at_segs u (added n d) b (mkNodeRow n "" None)
  ∧ ∀ r, nr_node r = s → copy_row r (mkNodeRow n "" None).
Proof.
  intros <- Hd (-> & Hb & (Hrp & Hpu & <-) & Hdir) Hid Hst H. apply with_fs_err_Ok in H.
  pose proof H as Hc. apply Create_Ok in Hc as (_ & _ & _ & _ & Htx & _); [|done].
  apply (create_below_Ok u (rsegs rp) bx w _ n rp) in H
    as (Hfill & Hw & Hok & Hcons & Hnew & Hnone & Hv); try done; [| |by simpl; apply Base_render].
  2: { simpl. intros ->. destruct (n_IsDir s); [by specialize (Hst eq_refl)|done]. }
  destruct Hfill as (Hfu & Hfp & Hfn & Hfpath & Hfd & Hfs & Hfh & Hfe & Hft & Hfst & Hfid). simpl in *.
  specialize (Hfid Hid).
  assert (at_segs u (added n (w_db w)) (rsegs rp ++ [bx]) (mkNodeRow n "" None)) as Hat.
  { split; [|split; [done|]]; [by apply lookup_insert_eq|].
    unfold rsegs at 1. simpl. rewrite Hfpath. by apply path_segs_render. }
  split_and!; try done; [congruence| |].
  - split; try done.
    + by rewrite <- Hw.
    + by rewrite <- Hw.
    + intros j r Hj. apply added_lookup. right. split; [|done]. congruence.
    + intros j r [[-> ->]|[_ Hj]]%added_lookup; [right|by left]. split; [done|]. split; [done|].
      apply Hat.
    + by left.
  - intros r <-. by split.
Qed.

(** Adding bytes to a node that was not there is growth. *)
Lemma copy_stored_grown u P d0 src dst t w x w' :
  tree_ok (w_db w) → grown u P d0 (w_db w) → d_nodes d0 !! dst = None →
  d_nodes (w_db w) !! dst = Some t → rdir t = false → extents_of dst (w_db w) = [] →
  copy_stored src dst w = (Ok x, w') →
  grown u P d0 (w_db w') ∧ w_tx w' = w_tx w ∧ d_nodes (w_db w') = d_nodes (w_db w)
  ∧ ∃ gen, extents_of dst (w_db w') ≡ₚ ext_copies gen dst (extents_of src (w_db w)).
Proof.
  intros Hd Hg Hn Ht Hdir Hex H.
  apply copy_stored_Ok in H as (gen & m & bl & Hw & Hc & Htx & Hm & Hp & Hb & Hfk); [|done..].
  split_and!; [|done|by rewrite Hw|by exists gen]. destruct Hg as [G1 G2 G3 G4 G5 G6 G7 G8].
  split; try (by rewrite Hw).
  - destruct Hd as [T1 T2 T3 T4 T5 T6 T7 T8]. rewrite Hw. split; simpl; try done.
    + intros k e [He|[He _]]%Hm; [by eapply T6|]. apply ext_copies_elem in He as [-> _]. by exists t.
    + intros k b Hk. destruct (Hb k b Hk) as (b0 & Hb0 & ->). by eapply T8.
  - by etrans.
  - intros k e He. rewrite Hw. simpl. rewrite Hm, <- G6 by done. split; [|by left].
    intros [?|[Hx _]]; [done|]. apply ext_copies_elem in Hx as [Hxn _]. rewrite Hxn, Hn in He. by destruct He.
  - intros k e. rewrite Hw. simpl. intros [He|He]%Hfk; [by apply G8|right]. by apply (conserves_blob _ _ _ G2).
Qed.

Lemma wal_grown u P d0 d d' dst : tree_ok d → grown u P d0 d → d_nodes d0 !! dst = None →
  is_Some (d_nodes d !! dst) → wal_frame dst d d' → grown u P d0 d'.
Proof.
  intros Hd [G1 G2 G3 G4 G5 G6 G7 G8] Hn Hs Hf. pose proof (wal_frame_tree _ _ _ Hd Hs Hf) as Ht.
  split; rewrite ?(wal_frame_nodes _ _ _ Hf), ?(wal_frame_extents _ _ _ Hf); try done.
  - etrans; [exact G2|]. by eapply wal_frame_conserves.
  - by rewrite (wfr_rest _ _ _ Hf).
  - intros k c Hc. rewrite (wfr_wal _ _ _ Hf); [by apply G7|].
    intros Hcd. rewrite Hcd, Hn in Hc. by destruct Hc.
Qed.

(** The copy of a file. *)
Lemma copy_file_Ok k u a r b bl bx rp rec w x w' : uuids_ok → tree_ok (w_db w) →
  at_segs u (w_db w) a r → rdir r = false → dst_ok u (w_db w) b bl bx rp →
  copyNode (S k) u (nr_node r) (render b) (Some (n_ID (nr_node rp))) rec w = (Ok x, w') →
  grown u (λ q, q = b) (w_db w) (w_db w') ∧ w_tx w' = w_tx w
  ∧ ∃ t, at_segs u (w_db w') b t ∧ copies (w_db w) r (w_db w') t.
Proof.
  intros Huu Hd (Hr & Hu & Hra) Hdir Hdst H. simpl in H.
  unfold Now, uuid_New, bind at 1 2 in H. unfold rdir in Hdir. rewrite Hdir in H.
  set (w1 := tick (tick w)) in *. set (id := env_uuid _ 0) in H. set (now := env_now _) in H.
  assert (id ≠ uuid_Nil) as Hid by apply Huu. clearbody id now.
  change (w_db w) with (w_db w1) in *. change (w_tx w) with (w_tx w1). clearbody w1. clear w.
  destruct (bool_decide (n_State (nr_node r) = NodeStateStored)) eqn:Hst; simpl in H;
    apply bind_Ok in H as (n & w2 & Hcr & H);
    apply (copy_create_Ok u (w_db w1) b bl bx rp) in Hcr as (Hni & Hns & Hw2 & Htx2 & Hnew & Hg & Hat & Hrow);
      try done; try (by rewrite Hdir);
    pose proof (gr_tree _ _ _ _ Hg) as Hd2; rewrite <- Hw2 in Hg, Hat, Hd2; specialize (Hrow r eq_refl);
    assert (n_ID (nr_node r) ≠ id) as Hne by (intros He; rewrite He in Hr; congruence);
    pose proof Hat as (Hn2 & _ & _); simpl in Hn2; rewrite Hni in Hn2;
    pose proof (gr_old _ _ _ _ Hg _ _ Hr) as Hr2.
  - assert (extents_of id (w_db w2) = []) as Hex.
    { rewrite Hw2. by apply (no_extents _ (w_db w1)). }
    assert (rdir (mkNodeRow n "" None) = false) as Hdn by (rewrite (cr_dir _ _ Hrow); exact Hdir).
    eapply copy_stored_grown in H as (Hg' & Htx' & Hnodes & gen & Hp); [|done..].
    split; [done|]. split; [congruence|]. exists (mkNodeRow n "" None). unfold at_segs in *.
    rewrite Hnodes. split; [done|]. split; [done|]. intros _ st C (Hsz & Hm & Hcs).
    rewrite (bool_decide_eq_true_1 _ Hst) in Hcs. simpl. split_and!; [|done|].
    + rewrite <- Hsz. apply (cr_size _ _ Hrow).
    + simpl. rewrite Hns, Hni. eapply (ext_copies_ok st C gen id (extents_of (n_ID (nr_node r)) (w_db w2))); [| |exact Hcs].
      * rewrite sort_by_perm. rewrite Hw2. done.
      * by rewrite sort_by_perm.
  - assert (node_chunks id (w_db w2) = []) as Hnc.
    { rewrite Hw2. by apply (no_chunks _ (w_db w1)). }
    pose proof (copy_wal_frame _ _ _ _ _ _ _ _ _ H) as Hf. pose proof (copy_wal_tx _ _ _ _ _ _ _ _ _ H) as Htx'.
    split; [by eapply wal_grown|]. split; [congruence|]. exists (mkNodeRow n "" None).
    unfold at_segs in *. rewrite (wal_frame_nodes _ _ _ Hf). split; [done|]. split; [done|].
    intros _ st C Hs. pose proof (stores_grown _ _ _ _ _ _ _ _ Hg (mk_is_Some _ _ Hr) Hs) as (Hsz & Hm & Hcs).
    assert (wal_ok (n_ID (nr_node r)) (w_db w2) ∧ wal_content (n_ID (nr_node r)) (w_db w2) = C) as [Hwok Hwc].
    { apply bool_decide_eq_false in Hst. by destruct (n_State (nr_node r)). }
    eapply (copy_wal_Ok _ _ _ _ _ _ C) in H as (Hok & Hct & _ & _); try done.
    + split_and!; [|done|].
      * rewrite <- Hsz. apply (cr_size _ _ Hrow).
      * simpl. rewrite Hns, Hni. split; [done|]. rewrite Hct, Hsz. unfold blen. by rewrite Nat2Z.id, firstn_all.
    + lia.
    + split; rewrite ?Hnc; try done; unfold blen; try lia. unfold wal_content. by rewrite Hnc.
    + lia.
Qed.

End copying.

(** ** Mirrors and growth *)

Lemma mirror_after u Q a b d d' d'' : grown u Q d' d'' → (∀ q, Q q → ¬ below b q) →
  mirror u a b d d' → mirror u a b d d''.
Proof.
  intros Hg HQ Hm c. destruct (Hm c) as [H1 H2]. split.
  - intros s Hs. destruct (H1 s Hs) as (t & Ht & Hc). exists t. split; [by eapply at_segs_grown|].
    eapply copies_grown; [done| |done]. exists t. apply Ht.
  - intros t (Ht & Hu & Hq). apply (H2 t). split; [|done].
    destruct (gr_new _ _ _ _ Hg _ _ Ht) as [?|(_ & _ & HQt)]; [done|]. destruct (HQ _ HQt).
    rewrite Hq. by exists c.
Qed.

Lemma mirror_before u Q a b d0 d d' : grown u Q d0 d → (∀ q, Q q → ¬ below a q) →
  mirror u a b d d' → mirror u a b d0 d'.
Proof.
  intros Hg HQ Hm c. destruct (Hm c) as [H1 H2]. split.
  - intros s Hs. destruct (H1 s) as (t & Ht & Hr & Hc); [by eapply at_segs_grown|].
    exists t. split; [done|]. split; [done|]. intros Hd st C Hst. apply Hc; [done|].
    eapply stores_grown; [done| |done]. exists s. apply Hs.
  - intros t Ht. destruct (H2 t Ht) as (s & Hs & Hu & Hq). exists s. split; [|done].
    destruct (gr_new _ _ _ _ Hg _ _ Hs) as [?|(_ & _ & HQs)]; [done|]. destruct (HQ _ HQs).
    rewrite Hq. by exists c.
Qed.

Lemma below_app_snoc a b x : ¬ below a b → ¬ below b a → ¬ below (a ++ [x])%list (b ++ [x])%list.
Proof.
  intros Hab Hba H. assert (below a (b ++ [x])%list) as Ha by (eapply below_trans; [by exists [x]|done]).
  apply below_snoc in Ha as [->|?]; [|done]. apply Hba. by exists [x].
Qed.

Lemma below_siblings b x y q : below (b ++ [x])%list q → below (b ++ [y])%list q → x = y.
Proof.
  intros [c ->] [c' H]. rewrite <- !app_assoc in H. apply app_inv_head in H. by simplify_eq/=.
Qed.

Lemma not_below_of a b c : ¬ below a b → ¬ below b a → ¬ below b (a ++ c)%list.
Proof.
  intros Hab Hba H. assert (below a (a ++ c)%list) as Ha by by exists c.
  by destruct (below_comparable _ _ _ Ha H).
Qed.

(** ** Children *)

Section children.
Context {E : Env}.

Lemma ListChildren_Ok u p w l w' : NodeRepository_ListChildren u p w = (Ok l, w') →
  w_db w' = w_db w ∧ w_tx w' = w_tx w
  ∧ l = nr_node <$> sort_by_str (λ r, n_Name (nr_node r)) (rows (child_of u p) (d_nodes (w_db w))).
Proof.
  unfold NodeRepository_ListChildren. intros H. m_inv. unfold ListChildren, many in Hq.
  by simplify_eq.
Qed.

(** The listed children of a directory are the rows one segment below it. *)
Lemma children_elem d u a r k : tree_ok d → at_segs u d a r →
  k ∈ nr_node <$> sort_by_str (λ r, n_Name (nr_node r)) (rows (child_of u (n_ID (nr_node r))) (d_nodes d))
  ↔ ∃ s, nr_node s = k ∧ at_segs u d (a ++ [n_Name k])%list s.
Proof.
  intros Hd (Hr & Hu & Ha). rewrite list_elem_of_fmap. setoid_rewrite sort_by_str_perm.
  setoid_rewrite elem_of_rows. split.
  - intros (s & -> & i & Hs & Hc). exists s. split; [done|]. unfold child_of in Hc.
    apply andb_true_iff in Hc as [Hus%N.eqb_eq Hp%bool_decide_eq_true].
    pose proof (tk_id _ Hd _ _ Hs) as Hid. rewrite <- Hid in Hs.
    destruct (rsegs s) as [|x l _] eqn:Hl using rev_ind.
    { destruct (tk_root _ Hd _ _ Hs Hl) as [Hn _]. unfold rparent in Hn. congruence. }
    destruct (tk_parent _ Hd _ _ _ _ Hs Hl) as (Hname & p & rp & Hpp & Hrp & Hlp & _).
    unfold rparent in Hpp. rewrite Hp in Hpp. simplify_eq. by split_and!.
  - intros (s & <- & Hs & Hus & Hsl). exists s. split; [done|]. eexists. split; [done|].
    destruct (tk_parent _ Hd _ _ _ _ Hs Hsl) as (_ & p & rp & Hpp & Hrp & Hlp & Hup & _).
    unfold child_of. apply andb_true_iff. split; [by apply N.eqb_eq|]. apply bool_decide_eq_true.
    unfold rparent in Hpp. rewrite Hpp. f_equal.
    eapply (tk_uniq _ Hd); [done..|congruence|congruence].
Qed.

Lemma children_names d u a r : tree_ok d → at_segs u d a r →
  NoDup (n_Name <$> (nr_node <$> sort_by_str (λ r, n_Name (nr_node r))
                       (rows (child_of u (n_ID (nr_node r))) (d_nodes d)))).
Proof.
  intros Hd Hr. set (l := nr_node <$> _).
  assert (∀ k, k ∈ l → ∃ s, nr_node s = k ∧ at_segs u d (a ++ [n_Name k])%list s) as Hl
    by (intros k; apply (children_elem d u a r k Hd Hr)).
  assert (NoDup (n_ID <$> l)) as Hnd.
  { unfold l. rewrite <- list_fmap_compose. rewrite sort_by_str_perm. by apply NoDup_fmap_filter, nodes_NoDup. }
  clearbody l. induction l as [|k l IH]; [constructor|]. simpl in *.
  apply NoDup_cons in Hnd as [Hk Hnd]. apply NoDup_cons. split.
  - intros (k' & Hn & Hin)%list_elem_of_fmap. apply Hk. apply list_elem_of_fmap. exists k'.
    split; [|done]. destruct (Hl k) as (s & <- & Hs); [by left|].
    destruct (Hl k') as (s' & <- & Hs'); [by right|]. rewrite <- Hn in Hs'.
    by rewrite (at_segs_uniq u d _ _ _ Hd Hs Hs').
  - apply IH; [|done]. intros k' Hk'. apply Hl. by right.
Qed.

End children.

(** ** The recursion *)

Definition vacant (u : uuid) (d : Db) (b : list string) : Prop :=
  ∀ c t, ¬ at_segs u d (b ++ c) t.

Definition height_below (u : uuid) (d : Db) (a : list string) (k : nat) : Prop :=
  ∀ c s, at_segs u d (a ++ c) s → (length c < k)%nat.

(** What [copyNode] leaves at [b]. *)
Definition copied_to (u : uuid) (rec : bool) (a b : list string) (r : NodeRow) (d d' : Db) : Prop :=
  if rec then mirror u a b d d'
  else (∃ t, at_segs u d' b t ∧ copies d r d' t) ∧ ∀ c t, at_segs u d' (b ++ c) t → c = [].

(** A single row created where nothing was. *)
Lemma grown_single u d d' b c t : grown u (λ q, q = b) d d' → vacant u d b → at_segs u d' (b ++ c) t → c = [].
Proof.
  intros Hg Hv (Ht & Hu & Hq). destruct (gr_new _ _ _ _ Hg _ _ Ht) as [Ho|(_ & _ & Hb)].
  - by destruct (Hv c t).
  - rewrite Hb in Hq. rewrite <- (app_nil_r b) in Hq at 1. by apply app_inv_head in Hq.
Qed.

Lemma vacant_grown u P d d' b : vacant u d b → grown u P d d' → (∀ q, P q → ¬ below b q) → vacant u d' b.
Proof.
  intros Hv Hg HP c t (Ht & Hu & Hq). destruct (gr_new _ _ _ _ Hg _ _ Ht) as [Ho|(_ & _ & HPt)].
  - by apply (Hv c t).
  - apply (HP _ HPt). rewrite Hq. by exists c.
Qed.

Lemma height_grown u P d d' a k : height_below u d a k → grown u P d d' → (∀ q, P q → ¬ below a q) →
  height_below u d' a k.
Proof.
  intros Hh Hg HP c t (Ht & Hu & Hq). destruct (gr_new _ _ _ _ Hg _ _ Ht) as [Ho|(_ & _ & HPt)].
  - by apply (Hh c t).
  - destruct (HP _ HPt). rewrite Hq. by exists c.
Qed.

Lemma vacant_below u d b c : vacant u d b → vacant u d (b ++ c).
Proof. intros Hv c' t. rewrite <- app_assoc. apply Hv. Qed.

Lemma below_head b x q : below (b ++ [x])%list q → below b q.
Proof. apply below_trans. by exists [x]. Qed.

Lemma file_no_children u d a r c s : tree_ok d → at_segs u d a r → rdir r = false →
  at_segs u d (a ++ c) s → c = [] ∧ s = r.
Proof.
  intros Hd (Hr & Hu & <-) Hf (Hs & Hus & Hq).
  destruct (file_subtree _ _ _ _ _ Hd Hr Hf Hs) as [_ ->].
  { split; [congruence|]. rewrite Hq. by exists c. }
  split; [|done]. rewrite <- (app_nil_r (rsegs r)) in Hq at 1. by apply app_inv_head in Hq.
Qed.

(** A file has no rows below it: its copy is a mirror. *)
Lemma mirror_file u a b r d d' t : tree_ok d → at_segs u d a r → rdir r = false → vacant u d b →
  grown u (λ q, q = b) d d' → at_segs u d' b t → copies d r d' t → mirror u a b d d'.
Proof.
  intros Hd Hr Hf Hv Hg Ht Hc c. split.
  - intros s Hs. destruct (file_no_children _ _ _ _ _ _ Hd Hr Hf Hs) as [-> ->].
    exists t. by rewrite app_nil_r.
  - intros t' (Ht' & Hu' & Hq). destruct (gr_new _ _ _ _ Hg _ _ Ht') as [Ho|(_ & _ & Hb)].
    + by destruct (Hv c t').
    + rewrite Hq in Hb. rewrite <- (app_nil_r b) in Hb at 2. apply app_inv_head in Hb as ->.
      exists r. by rewrite app_nil_r.
Qed.

Section recursion.
Context {E : Env} (Huu : uuids_ok).

(** What the induction hypothesis of [copyNode] says for fuel [k]. *)
Definition copies_with (u : uuid) (k : nat) : Prop := ∀ a r b bl bx rp rec w x w',
  tree_ok (w_db w) → at_segs u (w_db w) a r → dst_ok u (w_db w) b bl bx rp →
  vacant u (w_db w) b → height_below u (w_db w) a k → ¬ below a b → ¬ below b a →
  copyNode k u (nr_node r) (render b) (Some (n_ID (nr_node rp))) rec w = (Ok x, w') →
  grown u (below b) (w_db w) (w_db w') ∧ w_tx w' = w_tx w
  ∧ copied_to u rec a b r (w_db w) (w_db w').

Lemma copy_children_Ok u k a b t ks w x w' : copies_with u k → tree_ok (w_db w) →
  at_segs u (w_db w) b t → rdir t = true → b ≠ [] → ¬ below a b → ¬ below b a → NoDup (n_Name <$> ks) →
  (∀ kd, kd ∈ ks → ∃ s, nr_node s = kd ∧ at_segs u (w_db w) (a ++ [n_Name kd]) s) →
  (∀ kd, kd ∈ ks → vacant u (w_db w) (b ++ [n_Name kd])) →
  height_below u (w_db w) a (S k) →
  for_each ks (λ kd, copyNode k u kd (render b +:+ "/" +:+ n_Name kd) (Some (n_ID (nr_node t))) true) w
    = (Ok x, w') →
  grown u (λ q, ∃ kd, kd ∈ ks ∧ below (b ++ [n_Name kd])%list q) (w_db w) (w_db w') ∧ w_tx w' = w_tx w
  ∧ ∀ kd, kd ∈ ks → mirror u (a ++ [n_Name kd]) (b ++ [n_Name kd]) (w_db w) (w_db w').
Proof.
  intros IHk. revert w. induction ks as [|kd ks IH];
    intros w Hd Ht Hdir Hbne Hab Hba Hnd Hks Hvac Hh H; simpl in H.
  { unfold ret in H. simplify_eq. split; [by apply grown_refl|]. split; [done|]. set_solver. }
  apply bind_Ok in H as ([] & w1 & Hrun & H). simpl in Hnd. apply NoDup_cons in Hnd as [Hnin Hnd].
  destruct (Hks kd) as (s & Hsk & Hs); [by left|]. set (nm := n_Name kd) in *.
  assert (seg_ok nm = true) as Hseg.
  { destruct Hs as (_ & _ & Hq). pose proof (rsegs_ok s) as Hok. rewrite Hq in Hok.
    by apply segs_ok_snoc in Hok as [_ ?]. }
  assert (segs_ok b) as Hb by (destruct Ht as (_ & _ & <-); apply rsegs_ok).
  assert (render b +:+ String slash nm = render (b ++ [nm])%list) as Hpath
    by (rewrite render_snoc, raw_snoc, render_raw by done; done).
  fold slash in Hrun. rewrite Hpath, <- Hsk in Hrun.
  apply (IHk (a ++ [nm])%list s (b ++ [nm])%list b nm t) in Hrun as (Hg1 & Htx1 & Hm1); try done.
  2: { split_and!; [done|by apply segs_ok_snoc|done|done]. }
  2: { apply Hvac. by left. }
  2: { intros c s' Hs'. rewrite <- app_assoc in Hs'. apply Hh in Hs'. simpl in Hs'. lia. }
  2, 3: by apply below_app_snoc.
  assert (∀ y, y ∈ ks → n_Name y ≠ nm) as Hne
    by (intros y Hy He; apply Hnin, list_elem_of_fmap; by exists y).
  assert (∀ y q, y ∈ ks → below (b ++ [nm])%list q → ¬ below (b ++ [n_Name y])%list q) as Hsib
    by (intros y q Hy H1 H2; by apply (Hne y Hy), (below_siblings b _ _ q)).
  apply IH in H as (Hg2 & Htx2 & Hm2); try done.
  - split; [|split; [congruence|]].
    + eapply grown_trans; (eapply grown_weaken; [|done]); simpl.
      * intros q Hq. exists kd. split; [by left|done].
      * intros q (y & Hy & Hq). exists y. split; [by right|done].
    + intros y [->|Hy]%elem_of_cons.
      * eapply mirror_after; [exact Hg2| |exact Hm1]. intros q (y' & Hy' & Hq) Hb'. by eapply Hsib.
      * eapply mirror_before; [exact Hg1| |by apply Hm2]. intros q Hq Hq'.
        apply below_head in Hq, Hq'. by destruct (below_comparable _ _ _ Hq Hq').
  - apply (gr_tree _ _ _ _ Hg1).
  - by eapply at_segs_grown.
  - intros y Hy. destruct (Hks y) as (s' & ? & ?); [by right|]. exists s'. split; [done|]. by eapply at_segs_grown.
  - intros y Hy. eapply vacant_grown; [apply Hvac; by right|exact Hg1|]. intros q. by apply Hsib.
  - eapply height_grown; [exact Hh|exact Hg1|]. intros q Hq Hq'. apply below_head in Hq.
    by destruct (below_comparable _ _ _ Hq Hq').
Qed.

Lemma copyNode_Ok u k : copies_with u k.
Proof.
  induction k as [|k IH]; intros a r b bl bx rp rec w x w' Hd Hr Hdst Hv Hh Hab Hba H.
  { specialize (Hh [] r). rewrite app_nil_r in Hh. specialize (Hh Hr). simpl in Hh. lia. }
  destruct (rdir r) eqn:Hdir.
  2: { apply (copy_file_Ok k u a r b bl bx rp) in H as (Hg & Htx & t & Ht & Hc); try done.
       split; [|split; [done|]]; [eapply grown_weaken; [|exact Hg]; intros q ->; apply below_refl|].
       destruct rec; [by eapply mirror_file|]. split; [by exists t|]. intros c t'. by eapply grown_single. }
  simpl in H. unfold Now, uuid_New, bind at 1 2 in H. unfold rdir in Hdir. rewrite Hdir in H.
  set (w1 := tick (tick w)) in *. set (id := env_uuid _ 0) in H. set (now := env_now _) in H.
  assert (id ≠ uuid_Nil) as Hid by apply Huu. clearbody id now.
  change (w_db w) with (w_db w1) in *. change (w_tx w) with (w_tx w1). clearbody w1. clear w.
  apply bind_Ok in H as (n & w2 & Hcr & H).
  apply (copy_create_Ok u (w_db w1) b bl bx rp) in Hcr as (Hni & Hns & Hw2 & Htx2 & Hnew & Hg & Hat & Hrow); try done.
  specialize (Hrow r eq_refl). rewrite <- Hw2 in Hg, Hat. set (t := mkNodeRow n "" None) in *.
  pose proof (gr_tree _ _ _ _ Hg) as Hd2.
  assert (copies (w_db w1) r (w_db w2) t) as Hct by (split; [done|]; unfold rdir; by rewrite Hdir).
  assert (grown u (below b) (w_db w1) (w_db w2)) as Hgb
    by (eapply grown_weaken; [|exact Hg]; intros q ->; apply below_refl).
  destruct rec; simpl in H.
  2: { unfold ret in H. simplify_eq. split; [done|]. split; [congruence|]. split; [by exists t|].
       intros c t'. by eapply grown_single. }
  apply bind_Ok in H as (ks & w3 & Hls & H). apply ListChildren_Ok in Hls as (Hw3 & Htx3 & Hks).
  assert (at_segs u (w_db w2) a r) as Hr2 by (by eapply at_segs_grown).
  pose proof (λ kd, children_elem (w_db w2) u a r kd Hd2 Hr2) as Hel.
  pose proof (children_names (w_db w2) u a r Hd2 Hr2) as Hnd. rewrite <- Hks in Hel, Hnd.
  rewrite <- Hw3 in *. change (n_ID n) with (n_ID (nr_node t)) in Hni.
  destruct Hdst as (Hbx & Hbok & _).
  assert (b ≠ []) as Hbne by (subst b; by intros []%app_nil).
  rewrite <- Hni in H.
  apply (copy_children_Ok u k a b t) in H as (Hg2 & Htx & Hm); try done.
  2: { unfold rdir in *. rewrite <- Hdir. apply (cr_dir _ _ Hrow). }
  2: { intros kd Hkd. by apply Hel. }
  2: { intros kd _. eapply vacant_grown; [by apply vacant_below|exact Hg|]. intros q -> [c Hc].
       rewrite <- app_assoc in Hc. rewrite <- (app_nil_r b) in Hc at 1. by apply app_inv_head in Hc. }
  2: { eapply height_grown; [exact Hh|exact Hg|]. by intros q ->. }
  split; [|split; [congruence|]].
  { eapply grown_trans; [exact Hgb|]. eapply grown_weaken; [|exact Hg2].
    intros q (kd & _ & Hq). by apply below_head in Hq. }
  intros [|nm c]; rewrite ?app_nil_r.
  - split.
    + intros s Hs. rewrite (at_segs_uniq _ _ _ _ _ Hd Hs Hr). exists t. split; [by eapply at_segs_grown|].
      eapply copies_grown; [exact Hg2| |exact Hct]. exists t. apply Hat.
    + intros _ _. by exists r.
  - assert (∀ kd, kd ∈ ks → n_Name kd = nm → mirror u (a ++ [nm]) (b ++ [nm]) (w_db w1) (w_db w')) as Hm'.
    { intros kd Hkd <-. eapply mirror_before; [exact Hg| |by apply Hm]. intros q -> Hb.
      by apply below_head in Hb. }
    change (nm :: c) with ([nm] ++ c)%list. rewrite !app_assoc. split.
    + intros s Hs. pose proof Hs as (Hs1 & Hsu & Hsq).
      destruct (ancestor_exists _ Hd _ _ _ _ Hs1 Hsq) as (j & s1 & Hj & Hju & Hjq).
      assert (at_segs u (w_db w1) (a ++ [nm])%list s1) as Hs1'.
      { split_and!; [|congruence|done]. by rewrite (tk_id _ Hd _ _ Hj). }
      assert (n_Name (nr_node s1) = nm) as Hnm by apply (tk_parent _ Hd _ _ _ _ Hj Hjq).
      apply (Hm' (nr_node s1)); [|done|done]. apply Hel. exists s1. split; [done|]. rewrite Hnm.
      by eapply at_segs_grown.
    + intros t' (Ht' & Hu' & Hq). destruct (gr_new _ _ _ _ Hg2 _ _ Ht') as [Ho|(_ & _ & kd & Hkd & Hb)].
      * destruct (gr_new _ _ _ _ Hg _ _ Ho) as [Ho1|(_ & _ & Hb)].
        -- exfalso. apply (Hv (nm :: c) t'). split_and!; [done..|]. rewrite Hq. by rewrite <- app_assoc.
        -- exfalso. rewrite Hb in Hq. rewrite <- (app_nil_r b), <- !app_assoc in Hq at 1.
           by apply app_inv_head in Hq.
      * rewrite Hq in Hb. destruct Hb as [c' Hb]. rewrite <- !app_assoc in Hb. apply app_inv_head in Hb.
        simpl in Hb. injection Hb as Hnm _. destruct (Hm' kd Hkd (eq_sym Hnm) c) as [_ Hm2].
        apply (Hm2 t'). by split_and!.
Qed.

End recursion.

(** ** The fuel [Copy] supplies *)

Lemma chain_of_rows u d l : tree_ok d → (∃ s, at_segs u d l s) →
  ∃ js : list uuid, NoDup js ∧ length js = S (length l)
    ∧ ∀ j, j ∈ js → ∃ s, d_nodes d !! j = Some s ∧ (length (rsegs s) ≤ length l)%nat.
Proof.
  intros Hd. induction l as [|x l IH] using rev_ind; intros (s & Hs & Hu & Hq).
  - exists [n_ID (nr_node s)]. split_and!; [apply NoDup_singleton|done|].
    intros j ->%list_elem_of_singleton. exists s. by rewrite Hq.
  - destruct (tk_parent _ Hd _ _ _ _ Hs Hq) as (_ & p & rp & _ & Hrp & Hl & Hup & _).
    destruct IH as (js & Hnd & Hlen & Hjs).
    { exists rp. split_and!; [by rewrite (tk_id _ Hd _ _ Hrp)|congruence|done]. }
    exists (n_ID (nr_node s) :: js). rewrite length_app. simpl. split_and!; [|lia|].
    + apply NoDup_cons. split; [|done]. intros (s' & Hs' & Hle)%Hjs. rewrite Hs in Hs'. injection Hs' as <-.
      rewrite Hq, length_app in Hle. simpl in Hle. lia.
    + intros j [->|(s' & Hs' & Hle)%Hjs]%elem_of_cons; [exists s|exists s']; (split; [done|]);
        rewrite ?Hq, ?length_app; simpl; lia.
Qed.

Lemma height_size u d a : tree_ok d → height_below u d a (S (size (d_nodes d))).
Proof.
  intros Hd c s Hs. destruct (chain_of_rows u d (a ++ c) Hd) as (js & Hnd & Hlen & Hjs); [by exists s|].
  assert (size (list_to_set js : gset uuid) ≤ size (dom (d_nodes d)))%nat as Hsz.
  { apply subseteq_size. intros j [x [Hx _]]%elem_of_list_to_set%Hjs. apply elem_of_dom. by exists x. }
  rewrite size_list_to_set in Hsz by done. rewrite size_dom in Hsz.
  rewrite Hlen, length_app in Hsz. lia.
Qed.

(** ** The transaction *)

Section transaction.
Context {E : Env} (Huu : uuids_ok).

Lemma subtreeSize_Ok u a w z w' : subtreeSize u (render a) w = (Ok z, w') →
  z = sum_sizes (listed u a (w_db w)) ∧ w_db w' = w_db w ∧ w_tx w' = w_tx w.
Proof.
  unfold subtreeSize. intros H. apply bind_Ok in H as (l & w1 & Hl & H).
  unfold ret in H. injection H as <- <-. pose proof (ListSubtree_Ok _ _ _ _ _ Hl) as [-> Hdb].
  split_and!; [done|done|]. unfold NodeRepository_ListSubtree in Hl. by m_inv.
Qed.

(** What an admitted COPY adds, less what the replaced target frees. *)
Definition copy_adds (u : uuid) (a b : list string) (d : Db) : Z :=
  match view d u b with
  | Some t => wrap64 (sum_sizes (listed u a d) - sum_sizes (listed u b d))
  | None => sum_sizes (listed u a d)
  end.

Definition copy_admitted (user : User) (a b : list string) (d : Db) : Prop :=
  0 < u_QuotaBytes user →
  wrap64 (user_file_bytes (u_ID user) d + copy_adds (u_ID user) a b d) ≤ u_QuotaBytes user.

Lemma copy_quota_Ok user a b w x w' : tree_ok (w_db w) → segs_ok b →
  copy_quota user (render a) (render b) w = (Ok x, w') →
  w_db w' = w_db w ∧ w_tx w' = w_tx w ∧ copy_admitted user a b (w_db w).
Proof.
  intros Hd Hb. unfold copy_quota, copy_admitted.
  destruct (Z.leb_spec (u_QuotaBytes user) 0) as [Hq|Hq]; intros H; [m_inv; split_and!; try done; lia|].
  apply bind_Ok in H as (used & w1 & Hs & H). apply SumSize_Ok in Hs as (-> & -> & _).
  apply bind_Ok in H as (add & w2 & Ha & H). apply subtreeSize_Ok in Ha as (-> & Hw2 & Htx2).
  simpl in Hw2, Htx2. change (w_db (tick w)) with (w_db w) in H.
  unfold bind at 1 in H. rewrite try_run in H. rewrite <- Hw2, <- Htx2 in *. clear Hw2 Htx2 w.
  destruct (NodeRepository_GetByPath _ _ w2) as [[t|e] w3] eqn:Hg; simpl in H.
  - apply GetByPath_Ok in Hg as (-> & r & Hr & <- & Hu & Hl); [|done..].
    apply bind_Ok in H as (z & w3 & Hz & H). apply bind_Ok in Hz as (fr & w4 & Hf & Hz).
    unfold ret in Hz. injection Hz as <- <-. rewrite (tk_canon _ Hd _ _ Hr), Hl in Hf.
    apply subtreeSize_Ok in Hf as (-> & Hw4 & Htx4). simpl in Hw4, Htx4.
    assert (view (w_db w2) (u_ID user) b = Some r) as Hv by (apply view_Some; [done|by eexists]).
    unfold copy_adds. rewrite Hv. destruct (Z.ltb_spec (u_QuotaBytes user) (wrap64 (user_file_bytes (u_ID user) (w_db w2) +
      wrap64 (sum_sizes (listed (u_ID user) a (w_db w2)) - sum_sizes (listed (u_ID user) b (w_db (tick w2))))))); m_inv.
    by rewrite Hw4.
  - apply bind_Ok in H as (z & w4 & Hz & H). pose proof Hg as Hg2.
    apply GetByPath_Err in Hg as (_ & _ & Hnf); [|done..].
    unfold errors_Is in Hz. case_bool_decide as He; [|by m_inv]. destruct (Hnf He) as [-> Hn].
    unfold ret in Hz. injection Hz as <- <-.
    assert (view (w_db w2) (u_ID user) b = None) as Hv by (by apply view_None).
    unfold copy_adds. rewrite Hv. destruct (Z.ltb_spec (u_QuotaBytes user) (wrap64 (user_file_bytes (u_ID user) (w_db w2) +
      sum_sizes (listed (u_ID user) a (w_db w2))))); m_inv. done.
Qed.

(** The steps of the transaction before the copying itself. *)
Lemma copy_tx_inv user a b rec ow w x w' :
  tree_ok (w_db w) → segs_ok a → segs_ok b → a ≠ [] → b ≠ [] →
  copy_tx user (render a) (render b) rec ow w = (Ok x, w') →
  ∃ r rp bl bx w2, copy_admitted user a b (w_db w) ∧ (ow = false → vacant (u_ID user) (w_db w) b)
    ∧ at_segs (u_ID user) (w_db w) a r ∧ cleared (u_ID user) b (w_db w) (w_db w2)
    ∧ tree_ok (w_db w2) ∧ vacant (u_ID user) (w_db w2) b ∧ dst_ok (u_ID user) (w_db w2) b bl bx rp
    ∧ copyNode (S (size (d_nodes (w_db w2)))) (u_ID user) (nr_node r) (render b)
        (Some (n_ID (nr_node rp))) rec w2 = (Ok x, w').
Proof.
  intros Hd Ha Hb Hane Hbne H. destruct (exists_last Hbne) as (bl & bx & Hbx).
  assert (segs_ok bl) as Hbl by (subst b; by apply segs_ok_snoc in Hb as [? _]).
  unfold copy_tx in H.
  apply bind_Ok in H as (n & w1 & Hg & H).
  apply with_fs_err_Ok, GetByPath_Ok in Hg as (-> & r & Hr & <- & Hu & Hl); [|done..].
  assert (Dir (render b) = render bl) as Hdirb by (subst b; by apply Dir_render).
  rewrite Hdirb in H. apply bind_Ok in H as (n & w1 & Hg & H).
  apply with_fs_err_Ok, GetByPath_Ok in Hg as (-> & rp & Hrp & <- & Hpu & Hpl); [|done..].
  destruct (n_IsDir (nr_node rp)) eqn:Hdir; [cbn [negb] in H|done].
  set (w0 := tick (tick w)) in *. change (w_db (tick w)) with (w_db w0) in *. change (w_db w) with (w_db w0) in *.
  clearbody w0. clear w.
  apply bind_Ok in H as ([] & w1 & Hq & H). apply copy_quota_Ok in Hq as (Hw1 & _ & Hq); [|done..].
  rewrite <- Hw1 in *. clear w0 Hw1.
  apply bind_Ok in H as ([] & w2 & Hex & H).
  apply bind_Ok in H as (k & w3 & Hk & H). unfold gets in Hk. injection Hk as <- <-.
  assert (cleared (u_ID user) b (w_db w1) (w_db w2) ∧ tree_ok (w_db w2)
          ∧ (ow = false → vacant (u_ID user) (w_db w1) b)) as (Hcl & Hd2 & How).
  { apply if_exists_Ok in Hex as [(t & Ht & Htu & Htl & Hrm)|[-> Hn]]; [| |done..].
    - destruct ow; [|done]. simpl in Hrm. rewrite <- Htu in Hrm.
      apply (removeWithin_Ok (n_ID (nr_node t))) in Hrm as [Hrm Hd2]; [|done|done|congruence].
      rewrite <- Htu, <- Htl. by split.
    - split; [by apply cleared_refl|]. split; [done|]. intros _ c t (Ht & Htu & Hq').
      apply (Hn _ _ Ht Htu). rewrite Hq'. by exists c. }
  assert (d_nodes (w_db w2) !! n_ID (nr_node rp) = Some rp) as Hrp2.
  { eapply cleared_parent; [exact Hd|rewrite <- Hbx; exact Hcl|done..]. }
  exists r, rp, bl, bx, w2. split; [done|]. split; [done|]. split; [by split_and!|]. split; [done|].
  split; [done|]. split; [|by split_and!].
  intros c t (Ht & Htu & Hq'). apply (rm_nodes _ _ _ _ Hcl) in Ht as [_ Hn]. apply Hn. split; [done|].
  rewrite Hq'. by exists c.
Qed.

(** A COPY between places of which neither contains the other. *)
Lemma copy_tx_Ok user a b rec ow w x w' :
  tree_ok (w_db w) → segs_ok a → segs_ok b → a ≠ [] → b ≠ [] → ¬ below a b → ¬ below b a →
  copy_tx user (render a) (render b) rec ow w = (Ok x, w') →
  copy_admitted user a b (w_db w)
  ∧ (ow = false → vacant (u_ID user) (w_db w) b)
  ∧ ∃ r d1, at_segs (u_ID user) (w_db w) a r ∧ cleared (u_ID user) b (w_db w) d1 ∧ tree_ok d1
      ∧ at_segs (u_ID user) d1 a r ∧ grown (u_ID user) (below b) d1 (w_db w')
      ∧ copied_to (u_ID user) rec a b r d1 (w_db w').
Proof.
  intros Hd Ha Hb Hane Hbne Hab Hba H.
  apply copy_tx_inv in H as (r & rp & bl & bx & w2 & Hq & How & Hr & Hcl & Hd2 & Hv & Hdst & H); [|done..].
  assert (at_segs (u_ID user) (w_db w2) a r) as Hr2.
  { destruct Hr as (Hr & Hu & Hl). split_and!; [|done..]. apply (rm_nodes _ _ _ _ Hcl). split; [done|].
    intros [_ Hb']. by rewrite Hl in Hb'. }
  split; [done|]. split; [done|]. exists r, (w_db w2). split_and!; try done;
    apply (copyNode_Ok Huu (u_ID user) _ a r b bl bx rp) in H as (Hg & _ & Hc); try done; by apply height_size.
Qed.

(** Nothing hangs below a row that is not there. *)
Lemma no_children u p d : tree_ok d → d_nodes d !! p = None → rows (child_of u p) (d_nodes d) = [].
Proof.
  intros Hd Hp. apply rows_nil. intros j s Hs. apply not_true_iff_false. intros Hc.
  unfold child_of in Hc. apply andb_true_iff in Hc as [_ Hpar%bool_decide_eq_true].
  destruct (rsegs s) as [|y l _] eqn:Hl using rev_ind.
  - destruct (tk_root _ Hd _ _ Hs Hl) as [Hn _]. unfold rparent in Hn. congruence.
  - destruct (tk_parent _ Hd _ _ _ _ Hs Hl) as (_ & q & rq & Hq & Hrq & _). unfold rparent in Hq. congruence.
Qed.

Lemma child_added u n d p : d_nodes d !! n_ID n = None → rows (child_of u p) (d_nodes d) = [] →
  n_ParentID n ≠ Some p → rows (child_of u p) (d_nodes (added n d)) = [].
Proof.
  intros Hnew Hd Hp. apply rows_nil. intros j s [[-> ->]|[_ Hj]]%added_lookup.
  - unfold child_of. simpl. rewrite bool_decide_eq_false_2 by done. by rewrite andb_false_r.
  - rewrite rows_nil in Hd. by apply (Hd j).
Qed.

(** Copying a node whose row is gone: the destination gets an empty node. *)
Lemma copyNode_gone k u src b bl bx rp rec w x w' : tree_ok (w_db w) →
  d_nodes (w_db w) !! n_ID src = None → dst_ok u (w_db w) b bl bx rp →
  copyNode (S k) u src (render b) (Some (n_ID (nr_node rp))) rec w = (Ok x, w') →
  grown u (λ q, q = b) (w_db w) (w_db w').
Proof.
  intros Hd Hgone Hdst H. simpl in H. unfold Now, uuid_New, bind at 1 2 in H.
  set (w1 := tick (tick w)) in *. set (id := env_uuid _ 0) in H. set (now := env_now _) in H.
  assert (id ≠ uuid_Nil) as Hid by apply Huu. clearbody id now.
  change (w_db w) with (w_db w1) in *. clearbody w1. clear w.
  assert (∀ st n w2, (n_IsDir src = true → st = NodeStateStored) →
    with_fs_err (NodeRepository_Create (copied_node src id u (Some (n_ID (nr_node rp))) (render b) st now)) w1
      = (Ok n, w2) →
    n_ID n = id ∧ w_db w2 = added n (w_db w1) ∧ d_nodes (w_db w1) !! id = None ∧ n_IsDir n = n_IsDir src
    ∧ n_ParentID n = Some (n_ID (nr_node rp))
    ∧ grown u (λ q, q = b) (w_db w1) (w_db w2)) as Hcr.
  { intros st n w2 Hst Hc. pose proof Hc as Hc0.
    apply (copy_create_Ok u (w_db w1) b bl bx rp) in Hc as (Hni & _ & Hw2 & _ & Hnew & Hg & _ & Hrow); try done.
    rewrite <- Hw2 in Hg. split_and!; try done.
    - apply (cr_dir _ _ (Hrow (mkNodeRow src "" None) eq_refl)).
    - apply with_fs_err_Ok, Create_Ok in Hc0 as (Hf & _); [|done]. apply Hf. }
  destruct (n_IsDir src) eqn:Hdir; [|destruct (bool_decide _)];
    apply bind_Ok in H as (n & w2 & Hc & H); apply Hcr in Hc as (Hni & Hw2 & Hnew & Hnd & Hnp & Hg); try done.
  - destruct rec; simpl in H; [|unfold ret in H; by simplify_eq].
    apply bind_Ok in H as (ks & w3 & Hls & H). apply ListChildren_Ok in Hls as (Hw3 & _ & Hks).
    rewrite Hw2, child_added in Hks; [| |by apply no_children|].
    + subst ks. simpl in H. unfold ret in H. simplify_eq. by rewrite Hw3.
    + by rewrite Hni.
    + rewrite Hnp. intros [= He]. destruct Hdst as (_ & _ & (Hrp & _) & _). congruence.
  - apply (copy_stored_grown u (λ q, q = b) (w_db w1) (n_ID src) id (mkNodeRow n "" None)) in H as [? _]; try done.
    + apply (gr_tree _ _ _ _ Hg).
    + rewrite Hw2, <- Hni. apply lookup_insert_eq.
    + rewrite Hw2. by apply (no_extents _ (w_db w1)).
  - apply copy_wal_frame in H. eapply wal_grown; [|exact Hg|exact Hnew| |exact H].
    + apply (gr_tree _ _ _ _ Hg).
    + exists (mkNodeRow n "" None). rewrite Hw2, <- Hni. apply lookup_insert_eq.
Qed.

(** The same request when the target contains the source: the target's subtree,
    the source with it, is removed before it is read. *)
Lemma copy_tx_ancestor user a b ow w x w' rec :
  tree_ok (w_db w) → segs_ok a → segs_ok b → a ≠ [] → b ≠ [] → below b a →
  copy_tx user (render a) (render b) rec ow w = (Ok x, w') →
  ow = true ∧ ∃ d1, cleared (u_ID user) b (w_db w) d1 ∧ tree_ok d1
                    ∧ grown (u_ID user) (λ q, q = b) d1 (w_db w').
Proof.
  intros Hd Ha Hb Hane Hbne Hba H.
  apply copy_tx_inv in H as (r & rp & bl & bx & w2 & Hq & How & Hr & Hcl & Hd2 & Hv & Hdst & H); [|done..].
  destruct Hr as (Hr & Hu & Hl). split.
  { destruct ow; [done|]. destruct Hba as [c ->]. destruct (How eq_refl c r). by split_and!. }
  exists (w_db w2). split; [done|]. split; [done|].
  apply copyNode_gone with (bl := bl) (bx := bx) in H; [done..| |done].
  apply eq_None_not_Some. intros [s Hs]. apply (rm_nodes _ _ _ _ Hcl) in Hs as [Hs Hn]. apply Hn.
  rewrite Hr in Hs. injection Hs as <-. by rewrite Hl.
Qed.

End transaction.

(** ** The request *)

Lemma normalize_segs `{Env} name : normalize name = render (path_segs (normalize name)).
Proof. destruct (normalize_canonical name) as (l & Hl & ->). by rewrite path_segs_render. Qed.

Lemma ensured_source u d d0 a r : tree_ok d → ensured u d d0 → a ≠ [] → at_segs u d0 a r → d0 = d.
Proof.
  intros Hd He Ha (Hr & Hu & Hl). apply (en_same _ _ _ He).
  assert (view d u a = Some r) as Hv.
  { rewrite <- (en_view _ _ _ He) by (by intros [_ ?]). apply view_Some; [apply (en_tree _ _ _ He)|by eexists]. }
  apply view_Some in Hv as (i & Hi & Hiu & Hil); [|done].
  destruct (ancestor_exists _ Hd i r [] a Hi Hil) as (j & s & Hs & Hsu & Hsl).
  assert (view d u [] = Some s) as -> by (apply view_Some; [done|exists j; split_and!; congruence]). done.
Qed.

Section request.
Context {E : Env} (Huu : uuids_ok).

Lemma Copy_inv ctx src dst rec ow w x w' : tree_ok (w_db w) → w_tx w = None →
  Copy ctx src dst rec ow w = (Ok x, w') →
  ∃ user a b, acting ctx = Ok user ∧ normalize src = render a ∧ normalize dst = render b
    ∧ segs_ok a ∧ segs_ok b ∧ a ≠ [] ∧ b ≠ [] ∧
    (a = b ∧ w' = w
     ∨ ¬ below a b ∧ ∃ w1 w2, ensured (u_ID user) (w_db w) (w_db w1) ∧ w_tx w' = None
         ∧ copy_tx user (render a) (render b) rec ow (set_tx (Some (mkTx (w_db w1) false)) (tick w1)) = (Ok x, w2)
         ∧ w_db w' = w_db w2).
Proof.
  intros Hd Htx H. unfold Copy, of_res, bind at 1 in H. destruct (acting ctx) as [user|e] eqn:Hact; [|done].
  destruct (normalize_canonical src) as (a & Ha & Hna). destruct (normalize_canonical dst) as (b & Hb & Hnb).
  rewrite Hna, Hnb in H. destruct (_ || _) eqn:Hroot; [done|].
  apply orb_false_iff in Hroot as [Hra Hrb].
  pose proof (canonical_not_root _ Ha Hra) as Hane. pose proof (canonical_not_root _ Hb Hrb) as Hbne.
  exists user, a, b. split_and!; try done.
  destruct (String.eqb_spec (render a) (render b)) as [Heq|Hne].
  { left. split; [by apply render_inj|]. unfold ret in H. by simplify_eq. }
  right. destruct (pathHasPrefix _ _) eqn:Hpre; [done|].
  split; [intros Hab; apply (pathHasPrefix_below a b) in Hab; congruence|].
  apply bind_Ok in H as (n & w1 & He & H). apply ensureRoot_Ok in He as (He & Ht & _); [|done..].
  apply WithTx_Ok in H as (w2 & H & _ & ->); [|done]. by exists w1, w2.
Qed.

(** A COPY that fails leaves at most the user's root added. *)
Lemma Copy_Err ctx src dst rec ow w e w' : tree_ok (w_db w) → w_tx w = None →
  Copy ctx src dst rec ow w = (Err e, w') →
  w_db w' = w_db w ∨ ∃ user, acting ctx = Ok user ∧ ensured (u_ID user) (w_db w) (w_db w').
Proof.
  intros Hd Htx H. unfold Copy, of_res, bind at 1 in H.
  destruct (acting ctx) as [user|]; [|left; by injection H as _ <-].
  destruct (_ || _); [left; by injection H as _ <-|]. destruct (String.eqb _ _); [left; by injection H as _ <-|].
  destruct (pathHasPrefix _ _); [left; by injection H as _ <-|].
  apply bind_cases in H as [(n & w1 & He & H)|(e1 & He & _)].
  - apply ensureRoot_Ok in He as (He & Ht & _); [|done..]. apply WithTx_Err in H as [-> _]; [|done].
    right. by exists user.
  - apply ensureRoot_Err in He as [-> _]; [|done..]. by left.
Qed.

(** COPY replaces what was at the destination by a mirror of the source. *)
Lemma Copy_Ok ctx src dst rec ow w x w' : tree_ok (w_db w) → w_tx w = None →
  ¬ below (path_segs (normalize dst)) (path_segs (normalize src)) →
  Copy ctx src dst rec ow w = (Ok x, w') →
  ∃ user a b r d1, acting ctx = Ok user ∧ normalize src = render a ∧ normalize dst = render b
    ∧ segs_ok a ∧ segs_ok b ∧ a ≠ [] ∧ b ≠ []
    ∧ copy_admitted user a b (w_db w) ∧ (ow = false → vacant (u_ID user) (w_db w) b)
    ∧ at_segs (u_ID user) (w_db w) a r ∧ cleared (u_ID user) b (w_db w) d1 ∧ tree_ok d1
    ∧ grown (u_ID user) (below b) d1 (w_db w') ∧ copied_to (u_ID user) rec a b r d1 (w_db w').
Proof.
  intros Hd Htx Hba H. apply Copy_inv in H as (user & a & b & Hact & Hna & Hnb & Ha & Hb & Hane & Hbne & H); [|done..].
  rewrite Hna, Hnb, !path_segs_render in Hba by done.
  destruct H as [[-> _]|(Hab & w1 & w2 & He & _ & H & ->)]; [by destruct Hba; exists []; rewrite app_nil_r|].
  apply (copy_tx_Ok Huu) in H as (Hq & How & r & d1 & Hr & Hcl & Hd1 & Hr1 & Hg & Hc); try done;
    [|apply (en_tree _ _ _ He)]. simpl in *.
  assert (w_db w1 = w_db w) as Heq by (by apply (ensured_source (u_ID user) _ _ a r)). rewrite Heq in *.
  by exists user, a, b, r, d1.
Qed.

(** Every COPY stays within the acting user. *)
Lemma Copy_acts ctx src dst rec ow user w r w' : tree_ok (w_db w) → w_tx w = None →
  acting ctx = Ok user → Copy ctx src dst rec ow w = (r, w') → acts (u_ID user) w w'.
Proof.
  intros Hd Htx Hact H. destruct r as [x|e].
  - apply Copy_inv in H as (user' & a & b & Hact' & _ & _ & Ha & Hb & Hane & Hbne & H); [|done..].
    rewrite Hact in Hact'. injection Hact' as <-.
    destruct H as [[_ ->]|(Hab & w1 & w2 & He & Ht & H & Hw')]; [by apply acts_same|].
    split; [|done]. rewrite Hw'. pose proof (en_tree _ _ _ He) as Hd1.
    eapply confined_trans; [by apply confined_ensured|].
    destruct (decide (below b a)) as [Hba|Hba].
    + apply (copy_tx_ancestor Huu) in H as (_ & d1 & Hcl & Hd2 & Hg); try done.
      eapply confined_trans; [eapply (confined_cleared _ _ b); [|exact Hcl]|]. all: try done. by eapply confined_grown.
    + apply (copy_tx_Ok Huu) in H as (_ & _ & r & d1 & _ & Hcl & Hd2 & _ & Hg & _); try done.
      eapply confined_trans; [eapply (confined_cleared _ _ b); [|exact Hcl]|]. all: try done. by eapply confined_grown.
  - unfold Copy, of_res, bind at 1 in H. rewrite Hact in H.
    destruct (_ || _); [by stays H|]. destruct (String.eqb _ _); [by stays H|].
    destruct (pathHasPrefix _ _); [by stays H|].
    apply bind_cases in H as [(n & w1 & He & H)|(e1 & He & _)]; [|by apply ensureRoot_acts in He].
    apply ensureRoot_acts in He as Ha; [|done..]. destruct Ha as [Hc Ht].
    apply WithTx_Err in H as [Hdb Ht']; [|done]. split; [by rewrite Hdb|done].
Qed.

End request.
