(* ===== verification/FinalizeFacts.v ===== *)
(** * Facts about finalization: a buffered file becomes a stored one

    The transaction of [finalize] seen from the tables, and what it does to the
    bytes of the file. *)
From Stdlib Require Import ZArith Lia Strings.Byte Strings.String.
From stdpp Require Import base tactics list gmap sets sorting strings.
From S2P Require Import Prelude Model Sql SqlFacts World Repository Crypto Accounts Path FileSystem File.
From S2P Require Import Tree FsFacts RenameFacts CreateFacts WalFacts WriteFacts ReadFacts CopyFacts LossFacts.
From S2P Require Import Telegram BlobReader Bots Packer PackerFacts.
#[local] Open Scope string_scope.
#[local] Open Scope Z_scope.
Open Scope m_scope.

(** The same extent but for its id. *)
Definition same_extent (e x : Extent) : Prop := x = extent_with_id (e_ID x) e.

(** The row [MarkStoredIfOwner] leaves. *)
Definition stored_row (r : NodeRow) : NodeRow :=
  mkNodeRow (set_node_state NodeStateStored (nr_node r)) "" None.

(** Node [id] has become a stored file with the extents [es]. *)
Record packed (id : uuid) (r : NodeRow) (es : list Extent) (d d' : Db) : Prop := {
  pk_nodes : d_nodes d' = <[id := stored_row r]> (d_nodes d);
  pk_ext : ∀ P, rows P (d_extents d') ≡ₚ List.filter P es ++ rows P (d_extents d);
  pk_extlk : ∀ k e, d_extents d' !! k = Some e ↔ d_extents d !! k = Some e ∨ (e ∈ es ∧ e_ID e = k);
  pk_refers : ∀ e, e ∈ es → is_Some (d_blobs d !! e_BlobID e);
  pk_conserves : conserves d d';
  pk_wal : d_wal_chunks d' = filter (λ kv : uuid * WALChunk, c_NodeID kv.2 ≠ id) (d_wal_chunks d);
  pk_users : d_users d' = d_users d;
  pk_blob : ∀ k b, d_blobs d' !! k = Some b → ∃ b0, d_blobs d !! k = Some b0 ∧ b_ID b = b_ID b0 }.

Section finalize.
Context {E : Env} (leaseOwner : string).

Lemma new_ids es w es' w' :
  map_each es (λ e, let! id := or_new (e_ID e) in ret (extent_with_id id e)) w = (Ok es', w') →
  Forall2 same_extent es es' ∧ w_db w' = w_db w ∧ w_tx w' = w_tx w.
Proof.
  revert w es'. induction es as [|e es IH]; intros w es' H; cbn [map_each] in H; [by injection H as <- <-|].
  apply bind_Ok in H as (x & w1 & Hx & H). apply bind_Ok in H as (xs & w2 & Hxs & H). injection H as <- <-.
  apply bind_Ok in Hx as (id & w0 & Hid & Hx). injection Hx as <- <-.
  apply or_new_Ok in Hid. apply IH in Hxs as (Hall & Hd & Ht). destruct Hid as (Hd0 & Ht0 & _).
  split_and!; [|congruence|congruence]. by constructor.
Qed.

Lemma store_extents_Ok es w u w' :
  store_extents es w = (Ok u, w') →
  ∃ es' m bl, Forall2 same_extent es es' ∧ w_db w' = set_blobs bl (set_extents m (w_db w)) ∧ w_tx w' = w_tx w
    ∧ (∀ P, rows P m ≡ₚ List.filter P es' ++ rows P (d_extents (w_db w)))
    ∧ (∀ k e, m !! k = Some e ↔ d_extents (w_db w) !! k = Some e ∨ (e ∈ es' ∧ e_ID e = k))
    ∧ (∀ e, e ∈ es' → is_Some (d_blobs (w_db w) !! e_BlobID e))
    ∧ rebased (λ id, blen (List.filter (λ e, N.eqb (e_BlobID e) id) es)) (d_blobs (w_db w)) bl.
Proof.
  unfold store_extents. destruct es as [|e0 es0]; [|set (es := e0 :: es0)].
  { intros H. injection H as <- <-. exists [], (d_extents (w_db w)), (d_blobs (w_db w)).
    split_and!; [constructor|by destruct (w_db w)|done|done|set_solver|set_solver|apply rebased_id]. }
  replace (blen es =? 0) with false by (symmetry; apply Z.eqb_neq; blen_lia). intros H.
  apply bind_Ok in H as (u1 & w1 & Hc & H). unfold extentRepository_CreateBatch, es in Hc. fold es in Hc.
  apply bind_Ok in Hc as (es' & w2 & Hids & Hc). apply new_ids in Hids as (Hall & Hd & Ht).
  m_inv. apply CreateExtents_Ok in Hq as (He & Hlk & Hfk & Hp). rewrite Hd in *.
  pose proof (AddRefcounts_Ok _ _ _ _ H) as (bl & Hw & Hb). simpl in *.
  assert (w_tx w' = w_tx w2) as Htx by (unfold blobRepository_AddRefcounts in H; destruct (decide _); by m_inv).
  exists es', (d_extents d), bl. rewrite He in Hw, Hb. split_and!; try done; [congruence| |].
  - intros e Hin. by apply Hfk.
  - eapply rebased_ext; [|exact Hb]. intros id.
    etrans; [apply (blob_deltas_default 1 es id)|]. apply Z.mul_1_l.
Qed.

Lemma same_extent_count es es' id : Forall2 same_extent es es' →
  blen (List.filter (λ e, N.eqb (e_BlobID e) id && true) es') = blen (List.filter (λ e, N.eqb (e_BlobID e) id) es).
Proof.
  induction 1 as [|e x es es' Hs _ IH]; [done|]. simpl. rewrite Hs. simpl. rewrite andb_true_r.
  destruct (N.eqb _ _); [|done]. blen_lia.
Qed.

(** The transaction leaves the tables alone, or the node was this packer's and is
    now stored, with the extents of the track. *)
Lemma finalize_tx_Ok tr w u w' : finalize_tx leaseOwner tr w = (Ok u, w') →
  w_db w' = w_db w ∨
  ∃ r es, d_nodes (w_db w) !! n_ID (tr_node tr) = Some r
    ∧ n_State (nr_node r) = NodeStateBuffered ∧ nr_lease_owner r = leaseOwner
    ∧ Forall2 same_extent (tr_extents tr) es ∧ packed (n_ID (tr_node tr)) r es (w_db w) (w_db w').
Proof.
  unfold finalize_tx. set (id := n_ID (tr_node tr)). intros H. apply bind_Ok in H as (owned & w1 & Hm & H).
  unfold NodeRepository_MarkStoredIfOwner in Hm. rewrite try_run in Hm.
  destruct (stmt (MarkStoredIfOwner id leaseOwner) w) as [[x|e] w0] eqn:Hs; simpl in Hm.
  2: { destruct (errors_Is e (PgError NoRows)); unfold ret, fail in Hm; [|done]. injection Hm as <- <-. simpl in H.
       injection H as _ <-. left. apply query_Err in Hs as (Hdb & _). done. }
  injection Hm as <- <-. simpl in H. m_inv. unfold MarkStoredIfOwner in Hq.
  destruct (d_nodes (w_db w) !! id) as [r|] eqn:Hr; [|done].
  destruct (bool_decide (n_State (nr_node r) = NodeStateBuffered)) eqn:Hst; [|done]. simpl in Hq.
  destruct (String.eqb_spec (nr_lease_owner r) leaseOwner) as [Hlo|]; [|done]. injection Hq as <- <-.
  apply bool_decide_eq_true in Hst. apply store_extents_Ok in Hm as (es & m & bl & Hall & Hw & _ & Hp & Hlk & Hfk & Hb).
  unfold WALRepository_DeleteByNode in H. m_inv. unfold DeleteWALChunksByNode in Hq. injection Hq as _ <-.
  right. exists r, es. split_and!; try done. rewrite Hw in *. simpl in *. split; try done.
  - intros i. simpl. rewrite Hb. destruct (d_blobs (w_db w) !! i) as [b|]; [|done]. simpl. do 2 f_equal.
    unfold refs at 1, refs_if, cnt. simpl. rewrite (cnt_perm _ _ (Hp _)). unfold refs, refs_if, cnt.
    rewrite <- (same_extent_count _ _ _ Hall). blen_lia.
  - simpl. intros k b'. rewrite Hb. intros (b & Hk & ->)%fmap_Some. by exists b.
Qed.

Lemma finalize_run tr w : w_tx w = None → ∃ w', finalize leaseOwner tr w = (Ok tt, w') ∧ w_tx w' = None
  ∧ (w_db w' = w_db w ∨
     ∃ r es, d_nodes (w_db w) !! n_ID (tr_node tr) = Some r
       ∧ n_State (nr_node r) = NodeStateBuffered ∧ nr_lease_owner r = leaseOwner
       ∧ Forall2 same_extent (tr_extents tr) es ∧ packed (n_ID (tr_node tr)) r es (w_db w) (w_db w')).
Proof.
  intros Htx. unfold finalize. rewrite try_run. destruct (WithTx (finalize_tx leaseOwner tr) w) as [[u|e] w'] eqn:H.
  - exists w'. split; [done|]. apply WithTx_Ok in H as (w1 & H & _ & ->); [|done]. split; [done|].
    by apply finalize_tx_Ok in H.
  - exists w'. split; [done|]. apply WithTx_Err in H as [? ?]; [|done]. split; [done|by left].
Qed.

(** With a working database, a track whose extents can be inserted is stored. *)
Record storable (tr : track) (d : Db) : Prop := {
  sb_ids : NoDup (e_ID <$> tr_extents tr);
  sb_fresh : ∀ e, e ∈ tr_extents tr → e_ID e ≠ uuid_Nil ∧ d_extents d !! e_ID e = None;
  sb_refers : ∀ e, e ∈ tr_extents tr → e_NodeID e = n_ID (tr_node tr) ∧ is_Some (d_blobs d !! e_BlobID e);
  sb_counts : ∀ k b, d_blobs d !! k = Some b →
    in_int64 (b_Refcount b + blen (List.filter (λ e, N.eqb (e_BlobID e) k) (tr_extents tr))) = true }.

Lemma new_ids_run es w : (∀ e, e ∈ es → e_ID e ≠ uuid_Nil) →
  map_each es (λ e, let! id := or_new (e_ID e) in ret (extent_with_id id e)) w = (Ok es, w).
Proof.
  induction es as [|e es IH]; intros Hid; [done|]. cbn [map_each].
  erewrite bind_run; [erewrite bind_run; [reflexivity|apply IH; intros x Hx; apply Hid; by right]|].
  erewrite bind_run; [|unfold or_new; rewrite (proj2 (N.eqb_neq _ _)) by (apply Hid; by left); reflexivity].
  by destruct e.
Qed.

Lemma CreateExtents_runs es d : NoDup (e_ID <$> es) → (∀ e, e ∈ es → d_extents d !! e_ID e = None) →
  (∀ e, e ∈ es → extent_fk d e = true) → ∃ n m, CreateExtents es d = SqlOk n (set_extents m d).
Proof.
  revert d. induction es as [|e es IH]; intros d Hnd Hfr Hfk.
  { exists 0, (d_extents d). by destruct d. }
  cbn [CreateExtents]. apply NoDup_cons in Hnd as [Hne Hnd]. rewrite (Hfr e) by by left.
  rewrite (Hfk e) by by left. cbn [negb bool_decide].
  destruct (IH (set_extents (<[e_ID e := e]> (d_extents d)) d) Hnd) as (n & m & ->).
  - intros x Hx. cbn. rewrite lookup_insert_ne; [apply Hfr; by right|]. intros Heq. apply Hne. rewrite Heq.
    by apply list_elem_of_fmap_2.
  - intros x Hx. apply Hfk. by right.
  - by exists (n + 1), m.
Qed.

Lemma AddRefcounts_runs es w : no_faults → in_aborted w = false →
  (∀ k b, d_blobs (w_db w) !! k = Some b → in_int64 (b_Refcount b + blen (List.filter (λ e, N.eqb (e_BlobID e) k) es)) = true) →
  ∃ bl w', blobRepository_AddRefcounts (ref_deltas es) w = (Ok tt, w') ∧ w_db w' = set_blobs bl (w_db w)
    ∧ in_aborted w' = false.
Proof.
  intros Hnf Hab Hc. unfold blobRepository_AddRefcounts. destruct (decide _).
  { exists (d_blobs (w_db w)), w. split_and!; [done|by destruct (w_db w)|done]. }
  eexists _, _. split_and!; [apply translate_Ok, stmt_runs; [done|done|]|cbn; reflexivity|done].
  unfold AddBlobRefcounts. replace (forallb _ _) with true; [reflexivity|]. symmetry. apply forallb_forall.
  intros b [Hb%list_elem_of_In _]%filter_In.
  apply list_elem_of_fmap in Hb as ([k x] & -> & Hk%elem_of_map_to_list). cbn [snd].
  rewrite map_lookup_imap in Hk. destruct (d_blobs (w_db w) !! k) as [b0|] eqn:Hb0; [|done]. injection Hk as <-.
  specialize (Hc k b0 Hb0). unfold add_delta.
  pose proof (blob_deltas_default 1 es k) as Hd. change (blob_deltas 1 es) with (ref_deltas es) in Hd.
  destruct (ref_deltas es !! k) as [dl|]; cbn [default from_option id] in Hd; unfold bigint_ok.
  - cbn [b_Refcount blob_with_refcount]. rewrite Hd, Z.mul_1_l. done.
  - revert Hc. replace (blen _) with 0 by lia. by rewrite Z.add_0_r.
Qed.

Lemma finalize_tx_runs tr r w : no_faults → in_aborted w = false → storable tr (w_db w) →
  d_nodes (w_db w) !! n_ID (tr_node tr) = Some r → n_State (nr_node r) = NodeStateBuffered → nr_lease_owner r = leaseOwner →
  ∃ w', finalize_tx leaseOwner tr w = (Ok tt, w') ∧ in_aborted w' = false
    ∧ d_nodes (w_db w') !! n_ID (tr_node tr) = Some (stored_row r).
Proof.
  set (id := n_ID (tr_node tr)). intros Hnf Hab [Hnd Hfr Hrf Hc] Hr Hst Hlo.
  set (w1 := tick (set_db (set_nodes (<[id := stored_row r]> (d_nodes (w_db w))) (w_db w)) w)).
  assert (NodeRepository_MarkStoredIfOwner id leaseOwner w = (Ok true, w1)) as Hm.
  { unfold NodeRepository_MarkStoredIfOwner. rewrite try_run.
    rewrite (stmt_runs _ _ id (set_nodes (<[id := stored_row r]> (d_nodes (w_db w))) (w_db w))); [done..|].
    unfold MarkStoredIfOwner. rewrite Hr, Hst, Hlo, String.eqb_refl. done. }
  assert (∃ m bl w2, store_extents (tr_extents tr) w1 = (Ok tt, w2) ∧ w_db w2 = set_blobs bl (set_extents m (w_db w1))
    ∧ in_aborted w2 = false) as (m & bl & w2 & Hs & Hdb & Hab2).
  { unfold store_extents. destruct (blen (tr_extents tr) =? 0) eqn:Hl.
    { exists (d_extents (w_db w1)), (d_blobs (w_db w1)), w1. done. }
    destruct (CreateExtents_runs (tr_extents tr) (w_db w1)) as (n & m & Hce); [done|apply Hfr|..].
    { intros e He. unfold extent_fk. destruct (Hrf e He) as [-> [b Hb]]. cbn. rewrite lookup_insert_eq. cbn. by rewrite Hb. }
    set (w2 := tick (set_db (set_extents m (w_db w1)) w1)).
    destruct (AddRefcounts_runs (tr_extents tr) w2 Hnf) as (bl & w3 & Hadd & Hdb & Hab3); [done|exact Hc|].
    exists m, bl, w3. split_and!; [|done|done]. erewrite bind_run; [exact Hadd|].
    unfold extentRepository_CreateBatch. destruct (tr_extents tr) as [|e es] eqn:Hes; [done|]. rewrite <- Hes in *.
    erewrite bind_run; [|apply new_ids_run; intros x Hx; by apply Hfr].
    erewrite bind_run; [done|]. apply translate_Ok. by apply stmt_runs. }
  eexists. split_and!.
  - unfold finalize_tx. fold id. rewrite (bind_run _ _ _ _ _ Hm). cbn [negb]. rewrite (bind_run _ _ _ _ _ Hs).
    unfold WALRepository_DeleteByNode. apply translate_Ok. by apply stmt_runs.
  - exact Hab2.
  - cbn. rewrite Hdb. cbn. apply lookup_insert_eq.
Qed.

Lemma finalize_stores tr r w x w' : no_faults → w_tx w = None → storable tr (w_db w) →
  d_nodes (w_db w) !! n_ID (tr_node tr) = Some r → n_State (nr_node r) = NodeStateBuffered → nr_lease_owner r = leaseOwner →
  finalize leaseOwner tr w = (x, w') → d_nodes (w_db w') !! n_ID (tr_node tr) = Some (stored_row r).
Proof.
  intros Hnf Htx Hsb Hr Hst Hlo. unfold finalize. rewrite try_run. unfold WithTx. rewrite Htx, Hnf.
  destruct (finalize_tx_runs tr r (set_tx (Some (mkTx (w_db w) false)) (tick w))) as (w1 & -> & Hab & Hrow); [done..|].
  rewrite Hab, Hnf. intros [= _ <-]. exact Hrow.
Qed.

End finalize.

(** ** What a finalized file holds *)

Section content.
Context (id : uuid) (r : NodeRow) (es : list Extent) (d d' : Db) (Hpk : packed id r es d d').
Hypothesis (Hd : tree_ok d) (Hr : d_nodes d !! id = Some r).

Lemma packed_wal k c : d_wal_chunks d' !! k = Some c ↔ d_wal_chunks d !! k = Some c ∧ c_NodeID c ≠ id.
Proof. rewrite (pk_wal _ _ _ _ _ Hpk), map_lookup_filter_Some. done. Qed.

Lemma packed_tree : rdir r = false → (∀ e, e ∈ es → e_NodeID e = id) → tree_ok d'.
Proof.
  intros Hf Hn. assert (tree_ok (put_row id (stored_row r) d)) as [H1 H2 H3 H4 H5 H6 H7 _ H8]
    by (eapply tree_ok_put_row; [done|exact Hr|by split_and!|done]).
  unfold put_row in *. simpl in *. rewrite <- (pk_nodes _ _ _ _ _ Hpk) in *. split; try done.
  - intros k e [Hk|[Hin _]]%(pk_extlk _ _ _ _ _ Hpk).
    + by eapply H6.
    + rewrite (Hn e Hin), (pk_nodes _ _ _ _ _ Hpk), lookup_insert_eq. by eexists.
  - intros k c [Hk _]%packed_wal. by eapply H7.
  - intros k b (b0 & Hb0 & ->)%(pk_blob _ _ _ _ _ Hpk). by apply (tk_blob _ Hd).
Qed.

Lemma packed_no_wal : chunks_of id d' = [].
Proof. apply rows_nil. intros k c [_ Hne]%packed_wal. by apply N.eqb_neq. Qed.

(** The file itself. *)
Lemma packed_stores st C : n_Size (nr_node r) = blen C → blen C ≤ max_file → extents_of id d = [] →
  (∀ e, e ∈ es → e_NodeID e = id) → extents_ok st C es →
  d_nodes d' !! id = Some (stored_row r) ∧ stores st id (stored_row r) d' C.
Proof.
  intros Hs Hm Hno Hn Hex. split; [by rewrite (pk_nodes _ _ _ _ _ Hpk), lookup_insert_eq|].
  split_and!; [done..|]. simpl. eapply extents_ok_perm; [|exact Hex]. rewrite sort_by_perm.
  unfold extents_of in *. rewrite (pk_ext _ _ _ _ _ Hpk), Hno, app_nil_r. apply reflexive_eq.
  clear -Hn. induction es as [|e l IH]; [done|]. simpl. rewrite (Hn e) by by left. rewrite N.eqb_refl.
  rewrite IH; [done|]. intros x Hx. apply Hn. by right.
Qed.

(** Every other file. *)
Lemma packed_others st n s C : n ≠ id → (∀ e, e ∈ es → e_NodeID e = id) →
  d_nodes d !! n = Some s → stores st n s d C → d_nodes d' !! n = Some s ∧ stores st n s d' C.
Proof.
  intros Hne Hn Hs (Hsz & Hm & Hc). split; [by rewrite (pk_nodes _ _ _ _ _ Hpk), lookup_insert_ne|].
  split_and!; [done..|].
  assert (wal_ok n d ∧ wal_content n d = C → wal_ok n d' ∧ wal_content n d' = C) as Hwal.
  { intros [[Hso Hch] Hct]. assert (node_chunks n d' = node_chunks n d) as He.
    { apply node_chunks_perm; [done|]. apply rows_agree. intros k c Hcn%N.eqb_eq. rewrite packed_wal.
      split; [by intros [? _]|]. intros ?. split; [done|congruence]. }
    unfold wal_ok, wal_content. by rewrite He. }
  destruct (n_State (nr_node s)); auto. eapply extents_ok_perm; [|exact Hc]. rewrite !sort_by_perm.
  unfold extents_of. rewrite (pk_ext _ _ _ _ _ Hpk).
  replace (List.filter _ es) with (@nil Extent); [done|]. symmetry. clear -Hn Hne.
  induction es as [|e l IH]; [done|]. simpl. rewrite (Hn e) by by left.
  rewrite (proj2 (N.eqb_neq id n)) by congruence. apply IH. intros x Hx. apply Hn. by right.
Qed.

End content.

Lemma Forall2_mem_r {X Y} (R : X → Y → Prop) l k y : Forall2 R l k → y ∈ k → ∃ x, x ∈ l ∧ R x y.
Proof.
  intros H [i Hi]%list_elem_of_lookup. destruct (Forall2_lookup_r _ _ _ _ _ H Hi) as (x & Hx & HR).
  exists x. split; [by eapply list_elem_of_lookup_2|done].
Qed.

Lemma Forall2_mem_l {X Y} (R : X → Y → Prop) l k x : Forall2 R l k → x ∈ l → ∃ y, y ∈ k ∧ R x y.
Proof.
  intros H [i Hi]%list_elem_of_lookup. destruct (Forall2_lookup_l _ _ _ _ _ H Hi) as (y & Hy & HR).
  exists y. split; [by eapply list_elem_of_lookup_2|done].
Qed.

(** The extents of a track whose blobs are all stored represent the file. *)
Lemma landed_extents st g tr es :
  whole g tr → (∀ e, e ∈ tr_extents tr → ∃ data, st (e_BlobID e) = Some data ∧ carries g e data) →
  Forall2 same_extent (tr_extents tr) es → extents_ok st g es.
Proof.
  intros Hw Hc Hall. split.
  - apply Forall_forall. intros x Hx. destruct (Forall2_mem_r _ _ _ x Hall Hx) as (e & He & ->).
    destruct (Hc e He) as (data & Hst & Hf & Hb & Hl & Hbl & Hfl & Heq). exists data. simpl. split_and!; done.
  - intros pos Hpos. destruct (Hw pos Hpos) as (e & He & Hcv). destruct (Forall2_mem_l _ _ _ e Hall He) as (x & Hx & Hs).
    exists x. split; [done|]. rewrite Hs. done.
Qed.

Lemma same_extent_node es es' n : Forall2 same_extent es es' → (∀ e, e ∈ es → e_NodeID e = n) →
  ∀ e, e ∈ es' → e_NodeID e = n.
Proof. intros Hall Hn x Hx. destruct (Forall2_mem_r _ _ _ x Hall Hx) as (e & He & ->). simpl. by rewrite (Hn e He). Qed.

(** ** The loop of [splitLarge] *)

Section split.
Context {E : Env}.
Context (t : nat) (node : Node) (ch : Channel) (blobMax : Z) (content : bytes).

Notation out_of_fuel := (ErrOther "out of fuel").

(** One round. *)
Lemma split_round k off seq st w data w1 : off < n_Size node →
  WALRepository_ReadRange (n_ID node) off (Z.min blobMax (n_Size node - off)) w = (Ok data, w1) →
  ∃ b x w2, w_db w2 = w_db w1 ∧ w_tx w2 = w_tx w1 ∧
  split_loop (S k) t node ch blobMax off seq st w
  = split_loop k t node ch blobMax (off + blen data) (seq + 1) (plan_piece t ch b x off seq data st) w2.
Proof.
  intros Hlt Hr. cbn [split_loop]. rewrite (proj2 (Z.leb_gt _ _)) by lia. rewrite try_run, Hr.
  cbn [fst snd]. unfold bind at 1. destruct (uuid_New w1) as [[b|e] wa] eqn:H1; [|done].
  unfold bind at 1. destruct (uuid_New wa) as [[x|e] wb] eqn:H2; [|done].
  unfold uuid_New in H1, H2. simplify_eq/=. eexists _, _, _. split_and!; [| |reflexivity]; done.
Qed.

(** The jobs carry the rest of the file, in order. *)
Lemma split_loop_Ok fuel off seq st w : no_faults → in_aborted w = false → wal_ok (n_ID node) (w_db w) →
  wal_content (n_ID node) (w_db w) = content → n_Size node = blen content → blen content ≤ max_int64 →
  0 < blobMax → 0 ≤ off ≤ n_Size node → n_Size node - off ≤ Z.of_nat fuel →
  ∃ st' new w', split_loop fuel t node ch blobMax off seq st w = (Ok (st', true), w')
    ∧ w_db w' = w_db w ∧ w_tx w' = w_tx w ∧ ps_jobs st' = (ps_jobs st ++ new)%list
    ∧ concat (jb_data <$> new) = drop (Z.to_nat off) content
    ∧ Forall (λ j, 0 < blen (jb_data j) ≤ blobMax ∧ jb_tracks j = [t]) new.
Proof.
  revert off seq st w. induction fuel as [|k IH]; intros off seq st w Hnf Hab Hwal HC Hsz Hmax Hbm Hoff Hf.
  - cbn [split_loop]. rewrite (proj2 (Z.leb_le _ _)) by lia. exists st, [], w. rewrite app_nil_r. split_and!; try done.
    rewrite drop_ge; [done|]. blen_lia.
  - destruct (decide (n_Size node ≤ off)) as [Hge|Hlt].
    { cbn [split_loop]. rewrite (proj2 (Z.leb_le _ _)) by lia. exists st, [], w. rewrite app_nil_r. split_and!; try done.
      rewrite drop_ge; [done|]. blen_lia. }
    set (n := Z.min blobMax (n_Size node - off)) in *. assert (n ≤ blobMax ∧ n ≤ n_Size node - off ∧ (off < n_Size node → 0 < n)) as (Hn1 & Hn2 & Hn3) by (unfold n; lia).
    destruct (ReadRange_runs (n_ID node) off n w Hnf Hab) as (data & w1 & Hr & Htx1).
    destruct (ReadRange_Ok (n_ID node) off n w data w1 Hwal (proj1 Hoff) ltac:(lia) Hr) as [Hdata Hdb1]. rewrite HC in Hdata.
    destruct (split_round k off seq st w data w1 ltac:(lia) Hr) as (b & x & w2 & Hdb2 & Htx2 & ->).
    assert (blen data = n) as Hlen by (rewrite Hdata; blen_lia).
    assert (in_aborted w2 = false) as Hab2 by (unfold in_aborted in *; by rewrite Htx2, Htx1).
    destruct (IH (off + blen data) (seq + 1) (plan_piece t ch b x off seq data st) w2)
      as (st' & new & w' & -> & Hdb & Htx & Hjobs & Hcat & Hall); try done; try (rewrite ?Hdb2, ?Hdb1; done); try lia.
    exists st', (mkBlobJob b data ch [t] :: new), w'. split_and!; try done; try congruence.
    + rewrite Hjobs. unfold plan_piece. simpl. by rewrite <- app_assoc.
    + rewrite fmap_cons. simpl. rewrite Hcat, Hlen, Hdata.
      replace (Z.to_nat (off + n)) with (Z.to_nat off + Z.to_nat n)%nat by lia.
      rewrite <- drop_drop. apply take_drop.
    + constructor; [|done]. simpl. rewrite Hlen. split; [lia|done].
Qed.

(** A file whose chunks end before its size says: the loop never ends. *)
Lemma split_loop_spins fuel off seq st w : no_faults → in_aborted w = false → wal_ok (n_ID node) (w_db w) →
  blen (wal_content (n_ID node) (w_db w)) < n_Size node ≤ max_int64 →
  0 < blobMax → 0 ≤ off ≤ blen (wal_content (n_ID node) (w_db w)) →
  (split_loop fuel t node ch blobMax off seq st w).1 = Err out_of_fuel.
Proof.
  revert off seq st w. induction fuel as [|k IH]; intros off seq st w Hnf Hab Hwal Hsz Hbm Hoff.
  { cbn [split_loop]. by rewrite (proj2 (Z.leb_gt _ _)) by lia. }
  set (n := Z.min blobMax (n_Size node - off)) in *. assert (n ≤ blobMax ∧ n ≤ n_Size node - off ∧ (off < n_Size node → 0 < n)) as (Hn1 & Hn2 & Hn3) by (unfold n; lia).
  destruct (ReadRange_runs (n_ID node) off n w Hnf Hab) as (data & w1 & Hr & Htx1).
  destruct (ReadRange_Ok (n_ID node) off n w data w1 Hwal (proj1 Hoff) ltac:(lia) Hr) as [Hdata Hdb1].
  destruct (split_round k off seq st w data w1 ltac:(lia) Hr) as (b & x & w2 & Hdb2 & Htx2 & ->).
  assert (w_db w2 = w_db w) as Hdb by congruence. apply IH; rewrite ?Hdb; try done.
  - unfold in_aborted in *. by rewrite Htx2, Htx1.
  - rewrite Hdata. blen_lia.
Qed.

End split.
