(* ===== verification/IdentityFacts.v ===== *)
(** * Facts about authentication: what the verification cache may be
    trusted for, the gates of administrators, tokens and the public paths *)
From Stdlib Require Import ZArith Lia Strings.Byte Strings.String Strings.Ascii.
From stdpp Require Import base tactics list gmap strings relations.
From S2P Require Import Prelude Model Sql SqlFacts World Repository Crypto Text Password Accounts Identity Limiter.
From S2P Require Import FileSystem Telegram Bots WebDav Management Keeps.
From S2P Require CreateFacts.
#[local] Open Scope string_scope.
#[local] Open Scope Z_scope.
Open Scope m_scope.

(** ** The key of a verification *)

Lemma bytes_of_inj s t : bytes_of s = bytes_of t → s = t.
Proof. intros H. rewrite <- (string_of_bytes_of s), <- (string_of_bytes_of t). by rewrite H. Qed.

(** Text of the database: PostgreSQL admits no NUL in it. *)
Definition no_nul (s : string) : bool := negb (StringHas "000" s).

Lemma split_at_nul a b x y : no_nul a = true → no_nul b = true → a +:+ NUL +:+ x = b +:+ NUL +:+ y → a = b ∧ x = y.
Proof.
  unfold no_nul. revert b. induction a as [|c a IH]; intros [|d b]; cbn; rewrite ?negb_true_iff.
  - intros _ _ [= ->]. done.
  - intros _ Hb [= <- _]. by rewrite Ascii.eqb_refl in Hb.
  - intros Ha _ [= -> _]. by rewrite Ascii.eqb_refl in Ha.
  - intros [_ Ha]%orb_false_iff [_ Hb]%orb_false_iff [= -> He].
    destruct (IH b) as [-> ->]; rewrite ?negb_true_iff; done.
Qed.

(** What is hashed for a login, a stored hash and a password. *)
Definition triple (login hash pw : string) : string := login +:+ NUL +:+ hash +:+ NUL +:+ pw.

Lemma triple_inj l h p l' h' p' : no_nul l = true → no_nul h = true → no_nul l' = true → no_nul h' = true →
  triple l h p = triple l' h' p' → l = l' ∧ h = h' ∧ p = p'.
Proof. intros ? ? ? ? [-> H]%split_at_nul; [|done..]. by apply split_at_nul in H as [-> ->]. Qed.

Lemma cache_key_eq l h p l' h' p' : verifyCacheKey l h p = verifyCacheKey l' h' p' →
  sha256 (bytes_of (triple l h p)) = sha256 (bytes_of (triple l' h' p')).
Proof. apply hex_encode_inj. Qed.

(** ** Recent verifications *)

Section cache.
Context {E : Env} {K : Kdf}.

(** The key of a triple whose password was verified against its hash. *)
Definition verified_key (key : string) : Prop := ∃ l h p, key = verifyCacheKey l h p
  ∧ no_nul l = true ∧ no_nul h = true ∧ VerifyPassword h p = Some (Ok true).

Definition vc_ok (w : World) : Prop := ∀ key exp, w_vc w !! key = Some exp → verified_key key.

(** The tables' logins and hashes are text. *)
Definition plain_users (d : Db) : Prop := ∀ id u, d_users d !! id = Some u →
  no_nul (u_Login u) = true ∧ no_nul (u_PasswordHash u) = true.

(** The password is right for the hash, or the digest of the triple is that of
    another triple that was verified: a collision of SHA-256. *)
Definition proved (l h p : string) : Prop :=
  VerifyPassword h p = Some (Ok true)
  ∨ ∃ l' h' p', VerifyPassword h' p' = Some (Ok true) ∧ triple l' h' p' ≠ triple l h p
      ∧ sha256 (bytes_of (triple l' h' p')) = sha256 (bytes_of (triple l h p)).

Lemma verified_proved l h p : no_nul l = true → no_nul h = true → verified_key (verifyCacheKey l h p) → proved l h p.
Proof.
  intros Hl Hh (l' & h' & p' & He & Hl' & Hh' & Hv). destruct (decide (triple l' h' p' = triple l h p)) as [Ht|Ht].
  - left. destruct (triple_inj _ _ _ _ _ _ Hl' Hh' Hl Hh Ht) as (_ & -> & ->). done.
  - right. exists l', h', p'. split_and!; [done|done|]. symmetry. by apply cache_key_eq.
Qed.

Lemma verifiedRecently_run key w : vc_ok w → ∃ b w', verifiedRecently key w = (Ok b, w') ∧ w_db w' = w_db w
  ∧ w_tx w' = w_tx w ∧ vc_ok w' ∧ (b = true → verified_key key).
Proof.
  intros Hvc. unfold verifiedRecently, bind, gets. destruct (w_vc w !! key) as [exp|] eqn:Hk; [|by exists false, w].
  unfold Now. destruct (After _ _).
  - eexists _, _. split; [reflexivity|]. split_and!; try done. intros k e. simpl. intros [_ Hke]%lookup_delete_Some. by eapply Hvc.
  - eexists _, _. split; [reflexivity|]. split_and!; try done. intros _. by eapply Hvc.
Qed.

Lemma markVerified_run key w : vc_ok w → verified_key key → ∃ w', markVerified key w = (Ok tt, w')
  ∧ w_db w' = w_db w ∧ w_tx w' = w_tx w ∧ vc_ok w'.
Proof.
  intros Hvc Hkey. eexists. split; [reflexivity|]. split_and!; try done. intros k e. simpl.
  intros [[<- _]|[_ H]]%lookup_insert_Some; [done|]. unfold vc_prune in H. simpl in H.
  destruct (_ <? _); [apply map_lookup_filter_Some in H as [H _]|]; by eapply Hvc.
Qed.

(** What one statement changes. *)
Lemma stmt_frame {A} (q : sql A) w r w' : translate (stmt q) w = (r, w') →
  w_vc w' = w_vc w ∧ (w_tx w = None → w_tx w' = None)
  ∧ match r with Ok a => q (w_db w) = SqlOk a (w_db w') | Err _ => w_db w' = w_db w end.
Proof.
  unfold translate. destruct (stmt q w) as [[a|e] w1] eqn:Hs; intros [= <- <-].
  - by apply stmt_Ok in Hs as (_ & _ & d & Hq & ->).
  - pose proof (query_Err _ _ _ _ Hs) as (Hdb & _ & Htx & _). split_and!; [|done..].
    unfold stmt, query in Hs. repeat case_match; simplify_eq; try done; unfold abort_tx; by destruct (w_tx w).
Qed.

Lemma GetUserByLogin_run login w r w' : UserRepository_GetByLogin login w = (r, w') →
  w_db w' = w_db w ∧ (w_tx w = None → w_tx w' = None) ∧ w_vc w' = w_vc w ∧ match r with
  | Ok u => (∃ id, d_users (w_db w) !! id = Some u) ∧ u_Login u = login | Err _ => True end.
Proof.
  intros (Hv & Ht & Hr)%stmt_frame. destruct r as [u|e]; [|done].
  unfold GetUserByLogin, one in Hr. destruct (rows _ _) as [|x l] eqn:Hl; [done|]. injection Hr as -> Hd.
  assert (u ∈ u :: l) as Hin by by left. rewrite <- Hl in Hin. apply elem_of_rows in Hin as (id & Hid & He).
  apply String.eqb_eq in He. split_and!; try done. by exists id.
Qed.

(** What never changes while a request is authenticated. *)
Record quiet_auth (w w' : World) : Prop := {
  qa_db : w_db w' = w_db w;
  qa_tx : w_tx w = None → w_tx w' = None;
  qa_vc : vc_ok w → vc_ok w' }.

#[local] Instance quiet_auth_preorder : PreOrder quiet_auth.
Proof. split; [by split|]. intros a b c [H1 H2 H3] [H4 H5 H6]. split; [congruence|auto|auto]. Qed.

Lemma GetUserByLogin_quiet login w r w' : UserRepository_GetByLogin login w = (r, w') → quiet_auth w w'.
Proof.
  intros (Hd & Ht & Hv & _)%GetUserByLogin_run. split; [done|done|]. intros H k e Hk. rewrite Hv in Hk. by eapply H.
Qed.

Lemma lookup_run login pw w r w' : vc_ok w → plain_users (w_db w) → lookupAndVerify login pw w = (r, w') →
  quiet_auth w w' ∧ match r with
  | Ok u => (∃ id, d_users (w_db w) !! id = Some u) ∧ u_Login u = login ∧ proved login (u_PasswordHash u) pw
  | Err _ => True end.
Proof.
  intros Hvc Hpl. unfold lookupAndVerify. rewrite try_run.
  destruct (UserRepository_GetByLogin login w) as [[u|e] w1] eqn:Hg; simpl;
    pose proof (GetUserByLogin_quiet _ _ _ _ Hg) as Q1; apply GetUserByLogin_run in Hg as (Hd1 & Ht1 & Hv1 & Hu).
  2: { destruct (errors_Is e ErrNotFound); [destruct (VerifyPassword _ _)|]; intros [= <- <-]; done. }
  destruct Hu as [[id Hid] Hl]. destruct (Hpl id u Hid) as [Hnl Hnh]. rewrite Hl in Hnl.
  destruct (verifiedRecently_run (verifyCacheKey login (u_PasswordHash u) pw) w1 (qa_vc _ _ Q1 Hvc))
    as (b & w2 & Hr & Hd2 & Ht2 & Hv2 & Hb).
  assert (quiet_auth w w2) as Q2 by (split; [congruence|rewrite Ht2; apply Q1|done]).
  unfold bind at 1. rewrite Hr. destruct b.
  { intros [= <- <-]. split; [done|]. split_and!; [by exists id|done|]. apply verified_proved; auto. }
  destruct (VerifyPassword (u_PasswordHash u) pw) as [[[|]|]|] eqn:Hver; simpl; try (by intros [= <- <-]).
  assert (verified_key (verifyCacheKey login (u_PasswordHash u) pw)) as Hkey
    by (exists login, (u_PasswordHash u), pw; by split_and!).
  destruct (markVerified_run _ w2 Hv2 Hkey) as (w3 & Hm & Hd3 & Ht3 & Hv3).
  unfold bind. rewrite Hm. intros [= <- <-]. split; [split; [congruence|rewrite Ht3; apply Q2|done]|].
  split_and!; [by exists id|done|]. by left.
Qed.

(** A user name is a login, or an administrator's login and a target's. *)
Definition names (username login target : string) : Prop :=
  (username = login ∧ target = login ∧ StringHas "/" username = false)
  ∨ (username = login +:+ "/" +:+ target ∧ StringHas "/" login = false).

Lemma Cut_none c s : match Cut c s with (a, b, false) => a = s ∧ StringHas c s = false | _ => True end.
Proof.
  induction s as [|d s IH]; [done|]. cbn. destruct (Ascii.eqb d c) eqn:He; [done|].
  destruct (Cut c s) as [[a b] [|]]; [done|]. destruct IH as [-> ->]. done.
Qed.

Lemma AuthenticateBasic_run username pw w r w' : vc_ok w → plain_users (w_db w) →
  AuthenticateBasic username pw w = (r, w') →
  quiet_auth w w' ∧ match r with
  | Ok p => ∃ login target a t, names username login target
      ∧ p = mkPrincipal (Some t) (Some a)
      ∧ (∃ i, d_users (w_db w) !! i = Some a) ∧ u_Login a = login
      ∧ (∃ i, d_users (w_db w) !! i = Some t) ∧ u_Login t = target
      ∧ proved login (u_PasswordHash a) pw ∧ (StringHas "/" username = true → u_IsAdmin a = true)
  | Err _ => True end.
Proof.
  intros Hvc Hpl. unfold AuthenticateBasic. destruct (Cut "/" username) as [[al tl] [|]] eqn:Hcut.
  - apply Cut_spec in Hcut as [-> Hno]. unfold authenticateImpersonation. intros H.
    apply bind_cases in H as [(a & w1 & Hl & H)|(e & Hl & ->)]; apply lookup_run in Hl as [Q1 Hp]; try done.
    destruct (u_IsAdmin a) eqn:Hadm; simpl in H; [|by injection H as <- <-].
    rewrite try_run in H. destruct (UserRepository_GetByLogin tl w1) as [[t|e] w2] eqn:Hg; simpl in H;
      pose proof (GetUserByLogin_quiet _ _ _ _ Hg) as Q2; apply GetUserByLogin_run in Hg as (_ & _ & _ & Ht).
    2: { assert (quiet_auth w w2) by (by etrans). destruct (errors_Is e ErrNotFound); by injection H as <- <-. }
    injection H as <- <-. split; [by etrans|]. destruct Hp as (Ha & Hla & Hpr), Ht as [Ht Hlt].
    rewrite (qa_db _ _ Q1) in Ht. exists al, tl, a, t. split_and!; try done. by right.
  - intros H. pose proof (Cut_none "/" username) as Hn. rewrite Hcut in Hn. destruct Hn as [_ Hn].
    apply bind_cases in H as [(u & w1 & Hl & H)|(e & Hl & ->)]; apply lookup_run in Hl as [Q1 Hp]; try done.
    injection H as <- <-. split; [done|]. destruct Hp as (Hu & Hlu & Hpr). exists username, username, u, u.
    split_and!; try done; [by left|congruence].
Qed.

End cache.

(** ** Tokens *)

(** The tables up to the last use of a token. *)
Definition touched (d d' : Db) : Prop :=
  d' = d ∨ ∃ id at_ t, d_api_tokens d !! id = Some t
    ∧ d' = set_api_tokens (<[id := mkAPIToken (t_ID t) (t_UserID t) (t_TokenHash t) (t_Name t) (t_CreatedAt t) (Some at_)]>
             (d_api_tokens d)) d.

(** A token of the tables, and its owner. *)
Definition token_of (d : Db) (token : string) (u : User) : Prop :=
  ∃ i t, d_api_tokens d !! i = Some t ∧ t_TokenHash t = hashAPIToken token ∧ d_users d !! t_UserID t = Some u.

Section tokens.
Context {E : Env} {K : Kdf}.

Lemma Touch_run id at_ w r w' : TokenRepository_TouchLastUsed id at_ w = (r, w') →
  w_vc w' = w_vc w ∧ (w_tx w = None → w_tx w' = None) ∧ touched (w_db w) (w_db w').
Proof.
  unfold TokenRepository_TouchLastUsed, need_row. intros H.
  apply bind_cases in H as [(n & w1 & Hs & H)|(e & Hs & ->)]; apply stmt_frame in Hs as (Hv & Ht & Hq).
  2: { split_and!; [done..|by left]. }
  assert (w' = w1) as -> by (destruct (n =? 0); by injection H). split_and!; [done..|].
  unfold TouchAPITokenLastUsed in Hq. destruct (d_api_tokens (w_db w) !! id) as [t|] eqn:Hi.
  - injection Hq as _ <-. right. by exists id, at_, t.
  - injection Hq as _ <-. by left.
Qed.

Lemma bearer_run token w r w' : AuthenticateBearer token w = (r, w') →
  w_vc w' = w_vc w ∧ (w_tx w = None → w_tx w' = None) ∧ touched (w_db w) (w_db w')
  ∧ match r with Ok u => token_of (w_db w) token u | Err _ => True end.
Proof.
  unfold AuthenticateBearer. rewrite try_run.
  destruct (TokenRepository_GetByHash (hashAPIToken token) w) as [[t|e] w1] eqn:Hg; apply stmt_frame in Hg as (Hv & Ht & Hq);
    cbn [fst snd].
  2: { assert (touched (w_db w) (w_db w1)) as Hto by (by left). intros H. destruct (errors_Is e ErrNotFound); by injection H as <- <-. }
  unfold GetAPITokenByHash, one in Hq. destruct (rows _ _) as [|x l] eqn:Hl; [done|]. injection Hq as -> Hd.
  assert (t ∈ t :: l) as Hin by by left. rewrite <- Hl in Hin. apply elem_of_rows in Hin as (i & Hi & He).
  apply String.eqb_eq in He. rewrite try_run.
  destruct (UserRepository_GetByID (t_UserID t) w1) as [[u|e] w2] eqn:Hu; apply stmt_frame in Hu as (Hv2 & Ht2 & Hq2);
    cbn [fst snd].
  2: { assert (touched (w_db w) (w_db w2)) as Hto by (left; congruence). intros H.
       destruct (errors_Is e ErrNotFound); injection H as <- <-; split_and!; try done; try congruence; auto. }
  unfold GetUserByID, one_opt in Hq2. rewrite <- Hd in Hq2. destruct (d_users (w_db w) !! t_UserID t) as [v|] eqn:Hv3; [|done].
  injection Hq2 as -> Hd2. unfold bind, Now, try.
  destruct (TokenRepository_TouchLastUsed _ _ _) as [x w3] eqn:Hto. apply Touch_run in Hto as (Hv4 & Ht4 & Hto).
  intros [= <- <-]. simpl in Hv4, Ht4, Hto. rewrite <- Hd2 in Hto. split_and!; [congruence|auto|done|by exists i, t].
Qed.

Lemma CreateToken_Ok user name w pt tok w' : CreateToken user name w = (Ok (pt, tok), w') →
  ∃ u, d_users (w_db w) !! user = Some u ∧ t_TokenHash tok = hashAPIToken pt ∧ t_UserID tok = user
  ∧ d_api_tokens (w_db w) !! t_ID tok = None
  ∧ (∀ k t, d_api_tokens (w_db w) !! k = Some t → t_TokenHash t ≠ hashAPIToken pt)
  ∧ w_db w' = set_api_tokens (<[t_ID tok := tok]> (d_api_tokens (w_db w))) (w_db w) ∧ w_tx w' = w_tx w.
Proof.
  unfold CreateToken. intros H. apply bind_Ok in H as (u & w1 & Hu & H). unfold UserRepository_GetByID in Hu. m_inv.
  unfold GetUserByID, one_opt in Hq. destruct (d_users (w_db w) !! user) as [v|] eqn:Hv; [|done]. injection Hq as <- <-.
  unfold generateAPIToken in Hm. destruct (rand_read _ 32) as [buf|]; [|done]. injection Hm as <- <-.
  unfold TokenRepository_Create in Hm2. clear Hab Hfa.
  apply bind_Ok in Hm2 as (id & w2 & Hid & Htk). apply CreateFacts.or_new_Ok in Hid as (Hd & Ht & _).
  apply bind_Ok in Htk as (cr & w3 & Hcr & Htk).
  assert (w_db w3 = w_db w2 ∧ w_tx w3 = w_tx w2) as [Hd3 Ht3]
    by (unfold or_now in Hcr; destruct (IsZero _); injection Hcr as _ <-; done).
  m_inv. unfold CreateAPIToken in Hq. simpl in Hq. rewrite Hd3, Hd in Hq. simpl in Hq.
  destruct (bool_decide _) eqn:Hfr; [done|]. destruct (row_exists _ _) eqn:Hun; [done|]. simpl in Hq.
  destruct (bool_decide (is_Some (d_users (w_db w) !! user))); [|done]. injection Hq as <-.
  exists v. split_and!; try done; simpl.
  - apply bool_decide_eq_false in Hfr. by apply eq_None_not_Some.
  - intros k t Hk He. pose proof (proj1 (row_exists_false _ _) Hun k t Hk) as Hne. simpl in Hne.
    rewrite He, String.eqb_refl in Hne. done.
  - simpl in *. congruence.
Qed.

(** A token known to the table authenticates its owner; an unknown one nobody. *)
Lemma bearer_known token tok u w : no_faults → w_tx w = None →
  rows (λ t, String.eqb (t_TokenHash t) (hashAPIToken token)) (d_api_tokens (w_db w)) = [tok] →
  d_users (w_db w) !! t_UserID tok = Some u → ∃ w', AuthenticateBearer token w = (Ok u, w').
Proof.
  intros Hnf Htx Hr Hu. unfold AuthenticateBearer. rewrite try_run.
  assert (TokenRepository_GetByHash (hashAPIToken token) w = (Ok tok, tick w)) as ->.
  { unfold TokenRepository_GetByHash. apply translate_Ok, stmt_Ok. unfold in_aborted. rewrite Htx. split; [done|]. split; [apply Hnf|].
    exists (w_db w). unfold GetAPITokenByHash. rewrite Hr. split; [done|]. by rewrite set_db_id. }
  cbn [fst snd]. rewrite try_run.
  assert (UserRepository_GetByID (t_UserID tok) (tick w) = (Ok u, tick (tick w))) as ->.
  { unfold UserRepository_GetByID. apply translate_Ok, stmt_Ok. unfold in_aborted. simpl. rewrite Htx. split; [done|]. split; [apply Hnf|].
    exists (w_db w). unfold GetUserByID, one_opt. rewrite Hu. split; [done|]. by destruct w. }
  cbn [fst snd]. unfold bind, Now, try. destruct (TokenRepository_TouchLastUsed _ _ _) as [x w']. by exists w'.
Qed.

Lemma bearer_unknown token w : no_faults → w_tx w = None →
  rows (λ t, String.eqb (t_TokenHash t) (hashAPIToken token)) (d_api_tokens (w_db w)) = [] →
  (AuthenticateBearer token w).1 = Err ErrUnauthorized.
Proof.
  intros Hnf Htx Hr. unfold AuthenticateBearer. rewrite try_run. unfold TokenRepository_GetByHash, translate, stmt, query, in_aborted.
  rewrite Htx, Hnf. unfold GetAPITokenByHash, one. by rewrite Hr.
Qed.

Lemma DeleteToken_Ok user token w u w' : DeleteToken user token w = (Ok u, w') →
  w_db w' = set_api_tokens (delete token (d_api_tokens (w_db w))) (w_db w) ∧ w_tx w' = w_tx w
  ∧ ∃ k t, d_api_tokens (w_db w) !! k = Some t ∧ t_ID t = token ∧ t_UserID t = user.
Proof.
  unfold DeleteToken, TokenRepository_ListByUser, TokenRepository_Delete. intros H.
  apply bind_Ok in H as (l & w1 & Hl & H). m_inv. unfold ListAPITokensByUser, many in Hq. injection Hq as <- <-.
  destruct (existsb _ _) eqn:Hex; simpl in H; [|done]. m_inv. unfold DeleteAPIToken in Hq. simpl in Hq.
  apply existsb_exists in Hex as (t & Hin%list_elem_of_In & Hid%N.eqb_eq). unfold sort_by_desc in Hin.
  rewrite sort_by_perm in Hin. apply elem_of_rows in Hin as (k & Hk & Hu%N.eqb_eq).
  destruct (d_api_tokens (w_db w) !! token); [|by injection Hq as <- <-]. injection Hq as <- <-.
  split_and!; [done|done|]. by exists k, t.
Qed.

End tokens.

(** ** The gates: administrators, tokens, and the public paths *)

(** ** Tokens come and go *)

Lemma rows_insert_fresh {A} (P : A → bool) (m : gmap uuid A) i x :
  m !! i = None → P x = true → (∀ k y, m !! k = Some y → P y = false) → rows P (<[i := x]> m) = [x].
Proof.
  intros Hi Hx Hno. apply Permutation_singleton_r. rewrite rows_insert by done.
  by rewrite Hx, (proj2 (rows_nil P m) Hno).
Qed.

Lemma rows_unique {A} (P : A → bool) (m : gmap uuid A) i x :
  m !! i = Some x → P x = true → (∀ k y, m !! k = Some y → P y = true → k = i) → rows P m = [x].
Proof.
  intros Hi Hx Hu. rewrite <- (insert_id m i x Hi), <- insert_delete_eq. apply rows_insert_fresh; [apply lookup_delete_eq|done|].
  intros k y [Hne Hk]%lookup_delete_Some. apply not_true_iff_false. intros Hy. destruct Hne. symmetry. by eapply Hu.
Qed.

Section tokens.
Context {E : Env} {K : Kdf}.

Lemma DeleteToken_runs user token t w : no_faults → w_tx w = None →
  d_api_tokens (w_db w) !! token = Some t → t_ID t = token → t_UserID t = user →
  ∃ w', DeleteToken user token w = (Ok tt, w') ∧ w_tx w' = None
    ∧ w_db w' = set_api_tokens (delete token (d_api_tokens (w_db w))) (w_db w).
Proof.
  intros Hnf Htx Ht Hid Hu. unfold DeleteToken, TokenRepository_ListByUser, TokenRepository_Delete.
  unfold bind at 1, translate at 1, stmt at 1, query at 1, in_aborted at 1. rewrite Htx, Hnf. cbn [ListAPITokensByUser many].
  assert (existsb (λ x, (t_ID x =? token)%N)
    (sort_by_desc t_CreatedAt (rows (λ x, (t_UserID x =? user)%N) (d_api_tokens (w_db w)))) = true) as ->.
  { apply existsb_exists. exists t. split; [|by apply N.eqb_eq]. apply list_elem_of_In. unfold sort_by_desc.
    rewrite sort_by_perm. apply elem_of_rows. exists token. split; [done|by apply N.eqb_eq]. }
  eexists. split.
  - unfold need_row, bind, translate, stmt, query, in_aborted. simpl. rewrite Htx, Hnf. unfold DeleteAPIToken.
    rewrite Ht. simpl. reflexivity.
  - by split.
Qed.

End tokens.

(** ** A user is created and logs in *)

Definition users_keyed (d : Db) : Prop := ∀ k u, d_users d !! k = Some u → u_ID u = k.

Section users.
Context {E : Env} {K : Kdf}.

Lemma or_new_mem id w x w' : or_new id w = (Ok x, w') → w_db w' = w_db w ∧ w_tx w' = w_tx w ∧ w_vc w' = w_vc w.
Proof. unfold or_new. by destruct (N.eqb id uuid_Nil); intros [= _ <-]. Qed.
Lemma or_now_mem t w x w' : or_now t w = (Ok x, w') → w_db w' = w_db w ∧ w_tx w' = w_tx w ∧ w_vc w' = w_vc w.
Proof. unfold or_now. by destruct (IsZero t); intros [= _ <-]. Qed.

(** The row written for a new user. *)
Definition new_user (p : CreateUserParams) (h : string) (u : User) : User :=
  mkUser (u_ID u) (cp_Login p) h (cp_IsAdmin p) (cp_QuotaBytes p) (cp_BandwidthBPS p) (int32_of (cp_RatePerMin p)) (u_CreatedAt u).

Lemma User_Create_Ok p w u w' : users_keyed (w_db w) → User_Create p w = (Ok u, w') → ∃ h,
  HashPassword (cp_Password p) w = (Ok h, tick w) ∧ d_users (w_db w) !! u_ID u = None
  ∧ (∀ k v, d_users (w_db w) !! k = Some v → u_Login v ≠ cp_Login p)
  ∧ w_db w' = set_users (<[u_ID u := new_user p h u]> (d_users (w_db w))) (w_db w)
  ∧ w_tx w' = w_tx w ∧ w_vc w' = w_vc w.
Proof.
  intros Hkeyed H. unfold User_Create in H. apply bind_Ok in H as (h & w1 & Hh & H).
  pose proof Hh as [-> _]%HashPassword_Ok. exists h. split; [done|].
  apply bind_Ok in H as (id & w2 & Hid & H). injection Hid as <- <-.
  apply bind_Ok in H as (now & w3 & Hn & H). injection Hn as <- <-.
  unfold UserRepository_Create in H. apply bind_Ok in H as (id & w4 & Hid & H). apply or_new_mem in Hid as (Hd4 & Ht4 & Hv4).
  apply bind_Ok in H as (cr & w5 & Hcr & H). apply or_now_mem in Hcr as (Hd5 & Ht5 & Hv5).
  apply bind_Ok in H as (x & w6 & Hs & H). injection H as <- <-.
  apply translate_Ok, stmt_Ok in Hs as (_ & _ & d & Hq & ->).
  unfold CreateUser in Hq. assert (w_db w5 = w_db w) as Hd by (rewrite Hd5, Hd4; done). rewrite Hd in Hq.
  cbn [u_ID u_Login user_with_rate] in Hq. destruct (bool_decide _) eqn:Hfr; [done|].
  destruct (login_taken _ _ _) eqn:Hlt; [done|]. injection Hq as <-.
  apply bool_decide_eq_false in Hfr. apply eq_None_not_Some in Hfr. unfold new_user. cbn.
  split_and!; [done| |done|by rewrite Ht5, Ht4|by rewrite Hv5, Hv4].
  intros k v Hk Hl. unfold login_taken in Hlt. pose proof (proj1 (row_exists_false _ _) Hlt k v Hk) as Hf. cbn in Hf.
  rewrite Hl, String.eqb_refl in Hf. apply negb_false_iff, N.eqb_eq in Hf. rewrite (Hkeyed k v Hk) in Hf. congruence.
Qed.

(** Once there is a user, a restart makes no administrator. *)
Lemma bootstrap_once firstUser w u w' : d_users (w_db w) ≠ ∅ → bootstrapAdmin firstUser w = (u, w') → w_db w' = w_db w.
Proof.
  intros Hne. unfold bootstrapAdmin, User_List, UserRepository_List. rewrite try_run.
  destruct (translate (stmt ListUsers) w) as [[l|e] w1] eqn:Hl; apply stmt_frame in Hl as (_ & _ & Hq); cbn [fst snd];
    [|intros [= _ <-]; done].
  unfold ListUsers, many in Hq. injection Hq as Hl Hd. destruct (Z.ltb_spec 0 (blen l)) as [_|Hn]; [by intros [= _ <-]|].
  assert (l = []) as -> by (apply blen_nil_inv; pose proof (blen_nonneg l); lia).
  apply map_choose in Hne as (i & x & Hx). assert (x ∈ rows (λ _, true) (d_users (w_db w))) as Hin by (apply elem_of_rows; by exists i).
  rewrite <- (sort_by_perm u_CreatedAt), Hl in Hin. by apply not_elem_of_nil in Hin.
Qed.

(** The password of a user whose hash verifies opens the account. *)
Lemma login_ok u k pw w : no_faults → w_tx w = None → StringHas "/" (u_Login u) = false →
  rows (λ v, String.eqb (u_Login v) (u_Login u)) (d_users (w_db w)) = [u] → d_users (w_db w) !! k = Some u →
  VerifyPassword (u_PasswordHash u) pw = Some (Ok true) →
  ∃ w', AuthenticateBasic (u_Login u) pw w = (Ok (mkPrincipal (Some u) (Some u)), w').
Proof.
  intros Hnf Htx Hsl Hr Hk Hv. unfold AuthenticateBasic. pose proof (Cut_none "/" (u_Login u)) as Hc.
  destruct (Cut "/" (u_Login u)) as [[x y] [|]] eqn:Hcut.
  { apply Cut_spec in Hcut as [Heq _]. rewrite Heq, StringHas_app in Hsl. cbn in Hsl. by rewrite orb_true_r in Hsl. }
  assert (UserRepository_GetByLogin (u_Login u) w = (Ok u, tick w)) as Hg.
  { unfold UserRepository_GetByLogin. apply translate_Ok, stmt_Ok. unfold in_aborted. rewrite Htx. split; [done|]. split; [apply Hnf|].
    exists (w_db w). unfold GetUserByLogin. rewrite Hr. split; [done|]. by rewrite set_db_id. }
  unfold lookupAndVerify, bind, try. rewrite Hg. unfold verifiedRecently, bind, gets, Now.
  destruct (w_vc (tick w) !! _) as [exp|]; [destruct (After _ _)|]; cbn [fst snd ret modify]; rewrite ?Hv; by eexists.
Qed.

End users.

(** ** The administrator gate *)

(** The tables know an administrator of these credentials. *)
Definition admin_proof {E : Env} {K : Kdf} (d : Db) (authorization : string) (u : User) : Prop :=
  u_IsAdmin u = true ∧
  ((∃ token, bearerToken authorization = Some token ∧ token_of d token u)
   ∨ ∃ username pw login target, BasicCredentials authorization = Some (username, pw)
       ∧ names username login target ∧ (∃ i, d_users d !! i = Some u) ∧ u_Login u = login
       ∧ proved login (u_PasswordHash u) pw).

Section gate.
Context {E : Env} {K : Kdf}.

Lemma authenticateAdmin_run authorization w r w' : vc_ok w → plain_users (w_db w) →
  authenticateAdmin authorization w = (r, w') →
  vc_ok w' ∧ (w_tx w = None → w_tx w' = None) ∧ touched (w_db w) (w_db w')
  ∧ match r with Ok u => admin_proof (w_db w) authorization u | Err _ => True end.
Proof.
  intros Hvc Hpl. unfold authenticateAdmin. destruct (bearerToken authorization) as [token|] eqn:Hb.
  - rewrite try_run. destruct (AuthenticateBearer token w) as [x w1] eqn:Ha. cbn [fst snd].
    apply bearer_run in Ha as (Hv & Ht & Hto & Hx).
    assert (vc_ok w1) as Hvc1 by (intros k e Hk; rewrite Hv in Hk; by eapply Hvc).
    destruct x as [u|e]; [destruct (u_IsAdmin u) eqn:Hadm|]; intros [= <- <-]; split_and!; try done.
    split; [done|]. left. by exists token.
  - destruct (BasicCredentials authorization) as [[username pw]|] eqn:Hc; [|intros [= <- <-]; split_and!; [done..|by left|done]].
    rewrite try_run. destruct (AuthenticateBasic username pw w) as [x w1] eqn:Ha. cbn [fst snd].
    apply AuthenticateBasic_run in Ha as [[Hd Ht Hv] Hx]; [|done..].
    assert (touched (w_db w) (w_db w1)) as Hto by by left. destruct x as [p|e].
    + destruct Hx as (login & target & a & t & Hn & -> & Ha & Hl & _ & _ & Hpr & _).
      unfold Principal_IsAdmin. simpl. destruct (u_IsAdmin a) eqn:Hadm; intros [= <- <-]; split_and!; auto.
      split; [done|]. right. by exists username, pw, login, target.
    + intros H. destruct (is_panic e), (errors_Is e ErrForbidden); injection H as <- <-; split_and!; auto.
Qed.

(** What the gate answers by itself. *)
Definition refused (x : apiResp) : Prop := (ar_Status x = 401 ∨ ar_Status x = 403 ∨ ar_Status x = 500)
  ∧ (ar_Body x = BError ∨ ar_Body x = BNone).

End gate.

(** ** The life of a token *)

Section life.
Context {E : Env} {K : Kdf}.

(** What may happen to the accounts between two looks at them: a bearer token is
    presented, tokens are created and deleted, users created, deleted and given new
    passwords, with whatever outcome, and anything else that leaves these two tables.
    The parameters say which tokens and users may be deleted and which tokens drawn. *)
Inductive account_step (del_token del_user : uuid → Prop) (drawn : string → Prop) : relation World :=
  | ac_bearer token w r w' : AuthenticateBearer token w = (r, w') → account_step del_token del_user drawn w w'
  | ac_create user name w r w' : CreateToken user name w = (r, w') → (∀ pt t, r = Ok (pt, t) → drawn pt) →
      account_step del_token del_user drawn w w'
  | ac_delete user token w r w' : DeleteToken user token w = (r, w') → del_token token →
      account_step del_token del_user drawn w w'
  | ac_user p w r w' : User_Create p w = (r, w') → account_step del_token del_user drawn w w'
  | ac_password id pw w r w' : SetPassword id pw w = (r, w') → account_step del_token del_user drawn w w'
  | ac_delete_user id w r w' : User_Delete id w = (r, w') → del_user id → account_step del_token del_user drawn w w'
  | ac_other w w' : d_users (w_db w') = d_users (w_db w) → d_api_tokens (w_db w') = d_api_tokens (w_db w) →
      w_tx w' = w_tx w → account_step del_token del_user drawn w w'.

(** The token is in the table as it was made, but for the time of its last use, the only
    one with its hash, and its owner exists. *)
Definition alive (tok : APIToken) (d : Db) : Prop :=
  (∃ t, d_api_tokens d !! t_ID tok = Some t ∧ t_ID t = t_ID tok ∧ t_UserID t = t_UserID tok ∧ t_TokenHash t = t_TokenHash tok)
  ∧ (∀ k t, d_api_tokens d !! k = Some t → t_TokenHash t = t_TokenHash tok → k = t_ID tok)
  ∧ is_Some (d_users d !! t_UserID tok).
(** No token has the hash. *)
Definition unheard (h : string) (d : Db) : Prop := ∀ k t, d_api_tokens d !! k = Some t → t_TokenHash t ≠ h.

(** What a property of the tables that is kept is as a relation. *)
Definition holds_on (P : Db → Prop) : relation Db := λ d d', P d → P d'.
#[local] Instance holds_on_preorder P : PreOrder (holds_on P).
Proof. split; [intros d Hd; exact Hd|]. intros a b c H1 H2 H. apply H2, H1, H. Qed.

Lemma holds_on_stmt P {A} (q : sql A) : (∀ d a d', q d = SqlOk a d' → P d → P d') → Keeps (leaves (holds_on P)) (stmt q).
Proof. intros Hq. apply (leaves_stmt _). intros d a d' H. unfold holds_on. by eapply Hq. Qed.

(** Reads leave the tables. *)
Ltac account_read :=
  unfold GetAPITokenByHash, ListAPITokensByUser, GetUserByID, one, one_opt, many;
  intros ? ? ? ?; repeat case_match; by simplify_eq.

Lemma HashPassword_frame pw w r w' : HashPassword pw w = (r, w') → w_db w' = w_db w ∧ w_cache w' = w_cache w ∧ same_tx w w'.
Proof. unfold HashPassword. intros H. repeat case_match; by simplify_eq. Qed.

(** *** A live token *)

Section living.
Context (tok : APIToken).
Notation Lives := (Keeps (leaves (holds_on (alive tok)))).

Lemma Lives_read {A} (q : sql A) : (∀ d a d', q d = SqlOk a d' → d' = d) → Lives (stmt q).
Proof. intros Hq. apply holds_on_stmt. by intros d a d' ->%Hq. Qed.

Lemma Lives_create t : Lives (stmt (CreateAPIToken t)).
Proof.
  apply holds_on_stmt. intros d a d' H (Ht & Hu & Ho). unfold CreateAPIToken in H.
  destruct (bool_decide _) eqn:Hk; [done|]. destruct (row_exists _ _) eqn:Hr; [done|]. cbn in H.
  destruct (negb _); [done|]. injection H as _ <-. apply bool_decide_eq_false, eq_None_not_Some in Hk.
  destruct Ht as (t0 & Ht0 & Hsame). split_and!; cbn [d_api_tokens d_users set_api_tokens]; [| |done].
  - exists t0. rewrite lookup_insert_ne by congruence. done.
  - intros k x [[<- <-]|[_ Hx]]%lookup_insert_Some He; [|by eapply Hu].
    pose proof (proj1 (row_exists_false _ _) Hr _ _ Ht0) as Hne. cbn in Hne. apply String.eqb_neq in Hne.
    destruct Hne. destruct Hsame as (_ & _ & ->). by symmetry.
Qed.

Lemma Lives_delete id : id ≠ t_ID tok → Lives (stmt (DeleteAPIToken id)).
Proof.
  intros Hid. apply holds_on_stmt. intros d a d' H ((t0 & Ht0 & Hsame) & Hu & Ho). unfold DeleteAPIToken in H.
  destruct (d_api_tokens d !! id); injection H as _ <-; [|by split; [by exists t0|]].
  split_and!; cbn [d_api_tokens d_users set_api_tokens]; [| |done].
  - exists t0. by rewrite lookup_delete_ne.
  - intros k x [_ Hx]%lookup_delete_Some. by apply Hu.
Qed.

Lemma Lives_touch id at_ : Lives (stmt (TouchAPITokenLastUsed id at_)).
Proof.
  apply holds_on_stmt. intros d a d' H ((t0 & Ht0 & Hi & Hs & Hh) & Hu & Ho). unfold TouchAPITokenLastUsed in H.
  destruct (d_api_tokens d !! id) as [t|] eqn:Ht; injection H as _ <-; [|by split; [by exists t0|]].
  split_and!; cbn [d_api_tokens d_users set_api_tokens]; [| |done].
  - destruct (decide (id = t_ID tok)) as [->|Hne]; [|exists t0; by rewrite lookup_insert_ne].
    rewrite lookup_insert_eq. eexists. split; [done|]. rewrite Ht in Ht0. by injection Ht0 as ->.
  - intros k x [[<- <-]|[_ Hx]]%lookup_insert_Some He; [by eapply Hu|by eapply Hu].
Qed.

Lemma Lives_users m d : alive tok d → is_Some (m !! t_UserID tok) → alive tok (set_users m d).
Proof. by intros (Ht & Hu & _) Hm. Qed.

Lemma Lives_create_user u : Lives (stmt (CreateUser u)).
Proof.
  apply holds_on_stmt. intros d a d' H Ha. unfold CreateUser in H. destruct (_ || _); [done|]. injection H as _ <-.
  apply Lives_users; [done|]. apply lookup_insert_is_Some'. right. apply Ha.
Qed.

Lemma Lives_update_user u : Lives (stmt (UpdateUser u)).
Proof.
  apply holds_on_stmt. intros d a d' H Ha. unfold UpdateUser in H. destruct (d_users d !! u_ID u); [|by injection H as _ <-].
  destruct (login_taken _ _ _); [done|]. injection H as _ <-. apply Lives_users; [done|]. apply lookup_insert_is_Some'. right. apply Ha.
Qed.

Lemma Lives_delete_user id : id ≠ t_UserID tok → Lives (stmt (DeleteUser id)).
Proof.
  intros Hid. apply holds_on_stmt. intros d a d' H ((t0 & Ht0 & Hi & Hs & Hh) & Hu & [o Ho]). unfold DeleteUser in H.
  destruct (d_users d !! id); [|injection H as _ <-; by split; [by exists t0|split; [|by exists o]]]. injection H as _ <-.
  split_and!; cbn [d_api_tokens d_users set_api_tokens set_users].
  - exists t0. split; [|done]. apply map_lookup_filter_Some. split; [done|]. cbn. congruence.
  - intros k x [Hx _]%map_lookup_filter_Some. by apply Hu.
  - exists o. by rewrite lookup_delete_ne.
Qed.

#[local] Hint Resolve Lives_create Lives_delete Lives_touch Lives_create_user Lives_update_user Lives_delete_user : keeps.
#[local] Hint Extern 1 (Keeps _ (stmt _)) => apply Lives_read; account_read : keeps.

Lemma Lives_generate : Lives generateAPIToken.
Proof. apply (Keeps_same _). intros w r w' H. unfold generateAPIToken in H. by destruct (rand_read _ _); injection H as _ <-. Qed.
Lemma Lives_hash pw : Lives (HashPassword pw).
Proof. apply (Keeps_same _). intros w r w' H. by apply HashPassword_frame in H. Qed.
#[local] Hint Resolve Lives_generate Lives_hash : keeps.

Lemma alive_step w w' : account_step (λ t, t ≠ t_ID tok) (λ u, u ≠ t_UserID tok) (λ _, True) w w' →
  alive tok (w_db w) → w_tx w = None → alive tok (w_db w') ∧ w_tx w' = None.
Proof.
  intros Hs Ha Htx. assert (∀ A (m : M A) r, Lives m → m w = (r, w') → alive tok (w_db w') ∧ w_tx w' = None) as Hk.
  { intros A m r Hm H. destruct (Hm _ _ _ H) as [Hd Ht _]. split; [by apply Hd|by eapply same_tx_None]. }
  destruct Hs as [token w r w' H|user name w r w' H _|user token w r w' H Hn|p w r w' H|id pw w r w' H|id w r w' H Hn|w w' Hu Ht Htx'].
  - eapply Hk; [|exact H]. unfold AuthenticateBearer, TokenRepository_GetByHash, UserRepository_GetByID, TokenRepository_TouchLastUsed. keeps_auto.
  - eapply Hk; [|exact H]. unfold CreateToken, UserRepository_GetByID, TokenRepository_Create. keeps_auto.
  - eapply Hk; [|exact H]. unfold DeleteToken, TokenRepository_ListByUser, TokenRepository_Delete. keeps_auto.
  - eapply Hk; [|exact H]. unfold User_Create, UserRepository_Create. keeps_auto.
  - eapply Hk; [|exact H]. unfold SetPassword, UserRepository_GetByID, UserRepository_Update. keeps_auto.
  - eapply Hk; [|exact H]. unfold User_Delete, UserRepository_Delete. keeps_auto.
  - unfold alive. rewrite Hu, Ht, Htx'. done.
Qed.

End living.

(** *** A token nobody has *)

Section unheard.
Context (h : string).
Notation Unheard := (Keeps (leaves (holds_on (unheard h)))).

Lemma Unheard_read {A} (q : sql A) : (∀ d a d', q d = SqlOk a d' → d' = d) → Unheard (stmt q).
Proof. intros Hq. apply holds_on_stmt. by intros d a d' ->%Hq. Qed.

(** A statement that adds no token. *)
Lemma Unheard_sub {A} (q : sql A) : (∀ d a d' k t, q d = SqlOk a d' → d_api_tokens d' !! k = Some t →
  ∃ k' t', d_api_tokens d !! k' = Some t' ∧ t_TokenHash t' = t_TokenHash t) → Unheard (stmt q).
Proof.
  intros Hq. apply holds_on_stmt. intros d a d' H Hd k t Ht. destruct (Hq _ _ _ _ _ H Ht) as (k' & t' & Ht' & <-). by eapply Hd.
Qed.

Lemma Unheard_delete id : Unheard (stmt (DeleteAPIToken id)).
Proof.
  apply Unheard_sub. intros d a d' k t H. unfold DeleteAPIToken in H. destruct (d_api_tokens d !! id); injection H as _ <-; [|by exists k, t].
  cbn. intros [_ Ht]%lookup_delete_Some. by exists k, t.
Qed.

Lemma Unheard_touch id at_ : Unheard (stmt (TouchAPITokenLastUsed id at_)).
Proof.
  apply Unheard_sub. intros d a d' k t H. unfold TouchAPITokenLastUsed in H.
  destruct (d_api_tokens d !! id) as [x|] eqn:Hx; injection H as _ <-; [|by exists k, t].
  cbn. intros [[<- <-]|[_ Ht]]%lookup_insert_Some; [by exists id, x|by exists k, t].
Qed.

Lemma Unheard_create_user u : Unheard (stmt (CreateUser u)).
Proof.
  apply Unheard_sub. intros d a d' k t H. unfold CreateUser in H. destruct (_ || _); [done|]. injection H as _ <-. by exists k, t.
Qed.

Lemma Unheard_update_user u : Unheard (stmt (UpdateUser u)).
Proof.
  apply Unheard_sub. intros d a d' k t H. unfold UpdateUser in H.
  destruct (d_users d !! u_ID u); [destruct (login_taken _ _ _); [done|]|]; injection H as _ <-; by exists k, t.
Qed.

Lemma Unheard_delete_user id : Unheard (stmt (DeleteUser id)).
Proof.
  apply Unheard_sub. intros d a d' k t H. unfold DeleteUser in H. destruct (d_users d !! id); injection H as _ <-; [|by exists k, t].
  cbn. intros [Ht _]%map_lookup_filter_Some. by exists k, t.
Qed.

#[local] Hint Resolve Unheard_delete Unheard_touch Unheard_create_user Unheard_update_user Unheard_delete_user : keeps.
#[local] Hint Extern 1 (Keeps _ (stmt _)) => apply Unheard_read; account_read : keeps.

Lemma Unheard_hash pw : Unheard (HashPassword pw).
Proof. apply (Keeps_same _). intros w r w' H. by apply HashPassword_frame in H. Qed.
#[local] Hint Resolve Unheard_hash : keeps.

(** A token that could not be made is not there. *)
Lemma CreateToken_Err user name w e w' : CreateToken user name w = (Err e, w') → w_tx w = None →
  d_api_tokens (w_db w') = d_api_tokens (w_db w) ∧ w_tx w' = None.
Proof.
  unfold CreateToken. intros H Htx. apply bind_cases in H as [(u & w1 & Hu & H)|(e1 & Hu & _)]; apply stmt_frame in Hu as (_ & Ht & Hq);
    [|by rewrite Hq; auto].
  unfold GetUserByID, one_opt in Hq. destruct (d_users (w_db w) !! user); [|done]. injection Hq as _ Hd. specialize (Ht Htx).
  apply bind_cases in H as [(pt & w2 & Hg & H)|(e1 & Hg & _)]; unfold generateAPIToken in Hg;
    destruct (rand_read _ 32); try done; injection Hg as ? <-; [|by rewrite Hd].
  apply bind_cases in H as [(id & w3 & Hi & H)|(e1 & Hi & _)]; [|done]. injection Hi as _ <-.
  apply bind_cases in H as [(now & w4 & Hn & H)|(e1 & Hn & _)]; [|done]. injection Hn as _ <-.
  apply bind_cases in H as [(t & w5 & _ & H)|(e1 & Hc & _)]; [done|]. unfold TokenRepository_Create in Hc.
  apply bind_cases in Hc as [(id' & w6 & Hi & Hc)|(e2 & Hi & _)].
  2: { unfold or_new in Hi. by destruct (N.eqb _ _). }
  apply CreateFacts.or_new_Ok in Hi as (Hd6 & Ht6 & _).
  apply bind_cases in Hc as [(cr & w7 & Hcr & Hc)|(e2 & Hcr & _)]; unfold or_now in Hcr; destruct (IsZero _); try done;
    injection Hcr as _ <-; (apply bind_cases in Hc as [(x & w8 & _ & Hc)|(e2 & Hc & _)]; [done|]);
    apply stmt_frame in Hc as (_ & Htc & Hdc); rewrite Hdc; cbn in *; (split; [congruence|apply Htc; congruence]).
Qed.

Lemma unheard_step w w' : account_step (λ _, True) (λ _, True) (λ pt, hashAPIToken pt ≠ h) w w' →
  unheard h (w_db w) → w_tx w = None → unheard h (w_db w') ∧ w_tx w' = None.
Proof.
  intros Hs Ha Htx. assert (∀ A (m : M A) r, Unheard m → m w = (r, w') → unheard h (w_db w') ∧ w_tx w' = None) as Hk.
  { intros A m r Hm H. destruct (Hm _ _ _ H) as [Hd Ht _]. split; [by apply Hd|by eapply same_tx_None]. }
  destruct Hs as [token w r w' H|user name w r w' H Hn|user token w r w' H _|p w r w' H|id pw w r w' H|id w r w' H _|w w' Hu Ht Htx'].
  - eapply Hk; [|exact H]. unfold AuthenticateBearer, TokenRepository_GetByHash, UserRepository_GetByID, TokenRepository_TouchLastUsed. keeps_auto.
  - destruct r as [[pt t]|e].
    + apply CreateToken_Ok in H as (u & _ & Hh & _ & _ & _ & Hd & Ht). split; [|by rewrite Ht].
      rewrite Hd. unfold unheard. cbn. intros k x [[<- <-]|[_ Hx]]%lookup_insert_Some; [rewrite Hh; by eapply Hn|by eapply Ha].
    + apply CreateToken_Err in H as [Hd Ht]; [|done]. split; [|done]. unfold unheard. by rewrite Hd.
  - eapply Hk; [|exact H]. unfold DeleteToken, TokenRepository_ListByUser, TokenRepository_Delete. keeps_auto.
  - eapply Hk; [|exact H]. unfold User_Create, UserRepository_Create. keeps_auto.
  - eapply Hk; [|exact H]. unfold SetPassword, UserRepository_GetByID, UserRepository_Update. keeps_auto.
  - eapply Hk; [|exact H]. unfold User_Delete, UserRepository_Delete. keeps_auto.
  - unfold unheard. rewrite Ht, Htx'. done.
Qed.

End unheard.

(** A property that every step keeps holds after any number of them. *)
Lemma account_steps (P : Db → Prop) dt du dr w w' : rtc (account_step dt du dr) w w' →
  (∀ a b, account_step dt du dr a b → P (w_db a) → w_tx a = None → P (w_db b) ∧ w_tx b = None) →
  P (w_db w) → w_tx w = None → P (w_db w') ∧ w_tx w' = None.
Proof. intros Hr Hs. induction Hr as [w|a b c Hab _ IH]; [done|]. intros Hp Ht. destruct (Hs a b Hab Hp Ht). by apply IH. Qed.

End life.
