(* ===== verification/Demo.v ===== *)
(** * A small concrete world, on which the witnesses evaluate

    One user, a root, a directory [/a] with the stored file [/a/x] (one extent in
    one blob) and the buffered file [/b]. *)
From Stdlib Require Import ZArith Lia Strings.Byte Strings.String Strings.Ascii.
From stdpp Require Import base tactics list gmap sets sorting strings pretty.
From S2P Require Import Prelude Model Sql SqlFacts World Repository Crypto Path FileSystem File.
From S2P Require Import Tree WalFacts WriteFacts ReadFacts Session Tenants CopyFacts.
#[local] Open Scope string_scope.
#[local] Open Scope Z_scope.

#[global] Instance demo_env : Env := {
  env_fault := λ _, false;
  env_io_fault := λ _, false;
  env_done := λ _, false;
  env_now := λ n, 1000 + Z.of_nat n;
  env_dbnow := λ n, 1000 + Z.of_nat n;
  env_uuid := λ n k, (1000 + 64 * N.of_nat n + N.of_nat k)%N;
  env_uuid_string := λ u, pretty u;
  env_duration := λ d, pretty d;
  env_nfc := λ s, s;
  env_mime := λ _, "" }.

Lemma demo_no_faults : no_faults.
Proof. done. Qed.

Definition demo_user : User := mkUser 1 "ann" "" false 0 0 0 1.
Definition demo_other : User := mkUser 2 "bob" "" false 0 0 0 1.
Definition demo_ctx : option Principal := Some (mkPrincipal (Some demo_user) (Some demo_user)).

Definition demo_bytes (s : string) : bytes := byte_of_ascii <$> list_ascii_of_string s.

Definition demo_blob : Blob :=
  mkBlob 20 40 7 1 5 (sha256 (demo_bytes "hello")) BlobStateStored 1 1 None.
Definition demo_channel : Channel := mkChannel 40 (-100) "store" 1 900000 true 1.

Definition demo_node (id : uuid) (parent : option uuid) (name path : string) (dir : bool)
    (size : Z) (s : NodeState) : NodeRow :=
  mkNodeRow (mkNode id 1 parent name path dir size "" "" "" s 1 1) "" None.

Definition demo_nodes : gmap uuid NodeRow :=
  list_to_map [
    (10%N, demo_node 10 None "" "/" true 0 NodeStateStored);
    (11%N, demo_node 11 (Some 10%N) "a" "/a" true 0 NodeStateStored);
    (12%N, demo_node 12 (Some 11%N) "x" "/a/x" false 5 NodeStateStored);
    (13%N, demo_node 13 (Some 10%N) "b" "/b" false 3 NodeStateBuffered)].

Definition demo_db : Db :=
  set_users (list_to_map [(1%N, demo_user); (2%N, demo_other)])
  (set_channels {[ 40%N := demo_channel ]}
  (set_blobs {[ 20%N := demo_blob ]}
  (set_nodes demo_nodes
  (set_extents {[ 30%N := mkExtent 30 12 0 0 5 20 0 ]}
  (set_wal_chunks {[ 50%N := mkWALChunk 50 13 0 (demo_bytes "wal") 1 ]} empty_db))))).

Definition demo_cache : Cache := mkCache 100 0 ∅ [] 0 ∅ 0.
Definition demo_world : World :=
  mkWorld demo_db None 0 ∅ demo_cache (mkCounters 0 0 0 0 0 0 0) 0 0 ∅ ∅ ∅.

Lemma demo_tree : tree_ok demo_db.
Proof. apply tree_okb_sound. vm_compute. reflexivity. Qed.

Lemma demo_calm : calm demo_world.
Proof. done. Qed.

(** A blob service that holds the one blob in memory. *)
Definition demo_store (id : uuid) : option bytes :=
  if N.eqb id 20 then Some (demo_bytes "hello") else None.

#[global] Instance demo_blobs : BlobService := {
  blob_ReadBlob := λ id, match demo_store id with
                         | Some b => ret b | None => fail ErrBlobUnavailable end;
  blob_Prefetch := λ _, ret tt }.

#[global] Instance demo_laws : BlobLaws demo_store (λ _, True).
Proof.
  split; [done|]. intros id w r w' _ H. unfold blob_ReadBlob, demo_blobs in H.
  destruct (demo_store id) as [b|] eqn:Hs; [unfold ret in H|unfold fail in H]; simplify_eq; [|done].
  split_and!; [congruence|done..].
Qed.

Lemma demo_serving : serving demo_store (λ _, True).
Proof. intros id w _ _ [b Hb]. exists b, w. simpl. by rewrite Hb. Qed.

Lemma demo_uuids : uuids_ok.
Proof. intros n k. unfold env_uuid, demo_env, uuid_Nil. lia. Qed.

(** [refcount_ok], decided. *)
Definition refcount_okb (d : Db) : bool :=
  forallb (λ kb, b_Refcount kb.2 =? refs kb.1 d) (map_to_list (d_blobs d)).

Lemma refcount_okb_sound d : refcount_okb d = true → refcount_ok d.
Proof.
  intros H id b Hb. unfold refcount_okb in H. rewrite forallb_forall in H.
  assert (In (id, b) (map_to_list (d_blobs d))) as Hin by (by apply list_elem_of_In, elem_of_map_to_list).
  apply H in Hin. by apply Z.eqb_eq.
Qed.

Lemma demo_refcounts : refcount_ok demo_db.
Proof. apply refcount_okb_sound. vm_compute. reflexivity. Qed.

(** [below], decided on concrete lists. *)
Lemma below_bool a b : bool_decide (below a b) = false → ¬ below a b.
Proof. by intros H%bool_decide_eq_false. Qed.

Lemma demo_wal : wal_ok 13 demo_db.
Proof.
  assert (node_chunks 13 demo_db = [mkWALChunk 50 13 0 (demo_bytes "wal") 1]) as He by by vm_compute.
  unfold wal_ok. rewrite He. split; [done|]. simpl. pose proof chunk_nat_Z. unfold WALChunkSize in *. lia.
Qed.

Definition demo_list : list Node :=
  nr_node <$> [demo_node 11 (Some 10%N) "a" "/a" true 0 NodeStateStored;
               demo_node 12 (Some 11%N) "x" "/a/x" false 5 NodeStateStored].

Lemma demo_content :
  content_is demo_store (λ _, True) 12 (demo_node 12 (Some 11%N) "x" "/a/x" false 5 NodeStateStored)
    demo_world (demo_bytes "hello").
Proof.
  split; [|done]. split_and!; [done|by vm_compute|].
  assert (sort_by e_Seq (extents_of 12 demo_db) = [mkExtent 30 12 0 0 5 20 0]) as He by by vm_compute.
  simpl. rewrite He. split.
  - apply Forall_singleton. exists (demo_bytes "hello"). split_and!; try done; by vm_compute.
  - intros pos Hpos. eexists. split; [by left|]. unfold covers. simpl.
    assert (blen (demo_bytes "hello") = 5) as Hb by by vm_compute. rewrite Hb in Hpos.
    apply andb_true_iff. split; [apply Z.leb_le|apply Z.ltb_lt]; lia.
Qed.
