(* ===== verification/Requests.v ===== *)
(** * Sequences of requests

    The requests that write, as a client of the filesystem sends them, and what
    any sequence of them, each with any outcome, leaves: a well-formed tree, exact
    reference counts, and other users' files as they were. *)
From Stdlib Require Import ZArith Lia Strings.Byte Strings.String Strings.Ascii.
From stdpp Require Import base tactics list gmap sets sorting strings.
From S2P Require Import Prelude Model Sql SqlFacts World Repository Crypto Path FileSystem File.
From S2P Require Import Copy Tree FsFacts RenameFacts CreateFacts WalFacts WriteFacts ReadFacts.
From S2P Require Import Session Tenants CopyFacts.
#[local] Open Scope string_scope.
#[local] Open Scope Z_scope.
Open Scope m_scope.

Inductive request :=
  | RMkdir (name : string)
  | RPut (name : string) (pieces : list bytes)
  | RDelete (name : string)
  | RMove (src dst : string)
  | RCopy (src dst : string) (recursive overwrite : bool).

(** [os.O_RDWR|os.O_CREATE|os.O_TRUNC], the flags of a PUT. *)
Definition put_flags : Z := Z.lor O_RDWR (Z.lor 64 512).

Section serving.
Context {E : Env}.

Definition serve (ctx : option Principal) (r : request) : M unit :=
  match r with
  | RMkdir name => Mkdir ctx name
  | RPut name ps => put ctx name put_flags ps
  | RDelete name => RemoveAll ctx name
  | RMove s d => Rename ctx s d
  | RCopy s d rec ow => Copy ctx s d rec ow
  end.

(** Requests one after the other, whatever each returns. *)
Fixpoint serve_all (rs : list (option Principal * request)) (w : World) : World :=
  match rs with
  | [] => w
  | (ctx, r) :: rest => serve_all rest (serve ctx r w).2
  end.

Lemma serve_acts ctx r user w x w' : uuids_ok → tree_ok (w_db w) → w_tx w = None →
  acting ctx = Ok user → serve ctx r w = (x, w') → acts (u_ID user) w w'.
Proof.
  intros Huu Hd Htx Hact. destruct r; simpl; intros H.
  - by apply (Mkdir_acts ctx name user w x w').
  - by apply (put_acts ctx name put_flags pieces user w x w').
  - by apply (RemoveAll_acts ctx name user w x w').
  - by apply (Rename_acts ctx src dst user w x w').
  - by apply (Copy_acts Huu ctx src dst recursive overwrite user w x w').
Qed.

(** A request without a user is refused before it touches anything. *)
Lemma serve_anonymous ctx r w e : acting ctx = Err e → serve ctx r w = (Err e, w).
Proof.
  intros Hact. destruct r; simpl; unfold put, Mkdir, RemoveAll, Rename, Copy, OpenFile, of_res, bind;
    by rewrite Hact.
Qed.

(** The acting user of a request, if it has one. *)
Definition actor (q : option Principal * request) : option uuid :=
  match acting q.1 with Ok user => Some (u_ID user) | Err _ => None end.

(** The files of another user keep their place and their content. *)
Lemma confined_keeps u v d d' : tree_ok d → confined u d d' → v ≠ u →
  (∀ p, view d' v p = view d v p)
  ∧ ∀ st id r c, d_nodes d !! id = Some r → ruser r = v → stores st id r d c → stores st id r d' c.
Proof.
  intros Hd Hc Hne. split; [intros p; by apply (confined_view u)|].
  intros st id r0 c Hr Hu. assert (foreign u d id) as Hf by (exists r0; split; congruence).
  apply stores_same; [done|]. split; intros k x <-; [by apply (cf_extents _ _ _ Hc)|by apply (cf_wal _ _ _ Hc)].
Qed.

Lemma serve_safe q w w' v : uuids_ok → tree_ok (w_db w) → w_tx w = None → actor q ≠ Some v →
  w' = (serve q.1 q.2 w).2 →
  tree_ok (w_db w') ∧ conserves (w_db w) (w_db w') ∧ w_tx w' = None
  ∧ (∀ p, view (w_db w') v p = view (w_db w) v p)
  ∧ ∀ st id r c, d_nodes (w_db w) !! id = Some r → ruser r = v → stores st id r (w_db w) c →
      stores st id r (w_db w') c.
Proof.
  intros Huu Hd Htx Hv ->. destruct q as [ctx r]. unfold actor in Hv. simpl in *.
  destruct (acting ctx) as [user|e] eqn:Hact; [|by rewrite (serve_anonymous _ _ _ _ Hact)].
  destruct (serve ctx r w) as [x w'] eqn:H. simpl. apply (serve_acts _ _ user) in H as [Hc Ht]; [|done..].
  assert (v ≠ u_ID user) as Hne by congruence.
  destruct (confined_keeps _ v _ _ Hd Hc Hne) as [Hview Hst].
  split_and!; [apply (cf_tree _ _ _ Hc)|apply (cf_conserves _ _ _ Hc)|done|done|done].
Qed.

Lemma serve_all_run rs w v : uuids_ok → tree_ok (w_db w) → w_tx w = None →
  Forall (λ q, actor q ≠ Some v) rs →
  tree_ok (w_db (serve_all rs w)) ∧ conserves (w_db w) (w_db (serve_all rs w))
  ∧ (∀ p, view (w_db (serve_all rs w)) v p = view (w_db w) v p)
  ∧ ∀ st id r c, d_nodes (w_db w) !! id = Some r → ruser r = v → stores st id r (w_db w) c →
      stores st id r (w_db (serve_all rs w)) c.
Proof.
  intros Huu. revert w. induction rs as [|q rs IH]; intros w Hd Htx Hv; [done|].
  inversion Hv as [|? ? Hq Hvs]; subst. destruct q as [ctx r].
  destruct (serve_safe (ctx, r) w _ v Huu Hd Htx Hq eq_refl) as (H1 & H2 & H3 & H4 & H5). simpl in *.
  destruct (IH _ H1 H3 Hvs) as (I1 & I2 & I3 & I4). split_and!; [done|by etrans| |].
  - intros p. by rewrite I3, H4.
  - intros st id r0 c Hr Hu Hs. eapply I4; [|done|by eapply H5].
    assert (view (w_db w) v (rsegs r0) = Some r0) as Hw by (apply view_Some; [done|by eexists]).
    rewrite <- H4 in Hw. apply view_Some in Hw as (i & Hi & _ & _); [|done].
    rewrite <- (tk_id _ Hd _ _ Hr). by rewrite (tk_id _ H1 _ _ Hi).
Qed.

End serving.
