(* ===== verification/Race.v ===== *)
(** * Requests between each other's statements

    [TxManager.WithTx] opens its transactions with the default isolation of
    PostgreSQL, READ COMMITTED: a statement sees what other transactions have committed
    by the time it starts, and rows that were read are not locked.  The operations of
    this file are those of [FileSystem] and [File] with a pause after a statement that
    only reads; in the pause other requests run and commit.  With nothing in the pause
    they are the operations of the code.  Two schedules show what goes wrong: requests
    answered with success that no order of the two explains. *)
From Stdlib Require Import ZArith Lia Strings.Byte Strings.String.
From stdpp Require Import base tactics list gmap sets sorting strings pretty.
From S2P Require Import Prelude Model Sql SqlFacts World Repository Crypto Path FileSystem File Copy.
From S2P Require Import Tree Session Requests LossFacts Demo.
#[local] Open Scope string_scope.
#[local] Open Scope Z_scope.
Open Scope m_scope.

Section race.
Context {E : Env} {B : BlobService}.

(** Other requests, on connections of their own, while this transaction waits between
    two statements: a rollback now returns to the tables they leave.  This transaction
    must not have written anything yet. *)
Definition meanwhile (others : M unit) : M unit := λ w,
  let '(r, w1) := others (set_tx None w) in
  (r, set_tx ((λ t, mkTx (w_db w1) (tx_aborted t)) <$> w_tx w) w1).

(** [releaseExtents] with a pause between its statements. *)
Definition releaseExtents_paused (pause : M unit) (node : uuid) : M unit :=
  let! es := extentRepository_ListByNode node in
  do! pause in
  match es with
  | [] => ret tt
  | _ => blobRepository_AddRefcounts (blob_deltas (-1) es)
  end.

Definition RemoveAll_paused (pause : M unit) (ctx : option Principal) (name : string) : M unit :=
  let! user := of_res (acting ctx) in
  let p := normalize name in
  if String.eqb p "/" then fail OsErrPermission
  else
    let! node := with_fs_err (NodeRepository_GetByPath (u_ID user) p) in
    WithTx (
      let! subtree := NodeRepository_ListSubtree (u_ID user) p in
      let subtree := match subtree with [] => [node] | _ => subtree end in
      do! for_each subtree (λ n, if n_IsDir n then ret tt else releaseExtents_paused pause (n_ID n)) in
      NodeRepository_Delete (n_ID node)).

(** [Close] with a pause after the quota has been checked. *)
Definition close_tx_paused (pause : M unit) (w : writeFile) (now : time) : M unit :=
  do! (if 0 <? u_QuotaBytes (wf_user w) then
         let! used := NodeRepository_SumSizeByUser (u_ID (wf_user w)) in
         if u_QuotaBytes (wf_user w) <? wrap64 (used + wf_size w) then fail ErrQuotaExceeded
         else ret tt
       else ret tt) in
  do! pause in
  let! n := NodeRepository_GetByID (n_ID (wf_node w)) in
  NodeRepository_Update (finished_node n w now).

Definition writeFile_Close_paused (pause : M unit) (w : writeFile) : M (writeFile * res unit) :=
  if wf_closed w then ret (w, Ok tt)
  else
    let? f := if blen (wf_buf w) =? 0 then ret tt else flushChunk w (wf_buf w) in
    match f with
    | Err e => ret (wf_close w (wf_buf w) (wf_seq w), Err e)
    | Ok _ =>
        let w' := if blen (wf_buf w) =? 0 then wf_close w (wf_buf w) (wf_seq w)
                  else wf_close w [] (wf_seq w + 1) in
        let! now := Now in
        let? r := WithTx (close_tx_paused pause w' now) in
        match r with
        | Err e => ignore! close_rollback w' in ret (w', Err e)
        | Ok _ => do! IncWriteOps in ret (w', Ok tt)
        end
    end.

(** A PUT whose [Close] pauses. *)
Definition put_paused (pause : M unit) (ctx : option Principal) (name : string) (ps : list bytes) : M unit :=
  let! f := OpenFile ctx name put_flags in
  let! '(f, wr) := WriteAll f ps in
  match f with
  | FWrite wf =>
      let! '(_, cl) := writeFile_Close_paused pause wf in
      match wr with Ok _ => of_res cl | Err e => fail e end
  | _ => fail OsErrInvalid
  end.

(** Nothing in the pause: the code. *)
Lemma RemoveAll_unpaused ctx name : RemoveAll_paused (ret tt) ctx name = RemoveAll ctx name.
Proof. reflexivity. Qed.

Lemma Close_unpaused w : writeFile_Close_paused (ret tt) w = writeFile_Close w.
Proof. reflexivity. Qed.

End race.

(** ** Two deletions *)

(** An hour after the rows of [Demo] were made. *)
#[local] Instance late_env : Env := {
  env_fault := env_fault; env_io_fault := env_io_fault; env_done := env_done; env_now := env_now;
  env_dbnow := λ n, Hour + Z.of_nat n; env_uuid := env_uuid; env_uuid_string := env_uuid_string;
  env_duration := env_duration; env_nfc := env_nfc; env_mime := env_mime }.

(** [/c] is a copy of [/a/x]: their extents share a blob, which counts two. *)
Definition shared_world : World := (Copy demo_ctx "/a/x" "/c" false false demo_world).2.

(** DELETE /a reads the extents of [/a/x]; DELETE /a/x runs and commits; then the
    first deletion goes on. *)
Definition deletions : res unit * World :=
  RemoveAll_paused (meanwhile (RemoveAll demo_ctx "/a/x")) demo_ctx "/a" shared_world.

(** Two deletions, of a directory and of a file in it, release the file twice.  Both
    succeed; the file [/c] that shares the blob is still read; but the blob now counts
    no reference although [/c] has its extent on it, and the reaper collects it. *)
Theorem deletions_undercount :
  deletions.1 = Ok tt
  ∧ (get demo_ctx "/c" 100 10 deletions.2).1 = Ok (demo_bytes "hello")
  ∧ b_Refcount <$> d_blobs (w_db deletions.2) !! 20%N = Some 0
  ∧ refs 20 (w_db deletions.2) = 1
  ∧ res_map (map b_ID) (blobRepository_ListCollectable 10 deletions.2).1 = Ok [20%N].
Proof. split_and!; by vm_compute. Qed.

(** One after the other, in either order, they leave the count of [/c]. *)
Example deletions_in_order :
  b_Refcount <$> d_blobs (w_db (RemoveAll demo_ctx "/a" (RemoveAll demo_ctx "/a/x" shared_world).2).2) !! 20%N = Some 1
  ∧ b_Refcount <$> d_blobs (w_db (RemoveAll demo_ctx "/a/x" (RemoveAll demo_ctx "/a" shared_world).2).2) !! 20%N = Some 1.
Proof. split; by vm_compute. Qed.

(** ** Two uploads *)

(** Eight bytes are used of twelve. *)
Definition quota_user : User := mkUser 1 "ann" "" false 12 0 0 1.
Definition quota_ctx : option Principal := Some (mkPrincipal (Some quota_user) (Some quota_user)).

Definition uploads : res unit * World :=
  put_paused (meanwhile (put quota_ctx "/d" put_flags [demo_bytes "one"])) quota_ctx "/e" [demo_bytes "two"] demo_world.

(** Two uploads that each fit, but not both, are both accepted: each sums the files
    before the other has recorded its size. *)
Theorem uploads_exceed_quota :
  uploads.1 = Ok tt ∧ (NodeRepository_SumSizeByUser 1 uploads.2).1 = Ok 14 ∧ u_QuotaBytes quota_user = 12.
Proof. split_and!; by vm_compute. Qed.

(** One after the other, the second is refused. *)
Example uploads_in_order :
  (put quota_ctx "/e" put_flags [demo_bytes "two"] (put quota_ctx "/d" put_flags [demo_bytes "one"] demo_world).2).1
  = Err ErrQuotaExceeded.
Proof. by vm_compute. Qed.
