(* ===== verification/Spec.v ===== *)
(** * An abstract filesystem, and what it means for the tables to represent it

    A user's tree is a partial function from paths to directories and files with
    their bytes; a request is a function on trees.  [represents] relates a tree to
    the rows, extents and chunks of the user; the root, which the program makes when
    it first needs it, is left out. *)
From Stdlib Require Import ZArith Lia Strings.Byte Strings.String Strings.Ascii.
From stdpp Require Import base tactics list gmap sets sorting strings.
From S2P Require Import Prelude Model Sql SqlFacts World Repository Crypto Path FileSystem File Copy.
From S2P Require Import Tree FsFacts RenameFacts CreateFacts WalFacts WriteFacts ReadFacts Session Tenants CopyFacts Requests.
#[local] Open Scope string_scope.
#[local] Open Scope Z_scope.

(** ** The abstract filesystem *)

Inductive entry := ADir | AFile (content : bytes).
Definition fstree : Type := list string → option entry.

Definition put_at (q : list string) (e : entry) (t : fstree) : fstree :=
  λ p, if decide (p = q) then Some e else t p.
Definition prune (q : list string) (t : fstree) : fstree :=
  λ p, if decide (below q p) then None else t p.
Definition transplant (a b : list string) (t : fstree) : fstree := λ p,
  match cut_segs p b with
  | Some c => t (a ++ c)%list
  | None => if decide (below a p) then None else t p
  end.
Definition graft (rec : bool) (a b : list string) (t : fstree) : fstree := λ p,
  match cut_segs p b with
  | Some c => if rec || bool_decide (c = []) then t (a ++ c)%list else None
  | None => t p
  end.

Section effect.
Context {E : Env}.

Definition segs_of (name : string) : list string := path_segs (normalize name).

Definition effect (r : request) (t : fstree) : fstree :=
  match r with
  | RMkdir name => put_at (segs_of name) ADir t
  | RPut name ps => put_at (segs_of name) (AFile (concat ps)) t
  | RDelete name => prune (segs_of name) t
  | RMove src dst => if decide (segs_of src = segs_of dst) then t else transplant (segs_of src) (segs_of dst) t
  | RCopy src dst rec ow => graft rec (segs_of src) (segs_of dst) t
  end.

(** What holds when a request succeeds. *)
Definition parent_dir (q : list string) (t : fstree) : Prop :=
  ∃ m x, q = (m ++ [x])%list ∧ (m = [] ∨ t m = Some ADir).

Definition enabled (r : request) (t : fstree) : Prop :=
  match r with
  | RMkdir name => parent_dir (segs_of name) t ∧ t (segs_of name) = None
  | RPut name _ => parent_dir (segs_of name) t ∧ t (segs_of name) ≠ Some ADir
  | RDelete name => segs_of name ≠ [] ∧ t (segs_of name) ≠ None
  | RMove src dst => segs_of src = segs_of dst ∨ t (segs_of src) ≠ None
  | RCopy src dst _ ow => t (segs_of src) ≠ None ∧ (ow = false → t (segs_of dst) = None)
  end.

(** A MOVE or COPY onto a directory that holds its source loses the source instead. *)
Definition sane (r : request) : Prop :=
  match r with
  | RMove src dst => segs_of src = segs_of dst ∨ ¬ below (segs_of dst) (segs_of src)
  | RCopy src dst _ _ => ¬ below (segs_of dst) (segs_of src)
  | _ => True
  end.

End effect.

(** ** Representation *)

Section represents.
Context (st : uuid → option bytes).

Definition holds (d : Db) (u : uuid) (q : list string) (e : entry) : Prop :=
  ∃ r, view d u q = Some r ∧ match e with
    | ADir => rdir r = true
    | AFile c => rdir r = false ∧ stores st (n_ID (nr_node r)) r d c
    end.

Definition entry_ok (d : Db) (u : uuid) (q : list string) (o : option entry) : Prop :=
  match o with Some e => holds d u q e | None => view d u q = None end.

Definition represents (u : uuid) (d : Db) (t : fstree) : Prop := ∀ q, q ≠ [] → entry_ok d u q (t q).

Lemma entry_none d u q o : entry_ok d u q o → view d u q = None → o = None.
Proof. destruct o as [e|]; [|done]. intros (r & Hr & _) Hn. congruence. Qed.

Lemma entry_some d u q o r : entry_ok d u q o → view d u q = Some r → o ≠ None.
Proof. intros He Hr ->. simpl in He. congruence. Qed.

Lemma entry_dir d u q o r : entry_ok d u q o → view d u q = Some r → rdir r = true → o = Some ADir.
Proof.
  destruct o as [[|c]|]; simpl; [done| |congruence]. intros (s & Hs & Hf & _) Hr Hdir. congruence.
Qed.

Lemma entry_file d u q o r : entry_ok d u q o → view d u q = Some r → rdir r = false → o ≠ Some ADir.
Proof. intros He Hr Hf ->. destruct He as (s & Hs & Hdir). congruence. Qed.

(** An entry goes with its row, its extents and its chunks. *)
Lemma entry_moves d d' u q q' o : entry_ok d u q o →
  (∀ r, view d u q = Some r → ∃ r', view d' u q' = Some r' ∧ same_row r r' ∧ same_content (n_ID (nr_node r)) d d') →
  (view d u q = None → view d' u q' = None) → entry_ok d' u q' o.
Proof.
  destruct o as [e|]; [|cbn; by auto]. intros (r & Hr & He) Hs _. destruct (Hs r Hr) as (r' & Hr' & Hsame & Hc). exists r'. split; [done|].
  destruct e as [|c]; [by rewrite (sr_dir _ _ Hsame)|]. destruct He as [Hf He]. split; [by rewrite (sr_dir _ _ Hsame)|].
  rewrite (sr_id _ _ Hsame). by eapply stores_same.
Qed.

Lemma entry_stays d d' u q o : entry_ok d u q o → view d' u q = view d u q →
  (∀ r, view d u q = Some r → same_content (n_ID (nr_node r)) d d') → entry_ok d' u q o.
Proof. intros He Hv Hc. eapply entry_moves; [exact He| |congruence]. intros r Hr. exists r. rewrite Hv. split_and!; [done|done|by apply Hc]. Qed.

Lemma represents_ensured u v d d' t : ensured v d d' → represents u d t → represents u d' t.
Proof.
  intros He Hr q Hq. eapply entry_stays; [by apply Hr|apply (en_view _ _ _ He); by intros [_ ?]|].
  intros r _. destruct (en_step _ _ _ He) as [->|(n & -> & _)]; by apply same_content_tables.
Qed.

Lemma view_node d u q r : tree_ok d → view d u q = Some r →
  d_nodes d !! n_ID (nr_node r) = Some r ∧ ruser r = u ∧ rsegs r = q.
Proof.
  intros Hd (id & Hid & Hu & Hq)%view_Some; [|done]. by rewrite (tk_id _ Hd _ _ Hid).
Qed.

Lemma view_at d u q r : tree_ok d → view d u q = Some r ↔ at_segs u d q r.
Proof.
  intros Hd. split; [by apply view_node|]. intros (Hr & Hu & Hq). apply view_Some; [done|]. by eexists.
Qed.

(** ** The requests *)

Section requests.
Context {E : Env}.

Lemma Mkdir_refines ctx user name w x w' t : tree_ok (w_db w) → w_tx w = None → acting ctx = Ok user →
  Mkdir ctx name w = (Ok x, w') → represents (u_ID user) (w_db w) t →
  enabled (RMkdir name) t ∧ represents (u_ID user) (w_db w') (effect (RMkdir name) t).
Proof.
  intros Hd Htx Hact H Ht. apply Mkdir_Ok in H
    as (user' & l & bx & d1 & rp & n & Hact' & Hl & He & Hrp & Hdir & Hn & Hnd & _ & _ & _ & _ & Hw & Hok & _ & Hv); [|done..].
  replace user' with user in * by congruence. simpl. unfold segs_of. rewrite Hl.
  pose proof (represents_ensured _ _ _ _ _ He Ht) as Ht1. assert ((l ++ [bx])%list ≠ []) as Hne by by intros []%app_nil.
  split; [split|].
  - exists l, bx. split; [done|]. destruct (decide (l = [])) as [?|Hl0]; [by left|right]. by eapply entry_dir; [apply Ht1|..].
  - by eapply entry_none; [apply Ht1|].
  - intros q Hq. unfold put_at. destruct (decide (q = _)) as [->|Hne'].
    + exists (mkNodeRow n "" None). rewrite Hv. by rewrite decide_True.
    + eapply entry_stays; [by apply Ht1|rewrite Hv; by rewrite decide_False by (by intros [_ ?])|].
      intros r _. rewrite Hw. by apply same_content_tables.
Qed.

Lemma put_refines ctx user name ps w w' t : tree_ok (w_db w) → w_tx w = None → acting ctx = Ok user →
  blen (concat ps) ≤ max_file →
  put ctx name put_flags ps w = (Ok tt, w') → represents (u_ID user) (w_db w) t →
  enabled (RPut name ps) t ∧ represents (u_ID user) (w_db w') (effect (RPut name ps) t).
Proof.
  intros Hd Htx Hact Hmax H Ht. apply put_Ok in H
    as (user' & l & r & Hact' & -> & Hne & Hok & _ & _ & Hr & Hv & Hrow & Hwok & Hwc & _ & Hview & _ & Hsc & d1 & He & (m & bx & rp & Hm & Hrp & Hdir) & Hfree);
    [|done..]. replace user' with user in * by congruence. simpl. fold (segs_of name) in *.
  pose proof (represents_ensured _ _ _ _ _ He Ht) as Ht1. split; [split|].
  - exists m, bx. split; [done|]. destruct (decide (m = [])) as [?|Hm0]; [by left|right]. by eapply entry_dir; [apply Ht1|..].
  - destruct (view d1 (u_ID user) (segs_of name)) as [r0|] eqn:Hr0.
    + eapply entry_file; [by apply Ht1|exact Hr0|by apply Hfree].
    + rewrite (entry_none d1 (u_ID user) (segs_of name) (t (segs_of name))); [done|by apply Ht1|done].
  - intros q Hq. unfold put_at. destruct (decide (q = _)) as [->|Hne'].
    + destruct Hrow as (Hrd & Hst & Hsz & _). exists r. split; [done|]. split; [done|]. split_and!; [|done|by rewrite Hst].
      rewrite Hsz. apply wrap64_id. int_lia.
    + assert (view (w_db w') (u_ID user) q = view (w_db w) (u_ID user) q) as Hq' by (apply Hview; by intros [_ [?|?]]).
      eapply entry_stays; [by apply Ht|done|]. intros r1 Hr1. rewrite <- Hq' in Hr1. apply view_node in Hr1 as (Hr1 & _ & Hs1); [|done].
      assert (n_ID (nr_node r1) ≠ n_ID (nr_node r)) as Hid.
      { intros Heq. rewrite Heq, Hr in Hr1. injection Hr1 as ->. apply view_node in Hv as (_ & _ & Hs); [|done]. congruence. }
      split; intros k z Hz; [apply (sc_ext _ _ _ Hsc)|apply (sc_wal _ _ _ Hsc)]; congruence.
Qed.

(** What a removal leaves has its bytes. *)
Lemma cleared_content u l d d' id : cleared u l d d' → is_Some (d_nodes d' !! id) → same_content id d d'.
Proof.
  intros Hc Hid. split; intros k z <-; [|by apply (rm_wal _ _ _ _ Hc)].
  rewrite (rm_extents _ _ _ _ Hc). split; [by intros []|done].
Qed.

Lemma RemoveAll_refines ctx user name w x w' t : tree_ok (w_db w) → w_tx w = None → acting ctx = Ok user →
  RemoveAll ctx name w = (Ok x, w') → represents (u_ID user) (w_db w) t →
  enabled (RDelete name) t ∧ represents (u_ID user) (w_db w') (effect (RDelete name) t).
Proof.
  intros Hd Htx Hact H Ht. apply RemoveAll_removed in H as (user' & id & r & Hact' & Hr & Hu & Hl & Hne & Hrm & Hok); [|done..].
  replace user' with user in * by congruence. simpl. fold (segs_of name) in *. unfold removed in Hrm. rewrite Hu, Hl in *.
  split; [split; [done|]|].
  - eapply entry_some; [by apply Ht|]. apply view_Some; [done|]. by exists id.
  - intros q Hq. pose proof (cleared_view _ _ _ _ (u_ID user) q Hd Hok Hrm) as Hv. unfold prune.
    destruct (decide (below _ q)) as [Hb|Hb].
    + rewrite decide_True in Hv by done. exact Hv.
    + rewrite decide_False in Hv by (by intros [_ ?]). eapply entry_stays; [by apply Ht|done|]. intros r1 Hr1.
      eapply cleared_content; [exact Hrm|]. rewrite <- Hv in Hr1. apply view_node in Hr1 as (Hr1 & _); [|done]. by eexists.
Qed.

(** Disjoint places have nothing below both. *)
Lemma apart a b c : ¬ below a b → ¬ below b a → ¬ below b (a ++ c)%list.
Proof. intros Hab Hba Hb. destruct (below_comparable a b (a ++ c)) as [?|?]; [by exists c|done..]. Qed.

Lemma Rename_refines ctx user src dst w x w' t : tree_ok (w_db w) → w_tx w = None → acting ctx = Ok user →
  sane (RMove src dst) → Rename ctx src dst w = (Ok x, w') → represents (u_ID user) (w_db w) t →
  enabled (RMove src dst) t ∧ represents (u_ID user) (w_db w') (effect (RMove src dst) t).
Proof.
  intros Hd Htx Hact Hs H Ht. apply Rename_inv in H as (user' & a & b & Hact' & Hna & Hnb & Ha & Hb & Hane & Hbne & H); [|done..].
  replace user' with user in * by congruence. simpl in *. unfold segs_of in *. rewrite Hna, Hnb, !path_segs_render in * by done.
  destruct H as [[-> ->]|(Hab & w2 & -> & H)]; [by rewrite decide_True; auto|].
  assert (a ≠ b) as Hne by (intros ->; apply Hab, below_refl). destruct Hs as [?|Hba]; [done|]. rewrite decide_False by done.
  apply rename_tx_moves in H as (r & p & d1 & Hr & Hu & <- & Hcl & Hd1 & (ts & nodes' & Hd' & Hn) & Hok & _); [|done..].
  simpl in *. rewrite Hd' in *. subst.
  assert (∀ q, view (set_nodes nodes' d1) (ruser r) q = moved_view r p b ts (w_db w) (ruser r) q) as Hv
    by (intros q; rewrite <- Hu in *; by apply renames_view).
  assert (∀ id, is_Some (d_nodes d1 !! id) → same_content id (w_db w) (set_nodes nodes' d1)) as Hsc.
  { intros id Hid. eapply same_content_trans; [by eapply cleared_content|by apply same_content_tables]. }
  rewrite <- Hu in *. assert (∀ q s, view (w_db w) (ruser r) q = Some s → ¬ below b q → is_Some (d_nodes d1 !! n_ID (nr_node s))) as Hin.
  { intros q s (Hs & _ & Hq)%view_node Hbq; [|done]. exists s. apply (rm_nodes _ _ _ _ Hcl). split; [done|]. intros [_ ?]. congruence. }
  split.
  - right. eapply entry_some; [by apply Ht|]. apply view_Some; [done|]. by eexists.
  - intros q Hq. specialize (Hv q). unfold moved_view in Hv. rewrite decide_True in Hv by done. unfold transplant.
    destruct (cut_segs q b) as [c|] eqn:Hc.
    + apply (entry_moves (w_db w) _ _ (rsegs r ++ c)%list); [apply Ht; by intros []%app_nil| |intros Hs; by rewrite Hv, Hs].
      intros s Hs. eexists. rewrite Hv, Hs. split; [reflexivity|]. split; [by split|]. apply Hsc. eapply Hin; [exact Hs|by apply apart].
    + destruct (decide (below (rsegs r) q)); [exact Hv|]. eapply entry_stays; [by apply Ht|done|].
      intros s Hs. apply Hsc. eapply Hin; [exact Hs|]. intros [c Hbc]. apply cut_segs_Some in Hbc. congruence.
Qed.

Lemma view_grown u P d d' q : tree_ok d → grown u P d d' → ¬ P q → view d' u q = view d u q.
Proof.
  intros Hd Hg HP. apply option_eq. intros r. rewrite !view_at by (done || apply (gr_tree _ _ _ _ Hg)). split.
  - intros (Hr & Hu & Hq). destruct (gr_new _ _ _ _ Hg _ _ Hr) as [?|(_ & _ & Hp)]; [by split_and!|]. by rewrite Hq in Hp.
  - by apply (at_segs_grown u u P).
Qed.

Lemma Copy_refines ctx user src dst rec ow w x w' t : uuids_ok → tree_ok (w_db w) → w_tx w = None → acting ctx = Ok user →
  sane (RCopy src dst rec ow) → Copy ctx src dst rec ow w = (Ok x, w') → represents (u_ID user) (w_db w) t →
  enabled (RCopy src dst rec ow) t ∧ represents (u_ID user) (w_db w') (effect (RCopy src dst rec ow) t).
Proof.
  intros Huu Hd Htx Hact Hs H Ht.
  assert (¬ below (segs_of src) (segs_of dst)) as Hab.
  { apply Copy_inv in H as (user' & a & b & _ & Hna & Hnb & Ha & Hb & _ & _ & H); [|done..].
    simpl in Hs. unfold segs_of in *. rewrite Hna, Hnb, !path_segs_render in * by done.
    destruct H as [[-> _]|[? _]]; [|done]. by destruct Hs; apply below_refl. }
  apply (Copy_Ok Huu) in H as (user' & a & b & r & d1 & Hact' & Hna & Hnb & Ha & Hb & Hane & Hbne & _ & How & Hr & Hcl & Hd1 & Hg & Hc);
    [|done..]. replace user' with user in * by congruence. simpl in *. unfold segs_of in *. rewrite Hna, Hnb, !path_segs_render in * by done.
  set (u := u_ID user) in *.
  assert (∀ c s, at_segs u (w_db w) (a ++ c) s ↔ at_segs u d1 (a ++ c) s) as Hsrc.
  { intros c s. unfold at_segs. rewrite (rm_nodes _ _ _ _ Hcl). split; [|by intros ([? _] & ? & ?)].
    intros (Hs1 & Hu & Hq). split_and!; try done. intros [_ Hb1]. rewrite Hq in Hb1. by apply (apart a b c) in Hb1. }
  split.
  - split; [eapply entry_some; [by apply Ht|by apply view_at]|]. intros ->. eapply entry_none; [by apply Ht|].
    destruct (view (w_db w) u b) as [s|] eqn:Hv; [|done]. apply view_at in Hv; [|done].
    exfalso. apply (How eq_refl [] s). by rewrite app_nil_r.
  - assert (∀ q s, view (w_db w) u q = Some s → ¬ below b q → is_Some (d_nodes d1 !! n_ID (nr_node s))) as Hin.
    { intros q s (Hs1 & _ & Hq)%view_node Hbq; [|done]. exists s. apply (rm_nodes _ _ _ _ Hcl). split; [done|]. intros [_ ?]. congruence. }
    assert (∀ q q' s t0 e, ¬ below b q → view (w_db w) u q = Some s → at_segs u (w_db w') q' t0 → copies d1 s (w_db w') t0 →
      holds (w_db w) u q e → holds (w_db w') u q' e) as Hcopy.
    { intros q q' s t0 e Hbq Hv Ht0 [Hrow Hst] (s' & Hs' & He). replace s' with s in * by congruence.
      exists t0. split; [apply view_at; [apply (gr_tree _ _ _ _ Hg)|done]|].
      destruct e as [|C]; [by rewrite (cr_dir _ _ Hrow)|]. destruct He as [Hf He]. split; [by rewrite (cr_dir _ _ Hrow)|].
      apply Hst; [done|]. eapply stores_same; [done|by eapply cleared_content; [|by eapply Hin]|exact He]. }
    intros q Hq. unfold graft. destruct (cut_segs q b) as [c|] eqn:Hcut.
    + apply cut_segs_Some in Hcut as ->. assert ((a ++ c)%list ≠ []) as Hac by by intros []%app_nil.
      pose proof (Ht _ Hac) as Hta. pose proof (apart a b c Hab Hs) as Hap.
      assert (∀ s, at_segs u (w_db w) (a ++ c) s → view (w_db w) u (a ++ c) = Some s) as Hview by (intros; by apply view_at).
      destruct rec; simpl in *.
      * destruct (Hc c) as [Hc1 Hc2]. destruct (t (a ++ c)%list) as [e|]; simpl in *.
        -- pose proof Hta as (s & Hs1 & _). pose proof Hs1 as Hs2. apply view_at, Hsrc in Hs2; [|done].
           destruct (Hc1 s Hs2) as (t0 & Ht0 & Hcp). by eapply Hcopy.
        -- destruct (view (w_db w') u (b ++ c)) as [t0|] eqn:Hv; [|done]. apply view_at in Hv; [|apply (gr_tree _ _ _ _ Hg)].
           destruct (Hc2 t0 Hv) as (s & Hs2%Hsrc%Hview). congruence.
      * destruct Hc as [(t0 & Ht0 & Hcp) Huniq]. destruct (decide (c = [])) as [->|Hne].
        -- rewrite bool_decide_eq_true_2 by done. rewrite !app_nil_r in *. destruct (t a) as [e|]; simpl in *.
           ++ eapply Hcopy; [exact Hap|by apply Hview|exact Ht0|exact Hcp|exact Hta].
           ++ rewrite (Hview r Hr) in Hta. done.
        -- rewrite bool_decide_eq_false_2 by done. simpl. destruct (view (w_db w') u (b ++ c)) as [t1|] eqn:Hv; [|done].
           apply view_at in Hv; [|apply (gr_tree _ _ _ _ Hg)]. by apply Huniq in Hv.
    + assert (¬ below b q) as Hbq by (intros [c Hbc]; apply cut_segs_Some in Hbc; congruence).
      pose proof (cleared_view _ _ _ _ u q Hd Hd1 Hcl) as Hv1. rewrite decide_False in Hv1 by (by intros [_ ?]).
      eapply entry_stays; [by apply Ht|by rewrite (view_grown u (below b) d1), Hv1|]. intros s Hs1.
      pose proof (Hin _ _ Hs1 Hbq) as Hi. eapply same_content_trans; [by eapply cleared_content|].
      split; intros k z Hz; [apply (gr_ext _ _ _ _ Hg)|apply (gr_wal _ _ _ _ Hg)]; by rewrite Hz.
Qed.

(** ** One request, and all users *)

Lemma represents_confined u v d d' t : tree_ok d → confined u d d' → v ≠ u → represents v d t → represents v d' t.
Proof.
  intros Hd Hc Hne Ht q Hq. eapply entry_stays; [by apply Ht|by apply (confined_view u)|]. intros r (Hr & Hu & _)%view_node; [|done].
  assert (foreign u d (n_ID (nr_node r))) as Hf by (exists r; split; congruence).
  split; intros k z Hz; rewrite <- Hz in Hf; [by apply (cf_extents _ _ _ Hc)|by apply (cf_wal _ _ _ Hc)].
Qed.

(** What is known of every user's tree. *)
Definition known : Type := uuid → option fstree.
Definition upd (u : uuid) (t : option fstree) (σ : known) : known := λ v, if decide (v = u) then t else σ v.

(** The requests after which the tree of their user is known, with their answers: all
    but a move or copy onto an ancestor of its source, and an upload that failed (which
    leaves the file in between) or is larger than any file can be. *)
Definition admissible (q : option Principal * request) (x : res unit) : Prop :=
  sane q.2 ∧ match q.2 with RPut _ ps => x = Ok tt ∧ blen (concat ps) ≤ max_file | _ => True end.

Lemma serve_Ok_refines ctx user r w w' t : uuids_ok → tree_ok (w_db w) → w_tx w = None → acting ctx = Ok user →
  admissible (ctx, r) (Ok tt) → serve ctx r w = (Ok tt, w') → represents (u_ID user) (w_db w) t →
  enabled r t ∧ represents (u_ID user) (w_db w') (effect r t).
Proof.
  intros Huu Hd Htx Hact [Hs Hp] H Ht. destruct r; cbn [serve] in H.
  - by apply (Mkdir_refines ctx user name w tt w').
  - destruct Hp as [_ Hp]. by apply (put_refines ctx user name pieces w w').
  - by apply (RemoveAll_refines ctx user name w tt w').
  - by apply (Rename_refines ctx user src dst w tt w').
  - by apply (Copy_refines ctx user src dst recursive overwrite w tt w').
Qed.

Lemma serve_Err_refines ctx r w e w' : tree_ok (w_db w) → w_tx w = None → admissible (ctx, r) (Err e) →
  serve ctx r w = (Err e, w') → w_db w' = w_db w ∨ ∃ user, ensured (u_ID user) (w_db w) (w_db w').
Proof.
  intros Hd Htx [_ Hp] H. destruct (acting ctx) as [user|e0] eqn:Hact.
  2: { rewrite (serve_anonymous _ _ _ _ Hact) in H. injection H as _ <-. by left. }
  destruct r; cbn [serve] in H.
  - right. exists user. by eapply Mkdir_Err.
  - by destruct Hp.
  - left. by eapply RemoveAll_Err.
  - left. by eapply Rename_Err.
  - apply Copy_Err in H as [?|(u & _ & ?)]; [by left|right; by exists u|done..].
Qed.

#[global] Instance admissible_dec q x : Decision (admissible q x).
Proof.
  unfold admissible. apply and_dec; [destruct q.2; cbn [sane]; apply _|].
  destruct q.2; try apply _. apply and_dec; [|apply _]. destruct x as [[]|e]; [left|right]; done.
Defined.

Definition tracks (σ : known) (d : Db) : Prop := ∀ u t, σ u = Some t → represents u d t.

Lemma tracks_confined u d d' σ t : tree_ok d → confined u d d' → (∀ t', t = Some t' → represents u d' t') →
  tracks σ d → tracks (upd u t σ) d'.
Proof.
  intros Hd Hc Ht Hσ v t'. unfold upd. destruct (decide (v = u)) as [->|Hne]; [by apply Ht|].
  intros Hv. eapply represents_confined; [exact Hd|exact Hc|done|by apply Hσ].
Qed.

Lemma tracks_known u d d' σ : tree_ok d → confined u d d' → σ u = None → tracks σ d → tracks σ d'.
Proof.
  intros Hd Hc Hu Hσ v t Hv. destruct (decide (v = u)) as [->|Hne]; [congruence|].
  eapply represents_confined; [exact Hd|exact Hc|done|by apply Hσ].
Qed.

End requests.

End represents.

(** ** Histories *)

(** A run of the abstract filesystem: each request with its answer.  A request that
    succeeds was enabled in the tree of its user and has its effect there; one that fails
    has none; one that is not admissible leaves that tree unknown from then on. *)
Inductive spec_run {E : Env} (σ : known) : list (option Principal * request) → list (res unit) → known → Prop :=
  | sr_nil : spec_run σ [] [] σ
  | sr_ok ctx user r rs xs t σ' : acting ctx = Ok user → admissible (ctx, r) (Ok tt) →
      σ (u_ID user) = Some t → enabled r t →
      spec_run (upd (u_ID user) (Some (effect r t)) σ) rs xs σ' → spec_run σ ((ctx, r) :: rs) (Ok tt :: xs) σ'
  | sr_err ctx r e rs xs σ' : admissible (ctx, r) (Err e) → spec_run σ rs xs σ' →
      spec_run σ ((ctx, r) :: rs) (Err e :: xs) σ'
  | sr_anonymous ctx r e rs xs σ' : acting ctx = Err e → spec_run σ rs xs σ' →
      spec_run σ ((ctx, r) :: rs) (Err e :: xs) σ'
  | sr_unknown ctx user r x rs xs σ' : acting ctx = Ok user → σ (u_ID user) = None → spec_run σ rs xs σ' →
      spec_run σ ((ctx, r) :: rs) (x :: xs) σ'
  | sr_spoilt ctx user r x rs xs σ' : acting ctx = Ok user → ¬ admissible (ctx, r) x →
      spec_run (upd (u_ID user) None σ) rs xs σ' → spec_run σ ((ctx, r) :: rs) (x :: xs) σ'.

(** The answers of the program. *)
Fixpoint answers {E : Env} (rs : list (option Principal * request)) (w : World) : list (res unit) :=
  match rs with
  | [] => []
  | (ctx, r) :: rest => (serve ctx r w).1 :: answers rest (serve ctx r w).2
  end.

Lemma run_refines {E : Env} st rs w σ : uuids_ok → tree_ok (w_db w) → w_tx w = None → tracks st σ (w_db w) →
  ∃ σ', spec_run σ rs (answers rs w) σ' ∧ tracks st σ' (w_db (serve_all rs w))
    ∧ tree_ok (w_db (serve_all rs w)) ∧ w_tx (serve_all rs w) = None.
Proof.
  intros Huu. revert w σ. induction rs as [|[ctx r] rs IH]; intros w σ Hd Htx Hσ; simpl in *.
  { exists σ. split; [apply sr_nil|done]. }
  destruct (serve ctx r w) as [x w1] eqn:Hs. simpl in *. destruct (acting ctx) as [user|e] eqn:Hact.
  2: { rewrite (serve_anonymous _ _ _ _ Hact) in Hs. injection Hs as <- <-.
       destruct (IH w σ Hd Htx Hσ) as (σ' & Hrun & Hσ'). exists σ'. split; [by eapply sr_anonymous|done]. }
  pose proof Hs as [Hc Ht]%(serve_acts ctx r user); [|done..]. pose proof (cf_tree _ _ _ Hc) as Hd1.
  destruct (σ (u_ID user)) as [t|] eqn:Hu.
  2: { destruct (IH w1 σ Hd1 Ht) as (σ' & Hrun & Hσ'); [eapply tracks_known; [exact Hd|exact Hc|exact Hu|exact Hσ]|]. exists σ'. split; [by eapply sr_unknown|done]. }
  destruct (decide (admissible (ctx, r) x)) as [Ha|Ha].
  2: { destruct (IH w1 (upd (u_ID user) None σ) Hd1 Ht) as (σ' & Hrun & Hσ'); [by eapply tracks_confined; [exact Hd|exact Hc| |exact Hσ]|].
       exists σ'. split; [by eapply sr_spoilt|done]. }
  destruct x as [[]|e].
  - destruct (serve_Ok_refines st ctx user r w w1 t Huu Hd Htx Hact Ha Hs (Hσ _ _ Hu)) as [He Hr].
    destruct (IH w1 (upd (u_ID user) (Some (effect r t)) σ) Hd1 Ht) as (σ' & Hrun & Hσ').
    { eapply tracks_confined; [exact Hd|exact Hc| |exact Hσ]. by intros t' [= <-]. }
    exists σ'. split; [by eapply sr_ok|done].
  - destruct (IH w1 σ Hd1 Ht) as (σ' & Hrun & Hσ').
    { intros u t0 Hv. pose proof (Hσ u t0 Hv) as Hrep. destruct (serve_Err_refines ctx r w e w1 Hd Htx Ha Hs) as [->|(v & He)]; [done|].
      by eapply represents_ensured. }
    exists σ'. split; [by eapply sr_err|done].
Qed.
