(* ===== verification/WebFacts.v ===== *)
(** * Facts about the WebDAV endpoint: what a request may touch *)
From Stdlib Require Import ZArith Lia Strings.Byte Strings.String Strings.Ascii.
From stdpp Require Import base tactics list gmap sets strings.
From S2P Require Import Prelude Model Sql SqlFacts World Repository Crypto Text Password Accounts Identity Limiter.
From S2P Require Import Path FileSystem File Copy WebDav Tree FsFacts CreateFacts Session Tenants CopyFacts IdentityFacts.
From S2P Require Import Requests LossFacts.
#[local] Open Scope string_scope.
#[local] Open Scope Z_scope.
Open Scope m_scope.

(** ** Reads *)

Section reads.
Context {E : Env}.

Lemma GetByPath_at v u p w r w' : tree_ok (w_db w) → w_tx w = None →
  NodeRepository_GetByPath u (normalize p) w = (r, w') → w_db w' = w_db w ∧ w_tx w' = None ∧ acts v w w'.
Proof.
  intros Hd Htx H. destruct (normalize_canonical p) as (l & Hl & Hn). rewrite Hn in H. by eapply GetByPath_acts in H.
Qed.

Lemma Stat_acts ctx name user w r w' : tree_ok (w_db w) → w_tx w = None → acting ctx = Ok user →
  Stat ctx name w = (r, w') → acts (u_ID user) w w'.
Proof.
  intros Hd Htx Hact. unfold Stat, of_res, bind at 1. rewrite Hact, try_run.
  destruct (NodeRepository_GetByPath _ _ w) as [[n|e] w1] eqn:Hg;
    (apply (GetByPath_at (u_ID user)) in Hg as (Hdb & Ht & Ha); [|done..]); cbn [fst snd]; intros H.
  - by injection H as _ <-.
  - destruct (_ && _); [|by injection H as _ <-].
    assert (∃ r0, ensureRoot (u_ID user) w1 = (r0, w')) as [r0 He].
    { apply bind_cases in H as [(n & w2 & He & H)|(e0 & He & _)]; [injection H as _ <-|]; by eexists. }
    eapply acts_trans; [exact Ha|]. eapply ensureRoot_acts; [congruence|done|exact He].
Qed.

Lemma CheckQuota_same ctx p n w r w' : tree_ok (w_db w) → w_tx w = None →
  CheckQuota ctx p n w = (r, w') → w_db w' = w_db w ∧ w_tx w' = None.
Proof.
  intros Hd Htx. unfold CheckQuota, of_res, bind at 1. destruct (acting ctx) as [user|e]; [|by intros [= _ <-]].
  destruct (_ || _); [by intros [= _ <-]|]. intros H.
  apply bind_cases in H as [(used & w1 & Hs & H)|(e & Hs & _)]; apply stmt_frame in Hs as (_ & Ht & Hq); [|by auto].
  unfold SumSizeByUser in Hq. destruct (bigint_ok _); [|done]. injection Hq as _ Hd1. rewrite try_run in H.
  destruct (NodeRepository_GetByPath _ _ w1) as [x w2] eqn:Hg.
  apply (GetByPath_at 0%N) in Hg as (Hdb & Ht2 & _); [|congruence|auto]. cbn [fst snd] in H.
  assert (w' = w2) as -> by (clear -H; repeat case_match; by injection H).
  by rewrite Hdb, <- Hd1.
Qed.

End reads.

(** ** What golang.org/x/net/webdav does with the filesystem *)

Section client.
Context {E : Env} {B : BlobService}.

(** The calls a request makes: writes and lookups under the principal of its context,
    blobs fetched for what it reads, and steps that change no table (statements that
    read, locks). *)
Inductive client (ctx : option Principal) (w : World) : World → Prop :=
  | cl_done : client ctx w w
  | cl_serve q w1 : client ctx w w1 → client ctx w (serve ctx q w1).2
  | cl_stat name w1 : client ctx w w1 → client ctx w (Stat ctx name w1).2
  | cl_blob id w1 : client ctx w w1 → client ctx w (blob_ReadBlob id w1).2
  | cl_other w1 w2 : client ctx w w1 →
      w_db w2 = w_db w1 → w_tx w2 = w_tx w1 → w_cache w2 = w_cache w1 → client ctx w w2.

Class WebLaws {W : WebLib} :=
  dav_client ctx r w : client ctx w (dav_ServeHTTP ctx r w).2.

Lemma client_touches {LR : LossyReads} ctx user w w' : uuids_ok → tree_ok (w_db w) → w_tx w = None → acting ctx = Ok user →
  client ctx w w' → touches (u_ID user) w w'.
Proof.
  intros Huu Hd Htx Hact. induction 1 as [|q w1 _ IH|name w1 _ IH|id w1 _ IH|w1 w2 _ IH Hdb Ht _];
    [by apply acts_touches, acts_same|..]; (eapply touches_trans; [exact IH|]); destruct IH as [Hc Ht1];
    pose proof (to_tree _ _ _ Hc) as Hd1.
  - destruct (serve ctx q w1) as [x w2] eqn:Hs. apply acts_touches; [done|]. by apply (serve_acts ctx q user w1 x w2).
  - destruct (Stat ctx name w1) as [x w2] eqn:Hs. apply acts_touches; [done|]. by apply (Stat_acts ctx name user w1 x w2).
  - destruct (blob_ReadBlob id w1) as [x w2] eqn:Hs. by eapply read_touches.
  - apply acts_touches; [done|]. apply acts_same; [done|done|congruence].
Qed.

End client.

(** ** The endpoint *)

(** The credentials of a request let it act as [t]. *)
Definition lets_in {E : Env} {K : Kdf} (d : Db) (authorization : string) (t : User) : Prop :=
  ∃ username pw login target a, BasicCredentials authorization = Some (username, pw)
    ∧ names username login target
    ∧ (∃ i, d_users d !! i = Some a) ∧ u_Login a = login
    ∧ (∃ i, d_users d !! i = Some t) ∧ u_Login t = target
    ∧ proved login (u_PasswordHash a) pw ∧ (StringHas "/" username = true → u_IsAdmin a = true).

Section endpoint.
Context {E : Env} {K : Kdf} {R : RateLib} {B : BlobService} {LR : LossyReads} {W : WebLib} {L : WebLaws}.

Lemma handleCopy_acts ctx user r w x w' : uuids_ok → tree_ok (w_db w) → w_tx w = None → acting ctx = Ok user →
  handleCopy ctx r w = (x, w') → acts (u_ID user) w w'.
Proof.
  intros Huu Hd Htx Hact. unfold handleCopy. destruct (String.eqb _ _); [intros [= _ <-]; by apply acts_same|].
  destruct (url_Path _) as [dst|]; [|intros [= _ <-]; by apply acts_same].
  rewrite try_run. destruct (Stat ctx (rq_Path r) w) as [s w1] eqn:Hs. apply (Stat_acts _ _ user) in Hs; [|done..].
  cbn [fst snd]. destruct s as [s|e]; [|by intros [= _ <-]]. intros H. eapply acts_trans; [exact Hs|]. destruct Hs as [Hc Ht].
  pose proof (cf_tree _ _ _ Hc) as Hd1. rewrite try_run in H.
  destruct (Stat ctx dst w1) as [s2 w2] eqn:Hs. apply (Stat_acts _ _ user) in Hs; [|done..]. cbn [fst snd] in H.
  eapply acts_trans; [exact Hs|]. destruct Hs as [Hc2 Ht2]. rewrite try_run in H.
  destruct (Copy _ _ _ _ _ w2) as [c w3] eqn:Hcp. injection H as _ <-.
  eapply Copy_acts; [done|apply (cf_tree _ _ _ Hc2)|done|exact Hact|exact Hcp].
Qed.

Lemma router_touches ctx user r w x w' : uuids_ok → tree_ok (w_db w) → w_tx w = None → acting ctx = Ok user →
  router r ctx w = (x, w') → touches (u_ID user) w w'.
Proof.
  intros Huu Hd Htx Hact. unfold router.
  destruct (String.eqb _ "COPY"); [intros H; apply acts_touches; [done|]; by eapply handleCopy_acts|].
  assert (∀ w0, tree_ok (w_db w0) → w_tx w0 = None → dav_ServeHTTP ctx r w0 = (x, w') → touches (u_ID user) w0 w') as Hdav.
  { intros w0 Hd0 Ht0 H. pose proof (dav_client ctx r w0) as Hcl. rewrite H in Hcl. by eapply client_touches. }
  destruct (_ && _); [|by apply Hdav]. rewrite try_run.
  destruct (CheckQuota _ _ _ w) as [q w1] eqn:Hq. apply CheckQuota_same in Hq as [Hdb Ht]; [|done..]. cbn [fst snd].
  intros H. apply (touches_trans _ _ w1); [by apply acts_touches, (acts_same _ w w1)|]. rewrite <- Hdb in Hd. destruct q as [|e]; [by apply Hdav|].
  apply acts_touches; [done|]. apply acts_same; [done| |]; destruct (errors_Is e ErrQuotaExceeded); by injection H as _ <-.
Qed.

Lemma Allow_run u n w : ∃ ok w', Allow u n w = (Ok ok, w') ∧ w_db w' = w_db w ∧ w_tx w' = w_tx w.
Proof. unfold Allow. destruct (n <=? 0); by eexists _, _. Qed.

Lemma rateLimit_touches r t a w x w' : uuids_ok → tree_ok (w_db w) → w_tx w = None →
  rateLimit (router r) (Some (mkPrincipal (Some t) (Some a))) w = (x, w') → touches (u_ID t) w w'.
Proof.
  intros Huu Hd Htx. unfold rateLimit. cbn [Acting].
  destruct (Allow_run (u_ID t) (u_RatePerMin t) w) as (ok & w1 & Hal & Hdb & Ht). unfold bind at 1. rewrite Hal. intros H.
  apply (touches_trans _ _ w1); [apply acts_touches, (acts_same _ w w1); [done..|congruence]|].
  rewrite <- Hdb in Hd. rewrite <- Ht in Htx.
  destruct ok; [by apply (router_touches (Some (mkPrincipal (Some t) (Some a))) t r w1 x)|].
  injection H as _ <-. by apply acts_touches, acts_same.
Qed.

Lemma WebDAV_run r w x w' : uuids_ok → tree_ok (w_db w) → w_tx w = None → vc_ok w → plain_users (w_db w) →
  WebDAVHandler r w = (x, w') → (∃ resp, x = Ok resp) ∧ w_tx w' = None ∧
  (w_db w' = w_db w ∨ ∃ t, lets_in (w_db w) (rq_Authorization r) t ∧ touched (u_ID t) (w_db w) (w_db w')).
Proof.
  intros Huu Hd Htx Hvc Hpl. unfold WebDAVHandler, Recoverer. rewrite try_run.
  destruct (BasicAuth (rateLimit (router r)) r w) as [y w1] eqn:Hb. cbn [fst snd]. intros H.
  assert ((∃ resp, x = Ok resp) ∧ w' = w1) as [Hx ->] by (destruct y; injection H as <- <-; split; [by eexists|done|by eexists|done]).
  split; [done|]. unfold BasicAuth in Hb. destruct (BasicCredentials _) as [[username pw]|] eqn:Hc; [|injection Hb as _ <-; auto].
  rewrite try_run in Hb. destruct (AuthenticateBasic username pw w) as [p w2] eqn:Ha. cbn [fst snd] in Hb.
  apply AuthenticateBasic_run in Ha as [[Hdb Ht _] Hp]; [|done..]. destruct p as [p|e].
  - destruct Hp as (login & target & a & t & Hn & -> & Hia & Hla & Hit & Hlt & Hpr & Hadm).
    apply rateLimit_touches in Hb as [Hc1 Ht1]; [|done|congruence|auto]. rewrite Hdb in Hc1. split; [done|]. right. exists t.
    split; [|done]. by exists username, pw, login, target, a.
  - assert (w1 = w2) as -> by (repeat case_match; by injection Hb). auto.
Qed.

End endpoint.
