(* ===== verification/SafeFacts.v ===== *)
(** * What every part of the server keeps

    [fine]: the namespace is a tree, every extent lies on a blob of the table, and no
    blob counts fewer references than there are.  Each statement of the packer keeps
    it, each request, what maintenance does, and the deletion of a user. *)
From Stdlib Require Import ZArith Lia Strings.Byte Strings.String.
From stdpp Require Import base tactics list gmap sets strings.
From S2P Require Import Prelude Model Sql SqlFacts World Keeps Repository Crypto Text Password Accounts Identity Limiter.
From S2P Require Import Path FileSystem File WebDav Tree FsFacts WriteFacts ReadFacts Tenants Requests.
From S2P Require Import Cache CacheFacts Telegram BlobReader BlobFacts LossFacts WebFacts CopyFacts FinalizeFacts.
From S2P Require Import Bots Maintenance BotsFacts Management Server ServerFacts SparesFacts Packer PackerFacts.
#[local] Open Scope string_scope.
#[local] Open Scope Z_scope.
Open Scope m_scope.

Record fine (d : Db) : Prop := {
  fi_tree : tree_ok d;
  fi_refers : ∀ k e, d_extents d !! k = Some e → is_Some (d_blobs d !! e_BlobID e);
  fi_counts : ∀ b x, d_blobs d !! b = Some x → refs b d ≤ b_Refcount x }.

Definition improves (d d' : Db) : Prop := fine d → fine d'.

Lemma refs_extents b d d' : d_extents d' = d_extents d → refs b d' = refs b d.
Proof. intros H. unfold refs, refs_if. by rewrite H. Qed.

Lemma spares_improves d d' : spares d d' → improves d d'.
Proof.
  intros [Sn Se Sw Sb] [Ft Fr Fc].
  assert (∀ b x', d_blobs d' !! b = Some x' → ∃ x, d_blobs d !! b = Some x ∧ stateless x' = stateless x) as Hb.
  { intros b x' Hx. specialize (Sb b). rewrite Hx in Sb. destruct (d_blobs d !! b) as [x|]; [|done]. exists x. split; [done|]. by apply (inj Some). }
  split.
  - apply (tree_ok_tables d d'); try done. intros k b (x & Hx & Hs)%Hb. apply (f_equal b_ID) in Hs. simpl in Hs. rewrite Hs. by apply (tk_blob _ Ft).
  - intros k e. rewrite Se. intros He. specialize (Sb (e_BlobID e)). apply fmap_is_Some with (f := λ x, stateless x).
    rewrite Sb. apply fmap_is_Some. by eapply Fr.
  - intros b x' (x & Hx & Hs)%Hb. rewrite (refs_extents _ _ _ Se). specialize (Fc b x Hx). apply (f_equal b_Refcount) in Hs. simpl in Hs. lia.
Qed.

#[global] Instance improves_tolerates : Tolerates improves.
Proof.
  split; [split; [intros d ?; done|intros d1 d2 d3 H1 H2 ?; by apply H2, H1]|].
  intros d d' Hs. apply spares_improves. by apply tolerates_side.
Qed.

Lemma Keeps_spares {X} (m : M X) : Keeps (leaves spares) m → Keeps (leaves improves) m.
Proof. apply (leaves_sub _). intros d d'. apply spares_improves. Qed.

Lemma touched_improves u d d' : touched u d d' → improves d d'.
Proof.
  intros [Tt _ _ _ Td Tb _ _ Tr] [Ft Fr Fc]. split; [done| |].
  - intros k e [He|Hb]%Tr; apply Td; [by eapply Fr|done].
  - intros b x' Hx'. destruct (proj1 (Td b)) as [x Hx]; [by eexists|]. destruct (Tb b x x' Hx Hx') as [_ Hle]. specialize (Fc b x Hx). lia.
Qed.

Lemma reaped_improves l d d' : reaped l d d' → improves d d'.
Proof.
  intros [Rn Re Rw _ _ Rb] [Ft Fr Fc].
  assert (∀ b x, d_blobs d' !! b = Some x → d_blobs d !! b = Some x) as Hb
    by (intros b x; destruct (Rb b) as [->|(-> & _)]; done).
  split.
  - apply (tree_ok_tables d d'); try done. intros k b Hk%Hb. by apply (tk_blob _ Ft).
  - intros k e. rewrite Re. intros He. destruct (Rb (e_BlobID e)) as [->|(_ & _ & Hn)]; [by eapply Fr|]. by destruct (Hn k e He).
  - intros b x Hx%Hb. rewrite (refs_extents _ _ _ Re). by apply Fc.
Qed.

(** The nodes at the same places, in the same states or another. *)
Lemma relocated_improves d i r r' : d_nodes d !! i = Some r → same_place r r' →
  (n_State (nr_node r') = NodeStateBuffered → rdir r = false) → improves d (put_row i r' d).
Proof. intros Hr Hs Hf [Ft Fr Fc]. split; [by eapply tree_ok_put_row|exact Fr|exact Fc]. Qed.

Lemma deleted_improves S d : improves d (delete_nodes S d).
Proof.
  intros [Ft Fr Fc]. split; [by apply tree_ok_delete| |].
  - intros k e [He _]%delete_extents_lookup. by eapply Fr.
  - intros b x Hx. specialize (Fc b x Hx).
    assert (d_extents (delete_nodes S d) ⊆ d_extents d) as Hsub by (apply map_subseteq_spec; intros k e [? _]%delete_extents_lookup; done).
    destruct (cnt_sub (λ e, N.eqb (e_BlobID e) b && true) _ _ Hsub) as [Hle _]. change (refs b (delete_nodes S d) ≤ refs b d) in Hle. lia.
Qed.

Lemma packed_improves id r es d d' : packed id r es d d' → d_nodes d !! id = Some r → n_State (nr_node r) = NodeStateBuffered →
  (∀ e, e ∈ es → e_NodeID e = id) → improves d d'.
Proof.
  intros Hpk Hr Hb Hn [Ft Fr Fc]. pose proof (pk_conserves _ _ _ _ _ Hpk) as Hc. split.
  - eapply packed_tree; try done. by apply (tk_files _ Ft _ _ Hr).
  - intros k e He. apply (conserves_blob _ _ _ Hc). destruct (proj1 (pk_extlk _ _ _ _ _ Hpk k e) He) as [Hk|[Hin _]]; [by eapply Fr|].
    by apply (pk_refers _ _ _ _ _ Hpk).
  - intros b x'. rewrite Hc. intros (x & Hx & ->)%fmap_Some. specialize (Fc b x Hx). simpl. lia.
Qed.

(** A blob is new in the table only with a count that is not negative. *)
Lemma created_improves b d : d_blobs d !! b_ID b = None → 0 ≤ b_Refcount b → improves d (set_blobs (<[b_ID b := b]> (d_blobs d)) d).
Proof.
  intros Hn H0 [Ft Fr Fc]. split.
  - apply (tree_ok_tables d); try done. simpl. intros k x [[<- <-]|[_ Hx]]%lookup_insert_Some; [done|]. by apply (tk_blob _ Ft).
  - simpl. intros k e He. destruct (Fr k e He) as [x Hx]. apply lookup_insert_is_Some.
    destruct (decide (b_ID b = e_BlobID e)) as [|Hne]; [by left|right]. split; [done|by eexists].
  - simpl. intros k x [[<- <-]|[_ Hx]]%lookup_insert_Some; [|by apply Fc].
    assert (refs (b_ID b) d = 0) as Hz; [|rewrite (refs_extents _ d) by done; lia].
    apply cnt_zero. intros k e He. rewrite andb_true_r. apply N.eqb_neq. intros Hb.
    destruct (Fr k e He) as [y Hy]. rewrite Hb in Hy. congruence.
Qed.

(** Only leases change. *)
Lemma leased_improves m d : (∀ k, nr_node <$> m !! k = nr_node <$> d_nodes d !! k) → improves d (set_nodes m d).
Proof.
  intros Hm [Ft Fr Fc].
  assert (∀ k r', m !! k = Some r' → ∃ r, d_nodes d !! k = Some r ∧ nr_node r' = nr_node r) as Hold.
  { intros k r' Hr. specialize (Hm k). rewrite Hr in Hm. destruct (d_nodes d !! k) as [r|]; [|done]. exists r. by injection Hm. }
  assert (∀ k r, d_nodes d !! k = Some r → ∃ r', m !! k = Some r' ∧ nr_node r' = nr_node r) as Hnew.
  { intros k r Hr. specialize (Hm k). rewrite Hr in Hm. destruct (m !! k) as [r'|]; [|done]. exists r'. by injection Hm. }
  split; [|exact Fr|exact Fc]. split; cbn [d_nodes d_extents d_wal_chunks d_blobs set_nodes].
  - intros k r' (r & Hr & ->)%Hold. by apply (tk_id _ Ft).
  - intros k r' (r & Hr & Heq)%Hold. unfold rsegs. rewrite Heq. by apply (tk_canon _ Ft _ _ Hr).
  - intros k r' (r & Hr & Heq)%Hold. unfold rsegs, rparent, rdir. rewrite Heq. by apply (tk_root _ Ft _ _ Hr).
  - intros k r' l x (r & Hr & Heq)%Hold. unfold rsegs, rparent, ruser, rdir. rewrite Heq. intros Hl.
    destruct (tk_parent _ Ft _ _ _ _ Hr Hl) as (Hn & p & rp & Hp & Hrp & H1 & H2 & H3). split; [done|].
    destruct (Hnew _ _ Hrp) as (rp' & Hrp' & Hq). exists p, rp'. rewrite Hq. done.
  - intros i j r' s' (r & Hr & Hq)%Hold (s & Hs & Hq')%Hold. unfold rsegs, ruser. rewrite Hq, Hq'. by apply (tk_uniq _ Ft).
  - intros k e He. destruct (tk_extent _ Ft _ _ He) as (r & Hr & Hd). destruct (Hnew _ _ Hr) as (r' & Hr' & Hq).
    exists r'. unfold rdir. by rewrite Hq.
  - intros k c Hc. destruct (tk_wal _ Ft _ _ Hc) as [r Hr]. destruct (Hnew _ _ Hr) as (r' & ? & _). by exists r'.
  - apply (tk_blob _ Ft).
  - intros k r' (r & Hr & Hq)%Hold. unfold rdir. rewrite Hq. by apply (tk_files _ Ft _ _ Hr).
Qed.

(** Chunks go. *)
Lemma trimmed_improves P `{∀ kv, Decision (P kv)} d : improves d (set_wal_chunks (filter P (d_wal_chunks d)) d).
Proof.
  intros [Ft Fr Fc]. split; [|exact Fr|exact Fc]. pose proof Ft as []. split; try done.
  simpl. intros k c [Hc _]%map_lookup_filter_Some. by eapply tk_wal.
Qed.

(** ** Deleting users *)

(** The files of the users outside [U] are kept, nothing is new, and blobs change
    their states only. *)
Record spares_but (U : uuid → Prop) (d d' : Db) : Prop := {
  sb_tree : tree_ok d';
  sb_old : ∀ id r, d_nodes d' !! id = Some r → d_nodes d !! id = Some r;
  sb_kept : ∀ id r, ¬ U (ruser r) → d_nodes d !! id = Some r → kept id r d d';
  sb_blobs : ∀ b, (λ x, stateless x) <$> d_blobs d' !! b = (λ x, stateless x) <$> d_blobs d !! b }.

Definition spares_users (U : uuid → Prop) (d d' : Db) : Prop := tree_ok d → spares_but U d d'.

Lemma spares_spares_users U d d' : spares d d' → spares_users U d d'.
Proof.
  intros Hs Hd. pose proof Hs as [Sn Se Sw Sb]. split; [| |intros id r _ Hr; split_and!|done]; rewrite ?Sn, ?Se, ?Sw; try done.
  apply (tree_ok_tables d d'); try done. intros k x' Hx'. specialize (Sb k). rewrite Hx' in Sb.
  destruct (d_blobs d !! k) as [x|] eqn:Hx; [|done]. apply (inj Some), (f_equal b_ID) in Sb. simpl in Sb. rewrite Sb. by apply (tk_blob _ Hd).
Qed.

#[global] Instance spares_users_tolerates U : Tolerates (spares_users U).
Proof.
  split; [split|].
  - intros d. by apply spares_spares_users.
  - intros d1 d2 d3 H1 H2 Hd. destruct (H1 Hd) as [T1 O1 K1 B1]. destruct (H2 T1) as [T2 O2 K2 B2]. split; [done|auto| |].
    + intros id r HU Hr. pose proof (K1 id r HU Hr) as Hk. eapply kept_trans; [exact Hk|]. apply K2; [done|apply Hk].
    + intros b. by rewrite B2.
  - intros d d' Hs. apply spares_spares_users. by apply tolerates_side.
Qed.

(** The nodes of a user are closed under the cascade. *)
Lemma own_closed u d : tree_ok d →
  cascade_set (d_nodes d) (dom (filter (λ kv : uuid * NodeRow, n_UserID (nr_node kv.2) = u) (d_nodes d)))
  ⊆ dom (filter (λ kv : uuid * NodeRow, n_UserID (nr_node kv.2) = u) (d_nodes d)).
Proof.
  intros Hd. apply cascade_set_least; [done|]. intros id (r & Hr & Hp)%elem_of_child_rows.
  unfold parent_in in Hp. destruct (n_ParentID (nr_node r)) as [p|] eqn:Hpar; [|done]. apply bool_decide_eq_true in Hp.
  apply elem_of_dom in Hp as [rp [Hrp Hu]%map_lookup_filter_Some]. simpl in Hu.
  apply elem_of_dom. exists r. apply map_lookup_filter_Some. split; [done|]. simpl.
  destruct (rsegs r) as [|y l] eqn:Hs.
  - destruct (tk_root _ Hd _ _ Hr Hs) as [Hn _]. unfold rparent in Hn. congruence.
  - destruct (exists_last (l := y :: l)) as (m & x & Hm); [done|]. rewrite Hm in Hs.
    destruct (tk_parent _ Hd _ _ _ _ Hr Hs) as (_ & q & rq & Hq & Hrq & _ & Huq & _). unfold rparent, ruser in *. congruence.
Qed.

Lemma DeleteUser_spares u d n d' : DeleteUser u d = SqlOk n d' → spares_users (λ v, v = u) d d'.
Proof.
  unfold DeleteUser. destruct (d_users d !! u); intros H; injection H as _ <-; [|by apply spares_spares_users].
  set (own := dom _). transitivity (delete_nodes own d); [|by apply spares_spares_users]. intros Hd.
  pose proof (own_closed u d Hd) as Hown. fold own in Hown. split; [by apply tree_ok_delete| | |done].
  - intros id r [Hr _]%delete_nodes_lookup. done.
  - intros id r HU Hr. assert (id ∉ cascade_set (d_nodes d) own) as Hni.
    { intros Hin%Hown. apply HU. apply elem_of_dom in Hin as [r' [Hr' Hu]%map_lookup_filter_Some].
      simpl in Hu. unfold ruser. congruence. }
    split_and!; [by apply delete_nodes_lookup| |].
    + intros k e <-. rewrite delete_extents_lookup. tauto.
    + intros k c <-. rewrite delete_wal_lookup. tauto.
Qed.

(** ** One file *)

(** File [id] of user [u] is as it was, but for its lease; a blob keeps its content
    hash, and a new one is such as [N] says. *)
Record steady (id u : uuid) (N : uuid → bytes → Prop) (d d' : Db) : Prop := {
  sy_kept : ∀ r, ruser r = u → d_nodes d !! id = Some r → ∃ r', nr_node r' = nr_node r ∧ kept id r' d d';
  sy_blob : ∀ b x', d_blobs d' !! b = Some x' →
    (∃ x, d_blobs d !! b = Some x ∧ b_ContentHash x' = b_ContentHash x) ∨ N b (b_ContentHash x') }.

Definition advances (id u : uuid) (N : uuid → bytes → Prop) (d d' : Db) : Prop :=
  fine d → fine d' ∧ steady id u N d d'.

Section steady.
Context (id u : uuid) (N : uuid → bytes → Prop).
Notation steady := (steady id u N).
Notation advances := (advances id u N).

(** The tables of files are as they were at [id], and blobs lose at most their state. *)
Lemma steady_at d d' : (∀ r, ruser r = u → d_nodes d !! id = Some r → ∃ r', nr_node r' = nr_node r ∧ d_nodes d' !! id = Some r') →
  (∀ k e, e_NodeID e = id → d_extents d' !! k = Some e ↔ d_extents d !! k = Some e) →
  (∀ k c, c_NodeID c = id → d_wal_chunks d' !! k = Some c ↔ d_wal_chunks d !! k = Some c) →
  (∀ b x', d_blobs d' !! b = Some x' → ∃ x, d_blobs d !! b = Some x ∧ b_ContentHash x' = b_ContentHash x) → steady d d'.
Proof.
  intros Hn He Hw Hb. split; [|intros b x' Hx; left; by apply Hb].
  intros r Hu Hr. destruct (Hn r Hu Hr) as (r' & Hq & Hr'). by exists r'.
Qed.

Lemma steady_refl d : steady d d.
Proof. apply steady_at; try done; [intros r _ Hr; by exists r|intros b x Hx; by exists x]. Qed.

Lemma steady_trans d1 d2 d3 : steady d1 d2 → steady d2 d3 → steady d1 d3.
Proof.
  intros [K1 B1] [K2 B2]. split.
  - intros r Hu Hr. destruct (K1 r Hu Hr) as (r2 & Hq2 & Hn2 & He2 & Hw2).
    destruct (K2 r2) as (r3 & Hq3 & Hn3 & He3 & Hw3); [by unfold ruser in *; rewrite Hq2|done|].
    exists r3. split; [congruence|]. split_and!; [done|intros k e Hi; by rewrite He3, He2|intros k c Hi; by rewrite Hw3, Hw2].
  - intros b x3 Hx3. destruct (B2 b x3 Hx3) as [(x2 & Hx2 & ->)|]; [|by right]. by apply B1.
Qed.

#[global] Instance advances_preorder : PreOrder advances.
Proof.
  split.
  - intros d Hf. split; [done|apply steady_refl].
  - intros d1 d2 d3 H1 H2 Hf. destruct (H1 Hf) as [Hf2 S1]. destruct (H2 Hf2) as [Hf3 S2]. split; [done|by eapply steady_trans].
Qed.

Lemma spares_advances d d' : spares d d' → advances d d'.
Proof.
  intros Hs Hf. split; [by apply (spares_improves d)|]. destruct Hs as [Sn Se Sw Sb]. apply steady_at; rewrite ?Sn, ?Se, ?Sw; try done.
  - intros r _ Hr. by exists r.
  - intros b x' Hx. specialize (Sb b). rewrite Hx in Sb. destruct (d_blobs d !! b) as [x|]; [|done]. exists x. split; [done|].
    apply (inj Some), (f_equal b_ContentHash) in Sb. done.
Qed.

#[global] Instance advances_tolerates : Tolerates advances.
Proof. split; [exact _|]. intros d d' Hs. apply spares_advances. by apply tolerates_side. Qed.

Lemma Keeps_spares_advances {X} (m : M X) : Keeps (leaves spares) m → Keeps (leaves advances) m.
Proof. apply (leaves_sub _). intros d d'. apply spares_advances. Qed.

Lemma advances_improves {X} (m : M X) : Keeps (leaves advances) m → Keeps (leaves improves) m.
Proof. apply (leaves_sub _). intros d d' H Hf. by apply H. Qed.

Lemma reaped_advances l d d' : reaped l d d' → advances d d'.
Proof.
  intros Hr Hf. split; [by apply (reaped_improves l d)|]. destruct Hr as [Rn Re Rw _ _ Rb]. apply steady_at; rewrite ?Rn, ?Re, ?Rw; try done.
  - intros r _ Hr. by exists r.
  - intros b x Hx. exists x. destruct (Rb b) as [Hb|(Hb & _)]; by rewrite <- ?Hb, ?Hx in *.
Qed.

Lemma users_advances U d d' : ¬ U u → improves d d' → spares_users U d d' → advances d d'.
Proof.
  intros HU Hi Hs Hf. split; [by apply Hi|]. destruct (Hs (fi_tree _ Hf)) as [_ _ Hk Hb]. split.
  - intros r Hu Hr. exists r. split; [done|]. apply Hk; [by rewrite Hu|done].
  - intros b x' Hx. left. specialize (Hb b). rewrite Hx in Hb. destruct (d_blobs d !! b) as [x|]; [|done]. exists x. split; [done|].
    apply (inj Some), (f_equal b_ContentHash) in Hb. done.
Qed.

Lemma created_advances b d : d_blobs d !! b_ID b = None → 0 ≤ b_Refcount b → N (b_ID b) (b_ContentHash b) →
  advances d (set_blobs (<[b_ID b := b]> (d_blobs d)) d).
Proof.
  intros Hn H0 HN Hf. split; [by apply created_improves|]. split.
  - intros r _ Hr. exists r. done.
  - simpl. intros k x [[<- <-]|[_ Hx]]%lookup_insert_Some; [by right|]. left. by exists x.
Qed.

Lemma leased_advances m d : (∀ k, nr_node <$> m !! k = nr_node <$> d_nodes d !! k) → advances d (set_nodes m d).
Proof.
  intros Hm Hf. split; [by apply leased_improves|]. apply steady_at; try done.
  - intros r _ Hr. specialize (Hm id). rewrite Hr in Hm. simpl. destruct (m !! id) as [r'|]; [|done]. exists r'. by injection Hm.
  - intros b x Hx. by exists x.
Qed.

(** What happens to other nodes. *)
Lemma packed_advances i r es d d' : i ≠ id → packed i r es d d' → d_nodes d !! i = Some r →
  n_State (nr_node r) = NodeStateBuffered → (∀ e, e ∈ es → e_NodeID e = i) → advances d d'.
Proof.
  intros Hi Hpk Hr Hst Hes Hf. split; [by eapply packed_improves|]. apply steady_at.
  - intros r1 _ Hr1. exists r1. split; [done|]. by rewrite (pk_nodes _ _ _ _ _ Hpk), lookup_insert_ne.
  - intros k e <-. rewrite (pk_extlk _ _ _ _ _ Hpk). split; [|by left]. intros [?|[Hin _]]; [done|].
    by destruct Hi; rewrite (Hes e Hin).
  - intros k c <-. rewrite (pk_wal _ _ _ _ _ Hpk), map_lookup_filter_Some. simpl. naive_solver.
  - intros b x'. rewrite (pk_conserves _ _ _ _ _ Hpk). intros (x & Hx & ->)%fmap_Some. by exists x.
Qed.

Lemma relocated_advances d i r r' : i ≠ id → d_nodes d !! i = Some r → same_place r r' →
  (n_State (nr_node r') = NodeStateBuffered → rdir r = false) → advances d (put_row i r' d).
Proof.
  intros Hi Hr Hs Hb Hf. split; [by eapply relocated_improves|]. apply steady_at; try done.
  - intros r0 _ Hr0. exists r0. split; [done|]. simpl. by rewrite lookup_insert_ne.
  - intros b x Hx. by exists x.
Qed.

Lemma trimmed_advances i d : i ≠ id →
  advances d (set_wal_chunks (filter (λ kv : uuid * WALChunk, c_NodeID kv.2 ≠ i) (d_wal_chunks d)) d).
Proof.
  intros Hi Hf. split; [by apply trimmed_improves|]. apply steady_at; try done.
  - intros r _ Hr. by exists r.
  - intros k c <-. simpl. rewrite map_lookup_filter_Some. simpl. naive_solver.
  - intros b x Hx. by exists x.
Qed.

End steady.
