(* ===== verification/EndureFacts.v ===== *)
(** * One file under everything the server does

    What a step may do to one file without hurting it ([passes]), where its bytes are
    ([alive]), and that they stay there: the bytes of a blob are pinned by its hash and
    by what the cache holds for it ([holds]). *)
From Stdlib Require Import ZArith Lia Strings.Byte Strings.String.
From stdpp Require Import base tactics list gmap sets sorting strings.
From S2P Require Import Prelude Model Sql SqlFacts World Keeps Repository Crypto Text Password Accounts Identity Limiter.
From S2P Require Import Path FileSystem File Copy WebDav Tree FsFacts WalFacts WriteFacts ReadFacts Session Tenants Requests.
From S2P Require Import Cache CacheKeeps CacheFacts Telegram BlobReader BlobFacts LossFacts WebFacts CopyFacts FinalizeFacts.
From S2P Require Import SafeFacts.
#[local] Open Scope string_scope.
#[local] Open Scope Z_scope.
Open Scope m_scope.

(** ** Blobs *)

Section blobs.
Context {E : Env} {A : BotAPI}.

(** Among the bodies Telegram ever serves only these bytes hash as they do. *)
Definition sole (bs : bytes) : Prop := ∀ data, fetched data → sha256 data = sha256 bs → data = bs.

(** Wherever the blob is found, it is found to hold [bs]. *)
Record holds (b : uuid) (bs : bytes) (w : World) : Prop := {
  ho_hash : ∀ x, d_blobs (w_db w) !! b = Some x → b_ContentHash x = sha256 bs;
  ho_cache : ∀ data t, ca_files (w_cache w) !! b = Some (data, t) → data = bs;
  ho_sole : sole bs }.

(** No trace of the blob. *)
Record unborn (b : uuid) (w : World) : Prop := {
  un_nil : b ≠ uuid_Nil;
  un_row : d_blobs (w_db w) !! b = None;
  un_cache : ca_files (w_cache w) !! b = None }.

Lemma unborn_holds b bs w : unborn b w → sole bs → holds b bs w.
Proof. intros [_ Hr Hc] Hs. split; [|intros data t|done]; intros; congruence. Qed.

Lemma verified_hash x bs data : b_ContentHash x = sha256 bs → verified x data → sha256 data = sha256 bs.
Proof.
  intros Hx [Hn|Hv]; [|congruence]. pose proof (sha256_length bs) as Hl. rewrite <- Hx, Hn in Hl. done.
Qed.

(** The blobs keep what they have; a new blob is such as [N] says, and what is new in
    the cache came over the wire and hashes as its blob. *)
Record keeps_blobs (N : uuid → bytes → Prop) (w w' : World) : Prop := {
  kb_hash : ∀ b x', d_blobs (w_db w') !! b = Some x' →
    (∃ x, d_blobs (w_db w) !! b = Some x ∧ b_ContentHash x' = b_ContentHash x) ∨ N b (b_ContentHash x');
  kb_cache : ∀ b data t, ca_files (w_cache w') !! b = Some (data, t) →
    (∃ t', ca_files (w_cache w) !! b = Some (data, t'))
    ∨ ∃ x, d_blobs (w_db w) !! b = Some x ∧ verified x data ∧ fetched data }.

Lemma holds_keeps N b bs w w' : (∀ h, N b h → h = sha256 bs) → keeps_blobs N w w' → holds b bs w → holds b bs w'.
Proof.
  intros HN [Hb Hc] [Hh Hca Hs]. split; [| |done].
  - intros x' Hx'. destruct (Hb b x' Hx') as [(x & Hx & ->)|Hn]; [by apply Hh|by apply HN].
  - intros data t Ht. destruct (Hc b data t Ht) as [[t' Ht']|(x & Hx & Hv & Hf)]; [by eapply Hca|].
    apply Hs; [done|]. by eapply verified_hash; [apply Hh|].
Qed.

Lemma unborn_keeps N b w w' : (∀ h, ¬ N b h) → keeps_blobs N w w' → unborn b w → unborn b w'.
Proof.
  intros HN [Hb Hc] [Hn Hr Hca]. split; [done|..]; apply eq_None_not_Some.
  - intros [x' Hx']. destruct (Hb b x' Hx') as [(x & Hx & _)|?]; [congruence|by eapply HN].
  - intros [[data t] Ht]. destruct (Hc b data t Ht) as [[t' Ht']|(x & Hx & _)]; congruence.
Qed.

(** File [id] of user [u] is as it was, too. *)
Record passes (id u : uuid) (N : uuid → bytes → Prop) (w w' : World) : Prop := {
  pa_kept : ∀ r, ruser r = u → d_nodes (w_db w) !! id = Some r → ∃ r', nr_node r' = nr_node r ∧ kept id r' (w_db w) (w_db w');
  pa_blobs : keeps_blobs N w w' }.

Lemma leaves_passes id u N w w' : fine (w_db w) → leaves (advances id u N) w w' → passes id u N w w'.
Proof.
  intros Hf [Hd _ Hc]. destruct (Hd Hf) as [_ [Hk Hb]]. split; [done|]. split; [done|].
  intros b data t Ht. left. by eapply Hc.
Qed.

(** Nobody makes a blob. *)
Definition nobody : uuid → bytes → Prop := λ _ _, False.

Lemma passes_trans id u w1 w2 w3 : passes id u nobody w1 w2 → passes id u nobody w2 w3 → passes id u nobody w1 w3.
Proof.
  intros [K1 [B1 C1]] [K2 [B2 C2]]. split; [|split].
  - intros r Hu Hr. destruct (K1 r Hu Hr) as (r2 & Hq2 & Hk2). pose proof Hk2 as (Hr2 & He2 & Hw2).
    destruct (K2 r2) as (r3 & Hq3 & Hr3 & He3 & Hw3); [by unfold ruser in *; rewrite Hq2|done|].
    exists r3. split; [congruence|]. split_and!; [done|intros k e Hi; by rewrite He3, He2|intros k c Hi; by rewrite Hw3, Hw2].
  - intros b x3 Hx3. destruct (B2 b x3 Hx3) as [(x2 & Hx2 & ->)|[]]. by apply B1.
  - intros b data t Ht. destruct (C2 b data t Ht) as [[t2 Ht2]|(x2 & Hx2 & Hv & Hf)]; [by eapply C1|right].
    destruct (B1 b x2 Hx2) as [(x & Hx & Hh)|[]]. exists x. split; [done|]. split; [|done]. unfold verified in *. by rewrite <- Hh.
Qed.

(** ** The file *)

(** File [id] is where [r0] puts it and holds [C]: in chunks that nothing was packed
    of, or in blobs that hold their bytes. *)
Record alive (id : uuid) (r0 : NodeRow) (C : bytes) (w : World) (r : NodeRow) (st : uuid → option bytes) : Prop := {
  al_row : d_nodes (w_db w) !! id = Some r;
  al_place : same_place r0 r;
  al_stores : stores st id r (w_db w) C;
  al_fresh : n_State (nr_node r) = NodeStateBuffered → extents_of id (w_db w) = [];
  al_blobs : ∀ b bs, st b = Some bs → lies_on (w_db w) id b ∧ holds b bs w }.

Lemma same_place_node r0 r r' : nr_node r' = nr_node r → same_place r0 r → same_place r0 r'.
Proof. unfold same_place, ruser, rparent, rdir. by intros ->. Qed.

Lemma kept_extents id r d d' : kept id r d d' → extents_of id d' ≡ₚ extents_of id d.
Proof. intros (_ & He & _). apply rows_agree. intros k e Hi%N.eqb_eq. by apply He. Qed.

Lemma alive_passes id r0 C N w w' r st : fine (w_db w) → passes id (ruser r0) N w w' →
  (∀ b h, N b h → d_blobs (w_db w) !! b = None) → alive id r0 C w r st →
  ∃ r', nr_node r' = nr_node r ∧ alive id r0 C w' r' st.
Proof.
  intros Hf Hp HN [Hr Hpl Hs Hfr Hb]. destruct (pa_kept _ _ _ _ _ Hp r) as (r' & Hq & Hk); [apply Hpl|done|].
  exists r'. split; [done|]. pose proof Hk as (Hr' & He & Hw). split; [done|by eapply same_place_node| | |].
  - eapply (stores_same _ _ r); [|split; [exact He|exact Hw]|done]. split; unfold rdir; by rewrite Hq.
  - rewrite Hq. intros Hst. apply Permutation_nil_r. by rewrite (kept_extents _ _ _ _ Hk), (Hfr Hst).
  - intros b bs Hst. destruct (Hb b bs Hst) as [(k & e & Hke & Hi & Hbl) Hh]. split.
    { exists k, e. by rewrite (He k e Hi). }
    eapply holds_keeps; [|exact (pa_blobs _ _ _ _ _ Hp)|exact Hh]. intros h Hn%HN. destruct (fi_refers _ Hf _ _ Hke) as [x Hx]. congruence.
Qed.

(** What its owner downloads. *)
Lemma alive_pinned id r0 C w r st : alive id r0 C w r st → pinned st w.
Proof.
  intros [_ _ _ _ Hb]. split.
  - intros b data t bs Ht Hst. by eapply ho_cache; [apply (Hb b bs Hst)|].
  - intros b x data bs Hx _ Hv Hf Hst. destruct (Hb b bs Hst) as [_ [Hh _ Hs]]. apply Hs; [done|].
    by eapply verified_hash; [apply Hh|].
Qed.

End blobs.

(** ** Requests of others *)

Notation Stocks := (Keeps (leaves whatever)).

Section writes.
Context {E : Env}.

Lemma Stocks_rootReady u : Stocks (rootReady_Store u).
Proof. by apply (Keeps_same _); intros w r w' [= _ <-]. Qed.
Hint Resolve Stocks_rootReady : keeps.
Hint Unfold NodeRepository_Create NodeRepository_Update NodeRepository_Delete NodeRepository_GetByID NodeRepository_GetByPath
  NodeRepository_ListChildren NodeRepository_ListSubtree NodeRepository_SumSizeByUser extentRepository_ListByNode
  extentRepository_DeleteByNode extentRepository_CopyForNode WALRepository_AppendChunk WALRepository_ReadRange
  WALRepository_DeleteByNode blobRepository_AddRefcounts : repo.
Ltac stocks := repeat autounfold with repo; keeps_auto.

Lemma Stocks_ensureRoot u : Stocks (ensureRoot u).
Proof. unfold ensureRoot. stocks. Qed.
Hint Resolve Stocks_ensureRoot : keeps.
Lemma Stocks_ensureRootExists u : Stocks (ensureRootExists u).
Proof. unfold ensureRootExists. stocks. Qed.
Hint Resolve Stocks_ensureRootExists : keeps.
Lemma Stocks_Stat ctx name : Stocks (Stat ctx name).
Proof. unfold Stat. stocks. Qed.
Lemma Stocks_CheckQuota ctx p n : Stocks (CheckQuota ctx p n).
Proof. unfold CheckQuota. stocks. Qed.

Lemma Stocks_removeWithin u n : Stocks (removeWithin u n).
Proof. unfold removeWithin, remove_listed, release_files, releaseExtents. stocks. Qed.
Hint Resolve Stocks_removeWithin : keeps.
Lemma Stocks_copy_wal k src dst size off seq : Stocks (copy_wal k src dst size off seq).
Proof. revert off seq. induction k as [|k IH]; intros off seq; cbn [copy_wal]; stocks. Qed.
Hint Resolve Stocks_copy_wal : keeps.
Lemma Stocks_copyNode k u src p par rec : Stocks (copyNode k u src p par rec).
Proof. revert src p par. induction k as [|k IH]; intros src p par; cbn [copyNode]; unfold copy_stored, with_fs_err; stocks. Qed.
Hint Resolve Stocks_copyNode : keeps.
Lemma Stocks_Copy ctx s d rec ow : Stocks (Copy ctx s d rec ow).
Proof. unfold Copy, copy_tx, copy_quota, subtreeSize, with_fs_err, if_exists. stocks. Qed.
Hint Resolve Stocks_Copy : keeps.

Lemma Stocks_OpenFile ctx name flag : Stocks (OpenFile ctx name flag).
Proof. unfold OpenFile, openRead, openWrite, truncateNode, releaseExtents, with_fs_err. stocks. Qed.
Lemma Stocks_flush k f : Stocks (flush_full k f).
Proof. revert f. induction k as [|k IH]; intros f; cbn [flush_full]; unfold flushChunk; stocks. Qed.
Hint Resolve Stocks_OpenFile Stocks_flush : keeps.
Lemma Stocks_WriteAll f ps : Stocks (WriteAll f ps).
Proof.
  revert f. induction ps as [|p ps IH]; intros f; cbn [WriteAll]; unfold File_Write, writeFile_Write; stocks.
Qed.
Hint Resolve Stocks_WriteAll : keeps.
Lemma Stocks_put ctx name flag ps : Stocks (put ctx name flag ps).
Proof. unfold put, File_Close, writeFile_Close, flushChunk, close_tx, close_rollback, IncWriteOps. stocks. Qed.
Hint Resolve Stocks_put : keeps.

Lemma Stocks_serve ctx q : Stocks (serve ctx q).
Proof. destruct q; cbn [serve]; unfold Mkdir, RemoveAll, remove_listed, release_files, releaseExtents, Rename, rename_tx,
  with_fs_err, if_exists, move_child; stocks. Qed.
Lemma Stocks_handleCopy {W : WebLib} ctx r : Stocks (handleCopy ctx r).
Proof. pose proof (Stocks_Stat ctx). unfold handleCopy. stocks. Qed.
Lemma Stocks_Allow {R : RateLib} u n : Stocks (Allow u n).
Proof. unfold Allow. stocks. Qed.
End writes.

(** What is new in the cache came over the wire and hashes as its blob. *)
Definition stocked {A : BotAPI} (w w' : World) : Prop := ∀ b data t, ca_files (w_cache w') !! b = Some (data, t) →
  (∃ t', ca_files (w_cache w) !! b = Some (data, t'))
  ∨ ∃ x, d_blobs (w_db w) !! b = Some x ∧ verified x data ∧ fetched data.

Section requests.
Context {E : Env} {C : Aead} {A : BotAPI} (bots : BotRepository).

Lemma culled_stocked w w' : culled w w' → stocked w w'.
Proof. intros H b data t Hb. left. by eapply H. Qed.

Lemma stocked_trans u w1 w2 w3 : touches u w1 w2 → stocked w1 w2 → stocked w2 w3 → stocked w1 w3.
Proof.
  intros [Ht _] H1 H2 b data t Hb. destruct (H2 b data t Hb) as [[t2 Hb2]|(x & Hx & Hv & Hf)]; [by eapply H1|right].
  destruct (proj1 (to_dom _ _ _ Ht b)) as [x1 Hx1]; [by eexists|]. exists x1. split; [done|]. split; [|done].
  unfold verified. by rewrite <- (to_hash _ _ _ Ht b x1 x Hx1 Hx).
Qed.

Lemma Stocks_stocked {X} (m : M X) w x w' : Stocks m → m w = (x, w') → stocked w w'.
Proof. intros Hm H. apply culled_stocked. by eapply Keeps_culled. Qed.

Lemma client_stocked ctx user w w' : uuids_ok → tree_ok (w_db w) → w_tx w = None → acting ctx = Ok user →
  client (B := blob_reader bots) ctx w w' → stocked w w'.
Proof.
  intros Huu Hd Htx Hact. induction 1 as [|q w1 Hc IH|name w1 Hc IH|id w1 Hc IH|w1 w2 Hc IH _ _ Hca];
    [by apply culled_stocked|..]; (eapply (stocked_trans (u_ID user)); [by apply (client_touches (B := blob_reader bots) ctx user)|exact IH|]).
  - destruct (serve ctx q w1) as [x w2] eqn:Hs. by apply (Stocks_stocked _ _ _ _ (Stocks_serve ctx q)) in Hs.
  - destruct (Stat ctx name w1) as [x w2] eqn:Hs. by apply (Stocks_stocked _ _ _ _ (Stocks_Stat ctx name)) in Hs.
  - destruct (blob_ReadBlob id w1) as [x w2] eqn:Hs. intros b data t Hb.
    destruct (ReadBlob_adds _ _ _ _ _ Hs b data t Hb) as [(_ & _ & ?)|?]; auto.
  - by apply culled_stocked, culled_same.
Qed.

(** A request whose credentials are another user's lets the file pass, unless it finds
    one of its blobs lost. *)
Definition spoils (id : uuid) (w w' : World) : Prop := ∃ b, lost (w_db w') b ∧ lies_on (w_db w) id b.

Lemma touched_passes id u v w w' : v ≠ u → touched v (w_db w) (w_db w') → stocked w w' →
  passes id u nobody w w' ∨ spoils id w w'.
Proof.
  intros Hne Ht Hst.
  assert (∀ b x', d_blobs (w_db w') !! b = Some x' → ∃ x, d_blobs (w_db w) !! b = Some x ∧ b_ContentHash x' = b_ContentHash x) as Hb.
  { intros b x' Hx'. destruct (proj1 (to_dom _ _ _ Ht b)) as [x Hx]; [by eexists|]. exists x. split; [done|]. by eapply to_hash. }
  assert (keeps_blobs nobody w w') as Hkb by (split; [intros b x' Hx'; left; by apply Hb|exact Hst]).
  destruct (d_nodes (w_db w) !! id) as [r|] eqn:Hr; [|left; split; [congruence|done]].
  destruct (decide (ruser r = u)) as [Hu|Hu]; [|left; split; [congruence|done]].
  destruct (to_kept _ _ _ Ht id r) as [Hk|?]; [congruence|done| |by right]. left. split; [|done].
  intros r0 _ Hr0. rewrite Hr in Hr0. injection Hr0 as <-. by exists r.
Qed.

Context {K : Kdf} {R : RateLib} {W : WebLib} {L : WebLaws (B := blob_reader bots)}.

Lemma router_stocked ctx user r w x w' : uuids_ok → tree_ok (w_db w) → w_tx w = None → acting ctx = Ok user →
  router r ctx w = (x, w') → stocked w w'.
Proof.
  intros Huu Hd Htx Hact. unfold router.
  destruct (String.eqb _ "COPY"); [by apply Stocks_stocked, Stocks_handleCopy|].
  assert (∀ w0, tree_ok (w_db w0) → w_tx w0 = None → dav_ServeHTTP ctx r w0 = (x, w') → stocked w0 w') as Hdav.
  { intros w0 Hd0 Ht0 H. pose proof (dav_client (B := blob_reader bots) ctx r w0) as Hcl. rewrite H in Hcl. by eapply client_stocked. }
  destruct (_ && _); [|by apply Hdav]. rewrite try_run.
  destruct (CheckQuota _ _ _ w) as [q w1] eqn:Hq. pose proof (Stocks_stocked _ _ _ _ (Stocks_CheckQuota _ _ _) Hq) as Hs1.
  apply CheckQuota_same in Hq as [Hdb Ht]; [|done..]. cbn [fst snd]. intros H.
  apply (stocked_trans (u_ID user) _ w1); [by apply acts_touches, acts_same|done|]. rewrite <- Hdb in Hd.
  destruct q as [|e]; [by apply Hdav|]. destruct (errors_Is e ErrQuotaExceeded); injection H as _ <-; by apply culled_stocked.
Qed.

Lemma rateLimit_stocked r t a w x w' : uuids_ok → tree_ok (w_db w) → w_tx w = None →
  rateLimit (router r) (Some (mkPrincipal (Some t) (Some a))) w = (x, w') → stocked w w'.
Proof.
  intros Huu Hd Htx. unfold rateLimit. cbn [Acting].
  destruct (Allow_run (u_ID t) (u_RatePerMin t) w) as (ok & w1 & Hal & Hdb & Ht). unfold bind at 1. rewrite Hal. intros H.
  apply (stocked_trans (u_ID t) _ w1); [by apply acts_touches, acts_same; [..|rewrite Ht]|by eapply Stocks_stocked; [apply Stocks_Allow|]|].
  rewrite <- Hdb in Hd. rewrite <- Ht in Htx.
  destruct ok; [by eapply (router_stocked (Some (mkPrincipal (Some t) (Some a))) t)|]. injection H as _ <-. by apply culled_stocked.
Qed.

End requests.
