(* ===== verification/FsTheorems.v ===== *)
(** * The properties of the filesystem

    What a request that reports success did, what one that fails leaves, and that
    bytes written are the bytes read.  Each theorem is followed by its witness on
    the world of [Demo.v]. *)
From Stdlib Require Import ZArith Lia Strings.Byte Strings.String Strings.Ascii.
From stdpp Require Import base tactics list gmap sets sorting strings.
From S2P Require Import Prelude Model Sql SqlFacts World Repository Crypto Path FileSystem File.
From S2P Require Import Copy Tree FsFacts RenameFacts CreateFacts WalFacts WriteFacts ReadFacts.
From S2P Require Import Session Tenants CopyFacts Requests Demo.
#[local] Open Scope string_scope.
#[local] Open Scope Z_scope.
Open Scope m_scope.

Section theorems.
Context {E : Env}.

(** C4: PUT then GET.  When an upload reports success, a later download with any
    buffer size terminates and returns exactly the bytes that were written, in
    whatever pieces they came, and changes no table a file is read from. *)
Theorem put_get_roundtrip {B : BlobService} ctx name flag ps plen fuel w w1 :
  tree_ok (w_db w) → calm w → Z.land flag (Z.lor O_WRONLY O_RDWR) ≠ 0 →
  blen (concat ps) ≤ max_file → 0 < plen → blen (concat ps) < Z.of_nat fuel →
  put ctx name flag ps w = (Ok tt, w1) →
  ∃ w2, get ctx name plen fuel w1 = (Ok (concat ps), w2) ∧ files_same (w_db w1) (w_db w2).
Proof.
  intros Hd [Hnf Htx] Hflag Hmax Hplen Hfuel H.
  apply put_Ok in H as (user & l & r & Hact & Hl & _ & Hd1 & Htx1 & _ & Hr & Hv & Hrow & Hwal & Hc & _);
    [|done..].
  destruct Hrow as (Hdir & Hst & Hsz & _).
  assert (BlobLaws (λ _, None) (λ _, False)) as L by by split.
  apply (get_content (λ _, None) (λ _, False) ctx user name l r); try done.
  { split; [done|]. by intros ?. }
  split; [|by rewrite Hst]. split_and!; [|done|by rewrite Hst]. rewrite Hsz. apply wrap64_id. int_lia.
Qed.

(** C7: Every sequence of MKCOL, PUT, DELETE, MOVE and COPY requests, whatever each
    returns, keeps the tree well formed and every blob's reference count equal to
    the number of extents that point into it, and leaves the namespace and the
    bytes of every user who sent none of them as they were. *)
Theorem requests_safe rs w v : uuids_ok → tree_ok (w_db w) → refcount_ok (w_db w) → w_tx w = None →
  Forall (λ q, actor q ≠ Some v) rs →
  tree_ok (w_db (serve_all rs w)) ∧ refcount_ok (w_db (serve_all rs w))
  ∧ (∀ p, view (w_db (serve_all rs w)) v p = view (w_db w) v p)
  ∧ ∀ st id r c, d_nodes (w_db w) !! id = Some r → ruser r = v → stores st id r (w_db w) c →
      stores st id r (w_db (serve_all rs w)) c.
Proof.
  intros Huu Hd Hr Htx Hv. destruct (serve_all_run rs w v Huu Hd Htx Hv) as (H1 & H2 & H3 & H4).
  split_and!; try done. by eapply conserves_refcount_ok.
Qed.

(** C14: COPY.  The destination of a recursive copy mirrors the source: the same
    names, kinds, sizes, hashes and bytes at the same relative paths and nothing
    else; what was there before is gone, the quota admitted it, and without
    Overwrite there was nothing. *)
Theorem copy_mirrors ctx src dst ow w x w' : uuids_ok → tree_ok (w_db w) → w_tx w = None →
  ¬ below (path_segs (normalize dst)) (path_segs (normalize src)) →
  Copy ctx src dst true ow w = (Ok x, w') →
  ∃ user d1, acting ctx = Ok user ∧
    let a := path_segs (normalize src) in let b := path_segs (normalize dst) in
    copy_admitted user a b (w_db w) ∧ (ow = false → vacant (u_ID user) (w_db w) b)
    ∧ cleared (u_ID user) b (w_db w) d1 ∧ grown (u_ID user) (below b) d1 (w_db w')
    ∧ (∃ r, at_segs (u_ID user) d1 a r) ∧ mirror (u_ID user) a b d1 (w_db w').
Proof.
  intros Huu Hd Htx Hba H. pose proof Hba as Hba'.
  apply (Copy_Ok Huu) in H as (user & a & b & r & d1 & Hact & Hna & Hnb & Ha & Hb & _ & _ & Hq & How & Hr & Hcl & Hd1 & Hg & Hc);
    [|done..]. rewrite Hna, Hnb, !path_segs_render in * by done.
  exists user, d1. cbv zeta. split_and!; try done. 
  exists r. destruct Hr as (Hr & Hu & Hl). split_and!; [|done..].
  apply (rm_nodes _ _ _ _ Hcl). split; [done|]. intros [_ ?]. by rewrite Hl in *.
Qed.

(** C15: MOVE.  After a move between places of which neither contains the other,
    every row that was at or below the source is at the same relative path below
    the destination, nothing is left at the source, what the destination held is
    gone, every other path of every user is as it was, and no reference count is
    lost. *)
Theorem rename_moves ctx src dst w x w' : tree_ok (w_db w) → w_tx w = None →
  normalize src ≠ normalize dst → ¬ below (path_segs (normalize dst)) (path_segs (normalize src)) →
  Rename ctx src dst w = (Ok x, w') →
  ∃ user r p ts, acting ctx = Ok user
    ∧ view (w_db w) (u_ID user) (path_segs (normalize src)) = Some r
    ∧ (∀ v q, view (w_db w') v q = moved_view r p (path_segs (normalize dst)) ts (w_db w) v q)
    ∧ tree_ok (w_db w') ∧ conserves (w_db w) (w_db w').
Proof.
  intros Hd Htx Hne Hba H.
  apply Rename_inv in H as (user & a & b & Hact & Hna & Hnb & Ha & Hb & Hane & Hbne & H); [|done..].
  rewrite Hna, Hnb, !path_segs_render in * by done.
  destruct H as [[-> _]|(Hab & w2 & -> & H)]; [done|].
  apply rename_tx_moves in H as (r & p & d1 & Hr & Hu & <- & Hcl & Hd1 & (ts & nodes' & Hd' & Hn) & Hok & Hcons);
    [|done..]. simpl in *. exists user, r, p, ts. split_and!; try done.
  - apply view_Some; [done|]. by eexists.
  - intros v q. rewrite Hd' in *. subst. rewrite <- Hu in *. by eapply renames_view.
Qed.

(** C19: DELETE.  A removal that succeeds removes exactly the node and what is below
    it: the extents and the chunks that are left are those of the nodes that are left,
    as they were, and each blob is released once per extent removed. *)
Theorem delete_removes ctx name w x w' : tree_ok (w_db w) → w_tx w = None →
  RemoveAll ctx name w = (Ok x, w') →
  ∃ user, acting ctx = Ok user ∧ path_segs (normalize name) ≠ []
    ∧ view (w_db w) (u_ID user) (path_segs (normalize name)) ≠ None
    ∧ (∀ v q, view (w_db w') v q =
        if decide (v = u_ID user ∧ below (path_segs (normalize name)) q) then None else view (w_db w) v q)
    ∧ (∀ k e, d_extents (w_db w') !! k = Some e ↔
        d_extents (w_db w) !! k = Some e ∧ is_Some (d_nodes (w_db w') !! e_NodeID e))
    ∧ (∀ k c, d_wal_chunks (w_db w') !! k = Some c ↔
        d_wal_chunks (w_db w) !! k = Some c ∧ is_Some (d_nodes (w_db w') !! c_NodeID c))
    ∧ tree_ok (w_db w') ∧ conserves (w_db w) (w_db w').
Proof.
  intros Hd Htx H. apply RemoveAll_removed in H as (user & id & r & Hact & Hr & Hu & Hl & Hne & Hrm & Hok); [|done..].
  exists user. rewrite <- Hl. split_and!; try done.
  - assert (view (w_db w) (u_ID user) (rsegs r) = Some r) as -> by (apply view_Some; [done|by eexists]). done.
  - rewrite <- Hu. intros v q. by apply cleared_view.
  - apply (rm_extents _ _ _ _ Hrm).
  - intros k c. split.
    + intros Hc. pose proof (tk_wal _ Hok _ _ Hc) as Hn. split; [|done]. by apply (rm_wal _ _ _ _ Hrm).
    + intros [Hc Hn]. by apply (rm_wal _ _ _ _ Hrm).
  - apply (rm_conserves _ _ _ _ Hrm).
Qed.

(** C20: GET.  With a blob service that serves what it stores, a download of a file,
    buffered or stored, terminates and returns exactly the file's content,
    whatever the size of the reads. *)
Theorem get_returns_content {B : BlobService} st (I : World → Prop) `{!BlobLaws st I}
    ctx user name r content plen fuel w :
  tree_ok (w_db w) → fine st I w → acting ctx = Ok user →
  view (w_db w) (u_ID user) (path_segs (normalize name)) = Some r → rdir r = false →
  content_is st I (n_ID (nr_node r)) r w content → 0 < plen → blen content < Z.of_nat fuel →
  ∃ w', get ctx name plen fuel w = (Ok content, w') ∧ files_same (w_db w) (w_db w').
Proof. intros. by eapply get_content. Qed.

(** C21: PUT.  An upload that reports success leaves a buffered file at the path
    whose size, content hash and etag are those of the bytes written and whose
    chunks are those bytes; other paths are untouched and the blobs the replaced
    content used are released. *)
Theorem put_stores ctx name ps w x w' : tree_ok (w_db w) → w_tx w = None →
  put ctx name put_flags ps w = (Ok x, w') →
  ∃ user r, acting ctx = Ok user ∧ view (w_db w') (u_ID user) (path_segs (normalize name)) = Some r
    ∧ uploaded_row (concat ps) r ∧ wal_ok (n_ID (nr_node r)) (w_db w')
    ∧ wal_content (n_ID (nr_node r)) (w_db w') = concat ps ∧ extents_of (n_ID (nr_node r)) (w_db w') = []
    ∧ (∀ v q, ¬ (v = u_ID user ∧ (q = path_segs (normalize name) ∨ q = [])) →
        view (w_db w') v q = view (w_db w) v q)
    ∧ tree_ok (w_db w') ∧ conserves (w_db w) (w_db w').
Proof.
  intros Hd Htx H. apply put_Ok in H as (user & l & r & Hact & -> & _ & Hok & _ & Hc & _ & Hv & Hrow & Hw & Hcon & He & Hrest & _);
    [|done..]. by exists user, r.
Qed.

(** MKCOL creates an empty directory whose parent was a directory and where
    nothing was, and nothing else but the user's root when it was missing. *)
Theorem mkdir_creates ctx name w x w' : tree_ok (w_db w) → w_tx w = None →
  Mkdir ctx name w = (Ok x, w') →
  ∃ user l bx n, acting ctx = Ok user ∧ path_segs (normalize name) = (l ++ [bx])%list
    ∧ n_IsDir n = true ∧ n_Name n = bx ∧ n_Size n = 0
    ∧ (∃ rp, view (w_db w') (u_ID user) l = Some rp ∧ rdir rp = true ∧ n_ParentID n = Some (n_ID (nr_node rp)))
    ∧ view (w_db w) (u_ID user) (l ++ [bx])%list = None
    ∧ view (w_db w') (u_ID user) (l ++ [bx])%list = Some (mkNodeRow n "" None)
    ∧ (∀ v q, ¬ (v = u_ID user ∧ (q = (l ++ [bx])%list ∨ q = [])) → view (w_db w') v q = view (w_db w) v q)
    ∧ tree_ok (w_db w') ∧ conserves (w_db w) (w_db w').
Proof.
  intros Hd Htx H. apply Mkdir_Ok in H
    as (user & l & bx & d1 & rp & n & Hact & Hl & He & Hrp & Hdir & Hn & Hnd & Hnn & Hnp & _ & Hns & Hw & Hok & Hc & Hv); [|done..].
  exists user, l, bx, n. split_and!; try done.
  - exists rp. split_and!; try done. rewrite Hv, decide_False; [done|].
    intros [_ Heq]. apply (f_equal length) in Heq. rewrite length_app in Heq. simpl in Heq. lia.
  - rewrite <- (en_view _ _ _ He); [done|]. by intros [_ []%app_nil].
  - rewrite Hv. by rewrite decide_True.
  - intros v q Hq. rewrite Hv, decide_False by (intros [-> ->]; apply Hq; auto).
    apply (en_view _ _ _ He). intros [-> ->]. apply Hq. auto.
Qed.

(** C26: A DELETE or MOVE that fails, at whatever statement, leaves every table as it
    was; a COPY that fails leaves at most the user's root added. *)
Theorem failed_request_rolls_back ctx name src dst rec ow w e w' :
  tree_ok (w_db w) → w_tx w = None →
  (RemoveAll ctx name w = (Err e, w') ∨ Rename ctx src dst w = (Err e, w') → w_db w' = w_db w)
  ∧ (Copy ctx src dst rec ow w = (Err e, w') →
     w_db w' = w_db w ∨ ∃ user, acting ctx = Ok user ∧ ensured (u_ID user) (w_db w) (w_db w')).
Proof.
  intros Hd Htx. split; [intros [H|H]|intros H].
  - by apply RemoveAll_Err in H.
  - by apply Rename_Err in H.
  - by apply Copy_Err in H.
Qed.

(** MOVE onto an ancestor.  Moving a node onto a directory that contains it
    succeeds and loses it: the target is removed with everything below it, the
    source included, and nothing takes its place. *)
Theorem rename_onto_ancestor_loses ctx src dst w x w' : tree_ok (w_db w) → w_tx w = None →
  normalize src ≠ normalize dst → below (path_segs (normalize dst)) (path_segs (normalize src)) →
  Rename ctx src dst w = (Ok x, w') →
  ∃ user, acting ctx = Ok user ∧
    ∀ q, below (path_segs (normalize dst)) q → view (w_db w') (u_ID user) q = None.
Proof.
  intros Hd Htx Hne Hba H.
  apply Rename_inv in H as (user & a & b & Hact & Hna & Hnb & Ha & Hb & Hane & Hbne & H); [|done..].
  rewrite Hna, Hnb, !path_segs_render in * by done.
  destruct H as [[-> _]|(Hab & w2 & -> & H)]; [done|].
  apply rename_tx_ancestor in H as [Hcl Hok]; [|done..]. exists user. split; [done|]. intros q Hq.
  rewrite (cleared_view _ _ _ _ _ _ Hd Hok Hcl). by rewrite decide_True.
Qed.

(** COPY onto an ancestor.  Copying a node onto a directory that contains it
    succeeds and loses the source: at or below the target there is at most the one
    row just created, and no source is left. *)
Theorem copy_onto_ancestor_loses ctx src dst rec ow w x w' : uuids_ok →
  tree_ok (w_db w) → w_tx w = None →
  normalize src ≠ normalize dst → below (path_segs (normalize dst)) (path_segs (normalize src)) →
  Copy ctx src dst rec ow w = (Ok x, w') →
  ∃ user, acting ctx = Ok user ∧
    ∀ q, below (path_segs (normalize dst)) q → q ≠ path_segs (normalize dst) →
         view (w_db w') (u_ID user) q = None.
Proof.
  intros Huu Hd Htx Hne Hba H.
  apply Copy_inv in H as (user & a & b & Hact & Hna & Hnb & Ha & Hb & Hane & Hbne & H); [|done..].
  rewrite Hna, Hnb, !path_segs_render in * by done.
  destruct H as [[-> _]|(Hab & w1 & w2 & He & _ & H & ->)]; [done|].
  pose proof (en_tree _ _ _ He) as Hd1.
  apply (copy_tx_ancestor Huu) in H as (_ & d1 & Hcl & Hd2 & Hg); [|done..].
  exists user. split; [done|]. intros q Hq Hqb. apply view_None; [apply (gr_tree _ _ _ _ Hg)|].
  intros i r Hr Hu Hl. destruct (gr_new _ _ _ _ Hg _ _ Hr) as [Ho|(_ & _ & Hn)]; [|congruence].
  apply (rm_nodes _ _ _ _ Hcl) in Ho as [_ Ho]. apply Ho. split; [done|]. by rewrite Hl.
Qed.

(** Names are canonical.  Whatever the client sends, the path is rooted, made
    of proper segments only (not empty, "." or "..", and without a slash), and
    cleaning it again changes nothing. *)
Theorem normalize_is_canonical name :
  normalize name = render (path_segs (normalize name))
  ∧ Forall (λ s, no_slash s = true ∧ s ≠ "" ∧ s ≠ "." ∧ s ≠ "..") (path_segs (normalize name))
  ∧ Clean (normalize name) = normalize name.
Proof.
  destruct (normalize_canonical name) as (l & Hl & ->). rewrite path_segs_render by done.
  split; [done|]. split; [|by apply Clean_render]. eapply Forall_impl; [exact Hl|]. simpl. intros s Hs.
  unfold seg_ok in Hs. by rewrite !andb_true_iff, !negb_true_iff, !String.eqb_neq in Hs; naive_solver.
Qed.

(** C30: A subtree listing is exact: the LIKE pattern of [ListSubtree], with its
    metacharacters escaped, selects the user's rows at or below the path and no
    others. *)
Theorem list_subtree_exact u a w l w' : tree_ok (w_db w) → segs_ok a → a ≠ [] →
  NodeRepository_ListSubtree u (render a) w = (Ok l, w') →
  w_db w' = w_db w ∧ NoDup (n_ID <$> l) ∧
  ∀ n, n ∈ l ↔ ∃ r, d_nodes (w_db w) !! n_ID n = Some r ∧ nr_node r = n
                    ∧ ruser r = u ∧ below a (rsegs r).
Proof.
  intros Hd Ha Hne H. apply ListSubtree_Ok in H as [-> ->]. split; [done|].
  split; [by apply listed_NoDup|]. intros n. by apply listed_elem.
Qed.

(** C28: The quota.  After an upload that reports success the bytes charged to a
    user with a quota, as long as their sum is a 64-bit integer, are within it. *)
Theorem put_within_quota ctx name ps w x w' : tree_ok (w_db w) → w_tx w = None →
  put ctx name put_flags ps w = (Ok x, w') →
  ∃ user, acting ctx = Ok user ∧
    (0 < u_QuotaBytes user → in_int64 (user_file_bytes (u_ID user) (w_db w')) = true →
     user_file_bytes (u_ID user) (w_db w') ≤ u_QuotaBytes user).
Proof.
  intros Hd Htx H. apply put_Ok in H as (user & l & r & Hact & _ & _ & _ & _ & _ & _ & _ & _ & _ & _ & _ & _ & Hq & _); [|done..].
  exists user. split; [done|]. intros H0 Hi. specialize (Hq H0). rewrite wrap64_id in Hq; [done|].
  apply andb_true_iff in Hi as [?%Z.leb_le ?%Z.leb_le]. done.
Qed.

(** A range read of the log.  Over chunks that are full except the last, the
    rows the window of sequence numbers selects are enough: the bytes returned are
    exactly the requested slice of the file. *)
Theorem read_range_is_slice node off n w data w' : wal_ok node (w_db w) → 0 ≤ off → off + n ≤ max_int64 →
  WALRepository_ReadRange node off n w = (Ok data, w') →
  data = take (Z.to_nat n) (drop (Z.to_nat off) (wal_content node (w_db w))) ∧ w_db w' = w_db w.
Proof. apply ReadRange_Ok. Qed.

End theorems.

(** ** Witnesses *)

Lemma put_get_witness :
  ∃ w2, get demo_ctx "/a/new.txt" 2 7
    (put demo_ctx "/a/new.txt" (Z.lor O_RDWR 512) [demo_bytes "ab"; demo_bytes "cde"] demo_world).2
    = (Ok (concat [demo_bytes "ab"; demo_bytes "cde"]), w2)
  ∧ files_same (w_db (put demo_ctx "/a/new.txt" (Z.lor O_RDWR 512) [demo_bytes "ab"; demo_bytes "cde"] demo_world).2) (w_db w2).
Proof.
  apply (put_get_roundtrip demo_ctx "/a/new.txt" (Z.lor O_RDWR 512) [demo_bytes "ab"; demo_bytes "cde"]
           2 7 demo_world).
  - exact demo_tree.
  - exact demo_calm.
  - done.
  - by vm_compute.
  - lia.
  - by vm_compute.
  - vm_compute. reflexivity.
Defined.

Definition demo_requests : list (option Principal * request) :=
  [(demo_ctx, RMkdir "/d"); (demo_ctx, RPut "/d/y" [demo_bytes "yy"]); (demo_ctx, RCopy "/a" "/e" true false);
   (demo_ctx, RMove "/e" "/d/e"); (demo_ctx, RDelete "/a"); (None, RDelete "/")].

Lemma requests_safe_witness :
  tree_ok (w_db (serve_all demo_requests demo_world)) ∧ refcount_ok (w_db (serve_all demo_requests demo_world))
  ∧ (∀ p, view (w_db (serve_all demo_requests demo_world)) 2 p = view (w_db demo_world) 2 p)
  ∧ ∀ st id r c, d_nodes (w_db demo_world) !! id = Some r → ruser r = 2%N → stores st id r (w_db demo_world) c →
      stores st id r (w_db (serve_all demo_requests demo_world)) c.
Proof.
  apply (requests_safe demo_requests demo_world 2).
  - exact demo_uuids.
  - exact demo_tree.
  - exact demo_refcounts.
  - done.
  - by repeat constructor.
Defined.

Definition demo_copied : World := (Copy demo_ctx "/a" "/c" true false demo_world).2.

Lemma copy_mirrors_witness : ∃ user d1, acting demo_ctx = Ok user ∧
    let a := path_segs (normalize "/a") in let b := path_segs (normalize "/c") in
    copy_admitted user a b demo_db ∧ (false = false → vacant (u_ID user) demo_db b)
    ∧ cleared (u_ID user) b demo_db d1 ∧ grown (u_ID user) (below b) d1 (w_db demo_copied)
    ∧ (∃ r, at_segs (u_ID user) d1 a r) ∧ mirror (u_ID user) a b d1 (w_db demo_copied).
Proof.
  apply (copy_mirrors demo_ctx "/a" "/c" false demo_world tt demo_copied).
  - exact demo_uuids.
  - exact demo_tree.
  - done.
  - apply below_bool. vm_compute. reflexivity.
  - vm_compute. reflexivity.
Defined.

Definition demo_moved : World := (Rename demo_ctx "/a" "/b" demo_world).2.

Lemma rename_moves_witness : ∃ user r p ts, acting demo_ctx = Ok user
    ∧ view demo_db (u_ID user) (path_segs (normalize "/a")) = Some r
    ∧ (∀ v q, view (w_db demo_moved) v q = moved_view r p (path_segs (normalize "/b")) ts demo_db v q)
    ∧ tree_ok (w_db demo_moved) ∧ conserves demo_db (w_db demo_moved).
Proof.
  apply (rename_moves demo_ctx "/a" "/b" demo_world tt demo_moved).
  - exact demo_tree.
  - done.
  - by vm_compute.
  - apply below_bool. vm_compute. reflexivity.
  - vm_compute. reflexivity.
Defined.

Definition demo_deleted : World := (RemoveAll demo_ctx "/a" demo_world).2.

Lemma delete_removes_witness : ∃ user, acting demo_ctx = Ok user ∧ path_segs (normalize "/a") ≠ []
    ∧ view demo_db (u_ID user) (path_segs (normalize "/a")) ≠ None
    ∧ (∀ v q, view (w_db demo_deleted) v q =
        if decide (v = u_ID user ∧ below (path_segs (normalize "/a")) q) then None else view demo_db v q)
    ∧ (∀ k e, d_extents (w_db demo_deleted) !! k = Some e ↔
        d_extents demo_db !! k = Some e ∧ is_Some (d_nodes (w_db demo_deleted) !! e_NodeID e))
    ∧ (∀ k c, d_wal_chunks (w_db demo_deleted) !! k = Some c ↔
        d_wal_chunks demo_db !! k = Some c ∧ is_Some (d_nodes (w_db demo_deleted) !! c_NodeID c))
    ∧ tree_ok (w_db demo_deleted) ∧ conserves demo_db (w_db demo_deleted).
Proof.
  apply (delete_removes demo_ctx "/a" demo_world tt demo_deleted).
  - exact demo_tree.
  - done.
  - vm_compute. reflexivity.
Defined.

Lemma get_returns_content_witness :
  ∃ w', get demo_ctx "/a/x" 2 6 demo_world = (Ok (demo_bytes "hello"), w') ∧ files_same demo_db (w_db w').
Proof.
  apply (get_returns_content demo_store (λ _, True) demo_ctx demo_user "/a/x"
           (demo_node 12 (Some 11%N) "x" "/a/x" false 5 NodeStateStored) (demo_bytes "hello") 2 6 demo_world).
  - exact demo_tree.
  - split; [exact demo_calm|exact demo_serving].
  - reflexivity.
  - vm_compute. reflexivity.
  - reflexivity.
  - exact demo_content.
  - lia.
  - by vm_compute.
Defined.

Definition demo_put : World := (put demo_ctx "/b" put_flags [demo_bytes "ne"; demo_bytes "w"] demo_world).2.

Lemma put_stores_witness :
  ∃ user r, acting demo_ctx = Ok user ∧ view (w_db demo_put) (u_ID user) (path_segs (normalize "/b")) = Some r
    ∧ uploaded_row (concat [demo_bytes "ne"; demo_bytes "w"]) r ∧ wal_ok (n_ID (nr_node r)) (w_db demo_put)
    ∧ wal_content (n_ID (nr_node r)) (w_db demo_put) = concat [demo_bytes "ne"; demo_bytes "w"]
    ∧ extents_of (n_ID (nr_node r)) (w_db demo_put) = []
    ∧ (∀ v q, ¬ (v = u_ID user ∧ (q = path_segs (normalize "/b") ∨ q = [])) →
        view (w_db demo_put) v q = view demo_db v q)
    ∧ tree_ok (w_db demo_put) ∧ conserves demo_db (w_db demo_put).
Proof.
  apply (put_stores demo_ctx "/b" [demo_bytes "ne"; demo_bytes "w"] demo_world tt demo_put).
  - exact demo_tree.
  - done.
  - vm_compute. reflexivity.
Defined.

Definition demo_mkdir : World := (Mkdir demo_ctx "/a/n" demo_world).2.

Lemma mkdir_creates_witness :
  ∃ user l bx n, acting demo_ctx = Ok user ∧ path_segs (normalize "/a/n") = (l ++ [bx])%list
    ∧ n_IsDir n = true ∧ n_Name n = bx ∧ n_Size n = 0
    ∧ (∃ rp, view (w_db demo_mkdir) (u_ID user) l = Some rp ∧ rdir rp = true ∧ n_ParentID n = Some (n_ID (nr_node rp)))
    ∧ view demo_db (u_ID user) (l ++ [bx])%list = None
    ∧ view (w_db demo_mkdir) (u_ID user) (l ++ [bx])%list = Some (mkNodeRow n "" None)
    ∧ (∀ v q, ¬ (v = u_ID user ∧ (q = (l ++ [bx])%list ∨ q = [])) → view (w_db demo_mkdir) v q = view demo_db v q)
    ∧ tree_ok (w_db demo_mkdir) ∧ conserves demo_db (w_db demo_mkdir).
Proof.
  apply (mkdir_creates demo_ctx "/a/n" demo_world tt demo_mkdir).
  - exact demo_tree.
  - done.
  - vm_compute. reflexivity.
Defined.

(** A COPY refused half way: the destination exists and Overwrite is off. *)
Lemma failed_request_witness :
  w_db (Copy demo_ctx "/a" "/b" true false demo_world).2 = demo_db
  ∨ ∃ user, acting demo_ctx = Ok user ∧
      ensured (u_ID user) demo_db (w_db (Copy demo_ctx "/a" "/b" true false demo_world).2).
Proof.
  apply (proj2 (failed_request_rolls_back demo_ctx "" "/a" "/b" true false demo_world OsErrExist
                 (Copy demo_ctx "/a" "/b" true false demo_world).2 demo_tree eq_refl)).
  vm_compute. reflexivity.
Defined.

Lemma rename_onto_ancestor_witness : ∃ user, acting demo_ctx = Ok user ∧
  ∀ q, below (path_segs (normalize "/a")) q →
       view (w_db (Rename demo_ctx "/a/d" "/a" (Mkdir demo_ctx "/a/d" demo_world).2).2) (u_ID user) q = None.
Proof.
  apply (rename_onto_ancestor_loses demo_ctx "/a/d" "/a" (Mkdir demo_ctx "/a/d" demo_world).2 tt).
  - apply tree_okb_sound. vm_compute. reflexivity.
  - vm_compute. reflexivity.
  - by vm_compute.
  - exists ["d"]. vm_compute. reflexivity.
  - vm_compute. reflexivity.
Defined.

Lemma copy_onto_ancestor_witness : ∃ user, acting demo_ctx = Ok user ∧
  ∀ q, below (path_segs (normalize "/a")) q → q ≠ path_segs (normalize "/a") →
       view (w_db (Copy demo_ctx "/a/x" "/a" true true demo_world).2) (u_ID user) q = None.
Proof.
  apply (copy_onto_ancestor_loses demo_ctx "/a/x" "/a" true true demo_world tt).
  - exact demo_uuids.
  - exact demo_tree.
  - done.
  - by vm_compute.
  - exists ["x"]. vm_compute. reflexivity.
  - vm_compute. reflexivity.
Defined.

Lemma list_subtree_witness : let x := NodeRepository_ListSubtree 1 (render ["a"]) demo_world in
  w_db x.2 = demo_db ∧ NoDup (n_ID <$> demo_list) ∧
  ∀ n, n ∈ demo_list ↔ ∃ r, d_nodes demo_db !! n_ID n = Some r ∧ nr_node r = n
                            ∧ ruser r = 1%N ∧ below ["a"] (rsegs r).
Proof.
  apply (list_subtree_exact 1 ["a"] demo_world demo_list).
  - exact demo_tree.
  - by repeat constructor.
  - done.
  - vm_compute. reflexivity.
Defined.

(** A user with eight bytes of twelve in use uploads three more. *)
Definition capped_user : User := mkUser 1 "ann" "" false 12 0 0 1.
Definition capped_ctx : option Principal := Some (mkPrincipal (Some capped_user) (Some capped_user)).
Definition capped_put : World := (put capped_ctx "/n" put_flags [demo_bytes "ne"; demo_bytes "w"] demo_world).2.

Lemma put_within_quota_witness : user_file_bytes 1 (w_db demo_world) = 8
  ∧ user_file_bytes 1 (w_db capped_put) ≤ 12.
Proof.
  split; [by vm_compute|].
  destruct (put_within_quota capped_ctx "/n" [demo_bytes "ne"; demo_bytes "w"] demo_world tt capped_put) as (user & Hact & Hq).
  - exact demo_tree.
  - done.
  - vm_compute. reflexivity.
  - injection Hact as <-. apply Hq; by vm_compute.
Defined.

(** Two more would not have fitted. *)
Example capped_refused :
  (put capped_ctx "/n" put_flags [demo_bytes "ne"; demo_bytes "wer"] demo_world).1 = Err ErrQuotaExceeded.
Proof. by vm_compute. Qed.

Lemma read_range_witness : let x := WALRepository_ReadRange 13 1 9 demo_world in
  demo_bytes "al" = take (Z.to_nat 9) (drop (Z.to_nat 1) (wal_content 13 demo_db)) ∧ w_db x.2 = demo_db.
Proof.
  apply (read_range_is_slice 13 1 9 demo_world (demo_bytes "al")).
  - exact demo_wal.
  - lia.
  - by vm_compute.
  - vm_compute. reflexivity.
Defined.
