(* ===== verification/CacheTheorems.v ===== *)
(** * What the disk cache promises

    The bound, the content of what it serves under every interleaving, the order
    of eviction, and what a restart recovers. *)
From Stdlib Require Import ZArith Lia Strings.Byte Strings.String.
From stdpp Require Import base tactics list gmap sets sorting strings relations.
From S2P Require Import Prelude Model Sql World Cache CacheFacts File Demo.
#[local] Open Scope Z_scope.
Open Scope m_scope.

(** ** Sequential use *)

Section sequential.
Context {E : Env}.

(** A successful [Put] of a blob that fits keeps the cache within its bound,
    and a [Get] that follows it, before any other operation and on a readable disk,
    returns exactly the bytes put. *)
Theorem cache_put_get id data w w' :
  cache_ok (w_cache w) → blen data ≤ ca_maxBytes (w_cache w) →
  cache_Put id data w = (Ok tt, w') →
  cache_ok (w_cache w') ∧
  (env_io_fault (w_step w') = false → ∃ w2, cache_Get id w' = (Ok (Some data), w2)).
Proof.
  intros Hok Hlen H. destruct (Put_Get id data w w' Hok Hlen H) as [Hok' Hget].
  split; [done|]. intros Hio. by apply Hget.
Qed.

(** C39: [Put] makes room in the order of recency.  The new blob goes to the front of
    the order and a tail of that order goes out.  What stays is indexed as before, the
    new blob with the size of its bytes, and the total is the sum of the sizes of what
    is indexed and within the bound; the most recently used victim would not have
    fitted, and the new blob is one only if it is larger than the whole cache. *)
Theorem cache_evicts_lru id data w w' :
  cache_ok (w_cache w) → blen data < 2 ^ 62 → cache_Put id data w = (Ok tt, w') →
  ∃ victims, move_to_front id (ca_lru (w_cache w)) = (ca_lru (w_cache w') ++ victims)%list
    ∧ (∀ x, x ∈ ca_lru (w_cache w') ↔ is_Some (ca_index (w_cache w') !! x)) ∧ NoDup (ca_lru (w_cache w'))
    ∧ ca_total (w_cache w') = sum_list_with_Z (size_at (ca_index (w_cache w'))) (ca_lru (w_cache w'))
    ∧ ca_total (w_cache w') ≤ ca_maxBytes (w_cache w)
    ∧ (id ∈ victims → ca_maxBytes (w_cache w) < blen data)
    ∧ (id ∉ victims → size_at (ca_index (w_cache w')) id = blen data
         ∧ ∃ t, ca_files (w_cache w') !! id = Some (data, t))
    ∧ (∀ x, x ≠ id → ca_index (w_cache w') !! x = if decide (x ∈ victims) then None else ca_index (w_cache w) !! x)
    ∧ (∀ x, x ≠ id → x ∉ victims → ca_files (w_cache w') !! x = ca_files (w_cache w) !! x)
    ∧ ∀ x rest, victims = x :: rest → x ≠ id →
        ca_maxBytes (w_cache w) < ca_total (w_cache w') + size_at (ca_index (w_cache w)) x.
Proof.
  intros Hok Hlen H. unfold cache_Put in H. apply bind_Ok in H as ([] & w1 & Hf & H).
  apply put_file_Ok in Hf as (_ & _ & t & Hc1). pose proof Hok as (Hk & Hmax & Ht).
  assert (cache_ok (w_cache w1)) as Hok1 by (rewrite Hc1; split; [by apply wf_files|done]).
  destruct (put_index_run id (blen data) w1 Hok1) as (w2 & c & Hr & Hok' & Hev & Hc & _); [blen_lia|].
  rewrite Hr in H. injection H as <-. destruct Hev as (victims & Hsh & Hle & Hmin).
  destruct (put_shape id (blen data) (env_now (w_step w1)) (w_cache w1)) as (Hlru & Hidx & Hfil & Hbnd);
    [apply Hok1|]. rewrite <- Hc in *. rewrite Hc1 in Hlru, Hidx, Hfil, Hbnd. simpl in *.
  destruct (put_entry id (blen data) (env_now (w_step w1)) (w_cache w1)) as [p Hp]. rewrite <- Hc in Hp.
  pose proof (sh_wf _ _ _ Hsh) as Hwf. exists victims. split_and!.
  - by rewrite <- Hlru, (sh_lru _ _ _ Hsh).
  - apply Hwf.
  - apply Hwf.
  - apply Hwf.
  - by rewrite <- Hbnd.
  - intros Hv. destruct (front_of_tail id (lru_remove id (ca_lru (w_cache w))) (ca_lru (w_cache w2)) victims) as [Hnil Hvs]; [|by rewrite <- (sh_lru _ _ _ Hsh)|done|].
    { apply NoDup_cons. split; [by intros [_ ?]%elem_lru_remove|]. apply NoDup_lru_remove, Hk. }
    specialize (Hmin id _ Hvs). rewrite (cw_total _ Hwf), Hnil in Hmin. unfold size_at in Hmin at 1.
    rewrite Hp, Hbnd in Hmin. cbn in Hmin. lia.
  - intros Hv. unfold size_at. rewrite (sh_index _ _ _ Hsh), decide_False, Hp by done. split; [done|].
    exists t. by rewrite (sh_files _ _ _ Hsh), Hfil, lookup_insert_eq.
  - intros x Hx. rewrite (sh_index _ _ _ Hsh). by rewrite Hidx.
  - intros x Hx Hv. rewrite (sh_files _ _ _ Hsh) by done. rewrite Hfil. by rewrite lookup_insert_ne.
  - intros x rest Hv Hx. rewrite <- Hbnd. unfold size_at. rewrite <- Hidx by done. by eapply Hmin.
Qed.

(** one sweep of the janitor drops exactly the blobs not accessed within the
    idle time, and leaves every other entry as it is. *)
Theorem janitor_drops_idle w :
  cache_wf (w_cache w) → recency_sorted (w_cache w) →
  ∃ w', sweepIdle w = (Ok tt, w') ∧ cache_wf (w_cache w') ∧
  ∀ id e, ca_index (w_cache w') !! id = Some e ↔
    ca_index (w_cache w) !! id = Some e
    ∧ env_now (w_step w) - ca_idleTTL (w_cache w) ≤ ce_lastAccess e.
Proof.
  intros Hc Hs. set (cutoff := env_now (w_step w) - ca_idleTTL (w_cache w)).
  destruct (sweep_exact cutoff (ca_lru (w_cache w)) (tick w) Hc Hs eq_refl) as (w' & l2 & Hr & Hsh & Hl & _).
  exists w'. split; [done|]. split; [apply Hsh|]. intros id e. cbn [w_cache tick] in *.
  pose proof (cw_dom _ (sh_wf _ _ _ Hsh) id) as Hd. rewrite Hl in Hd.
  rewrite list_elem_of_In, List.filter_In, <- list_elem_of_In, (cw_dom _ Hc id) in Hd.
  pose proof (sh_index _ _ _ Hsh id) as Hi. split.
  - intros He. destruct Hd as [_ Hd]. destruct Hd as [_ Hrec]; [by eexists|].
    rewrite He in Hi. destruct (decide (id ∈ l2)); [done|]. split; [done|].
    unfold recent, last_at in Hrec. rewrite <- Hi in Hrec. simpl in Hrec.
    by apply negb_true_iff, Z.ltb_ge in Hrec.
  - intros [He Hle]. destruct Hd as [Hd _]. destruct Hd as [e' He'].
    { split; [by eexists|]. unfold recent, last_at. rewrite He. simpl. apply negb_true_iff, Z.ltb_ge. done. }
    rewrite He' in Hi |- *. destruct (decide (id ∈ l2)); congruence.
Qed.

(** C40: a restart on an existing directory.  The new index describes files of the
    directory, each at its size and modification time, in the order of their age and
    within the bound.  If the directory could be read, it describes all of them but for
    the [victims]: those are the oldest, and the youngest of them would not have
    fitted. *)
Theorem cache_rebuild w w' :
  0 < ca_maxBytes (w_cache w) < 2 ^ 62 →
  sum_list_with_Z (λ f, blen f.2.1) (listing (w_cache w)) ≤ max_int64 →
  rebuild w = (Ok tt, w') →
  cache_ok (w_cache w') ∧ recency_sorted (w_cache w')
  ∧ ca_files (w_cache w') ⊆ ca_files (w_cache w)
  ∧ (∀ id e, ca_index (w_cache w') !! id = Some e →
      ∃ data t, ca_files (w_cache w) !! id = Some (data, t) ∧ ce_size e = blen data ∧ ce_lastAccess e = t)
  ∧ ∃ victims,
      ((∀ n, env_io_fault n = false) → ∀ id,
         is_Some (ca_files (w_cache w) !! id) ↔ is_Some (ca_index (w_cache w') !! id) ∨ id ∈ victims)
      ∧ (∀ v, v ∈ victims → ca_index (w_cache w') !! v = None
           ∧ ∃ data t, ca_files (w_cache w) !! v = Some (data, t)
               ∧ ∀ id e, ca_index (w_cache w') !! id = Some e → t ≤ ce_lastAccess e)
      ∧ ∀ v rest data t, victims = v :: rest → ca_files (w_cache w) !! v = Some (data, t) →
          ca_maxBytes (w_cache w) < ca_total (w_cache w') + blen data.
Proof. apply rebuild_Ok. Qed.

End sequential.

(** ** Concurrent use *)

(** C23: whatever the interleaving of [Get]s, [Put]s, [Remove]s, the janitor and of
    files that vanish, the cache stays consistent and within its bound, and every
    file in its directory and every result a [Get] is about to return holds bytes
    that some caller put for that very blob. *)
Theorem cache_interleavings_safe {E : Env} (allowed : uuid → bytes → Prop) w w' p :
  (∀ id data, allowed id data → blen data < 2 ^ 62) → cache_ok (w_cache w) →
  (∀ id data t, ca_files (w_cache w) !! id = Some (data, t) → allowed id data) →
  rtc (cstep allowed) (w, []) (w', p) →
  cache_ok (w_cache w')
  ∧ (∀ id data t, ca_files (w_cache w') !! id = Some (data, t) → allowed id data)
  ∧ ∀ id e data, GetHit id e data ∈ p → allowed id data.
Proof.
  intros Hlen Hok Hf Hrun.
  destruct (csteps_ok allowed (w, []) (w', p) Hlen Hrun) as [Hc Hfiles Hp]; [by split|].
  split_and!; [done|done|]. intros id e data Hin. rewrite Forall_forall in Hp. by apply (Hp _ Hin).
Qed.

(** ** Witnesses: a cache of ten bytes *)

Definition small_world : World := set_cache (mkCache 10 5 ∅ [] 0 ∅ 0) demo_world.
Definition hello_cached : World := (cache_Put 20 (demo_bytes "hello") small_world).2.
Definition hello_entry : CacheEntry := mkCacheEntry 0 5 1005.

Lemma small_ok : cache_ok (w_cache small_world).
Proof.
  split; [|split; [simpl; lia|done]]. split; simpl; try done; [|by constructor].
  intros id. rewrite lookup_empty. split; [by intros ?%elem_of_nil|by intros []].
Qed.

Lemma hello_ok : cache_ok (w_cache hello_cached).
Proof.
  apply (Put_Get 20 (demo_bytes "hello") small_world); [apply small_ok|by vm_compute|by vm_compute].
Qed.

Lemma hello_sorted : recency_sorted (w_cache hello_cached).
Proof.
  unfold recency_sorted. assert (ca_lru (w_cache hello_cached) = [20%N]) as -> by by vm_compute.
  by repeat constructor.
Qed.

Lemma cache_put_get_witness : cache_ok (w_cache hello_cached) ∧
  (env_io_fault (w_step hello_cached) = false →
   ∃ w2, cache_Get 20 hello_cached = (Ok (Some (demo_bytes "hello")), w2)).
Proof.
  apply (cache_put_get 20 (demo_bytes "hello") small_world hello_cached).
  - exact small_ok.
  - by vm_compute.
  - vm_compute. reflexivity.
Defined.

Definition goodbye_cached : World := (cache_Put 21 (demo_bytes "goodbye") hello_cached).2.

Lemma cache_evicts_witness :
  ∃ victims, move_to_front 21 (ca_lru (w_cache hello_cached)) = (ca_lru (w_cache goodbye_cached) ++ victims)%list
    ∧ (∀ x, x ∈ ca_lru (w_cache goodbye_cached) ↔ is_Some (ca_index (w_cache goodbye_cached) !! x))
    ∧ NoDup (ca_lru (w_cache goodbye_cached))
    ∧ ca_total (w_cache goodbye_cached) = sum_list_with_Z (size_at (ca_index (w_cache goodbye_cached))) (ca_lru (w_cache goodbye_cached))
    ∧ ca_total (w_cache goodbye_cached) ≤ 10
    ∧ (21%N ∈ victims → 10 < blen (demo_bytes "goodbye"))
    ∧ (21%N ∉ victims → size_at (ca_index (w_cache goodbye_cached)) 21 = blen (demo_bytes "goodbye")
         ∧ ∃ t, ca_files (w_cache goodbye_cached) !! 21%N = Some (demo_bytes "goodbye", t))
    ∧ (∀ x, x ≠ 21%N → ca_index (w_cache goodbye_cached) !! x = if decide (x ∈ victims) then None else ca_index (w_cache hello_cached) !! x)
    ∧ (∀ x, x ≠ 21%N → x ∉ victims → ca_files (w_cache goodbye_cached) !! x = ca_files (w_cache hello_cached) !! x)
    ∧ ∀ x rest, victims = x :: rest → x ≠ 21%N →
        10 < ca_total (w_cache goodbye_cached) + size_at (ca_index (w_cache hello_cached)) x.
Proof.
  apply (cache_evicts_lru 21 (demo_bytes "goodbye") hello_cached goodbye_cached).
  - exact hello_ok.
  - by vm_compute.
  - vm_compute. reflexivity.
Defined.

(** The blob of five bytes goes out for the one of seven. *)
Example goodbye_evicts : ca_lru (w_cache goodbye_cached) = [21%N] ∧ ca_total (w_cache goodbye_cached) = 7.
Proof. by vm_compute. Qed.

Lemma janitor_drops_witness : ∃ w', sweepIdle hello_cached = (Ok tt, w') ∧ cache_wf (w_cache w') ∧
  ∀ id e, ca_index (w_cache w') !! id = Some e ↔
    ca_index (w_cache hello_cached) !! id = Some e ∧ env_now (w_step hello_cached) - 5 ≤ ce_lastAccess e.
Proof.
  apply (janitor_drops_idle hello_cached); [exact (proj1 hello_ok)|exact hello_sorted].
Defined.

(** A directory of three files, of fifteen bytes, opened with room for ten. *)
Definition full_dir : gmap uuid (bytes * time) :=
  {[ 20%N := (demo_bytes "hello", 1004); 21%N := (demo_bytes "world", 1001); 22%N := (demo_bytes "again", 1002) ]}.
Definition dir_world : World := set_cache (set_files full_dir (w_cache small_world)) small_world.
Definition reopened : World := (rebuild dir_world).2.

Lemma cache_rebuild_witness :
  cache_ok (w_cache reopened) ∧ recency_sorted (w_cache reopened)
  ∧ ca_files (w_cache reopened) ⊆ full_dir
  ∧ (∀ id e, ca_index (w_cache reopened) !! id = Some e →
      ∃ data t, full_dir !! id = Some (data, t) ∧ ce_size e = blen data ∧ ce_lastAccess e = t)
  ∧ ∃ victims,
      ((∀ n, env_io_fault n = false) → ∀ id,
         is_Some (full_dir !! id) ↔ is_Some (ca_index (w_cache reopened) !! id) ∨ id ∈ victims)
      ∧ (∀ v, v ∈ victims → ca_index (w_cache reopened) !! v = None
           ∧ ∃ data t, full_dir !! v = Some (data, t)
               ∧ ∀ id e, ca_index (w_cache reopened) !! id = Some e → t ≤ ce_lastAccess e)
      ∧ ∀ v rest data t, victims = v :: rest → full_dir !! v = Some (data, t) →
          10 < ca_total (w_cache reopened) + blen data.
Proof.
  apply (cache_rebuild dir_world reopened); [done|by vm_compute|vm_compute; reflexivity].
Defined.

(** The oldest of the three is dropped, the other two are there in their order. *)
Example reopened_entries : ca_lru (w_cache reopened) = [20%N; 22%N] ∧ ca_files (w_cache reopened) !! 21%N = None.
Proof. by vm_compute. Qed.

(** A [Get] that read the file before it was removed and rewritten. *)
Definition both (id : uuid) (data : bytes) : Prop :=
  id = 20%N ∧ (data = demo_bytes "hello" ∨ data = demo_bytes "world").
Definition race1 : World := (get_read 20 (get_lookup 20 hello_cached).2).2.
Definition race2 : World := (put_file 20 (demo_bytes "world") (cache_Remove 20 race1).2).2.
Definition race_calls : list pending :=
  [PutIndex 20 (demo_bytes "world"); GetHit 20 hello_entry (demo_bytes "hello")].

Lemma race_run : rtc (cstep both) (hello_cached, []) (race2, race_calls).
Proof.
  apply (rtc_l _ _ ((get_lookup 20 hello_cached).2, [GetRead 20 hello_entry])).
  { apply CGetLookup. vm_compute. reflexivity. }
  apply (rtc_l _ _ (race1, [GetHit 20 hello_entry (demo_bytes "hello")])).
  { apply (CGetRead both _ [] []). vm_compute. reflexivity. }
  apply (rtc_l _ _ ((cache_Remove 20 race1).2, [GetHit 20 hello_entry (demo_bytes "hello")])).
  { eapply CRemove. apply surjective_pairing. }
  apply rtc_once. apply CPutFile; [by split; [|right]|]. vm_compute. reflexivity.
Qed.

Lemma cache_interleavings_witness :
  cache_ok (w_cache race2)
  ∧ (∀ id data t, ca_files (w_cache race2) !! id = Some (data, t) → both id data)
  ∧ ∀ id e data, GetHit id e data ∈ race_calls → both id data.
Proof.
  apply (cache_interleavings_safe both hello_cached race2 race_calls).
  - intros id data [_ [->| ->]]; by vm_compute.
  - exact hello_ok.
  - assert (ca_files (w_cache hello_cached) = {[ 20%N := (demo_bytes "hello", 1004) ]}) as -> by by vm_compute.
    intros id data t [<- [= <- _]]%lookup_singleton_Some. split; [done|by left].
  - exact race_run.
Defined.
