(* ===== verification/BlobTheorems.v ===== *)
(** * What the blob reader promises

    Integrity of what it returns, the interface the filesystem relies on and what
    it gives a download end to end, the choice of bots, the classification of
    Telegram's errors, and when and how a lost message deletes files. *)
From Stdlib Require Import ZArith Lia Strings.Byte Strings.String Strings.Ascii.
From stdpp Require Import base tactics list gmap sets sorting strings.
From S2P Require Import Prelude Model Sql SqlFacts World Repository Crypto Accounts Path FileSystem File.
From S2P Require Import Tree FsFacts ReadFacts WriteFacts Session Cache CacheFacts Telegram BlobReader BlobFacts SelectFacts LossFacts Demo.
#[local] Open Scope string_scope.
#[local] Open Scope Z_scope.
Open Scope m_scope.

Section reading.
Context {E : Env} {C : Aead} {A : BotAPI} (bots : BotRepository).

(** C16: [ReadBlob] fails closed.  Bytes it returns are of a blob in state stored, and
    either lay in the cache or, if the blob's row has a content hash (as every row the
    packer writes has), hash to it; only those bytes are added to the cache, and no
    file, extent, chunk or blob row is touched.  (A row without a hash is served as
    downloaded: there is nothing to verify it by.) *)
Theorem read_blob_verified id w data w' : bodies_ok → cache_ok (w_cache w) →
  ReadBlob bots id w = (Ok data, w') →
  ∃ blob, d_blobs (w_db w) !! id = Some blob ∧ b_State blob = BlobStateStored
    ∧ (b_ContentHash blob ≠ [] →
         (∃ t, ca_files (w_cache w) !! id = Some (data, t)) ∨ sha256 data = b_ContentHash blob)
    ∧ side (w_db w) (w_db w') ∧ cache_ok (w_cache w')
    ∧ ∀ x b t, ca_files (w_cache w') !! x = Some (b, t) →
        (x = id ∧ b = data) ∨ ∃ t', ca_files (w_cache w) !! x = Some (b, t').
Proof.
  intros Hb Hc H. pose proof (ReadBlob_adds _ _ _ _ _ H) as Hadd.
  apply ReadBlob_Ok in H as (blob & Hbl & Hst & Hd & Hs & _ & Hc').
  exists blob. split_and!; try done; [intros Hh; destruct Hd as [?|[[?|Hv] _]]; [by left|done|by right]|by apply Hc'|].
  intros x b t Hx. destruct (Hadd x b t Hx) as [(-> & [= ->] & _)|?]; [by left|by right].
Qed.

(** C22: refinement.  The reader over Telegram implements the blob service the
    filesystem is verified against: started with a cache that only holds genuine
    bytes, every read it answers is the blob's content and keeps that state. *)
Theorem blob_reader_refines st : BlobLaws (B := blob_reader bots) st (pinned st).
Proof. apply reader_laws. Qed.

(** C10: end to end.  Whatever Telegram answers, whatever fails and whatever the
    size of the reads, a download of a stored or buffered file through the blob
    reader that reports success returned exactly the file's content. *)
Theorem download_is_content st ctx user name r content plen fuel w data w' :
  tree_ok (w_db w) → acting ctx = Ok user →
  view (w_db w) (u_ID user) (path_segs (normalize name)) = Some r → rdir r = false →
  content_is st (pinned st) (n_ID (nr_node r)) r w content → 0 < plen →
  get (B := blob_reader bots) ctx name plen fuel w = (Ok data, w') → data = content.
Proof.
  intros Hd Hact Hv Hdir Hc Hp H.
  exact (@get_safe _ (blob_reader bots) st (pinned st) (reader_laws bots st)
    ctx user name _ r content plen fuel w data w' Hd Hact eq_refl Hv Hdir Hc Hp H).
Qed.

(** C31: the candidates are exactly the enabled, unparked bots recorded as members
    of the blob's channel, each once, those with a cached file id first. *)
Theorem candidates_exact blob w cs w' : bots_keyed (w_db w) → candidates bots blob w = (Ok cs, w') →
  NoDup (bot_ID ∘ cd_bot <$> cs)
  ∧ (∀ id, id ∈ (bot_ID ∘ cd_bot <$> cs) ↔ usable id (b_ChannelID blob) (env_now (w_step w)) (w_db w))
  ∧ ∃ l1 l2, cs = (l1 ++ l2)%list
      ∧ (∀ c, c ∈ l1 → cached_file (b_ID blob) (bot_ID (cd_bot c)) (cd_fileID c) (w_db w))
      ∧ (∀ c, c ∈ l2 → cd_fileID c = "" ∧ ∀ fid, ¬ cached_file (b_ID blob) (bot_ID (cd_bot c)) fid (w_db w)).
Proof. apply candidates_Ok. Qed.

(** C25: a read changes files only as a last resort.  When it does, it fails with
    [ErrBlobUnavailable], and this is how its run went, from the first world to the
    last: the blob was not in the cache; every bot that is enabled, available and a
    member of the blob's channel is a candidate; all candidates were tried one after the
    other, each in the world the one before left, and every one failed; the forward of
    one of them had said that the message is gone; then, and only then, the cascade,
    which is the whole change. *)
Theorem gone_is_last_resort id w r w' : w_tx w = None → tree_ok (w_db w) →
  ReadBlob bots id w = (r, w') → ¬ side (w_db w) (w_db w') →
  r = Err ErrBlobUnavailable ∧ ∃ blob ch w1 cs w2 l w3,
    d_blobs (w_db w) !! id = Some blob ∧ looked_up id w blob ch w1
    ∧ candidates bots blob w1 = (Ok cs, w2)
    ∧ (bots_keyed (w_db w) → ∀ bot, usable bot (b_ChannelID blob) (env_now (w_step w1)) (w_db w) →
         bot ∈ (bot_ID ∘ cd_bot <$> cs))
    ∧ all_fail blob ch cs w2 l w3 ∧ (∃ e, (true, Err e) ∈ l)
    ∧ markPermUnavailable blob w3 = (Ok tt, w') ∧ cascaded id (w_db w) (w_db w').
Proof.
  intros Htx Hd H Hn.
  apply ReadBlob_effect in H as [_ [Hs|(-> & blob & Hb & (ch & w1 & cs & w2 & l & w3 & Hlk & Hdb & Hcs & Hl & Hg & Hm) & Hc)]];
    [by destruct Hn| |done..].
  split; [done|]. exists blob, ch, w1, cs, w2, l, w3. split_and!; try done. intros Hk bot Hu.
  rewrite <- Hdb in Hk, Hu. apply candidates_Ok in Hcs as (_ & Hin & _); [|done]. by apply Hin.
Qed.

(** C24: the cascade is all or nothing.  When its transaction succeeds the blob is
    permanently unavailable with its reference count as it was, the nodes all of
    whose extents lay on it are gone with their extents and chunks, and every other
    row and the tree's invariant are kept; when it fails the tables are untouched. *)
Theorem cascade_deletes_sole blob w r w' : w_tx w = None → tree_ok (w_db w) →
  WithTx (cascade_tx blob) w = (r, w') →
  match r with
  | Ok _ =>
      (∃ b, d_blobs (w_db w) !! blob = Some b
       ∧ d_blobs (w_db w') = <[blob := blob_with_state BlobStatePermUnavailable b]> (d_blobs (w_db w)))
      ∧ (∀ j s, d_nodes (w_db w') !! j = Some s ↔
           d_nodes (w_db w) !! j = Some s ∧ ¬ solely_on blob j (w_db w))
      ∧ (∀ k e, d_extents (w_db w') !! k = Some e ↔
           d_extents (w_db w) !! k = Some e ∧ ¬ solely_on blob (e_NodeID e) (w_db w))
      ∧ (∀ k c, d_wal_chunks (w_db w') !! k = Some c ↔
           d_wal_chunks (w_db w) !! k = Some c ∧ ¬ solely_on blob (c_NodeID c) (w_db w))
      ∧ d_users (w_db w') = d_users (w_db w) ∧ tree_ok (w_db w')
  | Err _ => w_db w' = w_db w
  end.
Proof.
  intros Htx Hd H. destruct r as [u|e].
  - apply WithTx_Ok in H as (w2 & H & _ & ->); [|done]. by apply cascade_tx_Ok in H as [].
  - by apply WithTx_Err in H as [].
Qed.

End reading.

(** Telegram's failures are classified in this order: a retry hint or a 429
    parks the bot for a positive time, never zero; then any description that speaks
    of something not found is a lost message, whatever the code; only then a 403 is
    a refusal. *)
Theorem mapError_classifies env :
  match mapError env with
  | TgRateLimit d => 0 < d ∧ (env_ErrorCode env = 429 ∨ ∃ p, env_Parameters env = Some p ∧ 0 < rp_RetryAfter p)
  | TgMessageNotFound => env_ErrorCode env ≠ 429 ∧ says_gone (env_Description env) = true
  | TgForbidden => env_ErrorCode env = 403 ∧ says_gone (env_Description env) = false
  | e => e = TgOther ∧ env_ErrorCode env ≠ 429 ∧ env_ErrorCode env ≠ 403
         ∧ says_gone (env_Description env) = false
  end.
Proof.
  unfold mapError. destruct (_ || _) eqn:Hrate.
  - split.
    + destruct (Z.leb_spec (match env_Parameters env with Some p => wrap64 (rp_RetryAfter p * Second) | None => 0 end) 0);
        [by vm_compute|lia].
    + apply orb_true_iff in Hrate as [?%Z.eqb_eq|Hp]; [by left|right].
      destruct (env_Parameters env) as [p|]; [|done]. exists p. split; [done|]. by apply Z.ltb_lt.
  - apply orb_false_iff in Hrate as [Hcode%Z.eqb_neq _].
    destruct (says_gone _) eqn:Hg; [done|]. destruct (Z.eqb_spec (env_ErrorCode env) 403); by split_and!.
Qed.

(** ** Witnesses: one bot, one channel, one blob *)

#[global] Instance demo_aead : Aead := {
  gcm_seal := λ _ _ p, p; gcm_open := λ _ _ c, Some c;
  rand_bytes := λ _, Some (repeat Byte.x00 12) }.

Definition demo_bots : BotRepository := mkBotRepository (Some (repeat Byte.x00 32)).
Definition demo_bot_row : BotRow :=
  mkBotRow 60 "kit" "" (repeat Byte.x00 12 ++ demo_bytes "token")%list true None 1.
Definition blob_world : World :=
  set_db (set_bots {[ 60%N := demo_bot_row ]}
    (set_bot_channel {[ (60%N, 40%N) := mkBotChannel 60 40 true 1 ]}
    (set_blob_bot_files {[ (20%N, 60%N) := mkBlobBotFile 20 60 "F0" "U0" 1 ]} demo_db))) demo_world.

Definition ok_result : apiResponse :=
  mkApiResponse true (Some (mkApiResult 99 (Some ("F", "U")) "kit" "store" "path")) 0 "" None.

(** Telegram serves wrong bytes to the first download and the right ones later. *)
Definition flaky_api : BotAPI := {|
  api_call := λ _ _ _ _ _, Envelope ok_result;
  api_file := λ n _ _, DlStatus 200 (Some (demo_bytes (if (n <? 20)%nat then "wrong" else "hello"))) |}.

(** Telegram refuses every forward with the given code and description. *)
Definition refusing_api (code : Z) (desc : string) : BotAPI := {|
  api_call := λ _ _ method _ _,
    if String.eqb method "forwardMessage" then Envelope (mkApiResponse false None code desc None)
    else Envelope ok_result;
  api_file := λ _ _ _, DlStatus 404 None |}.

Definition gone_api : BotAPI := refusing_api 400 "Bad Request: message to forward not found".

Lemma flaky_bodies : bodies_ok (A := flaky_api).
Proof. intros data (n & b & p & code & H). simpl in H. injection H as _ <-. by destruct (n <? 20)%nat. Qed.

Lemma blob_world_cache : cache_ok (w_cache blob_world).
Proof.
  split; [|split; [simpl; lia|done]]. split; simpl; try done; [|by constructor].
  intros id. rewrite lookup_empty. split; [by intros ?%elem_of_nil|by intros []].
Qed.

Lemma blob_world_tree : tree_ok (w_db blob_world).
Proof. apply tree_okb_sound. vm_compute. reflexivity. Qed.

Lemma blob_world_keyed : bots_keyed (w_db blob_world).
Proof. intros k r Hk. simpl in Hk. by apply lookup_singleton_Some in Hk as [<- <-]. Qed.

Lemma read_blob_witness : let w' := (ReadBlob (A := flaky_api) demo_bots 20 blob_world).2 in
  ∃ blob, d_blobs (w_db blob_world) !! 20%N = Some blob ∧ b_State blob = BlobStateStored
    ∧ (b_ContentHash blob ≠ [] →
         (∃ t, ca_files (w_cache blob_world) !! 20%N = Some (demo_bytes "hello", t))
         ∨ sha256 (demo_bytes "hello") = b_ContentHash blob)
    ∧ side (w_db blob_world) (w_db w') ∧ cache_ok (w_cache w')
    ∧ ∀ x b t, ca_files (w_cache w') !! x = Some (b, t) →
        (x = 20%N ∧ b = demo_bytes "hello") ∨ ∃ t', ca_files (w_cache blob_world) !! x = Some (b, t').
Proof.
  apply (read_blob_verified (A := flaky_api) demo_bots 20 blob_world (demo_bytes "hello")).
  - exact flaky_bodies.
  - exact blob_world_cache.
  - vm_compute. reflexivity.
Defined.

(** [flaky_api] serves two bodies, and only one has the blob's hash. *)
Lemma demo_pinned : pinned (A := flaky_api) demo_store blob_world.
Proof.
  split; [done|]. intros id b data bs Hb _ Hv (n & bo & p & code & Hf).
  simpl in Hf. injection Hf as _ <-. simpl in Hb. apply lookup_singleton_Some in Hb as [<- <-].
  destruct (n <? 20)%nat; [|by intros [= <-]]. by destruct Hv as [Hv|Hv]; vm_compute in Hv.
Qed.

Lemma blob_reader_refines_witness :
  BlobLaws (B := blob_reader (A := flaky_api) demo_bots) demo_store (pinned (A := flaky_api) demo_store)
  ∧ pinned (A := flaky_api) demo_store blob_world.
Proof. split; [exact (blob_reader_refines (A := flaky_api) demo_bots demo_store)|exact demo_pinned]. Defined.

Definition demo_x : NodeRow := demo_node 12 (Some 11%N) "x" "/a/x" false 5 NodeStateStored.

Lemma download_witness : demo_bytes "hello" = demo_bytes "hello".
Proof.
  apply (download_is_content (A := flaky_api) demo_bots demo_store demo_ctx demo_user "/a/x" demo_x
           (demo_bytes "hello") 3 10 blob_world (demo_bytes "hello")
           (get (B := blob_reader (A := flaky_api) demo_bots) demo_ctx "/a/x" 3 10 blob_world).2).
  - exact blob_world_tree.
  - done.
  - vm_compute. reflexivity.
  - done.
  - split; [exact (proj1 demo_content)|intros _; exact demo_pinned].
  - lia.
  - vm_compute. reflexivity.
Defined.

Lemma candidates_witness :
  let cs := [mkCandidate (mkBot 60 "kit" "token" true None 1) "F0"] in
  NoDup (bot_ID ∘ cd_bot <$> cs)
  ∧ (∀ id, id ∈ (bot_ID ∘ cd_bot <$> cs) ↔ usable id 40 (env_now 0) (w_db blob_world))
  ∧ ∃ l1 l2, cs = (l1 ++ l2)%list
      ∧ (∀ c, c ∈ l1 → cached_file 20 (bot_ID (cd_bot c)) (cd_fileID c) (w_db blob_world))
      ∧ (∀ c, c ∈ l2 → cd_fileID c = "" ∧ ∀ fid, ¬ cached_file 20 (bot_ID (cd_bot c)) fid (w_db blob_world)).
Proof.
  apply (candidates_exact demo_bots demo_blob blob_world _ (candidates demo_bots demo_blob blob_world).2).
  - exact blob_world_keyed.
  - vm_compute. reflexivity.
Defined.

Definition gone_world : World := (ReadBlob (A := gone_api) demo_bots 20 blob_world).2.

Lemma gone_witness : (ReadBlob (A := gone_api) demo_bots 20 blob_world).1 = Err ErrBlobUnavailable
  ∧ ∃ blob ch w1 cs w2 l w3, d_blobs (w_db blob_world) !! 20%N = Some blob
    ∧ looked_up 20 blob_world blob ch w1
    ∧ candidates demo_bots blob w1 = (Ok cs, w2)
    ∧ (bots_keyed (w_db blob_world) → ∀ bot, usable bot (b_ChannelID blob) (env_now (w_step w1)) (w_db blob_world) →
         bot ∈ (bot_ID ∘ cd_bot <$> cs))
    ∧ all_fail (A := gone_api) blob ch cs w2 l w3 ∧ (∃ e, (true, Err e) ∈ l)
    ∧ markPermUnavailable blob w3 = (Ok tt, gone_world)
    ∧ cascaded 20 (w_db blob_world) (w_db gone_world).
Proof.
  apply (gone_is_last_resort (A := gone_api) demo_bots 20 blob_world _ gone_world).
  - done.
  - exact blob_world_tree.
  - apply surjective_pairing.
  - intros [Hn _ _ _ _ _]. apply (f_equal (λ m, m !! 12%N)) in Hn. vm_compute in Hn. discriminate.
Defined.

Lemma cascade_witness : let w' := (WithTx (cascade_tx 20) blob_world).2 in
  (∃ b, d_blobs (w_db blob_world) !! 20%N = Some b
   ∧ d_blobs (w_db w') = <[20%N := blob_with_state BlobStatePermUnavailable b]> (d_blobs (w_db blob_world)))
  ∧ (∀ j s, d_nodes (w_db w') !! j = Some s ↔
       d_nodes (w_db blob_world) !! j = Some s ∧ ¬ solely_on 20 j (w_db blob_world))
  ∧ (∀ k e, d_extents (w_db w') !! k = Some e ↔
       d_extents (w_db blob_world) !! k = Some e ∧ ¬ solely_on 20 (e_NodeID e) (w_db blob_world))
  ∧ (∀ k c, d_wal_chunks (w_db w') !! k = Some c ↔
       d_wal_chunks (w_db blob_world) !! k = Some c ∧ ¬ solely_on 20 (c_NodeID c) (w_db blob_world))
  ∧ d_users (w_db w') = d_users (w_db blob_world) ∧ tree_ok (w_db w').
Proof.
  apply (cascade_deletes_sole 20 blob_world (Ok tt)).
  - done.
  - exact blob_world_tree.
  - vm_compute. reflexivity.
Defined.

(** A refusal that does not speak of the message deletes the file all the same:
    one reply "chat not found" to the only bot, as when it lost sight of the channel,
    and the file and the right to its bytes are gone. *)
Theorem chat_not_found_deletes :
  let w' := (ReadBlob (A := refusing_api 400 "Bad Request: chat not found") demo_bots 20 blob_world).2 in
  d_nodes (w_db blob_world) !! 12%N = Some demo_x ∧ d_nodes (w_db w') !! 12%N = None
  ∧ b_State <$> d_blobs (w_db w') !! 20%N = Some BlobStatePermUnavailable.
Proof. vm_compute. done. Qed.
