(* ===== verification/BotTheorems.v ===== *)
(** * What the bot, channel and maintenance services promise

    Who is picked for an upload, how evenly, what a re-evaluation of availability
    does to channels and blobs, and what housekeeping may remove. *)
From Stdlib Require Import ZArith Lia Strings.Byte Strings.String.
From stdpp Require Import base tactics list gmap sets sorting strings.
From S2P Require Import Prelude Model Sql SqlFacts World Repository Crypto Accounts File Tree Cache CacheFacts Telegram BlobReader BlobFacts SelectFacts Bots BotsFacts Maintenance Demo BlobTheorems.
#[local] Open Scope string_scope.
#[local] Open Scope Z_scope.
Open Scope m_scope.

Section services.
Context {E : Env} {C : Aead} {A : BotAPI} (bots : BotRepository).

(** a bot picked for an upload is recorded as a member of the channel, enabled
    and not parked; when the pick reports that there is none, there was none; a
    pick changes no table. *)
Theorem pick_bot_usable ch w r w' : bots_keyed (w_db w) → 0 ≤ w_rr w < 2 ^ 63 →
  Bot_PickForUpload bots ch w = (r, w') →
  w_db w' = w_db w ∧ match r with
  | Ok b => ∃ now row, usable (bot_ID b) ch now (w_db w) ∧ d_bots (w_db w) !! bot_ID b = Some row ∧ loads row b
  | Err e => (e = ErrNoBot ∧ ∃ now, ∀ id, ¬ usable id ch now (w_db w))
             ∨ ∃ w1, eligibleBots bots ch w = (Err e, w1)
  end.
Proof. apply Bot_Pick_cases. Qed.

(** a channel picked for an upload is available and has a member bot usable now;
    when the pick reports that there is none, there was none. *)
Theorem pick_channel_open w r w' : bots_keyed (w_db w) → 0 ≤ w_rrc w < 2 ^ 63 →
  Channel_PickForUpload bots w = (r, w') →
  match r with
  | Ok c => w_db w' = w_db w ∧ ∃ now, open_channel c now (w_db w)
  | Err e => (e = ErrNoBot ∧ ∃ now, ∀ c, ¬ open_channel c now (w_db w))
             ∨ ∃ w1, eligibleChannels bots w = (Err e, w1)
  end.
Proof. apply Channel_Pick_cases. Qed.

(** C32: a re-evaluation that succeeds leaves every channel available exactly when an
    enabled bot is recorded as its member, and the blobs of every channel in the
    state that calls for, save those lost for good; nothing else changes. *)
Theorem reevaluate_decides w u w' : w_tx w = None → channels_keyed (w_db w) → bots_keyed (w_db w) →
  (∀ k b, d_blobs (w_db w) !! k = Some b → is_Some (d_channels (w_db w) !! b_ChannelID b)) →
  reevaluateAvailability bots w = (Ok u, w') →
  ∃ f : uuid → bool, (∀ ch, f ch = true ↔ up (w_db w) ch)
  ∧ (∀ id, d_channels (w_db w') !! id = flagged (f id) <$> d_channels (w_db w) !! id)
  ∧ (∀ k, d_blobs (w_db w') !! k = (λ b, moved (f (b_ChannelID b)) b) <$> d_blobs (w_db w) !! k)
  ∧ d_nodes (w_db w') = d_nodes (w_db w) ∧ d_extents (w_db w') = d_extents (w_db w)
  ∧ d_wal_chunks (w_db w') = d_wal_chunks (w_db w) ∧ d_bots (w_db w') = d_bots (w_db w).
Proof.
  intros Htx Hk Hkb Hfk H. apply reevaluate_Ok in H as (_ & f & S & Hf & HS & [Rc Rb Rbo _ Rn Re Rw _]); [|done..].
  exists f. split_and!; try done.
  - intros id. rewrite Rc. destruct (d_channels (w_db w) !! id) as [c|] eqn:Hc.
    + rewrite decide_True; [done|]. apply HS. by eexists.
    + by destruct (decide _).
  - intros k. rewrite Rb. destruct (d_blobs (w_db w) !! k) as [b|] eqn:Hb; simpl; [f_equal|done].
    rewrite decide_True; [done|]. by apply HS, (Hfk k).
Qed.

(** A reaping cycle completes without an error, unless the picking of a bot panics (when
    the counter of the round robin has passed 2^63).  It removes no content:
    files, extents and chunks are as they were, every blob an extent refers to is
    kept, and a blob that went was stored, unreferenced and past its grace. *)
Theorem reap_keeps_content w : (∀ k b, d_blobs (w_db w) !! k = Some b → b_ID b = k) →
  ∃ r w', reap bots w = (r, w') ∧ ended r
  ∧ d_nodes (w_db w') = d_nodes (w_db w) ∧ d_extents (w_db w') = d_extents (w_db w)
  ∧ d_wal_chunks (w_db w') = d_wal_chunks (w_db w)
  ∧ (∀ x e b, d_extents (w_db w) !! x = Some e → d_blobs (w_db w) !! e_BlobID e = Some b →
       d_blobs (w_db w') !! e_BlobID e = Some b)
  ∧ ∀ k b, d_blobs (w_db w) !! k = Some b → d_blobs (w_db w') !! k = Some b
       ∨ d_blobs (w_db w') !! k = None ∧ b_State b = BlobStateStored ∧ b_Refcount b ≤ 0
         ∧ b_CreatedAt b < env_dbnow (w_step w) - collect_grace.
Proof.
  intros Hid. destruct (reap_Ok bots w) as (r & w' & l & Hr & He & [Rn Re Rw _ _ Rb] & Hl). exists r, w'.
  split_and!; try done.
  - intros x e b Hx Hb. destruct (Rb (e_BlobID e)) as [->|(_ & _ & Hno)]; [done|]. by destruct (Hno x e Hx).
  - intros k b Hb. destruct (Rb k) as [->|(Hn & Hkl & _)]; [by left|right]. split; [done|].
    destruct (Hl k Hkl) as (k' & b' & Hb' & Hk & Hc). rewrite (Hid _ _ Hb') in Hk. subst k'.
    rewrite Hb in Hb'. injection Hb' as <-. unfold collectable in Hc.
    apply andb_true_iff in Hc as [[Hs Href]%andb_true_iff Hg].
    apply bool_decide_eq_true in Hs. apply Z.leb_le in Href. by apply Z.ltb_lt in Hg.
Qed.

End services.

(** Fairness.  As long as the set of eligible bots (or channels) stays the same,
    every one of them is picked within as many consecutive picks as there are. *)
Theorem round_robin_fair {X} (l : list X) x w : 0 ≤ w_rr w → w_rr w + blen l ≤ 2 ^ 63 → x ∈ l →
  ∃ i, (i < length l)%nat
  ∧ ((let! rr := next_bot in at_index l (rr_index rr (blen l))) (Nat.iter i (λ w, (next_bot w).2) w)).1 = Ok x.
Proof.
  intros Hrr Hmax [j Hj]%list_elem_of_lookup. pose proof (lookup_lt_Some _ _ _ Hj) as Hlt.
  set (n := blen l) in *. assert (Z.of_nat j < n) as Hjn by (unfold n, blen; lia).
  pose proof (Z.mod_pos_bound (Z.of_nat j - w_rr w) n ltac:(lia)) as Hb.
  exists (Z.to_nat ((Z.of_nat j - w_rr w) mod n)). split; [unfold n, blen in *; lia|].
  unfold mbind, bind, next_bot at 1. rewrite next_bot_iter, Z2Nat.id by (rewrite ?Z2Nat.id; unfold n in *; lia).
  rewrite rr_index_small by lia.
  replace ((w_rr w + (Z.of_nat j - w_rr w) mod n) mod n) with (Z.of_nat j).
  - unfold at_index. destruct (Z.ltb_spec (Z.of_nat j) 0); [lia|]. by rewrite Nat2Z.id, Hj.
  - rewrite Zplus_mod_idemp_r. replace (w_rr w + (Z.of_nat j - w_rr w)) with (Z.of_nat j) by lia.
    symmetry. apply Z.mod_small. lia.
Qed.

(** ** Witnesses *)

Definition disabled_bot_row : BotRow :=
  mkBotRow 61 "off" "61" (repeat Byte.x00 12 ++ demo_bytes "token")%list false None 2.
Definition fleet_world : World :=
  set_db (set_bots {[ 60%N := demo_bot_row; 61%N := disabled_bot_row ]}
    (set_bot_channel {[ (60%N, 40%N) := mkBotChannel 60 40 true 1; (61%N, 40%N) := mkBotChannel 61 40 true 1 ]}
      demo_db)) demo_world.

Lemma fleet_keyed : bots_keyed (w_db fleet_world).
Proof. apply (map_Forall_to_list (λ k r, br_ID r = k)). vm_compute. by repeat constructor. Qed.

Lemma fleet_channels : channels_keyed (w_db fleet_world).
Proof. apply (map_Forall_to_list (λ k r, ch_ID r = k)). vm_compute. by repeat constructor. Qed.

Lemma pick_bot_witness : let x := Bot_PickForUpload demo_bots 40 fleet_world in
  w_db x.2 = w_db fleet_world ∧
  ∃ now row, usable 60 40 now (w_db fleet_world) ∧ d_bots (w_db fleet_world) !! 60%N = Some row
    ∧ loads row (mkBot 60 "kit" "token" true None 1).
Proof.
  apply (pick_bot_usable demo_bots 40 fleet_world (Ok (mkBot 60 "kit" "token" true None 1))).
  - exact fleet_keyed.
  - done.
  - vm_compute. reflexivity.
Defined.

Lemma pick_channel_witness : let x := Channel_PickForUpload demo_bots fleet_world in
  w_db x.2 = w_db fleet_world ∧ ∃ now, open_channel demo_channel now (w_db fleet_world).
Proof.
  apply (pick_channel_open demo_bots fleet_world (Ok demo_channel)).
  - exact fleet_keyed.
  - done.
  - vm_compute. reflexivity.
Defined.

Lemma reevaluate_witness : let w' := (reevaluateAvailability demo_bots fleet_world).2 in
  ∃ f : uuid → bool, (∀ ch, f ch = true ↔ up (w_db fleet_world) ch)
  ∧ (∀ id, d_channels (w_db w') !! id = flagged (f id) <$> d_channels (w_db fleet_world) !! id)
  ∧ (∀ k, d_blobs (w_db w') !! k = (λ b, moved (f (b_ChannelID b)) b) <$> d_blobs (w_db fleet_world) !! k)
  ∧ d_nodes (w_db w') = d_nodes (w_db fleet_world) ∧ d_extents (w_db w') = d_extents (w_db fleet_world)
  ∧ d_wal_chunks (w_db w') = d_wal_chunks (w_db fleet_world) ∧ d_bots (w_db w') = d_bots (w_db fleet_world).
Proof.
  apply (reevaluate_decides demo_bots fleet_world tt).
  - done.
  - exact fleet_channels.
  - exact fleet_keyed.
  - apply (map_Forall_to_list (λ k b, is_Some (d_channels (w_db fleet_world) !! b_ChannelID b))).
    vm_compute. repeat constructor. by eexists.
  - vm_compute. reflexivity.
Defined.

(** An orphan beside the referenced blob. *)
Definition orphan : Blob := mkBlob 21 40 8 2 5 (sha256 (demo_bytes "stale")) BlobStateStored 0 (-2 * Hour) None.
Definition orphan_world : World :=
  set_db (set_blobs {[ 20%N := demo_blob; 21%N := orphan ]} (w_db fleet_world)) fleet_world.

Lemma reap_witness : ∃ r w', reap (A := flaky_api) demo_bots orphan_world = (r, w') ∧ ended r
  ∧ d_nodes (w_db w') = d_nodes (w_db orphan_world) ∧ d_extents (w_db w') = d_extents (w_db orphan_world)
  ∧ d_wal_chunks (w_db w') = d_wal_chunks (w_db orphan_world)
  ∧ (∀ x e b, d_extents (w_db orphan_world) !! x = Some e → d_blobs (w_db orphan_world) !! e_BlobID e = Some b →
       d_blobs (w_db w') !! e_BlobID e = Some b)
  ∧ ∀ k b, d_blobs (w_db orphan_world) !! k = Some b → d_blobs (w_db w') !! k = Some b
       ∨ d_blobs (w_db w') !! k = None ∧ b_State b = BlobStateStored ∧ b_Refcount b ≤ 0
         ∧ b_CreatedAt b < env_dbnow (w_step orphan_world) - collect_grace.
Proof.
  apply (reap_keeps_content (A := flaky_api) demo_bots orphan_world).
  apply (map_Forall_to_list (λ k b, b_ID b = k)). vm_compute. by repeat constructor.
Defined.

Example reap_collects_orphan :
  d_blobs (w_db (reap (A := flaky_api) demo_bots orphan_world).2) = {[ 20%N := demo_blob ]}.
Proof. vm_compute. reflexivity. Qed.

Lemma round_robin_witness : ∃ i, (i < 3)%nat
  ∧ ((let! rr := next_bot in at_index [10; 20; 30] (rr_index rr 3)) (Nat.iter i (λ w, (next_bot w).2) demo_world)).1
    = Ok 20.
Proof. apply (round_robin_fair [10; 20; 30] 20 demo_world); [done|done|set_solver]. Defined.

(** A channel whose window is ten messages, nine hundred messages on. *)
Definition retention_world : World :=
  set_db (set_channels {[ 40%N := mkChannel 40 (-100) "store" 900 10 true 1 ]} (w_db fleet_world)) fleet_world.

(** Eviction does not last.  A blob evicted past its channel's retention window
    is unavailable, as is meant; the next re-evaluation of availability (at the
    latest the half-hourly membership refresh) makes it readable again. *)
Theorem refresh_undoes_eviction :
  let w1 := (maintenance_turn (A := flaky_api) demo_bots EvictTick retention_world).2 in
  let w2 := (maintenance_turn (A := flaky_api) demo_bots RefreshTick w1).2 in
  b_State <$> d_blobs (w_db w1) !! 20%N = Some BlobStateUnavailable
  ∧ b_State <$> d_blobs (w_db w2) !! 20%N = Some BlobStateStored.
Proof. vm_compute. done. Qed.
