(* ===== verification/IdentityTheorems.v ===== *)
(** * What authentication promises

    Whom a password or a token lets in, over any history of requests; the life of
    an API token; what deleting a user leaves. *)
From Stdlib Require Import ZArith Lia Strings.Byte Strings.String Strings.Ascii.
From stdpp Require Import base tactics list gmap strings.
From S2P Require Import Prelude Model Sql SqlFacts World Repository Crypto Text Password Accounts Identity Limiter.
From S2P Require Import FileSystem Tree Telegram Bots WebDav Management IdentityFacts Demo BlobTheorems.
#[local] Open Scope string_scope.
#[local] Open Scope Z_scope.
Open Scope m_scope.

(** ** Histories *)

Section history.
Context {E : Env} {K : Kdf}.

(** The states of the service: it starts with no recent verification, authenticates
    any credentials, and between two authentications anything may happen to the
    tables (a password is changed, a user deleted). *)
Inductive auth_history : World → Prop :=
  | ah_start w : w_vc w = ∅ → auth_history w
  | ah_auth w username pw r w' : auth_history w → plain_users (w_db w) →
      AuthenticateBasic username pw w = (r, w') → auth_history w'
  | ah_other w w' : auth_history w → w_vc w' = w_vc w → auth_history w'.

Lemma auth_history_vc w : auth_history w → vc_ok w.
Proof.
  induction 1 as [w Hw|w username pw r w' _ IH Hpl Ha|w w' _ IH Hv].
  - intros k e. by rewrite Hw.
  - apply AuthenticateBasic_run in Ha as [[_ _ Hv] _]; auto.
  - intros k e. rewrite Hv. apply IH.
Qed.

(** C9: over any history, credentials are accepted only if the stored hash of the
    login verifies the password now, recent verifications included (or the triple
    that was verified before collides under SHA-256); the principal acts as that
    user, or, for a name admin/target, as the target of an administrator; the
    tables are only read. *)
Theorem authenticate_sound username pw w p w' : auth_history w → plain_users (w_db w) →
  AuthenticateBasic username pw w = (Ok p, w') →
  w_db w' = w_db w ∧ ∃ login target a t, names username login target
    ∧ p = mkPrincipal (Some t) (Some a)
    ∧ (∃ i, d_users (w_db w) !! i = Some a) ∧ u_Login a = login
    ∧ (∃ i, d_users (w_db w) !! i = Some t) ∧ u_Login t = target
    ∧ proved login (u_PasswordHash a) pw ∧ (StringHas "/" username = true → u_IsAdmin a = true).
Proof. intros Hh%auth_history_vc Hpl Ha. apply AuthenticateBasic_run in Ha as [[Hd _ _] Hp]; auto. Qed.

(** C18: who can log in as a new user.  If its login has no slash, its password is
    accepted at once, and another password only if it derives the same key from the
    salt drawn (or for a collision of SHA-256 with an earlier verification).  If its
    login has a slash nobody ever logs in as it, whatever the credentials, for they are
    read as those of an administrator acting for a target.  (Logins have no NUL, as
    text in PostgreSQL has none.) *)
Theorem created_user_logs_in p w u w' : kdf_ok → no_faults → w_tx w = None →
  users_keyed (w_db w) → plain_users (w_db w) → vc_ok w → no_nul (cp_Login p) = true →
  User_Create p w = (Ok u, w') →
  ∃ salt key, IDKey (bytes_of (cp_Password p)) salt argonTime argonMemory argonThreads argonKeyLen = Some key
  ∧ let v := new_user p (encodePHC salt key) u in
    if StringHas "/" (cp_Login p) then
      ∀ username pw' x w2, AuthenticateBasic username pw' w' = (Ok x, w2) → ∃ a, Auth x = Some a ∧ u_Login a ≠ u_Login v
    else
      (∃ w2, AuthenticateBasic (cp_Login p) (cp_Password p) w' = (Ok (mkPrincipal (Some v) (Some v)), w2))
      ∧ ∀ pw' x w2, AuthenticateBasic (cp_Login p) pw' w' = (Ok x, w2) →
          IDKey (bytes_of pw') salt argonTime argonMemory argonThreads argonKeyLen = Some key
          ∨ ∃ l h q, triple l h q ≠ triple (cp_Login p) (encodePHC salt key) pw'
              ∧ sha256 (bytes_of (triple l h q)) = sha256 (bytes_of (triple (cp_Login p) (encodePHC salt key) pw')).
Proof.
  intros Hk Hnf Htx Hkeyed Hpl Hvc Hnn Hc. apply User_Create_Ok in Hc as (h & Hh & Hfr & Hun & Hd & Ht & Hv); [|done].
  destruct (verify_hashed _ _ _ _ Hk Hh) as (salt & key & -> & Hkey & Hver). exists salt, key. split; [done|]. intros v.
  assert (d_users (w_db w') !! u_ID u = Some v) as Hv' by (rewrite Hd; cbn; by rewrite lookup_insert_eq).
  assert (u_PasswordHash v = encodePHC salt key ∧ u_Login v = cp_Login p) as [Hpw Hlog] by done.
  assert (vc_ok w') as Hvc' by (intros k e; rewrite Hv; apply Hvc).
  assert (plain_users (w_db w')) as Hpl'.
  { rewrite Hd. intros k z. cbn. intros [[_ Hz]|[_ Hz]]%lookup_insert_Some; [|by eapply Hpl].
    assert (z = v) as -> by done. rewrite Hlog, Hpw. split; [done|]. unfold no_nul. by rewrite encode_no_nul. }
  destruct (StringHas "/" (cp_Login p)) eqn:Hsl.
  - intros username pw' x w2 Ha. apply AuthenticateBasic_run in Ha as [_ Hx]; [|done..].
    destruct Hx as (login & target & a & t & Hnm & -> & _ & <- & _). exists a. split; [done|]. intros He.
    rewrite He, Hlog in Hnm. destruct Hnm as [(-> & _ & Hno)|[_ Hno]]; congruence.
  - split.
    { apply (login_ok v (u_ID u) (cp_Password p) w' Hnf); [congruence|done| |done|].
      + rewrite Hd. cbn. apply rows_insert_fresh; [done|apply String.eqb_refl|]. intros k y Hy. apply String.eqb_neq. by eapply Hun.
      + cbn. rewrite Hver, Hkey. cbn. by rewrite bool_decide_eq_true_2. }
    fold v in Hd. clearbody v. intros pw' x w2 Ha. apply AuthenticateBasic_run in Ha as [_ Hx]; [|done..].
    destruct Hx as (login & target & a & t & [(<- & _)|(Heq & _)] & _ & (i & Hi) & Hl & _ & _ & Hpr & _).
    2: { rewrite Heq, StringHas_app in Hsl. cbn in Hsl. by rewrite orb_true_r in Hsl. }
    assert (a = v) as ->.
    { rewrite Hd in Hi. cbn in Hi. apply lookup_insert_Some in Hi as [[_ ->]|[_ Hi]]; [done|]. by destruct (Hun _ _ Hi). }
    rewrite Hpw in Hpr. destruct Hpr as [Hpr|(l & h & q & _ & Hne & He)]; [left|right; by exists l, h, q].
    rewrite Hver in Hpr. destruct (IDKey (bytes_of pw') _ _ _ _ _) as [got|]; [|done].
    injection Hpr as Hg. apply bool_decide_eq_true in Hg as ->. done.
Qed.

End history.

(** ** API tokens *)

Section tokens.
Context {E : Env} {K : Kdf}.

(** C17: the life of a token.  Between its creation and its deletion let there be any
    number of logins with it or with others, new tokens and users, new passwords, and
    deletions of other tokens and users, with whatever outcome: the token authenticates
    its owner, as the users' table has him then.  Its deletion then succeeds and takes
    nothing else away; and whatever happens afterwards, as long as no token is drawn
    that has the same digest, it authenticates nobody. *)
Theorem token_lives_until_deleted user name w pt tok w' w1 : no_faults → w_tx w = None →
  CreateToken user name w = (Ok (pt, tok), w') →
  rtc (account_step (λ t, t ≠ t_ID tok) (λ u, u ≠ user) (λ _, True)) w' w1 →
  (∃ u w2, d_users (w_db w1) !! user = Some u ∧ AuthenticateBearer pt w1 = (Ok u, w2))
  ∧ ∃ w2, DeleteToken user (t_ID tok) w1 = (Ok tt, w2)
      ∧ w_db w2 = set_api_tokens (delete (t_ID tok) (d_api_tokens (w_db w1))) (w_db w1)
      ∧ ∀ w3, rtc (account_step (λ _, True) (λ _, True) (λ pt', hashAPIToken pt' ≠ hashAPIToken pt)) w2 w3 →
          (AuthenticateBearer pt w3).1 = Err ErrUnauthorized.
Proof.
  intros Hnf Htx (u & Hu & Hh & Hown & Hfr & Hun & Hd & Ht)%CreateToken_Ok Hr. rewrite <- Hown in Hr.
  apply (account_steps (alive tok)) in Hr as [((t & Ht1 & Hi & Hs & Hht) & Huniq & [v Hv]) Htx1];
    [|intros a b; by apply alive_step| |by rewrite Ht].
  2: { rewrite Hd. split_and!; cbn.
       - exists tok. by rewrite lookup_insert_eq.
       - intros k x [[<- _]|[_ Hx]]%lookup_insert_Some He; [done|]. rewrite Hh in He. by destruct (Hun _ _ Hx).
       - rewrite Hown. by exists u. }
  rewrite Hown in *. split.
  - destruct (bearer_known pt t v w1 Hnf Htx1) as [w2 H2]; [|by rewrite Hs|by exists v, w2].
    apply (rows_unique _ _ (t_ID tok)); [done|apply String.eqb_eq; congruence|].
    intros k x Hx He%String.eqb_eq. apply (Huniq k x Hx). congruence.
  - destruct (DeleteToken_runs user (t_ID tok) t w1 Hnf) as (w2 & Hrun & Ht2 & Hd2); [done..|].
    exists w2. split_and!; [done..|]. intros w3 Hr3.
    apply (account_steps (unheard (hashAPIToken pt))) in Hr3 as [Hun3 Ht3]; [|intros a b; by apply unheard_step| |done].
    + apply bearer_unknown; [done..|]. apply rows_nil. intros k x Hx. apply String.eqb_neq. by eapply Hun3.
    + rewrite Hd2. unfold unheard. cbn. intros k x [Hne Hx]%lookup_delete_Some He. destruct Hne. symmetry. apply (Huniq k x Hx). by rewrite He, Hh.
Qed.

End tokens.

(** ** Concrete runs *)

#[global] Instance demo_kdf : Kdf := {
  IDKey := λ pw salt t _ p n, if (t <? 1) || (p <? 1) then None else Some (resize (Z.to_nat n) "000"%byte (sha256 (pw ++ salt)));
  rand_read := λ i n, if n <? 0 then None else Some (replicate (Z.to_nat n) "007"%byte) }.

Lemma demo_kdf_ok : kdf_ok.
Proof.
  split.
  - intros pw salt t m p n Ht Hp Hn. unfold IDKey, demo_kdf. destruct (Z.ltb_spec t 1); [lia|]. destruct (Z.ltb_spec p 1); [lia|].
    eexists. split; [reflexivity|]. blen_lia.
  - intros i n b. unfold rand_read, demo_kdf. destruct (Z.ltb_spec n 0); [done|]. intros [= <-]. blen_lia.
Qed.

Definition hash_of (pw : string) : string :=
  encodePHC (replicate 16 "007"%byte) (sha256 (bytes_of pw ++ replicate 16 "007"%byte)).

(** An administrator and a user, and nobody verified yet. *)
Definition root_row : User := mkUser 3 "root" (hash_of "secret") true 0 0 0 1.
Definition ann_row : User := mkUser 1 "ann" (hash_of "pw") false 0 0 0 1.
Definition auth_world : World :=
  set_db (set_users (list_to_map [(3%N, root_row); (1%N, ann_row)]) empty_db) demo_world.

Lemma auth_plain : plain_users (w_db auth_world).
Proof.
  intros id u Hid. cbn in Hid. rewrite !lookup_insert_Some in Hid.
  destruct Hid as [[_ <-]|[_ [[_ <-]|[_ Hid]]]]; [vm_compute; done..|by rewrite lookup_empty in Hid].
Qed.

Lemma auth_keyed : users_keyed (w_db auth_world).
Proof.
  intros id u Hid. cbn in Hid. rewrite !lookup_insert_Some in Hid.
  destruct Hid as [[<- <-]|[_ [[<- <-]|[_ Hid]]]]; [done..|by rewrite lookup_empty in Hid].
Qed.

Definition run_ok {X} (x : res X * World) : bool := match x.1 with Ok _ => true | Err _ => false end.

Lemma run_ok_spec {X} (x : res X * World) : run_ok x = true → ∃ a w', x = (Ok a, w').
Proof. destruct x as [[a|e] w']; [|done]. by exists a, w'. Qed.

(** The administrator acts for the user, a second time out of the cache; the wrong
    password and an unknown login are turned away. *)
Example impersonates :
  match AuthenticateBasic "root/ann" "secret" auth_world with
  | (Ok p, w1) => Acting p = Some ann_row ∧ Auth p = Some root_row ∧ size (w_vc w1) = 1%nat
      ∧ run_ok (AuthenticateBasic "root/ann" "secret" w1) = true
      ∧ (AuthenticateBasic "root/ann" "wrong" w1).1 = Err ErrUnauthorized
      ∧ (AuthenticateBasic "ann/root" "pw" w1).1 = Err ErrForbidden
      ∧ (AuthenticateBasic "eve" "secret" w1).1 = Err ErrUnauthorized
  | _ => False
  end.
Proof. vm_compute. done. Qed.

Definition after_first : World := (AuthenticateBasic "root/ann" "secret" auth_world).2.

Lemma authenticate_witness : ∃ p w', AuthenticateBasic "root/ann" "secret" after_first = (Ok p, w')
  ∧ w_db w' = w_db after_first.
Proof.
  assert (run_ok (AuthenticateBasic "root/ann" "secret" after_first) = true) as Hrun by (vm_compute; reflexivity). apply run_ok_spec in Hrun as (p & w' & He).
  exists p, w'. split; [exact He|]. refine (proj1 (authenticate_sound "root/ann" "secret" after_first p w' _ _ He)).
  - eapply (ah_auth auth_world "root/ann" "secret"); [by apply ah_start|exact auth_plain|by apply surjective_pairing].
  - assert (w_db after_first = w_db auth_world) as -> by (vm_compute; reflexivity). exact auth_plain.
Defined.

Definition bob_params : CreateUserParams := mkCreateUserParams "bob" "hunter2" false 0 0 0.

Definition slash_params : CreateUserParams := mkCreateUserParams "bob/lab" "hunter2" false 0 0 0.

Lemma created_witness :
  (∃ u w', User_Create bob_params auth_world = (Ok u, w')
    ∧ ∃ v w2, AuthenticateBasic "bob" "hunter2" w' = (Ok (mkPrincipal (Some v) (Some v)), w2))
  ∧ ∃ u w', User_Create slash_params auth_world = (Ok u, w')
    ∧ ∀ username pw x w2, AuthenticateBasic username pw w' = (Ok x, w2) → ∃ a, Auth x = Some a ∧ u_Login a ≠ "bob/lab".
Proof.
  assert (vc_ok auth_world) as Hvc by (intros k e Hk; vm_compute in Hk; done). split.
  - assert (run_ok (User_Create bob_params auth_world) = true) as Hrun by (vm_compute; reflexivity). apply run_ok_spec in Hrun as (u & w' & He).
    exists u, w'. split; [exact He|].
    destruct (created_user_logs_in bob_params auth_world u w' demo_kdf_ok demo_no_faults eq_refl auth_keyed auth_plain Hvc)
      as (salt & key & _ & (w2 & H2) & _); [vm_compute; reflexivity|exact He|].
    eexists _, w2. exact H2.
  - assert (run_ok (User_Create slash_params auth_world) = true) as Hrun by (vm_compute; reflexivity). apply run_ok_spec in Hrun as (u & w' & He).
    exists u, w'. split; [exact He|].
    destruct (created_user_logs_in slash_params auth_world u w' demo_kdf_ok demo_no_faults eq_refl auth_keyed auth_plain Hvc)
      as (salt & key & _ & Hno); [vm_compute; reflexivity|exact He|exact Hno].
Defined.

(** A token is made, used twice, another is asked for, its owner gets a new password;
    then it is deleted and presented again and again. *)
Lemma token_witness : ∃ pt tok w', CreateToken 1 "laptop" auth_world = (Ok (pt, tok), w')
  ∧ let use w := (AuthenticateBearer pt w).2 in
    let w1 := (SetPassword 1 "fresh" (CreateToken 1 "phone" (use (use w'))).2).2 in
    (∃ u w2, d_users (w_db w1) !! 1%N = Some u ∧ AuthenticateBearer pt w1 = (Ok u, w2))
    ∧ ∃ w2, DeleteToken 1 (t_ID tok) w1 = (Ok tt, w2)
        ∧ w_db w2 = set_api_tokens (delete (t_ID tok) (d_api_tokens (w_db w1))) (w_db w1)
        ∧ (AuthenticateBearer pt w2).1 = Err ErrUnauthorized ∧ (AuthenticateBearer pt (use (use w2))).1 = Err ErrUnauthorized.
Proof.
  assert (run_ok (CreateToken 1 "laptop" auth_world) = true) as Hrun by (vm_compute; reflexivity). apply run_ok_spec in Hrun as ([pt tok] & w' & He).
  exists pt, tok, w'. split; [exact He|]. intros use w1.
  destruct (token_lives_until_deleted 1 "laptop" auth_world pt tok w' w1 demo_no_faults eq_refl He) as (Hlive & w2 & H1 & H2 & H3).
  - eapply rtc_l; [eapply ac_bearer, (surjective_pairing (AuthenticateBearer pt w'))|].
    eapply rtc_l; [eapply ac_bearer, (surjective_pairing (AuthenticateBearer pt (use w')))|].
    eapply rtc_l; [eapply ac_create; [apply (surjective_pairing (CreateToken 1 "phone" (use (use w'))))|done]|].
    apply rtc_once. eapply ac_password, surjective_pairing.
  - split; [exact Hlive|]. exists w2. split_and!; [exact H1|exact H2|apply H3, rtc_refl|apply H3].
    eapply rtc_l; [eapply ac_bearer, (surjective_pairing (AuthenticateBearer pt w2))|].
    apply rtc_once. eapply ac_bearer, (surjective_pairing (AuthenticateBearer pt (use w2))).
Defined.


(** A timeout given in milliseconds is checked before it is converted: one that is
    large enough wraps around and is stored as a negative duration. *)
Theorem idle_timeout_wraps :
  WALIdleTimeout <$> merge_settings (mkUpdateSettingsBody None (Some (2 ^ 44)) None None) DefaultSettings
  = Some (2 ^ 44 * Millisecond - 2 ^ 64).
Proof. vm_compute. done. Qed.

(** ** Deleting a user *)

(** The nodes and extents of a user go with the user, by foreign key; the blobs keep
    the counts of those extents, so the reaper never finds them unreferenced. *)
Theorem delete_user_leaks_blobs : ∃ w', User_Delete 1 demo_world = (Ok tt, w')
  ∧ refcount_ok demo_db ∧ refs 20 (w_db w') = 0
  ∧ b_Refcount <$> d_blobs (w_db w') !! 20%N = Some 1.
Proof.
  destruct (User_Delete 1 demo_world) as [r w'] eqn:He. vm_compute in He. injection He as <- <-.
  eexists. split; [reflexivity|]. split; [exact demo_refcounts|]. vm_compute. done.
Qed.
