(* ===== verification/WebTheorems.v ===== *)
(** * What the WebDAV endpoint promises

    Whom a request can affect, from its raw credentials to the tables, and what the
    status of a COPY says. *)
From Stdlib Require Import ZArith Lia Strings.Byte Strings.String Strings.Ascii.
From stdpp Require Import base tactics list gmap sets strings.
From S2P Require Import Prelude Model Sql SqlFacts World Repository Crypto Text Password Accounts Identity Limiter.
From S2P Require Import Path FileSystem File Copy WebDav Tree FsFacts CreateFacts Session Tenants CopyFacts IdentityFacts.
From S2P Require Import WalFacts WriteFacts ReadFacts Telegram BlobReader Requests LossFacts WebFacts Demo BlobTheorems IdentityTheorems.
#[local] Open Scope string_scope.
#[local] Open Scope Z_scope.
Open Scope m_scope.

(** ** Isolation *)

Section endpoint.
Context {E : Env} {K : Kdf} {R : RateLib} {B : BlobService} {LR : LossyReads} {W : WebLib} {L : WebLaws}.

(** C5: every request is answered and leaves the tree well formed; a blob's count
    moves exactly with its extents, unless the blob is marked lost; and a user whom
    the request's credentials do not let in gets no file and keeps every file, its
    place and its bytes, except files on a blob that is lost. *)
Theorem endpoint_isolates r w x w' : uuids_ok → tree_ok (w_db w) → w_tx w = None →
  auth_history w → plain_users (w_db w) → WebDAVHandler r w = (x, w') →
  (∃ resp, x = Ok resp) ∧ w_tx w' = None ∧ tree_ok (w_db w')
  ∧ (∀ b y y', d_blobs (w_db w) !! b = Some y → d_blobs (w_db w') !! b = Some y' → blob_moves b y y' (w_db w) (w_db w'))
  ∧ ∀ v, (∀ t, lets_in (w_db w) (rq_Authorization r) t → u_ID t ≠ v) → ∀ id rw, ruser rw = v →
      (d_nodes (w_db w') !! id = Some rw → d_nodes (w_db w) !! id = Some rw)
      ∧ (d_nodes (w_db w) !! id = Some rw →
           (d_nodes (w_db w') !! id = Some rw ∧ ∀ st c, stores st id rw (w_db w) c → stores st id rw (w_db w') c)
           ∨ ∃ b, lost (w_db w') b ∧ lies_on (w_db w) id b).
Proof.
  intros Huu Hd Htx Hh%auth_history_vc Hpl H. apply WebDAV_run in H as (Hx & Ht & Hrun); [|done..].
  assert (∀ u, (∀ t, lets_in (w_db w) (rq_Authorization r) t → u_ID t ≠ u) → ∃ u', u' ≠ u ∧ touched u' (w_db w) (w_db w')) as Ht'.
  { intros u Hu. destruct Hrun as [Hdb|(t & Hin & Hc)]; [|exists (u_ID t); auto].
    exists (u + 1)%N. split; [lia|]. rewrite Hdb. by apply confined_touched, confined_refl. }
  split; [done|]. split; [done|]. assert (∃ u', touched u' (w_db w) (w_db w')) as [u' Hc].
  { destruct Hrun as [->|(t & _ & Hc)]; [exists 0%N; by apply confined_touched, confined_refl|by eexists]. }
  split; [apply (to_tree _ _ _ Hc)|]. split; [apply (to_blobs _ _ _ Hc)|]. clear u' Hc.
  intros v Hv id rw <-. destruct (Ht' _ Hv) as (u' & Hne & Hc). split; [by apply (to_new _ _ _ Hc)|].
  intros Hid. destruct (to_kept _ _ _ Hc id rw ltac:(done) Hid) as [Hk|?]; [left|by right].
  split; [apply Hk|]. intros st c. by apply kept_stores.
Qed.

End endpoint.

(** ** COPY *)

Section copy.
Context {E : Env} {W : WebLib}.

(** The tables up to the root of a user. *)
Definition only_root (u : uuid) (d d' : Db) : Prop :=
  conserves d d' ∧ ∀ v q, ¬ (v = u ∧ q = []) → view d' v q = view d v q.

Lemma only_root_trans u d1 d2 d3 : only_root u d1 d2 → only_root u d2 d3 → only_root u d1 d3.
Proof. intros [H1 H2] [H3 H4]. split; [by etrans|]. intros v q Hq. by rewrite H4, H2. Qed.

Lemma only_root_same u d d' : d' = d → only_root u d d'.
Proof. intros ->. done. Qed.

Lemma only_root_ensured u d d' : ensured u d d' → only_root u d d'.
Proof. intros H. split; apply H. Qed.

Lemma Stat_root ctx user name w r w' : tree_ok (w_db w) → w_tx w = None → acting ctx = Ok user →
  Stat ctx name w = (r, w') → tree_ok (w_db w') ∧ w_tx w' = None ∧ only_root (u_ID user) (w_db w) (w_db w').
Proof.
  intros Hd Htx Hact Hs. pose proof Hs as [Hc Ht]%(Stat_acts ctx name user); [|done..].
  split_and!; [apply (cf_tree _ _ _ Hc)|done|]. revert Hs. unfold Stat, of_res, bind at 1. rewrite Hact, try_run.
  destruct (NodeRepository_GetByPath _ _ w) as [[n|e] w1] eqn:Hg;
    (apply (GetByPath_at (u_ID user)) in Hg as (Hdb & Ht1 & _); [|done..]); cbn [fst snd]; intros H.
  - injection H as _ <-. by apply only_root_same.
  - destruct (_ && _); [|injection H as _ <-; by apply only_root_same]. rewrite <- Hdb in Hd |- *.
    apply bind_cases in H as [(n & w2 & He & H)|(e0 & He & _)].
    + injection H as _ <-. apply ensureRoot_Ok in He as (He & _); [|done..]. by apply only_root_ensured.
    + apply ensureRoot_Err in He as [He _]; [|done..]. by apply only_root_same.
Qed.

(** C27: the status of a COPY is the truth: 201 and 204 are answered only if the copy
    was made, 204 exactly when something was found at the destination before; with
    any other status nothing was copied, and the tables are as before but for the
    user's root. *)
Theorem copy_answers ctx user r w resp w' : tree_ok (w_db w) → w_tx w = None → acting ctx = Ok user →
  handleCopy ctx r w = (Ok resp, w') →
  (∃ dst w1 w2, url_Path (rq_Destination r) = Some dst
     ∧ only_root (u_ID user) (w_db w) (w_db w2)
     ∧ Copy ctx (rq_Path r) dst (negb (String.eqb (rq_Depth r) "0")) (negb (EqualFold (rq_Overwrite r) "F")) w2 = (Ok tt, w')
     ∧ rs_Status resp = match (Stat ctx dst w1).1 with Ok _ => 204 | Err _ => 201 end ∧ w2 = (Stat ctx dst w1).2)
  ∨ rs_Status resp ∈ [400; 403; 404; 409; 412; 500; 507] ∧ only_root (u_ID user) (w_db w) (w_db w').
Proof.
  intros Hd Htx Hact. unfold handleCopy. destruct (String.eqb _ _).
  { intros [= <- <-]. right. split; [by left|by apply only_root_same]. }
  destruct (url_Path _) as [dst|]; [|intros [= <- <-]; right; (split; [by left|by apply only_root_same])].
  rewrite try_run. destruct (Stat ctx (rq_Path r) w) as [s w1] eqn:Hs.
  apply (Stat_root _ user) in Hs as (Hd1 & Ht1 & Hr1); [|done..]. cbn [fst snd].
  destruct s as [s|e]; [|intros [= <- <-]; right; by split; [set_solver|]]. rewrite try_run.
  destruct (Stat ctx dst w1) as [s2 w2] eqn:Hs2.
  pose proof Hs2 as (Hd2 & Ht2 & Hr2)%(Stat_root _ user); [|done..]. cbn [fst snd]. rewrite try_run.
  pose proof (only_root_trans _ _ _ _ Hr1 Hr2) as Hr.
  destruct (Copy _ _ _ _ _ w2) as [[[]|e] w3] eqn:Hc; intros [= <- <-].
  - left. exists dst, w1, w2. rewrite Hs2. cbn. split_and!; try done. by destruct s2.
  - right. split.
    + unfold copy_status. repeat case_match; cbn; set_solver.
    + eapply only_root_trans; [exact Hr|].
      apply Copy_Err in Hc as [Hc|(u & Hu & Hc)]; [by apply only_root_same| |done..].
      replace u with user in Hc by congruence. by apply only_root_ensured.
Qed.

End copy.

(** ** Concrete requests *)

#[global] Instance demo_rate : RateLib := { limiter_Allow := λ _ burst calls _, blen calls <? burst }.

(** A server of MKCOL and DELETE. *)
#[global] Instance demo_web : WebLib := {
  url_Path := Some;
  dav_ServeHTTP := λ ctx r,
    let answer (x : res unit) := ret (text_resp match x with Ok _ => 201 | Err _ => 409 end "") in
    if String.eqb (rq_Method r) "MKCOL" then let? x := Mkdir ctx (rq_Path r) in answer x
    else if String.eqb (rq_Method r) "DELETE" then let? x := RemoveAll ctx (rq_Path r) in answer x
    else ret (text_resp 405 "") }.

#[global] Instance demo_web_laws {B : BlobService} : WebLaws.
Proof.
  intros ctx r w. unfold dav_ServeHTTP, demo_web, try.
  destruct (String.eqb _ "MKCOL"); [|destruct (String.eqb _ "DELETE")].
  - pose proof (cl_serve ctx w (RMkdir (rq_Path r)) w (cl_done _ _)) as H. simpl in H. by destruct (Mkdir _ _ _).
  - pose proof (cl_serve ctx w (RDelete (rq_Path r)) w (cl_done _ _)) as H. simpl in H. by destruct (RemoveAll _ _ _).
  - apply cl_done.
Qed.

Definition web_world : World := set_db (set_users (d_users (w_db auth_world)) demo_db) demo_world.

Definition req (method path authorization destination : string) : httpReq :=
  mkHttpReq method path authorization 0 destination "" "".

(** ["ann:pw"]. *)
Definition basic_ann : string := "Basic YW5uOnB3".

Example answers :
  res_map rs_Status (WebDAVHandler (req "MKCOL" "/n" basic_ann "") web_world).1 = Ok 201
  ∧ res_map rs_Status (WebDAVHandler (req "MKCOL" "/a" basic_ann "") web_world).1 = Ok 409
  ∧ res_map rs_Status (WebDAVHandler (req "MKCOL" "/n" "" "") web_world).1 = Ok 401
  ∧ res_map rs_Status (WebDAVHandler (req "COPY" "/a" basic_ann "/c") web_world).1 = Ok 201
  ∧ res_map rs_Status (WebDAVHandler (req "COPY" "/a" basic_ann "/b") web_world).1 = Ok 204
  ∧ res_map rs_Status (WebDAVHandler (req "COPY" "/z" basic_ann "/b") web_world).1 = Ok 404.
Proof. vm_compute. done. Qed.

Lemma web_tree : tree_ok (w_db web_world).
Proof. apply tree_okb_sound. vm_compute. reflexivity. Qed.

(** Ann's credentials let in Ann. *)
Lemma ann_only t : lets_in (w_db web_world) basic_ann t → u_ID t ≠ 3%N.
Proof.
  intros (username & pw & login & target & a & Hc & Hn & _ & _ & (i & Hi) & Hl & _).
  assert (BasicCredentials basic_ann = Some ("ann", "pw")) as Hb by (vm_compute; reflexivity).
  rewrite Hb in Hc. injection Hc as <- <-. destruct Hn as [(<- & -> & _)|(He & _)].
  - cbn in Hi. rewrite !lookup_insert_Some in Hi. destruct Hi as [[_ <-]|[_ [[_ <-]|[_ Hi]]]]; [done..|by rewrite lookup_empty in Hi].
  - apply (f_equal (StringHas "/")) in He. rewrite StringHas_app in He. cbn in He. by rewrite orb_true_r in He.
Qed.

Lemma endpoint_witness : let w' := (WebDAVHandler (req "DELETE" "/a" basic_ann "") web_world).2 in
  tree_ok (w_db w') ∧ ∀ id rw, ruser rw = 3%N →
    (d_nodes (w_db w') !! id = Some rw → d_nodes (w_db web_world) !! id = Some rw)
    ∧ (d_nodes (w_db web_world) !! id = Some rw →
         (d_nodes (w_db w') !! id = Some rw ∧ ∀ st c, stores st id rw (w_db web_world) c → stores st id rw (w_db w') c)
         ∨ ∃ b, lost (w_db w') b ∧ lies_on (w_db web_world) id b).
Proof.
  destruct (endpoint_isolates (B := blob_reader (A := gone_api) demo_bots) (req "DELETE" "/a" basic_ann "") web_world _ _
              demo_uuids web_tree eq_refl (ah_start web_world eq_refl) auth_plain (surjective_pairing _)) as (_ & _ & Hd & _ & Hv).
  split; [exact Hd|]. exact (Hv 3%N ann_only).
Defined.

Lemma copy_answers_witness : ∃ resp w', handleCopy demo_ctx (req "COPY" "/a" "" "/b") demo_world = (Ok resp, w')
  ∧ (rs_Status resp = 204 → ∃ w2, Copy demo_ctx "/a" "/b" true true w2 = (Ok tt, w')).
Proof.
  assert (run_ok (handleCopy demo_ctx (req "COPY" "/a" "" "/b") demo_world) = true) as Hrun by (vm_compute; reflexivity).
  apply run_ok_spec in Hrun as (resp & w' & He). exists resp, w'. split; [exact He|]. intros H204.
  destruct (copy_answers demo_ctx demo_user (req "COPY" "/a" "" "/b") demo_world resp w' demo_tree eq_refl eq_refl He)
    as [(dst & w1 & w2 & Hu & _ & Hc & _ & _)|[Hs _]].
  - injection Hu as <-. exists w2. exact Hc.
  - rewrite H204 in Hs. repeat (apply elem_of_cons in Hs as [Hs|Hs]; [discriminate|]). destruct (not_elem_of_nil _ Hs).
Defined.
