(* ===== verification/Run.v ===== *)
(** * internal/service/wal.go: [Packer.Run]

    The builder and the upload workers as the goroutines of one process: a bounded
    channel of jobs between them, the cancellation that stops the builder, the drain
    of the queue and its timeout.  The pieces of code between two synchronisations
    are those of [Packer.v]. *)
From Stdlib Require Import ZArith Lia Strings.Byte Strings.String.
From stdpp Require Import base tactics list gmap sets strings relations.
From S2P Require Import Prelude Model Sql World Repository Crypto Accounts File Telegram BlobReader Bots Packer.
#[local] Open Scope string_scope.
#[local] Open Scope Z_scope.
Open Scope m_scope.

(** A worker: receiving from the channel; with a job; finalizing the tracks its job
    has completed; returned. *)
Inductive worker := WIdle | WBusy (j : blobJob) | WFinal (ready : list nat) | WExited.

(** The builder: waiting for its ticker or for the end of its context; with the rest of
    the nodes it has claimed; past [<-ctx.Done()]; returned, with the channel closed. *)
Inductive builder_mode := Polling | Batch (blobMax : Z) (nodes : list Node) | Stopping | Closed.

(** The world, the shared state, the workers, the builder with its mode, its phase
    and the tracks it is about to finalize; what has happened, the tracks finalized;
    whether the drain has timed out.  The capacity of the channel is the number of
    workers. *)
Record rcfg := mkRcfg {
  r_world : World; r_st : packState; r_workers : list worker;
  r_mode : builder_mode; r_phase : phase; r_bready : list nat;
  r_hist : history; r_final : list nat; r_cancelled : bool }.

Definition busy_of (w : worker) : list blobJob := match w with WBusy j => [j] | _ => [] end.
Definition finals_of (w : worker) : list nat := match w with WFinal ready => ready | _ => [] end.
Definition busy (ws : list worker) : list blobJob := ws ≫= busy_of.
Definition finals (ws : list worker) : list nat := ws ≫= finals_of.

(** Where the builder seals what it has buffered. *)
Definition seals (m : builder_mode) : bool := match m with Polling | Stopping => true | _ => false end.

(** Past the cancellation. *)
Definition stopping (m : builder_mode) : bool := match m with Stopping | Closed => true | _ => false end.

Section run.
Context {E : Env} {C : Aead} {A : BotAPI} (bots : BotRepository) (error_text : error → string).
Context (leaseOwner : string) (leaseFor batchLimit uploadConcurrency : Z).

(** A tick: the settings, and a claim.  With an error the builder waits for the next. *)
Definition poll : M builder_mode :=
  let? s := Settings_Get in
  match s with
  | Err _ => ret Polling
  | Ok set =>
      let? claimed := NodeRepository_ClaimBufferedForPacking leaseOwner leaseFor batchLimit in
      match claimed with
      | Err _ | Ok [] => ret Polling
      | Ok nodes => ret (Batch (blob_max set) nodes)
      end
  end.

(** What is not the packer's doing: other services, and the timeout of the drain. *)
Inductive env_step : rcfg → rcfg → Prop :=
  | EOther w st ws m ph br h fin cx w' :
      env_step (mkRcfg w st ws m ph br h fin cx) (mkRcfg w' st ws m ph br h fin cx)
  | ETimeout w st ws br ph h fin cx :
      env_step (mkRcfg w st ws Closed ph br h fin cx) (mkRcfg w st ws Closed ph br h fin true).

Inductive rstep : rcfg → rcfg → Prop :=
  (* the builder in its loop *)
  | RPoll w st ws h fin cx m w' :
      poll w = (Ok m, w') →
      rstep (mkRcfg w st ws Polling Idle [] h fin cx) (mkRcfg w' st ws m Idle [] h fin cx)
  | RBatchEnd w st ws blobMax h fin cx :
      rstep (mkRcfg w st ws (Batch blobMax []) Idle [] h fin cx) (mkRcfg w st ws Polling Idle [] h fin cx)
  | REmpty w st ws blobMax node rest h fin cx x w' :
      n_Size node = 0 → handle_empty leaseOwner node w = (x, w') →
      rstep (mkRcfg w st ws (Batch blobMax (node :: rest)) Idle [] h fin cx)
        (mkRcfg w' st ws (Batch blobMax rest) Idle [] h fin cx)
  | RSplit w st ws blobMax node rest h fin cx ch w' t st' :
      n_Size node ≠ 0 → blobMax < n_Size node →
      Channel_PickForUpload bots w = (Ok ch, w') → new_track node st = (t, st') →
      rstep (mkRcfg w st ws (Batch blobMax (node :: rest)) Idle [] h fin cx)
        (mkRcfg w' st' ws (Batch blobMax rest) (Splitting t node ch blobMax 0 0) [] (note_read t [] h) fin cx)
  | RSplitNoChannel w st ws blobMax node rest h fin cx e w1 w' t st1 st' :
      n_Size node ≠ 0 → blobMax < n_Size node →
      Channel_PickForUpload bots w = (Err e, w1) → new_track node st = (t, st1) →
      failTrack t st1 w1 = (Ok st', w') →
      rstep (mkRcfg w st ws (Batch blobMax (node :: rest)) Idle [] h fin cx)
        (mkRcfg w' st' ws (Batch blobMax rest) Idle [] (note_read t [] h) fin cx)
  | RSmall w st ws blobMax node rest h fin cx data w' t st' :
      n_Size node ≠ 0 → n_Size node ≤ blobMax →
      WALRepository_ReadRange (n_ID node) 0 (n_Size node) w = (Ok data, w') → new_track node st = (t, st') →
      rstep (mkRcfg w st ws (Batch blobMax (node :: rest)) Idle [] h fin cx)
        (mkRcfg w' st' ws (Batch blobMax rest) (Holding t data blobMax) [] (note_read t data h) fin cx)
  | RSmallErr w st ws blobMax node rest h fin cx e w1 x w' :
      n_Size node ≠ 0 → n_Size node ≤ blobMax →
      WALRepository_ReadRange (n_ID node) 0 (n_Size node) w = (Err e, w1) → ReleaseLease_ (n_ID node) w1 = (x, w') →
      rstep (mkRcfg w st ws (Batch blobMax (node :: rest)) Idle [] h fin cx)
        (mkRcfg w' st ws (Batch blobMax rest) Idle [] h fin cx)
  (* in the middle of a node: the builder's step of [pact], when the channel has room *)
  | RInside w st ws blobMax nodes ph h fin cx w' st' br ph' h' :
      ph ≠ Idle →
      pact bots error_text leaseOwner (mkCfg w st (busy ws) (finals ws) h ph)
        (mkCfg w' st' (busy ws) (br ++ finals ws) h' ph') →
      (length (ps_jobs st') ≤ length ws)%nat →
      rstep (mkRcfg w st ws (Batch blobMax nodes) ph [] h fin cx) (mkRcfg w' st' ws (Batch blobMax nodes) ph' br h' fin cx)
  | RBuilderFinal w st ws m ph t br h fin cx x w' :
      finalize_ptr leaseOwner st t w = (x, w') →
      rstep (mkRcfg w st ws m ph (t :: br) h fin cx) (mkRcfg w' st ws m ph br h (t :: fin) cx)
  (* ctx.Done() *)
  | RStop w st ws h fin cx :
      rstep (mkRcfg w st ws Polling Idle [] h fin cx) (mkRcfg w st ws Stopping Idle [] h fin cx)
  (* seal: after an idle period, whose length is left open, or when stopping *)
  | RSealSend w st ws m h fin cx ch blobID ids w1 w2 w' distinct st' :
      seals m = true → 0 < blen (run_buf (ps_cur st)) → Channel_PickForUpload bots w = (Ok ch, w1) →
      uuid_New w1 = (Ok blobID, w2) → map_each (run_segs (ps_cur st)) (λ _, uuid_New) w2 = (Ok ids, w') →
      seal_segs blobID ids (run_segs (ps_cur st)) [] st = (distinct, st') →
      (length (ps_jobs st) < length ws)%nat →
      rstep (mkRcfg w st ws m Idle [] h fin cx)
        (mkRcfg w' (set_cur empty_run (send_job (mkBlobJob blobID (run_buf (ps_cur st)) ch distinct) (set_pending [] st')))
           ws m (Sealing (ps_pendingSmall st) Idle) [] h fin cx)
  | RSealNoChannel w st ws m h fin cx e w1 w' :
      seals m = true → 0 < blen (run_buf (ps_cur st)) → Channel_PickForUpload bots w = (Err e, w1) →
      release_pending st w1 = (Ok tt, w') →
      rstep (mkRcfg w st ws m Idle [] h fin cx)
        (mkRcfg w' (set_cur empty_run (set_pending [] st)) ws m Idle [] h fin cx)
  | RSealPlan w st ws m pending h fin cx st' :
      seals m = true → st' = foldl (λ st t, upd_track t set_planned st) st pending →
      rstep (mkRcfg w st ws m (Sealing pending Idle) [] h fin cx)
        (mkRcfg w st' ws m Idle (List.filter (is_done st') pending) h fin cx)
  | RClose w st ws h fin cx :
      blen (run_buf (ps_cur st)) = 0 →
      rstep (mkRcfg w st ws Stopping Idle [] h fin cx) (mkRcfg w st ws Closed Idle [] h fin cx)
  (* the workers; after the timeout their context is cancelled, and what they do fails *)
  | RTake w st ws1 ws2 m ph br h fin cx j rest :
      ps_jobs st = j :: rest →
      rstep (mkRcfg w st (ws1 ++ WIdle :: ws2) m ph br h fin cx)
        (mkRcfg w (set_jobs rest st) (ws1 ++ WBusy j :: ws2) m ph br h fin cx)
  | RLanded w st ws1 ws2 m ph br h fin cx j res bot w1 w' ready st' :
      upload bots error_text (jb_channel j) (jb_data j) w = (Ok (res, bot), w1) →
      persistBlob j (jb_channel j) bot res w1 = (Ok tt, w') → landed j st = (ready, st') →
      rstep (mkRcfg w st (ws1 ++ WBusy j :: ws2) m ph br h fin cx)
        (mkRcfg (AddWriteBytes (blen (jb_data j)) w').2 st' (ws1 ++ WFinal ready :: ws2) m ph br (note_landed j h) fin cx)
  | RFailed w st ws1 ws2 m ph br h fin cx j w1 st' w' :
      (∃ e, upload bots error_text (jb_channel j) (jb_data j) w = (Err e, w1))
      ∨ (∃ res bot w0 e, upload bots error_text (jb_channel j) (jb_data j) w = (Ok (res, bot), w0)
           ∧ persistBlob j (jb_channel j) bot res w0 = (Err e, w1)) →
      failJob (jb_tracks j) st w1 = (Ok st', w') →
      rstep (mkRcfg w st (ws1 ++ WBusy j :: ws2) m ph br h fin cx)
        (mkRcfg w' st' (ws1 ++ WFinal [] :: ws2) m ph br h fin cx)
  | RAborted w st ws1 ws2 m ph br h fin j :
      rstep (mkRcfg w st (ws1 ++ WBusy j :: ws2) m ph br h fin true)
        (mkRcfg w (foldl (λ st t, upd_track t set_failed st) st (jb_tracks j)) (ws1 ++ WFinal [] :: ws2) m ph br h fin true)
  | RFinal w st ws1 ws2 m ph br h fin cx t ready x w' :
      finalize_ptr leaseOwner st t w = (x, w') →
      rstep (mkRcfg w st (ws1 ++ WFinal (t :: ready) :: ws2) m ph br h fin cx)
        (mkRcfg w' st (ws1 ++ WFinal ready :: ws2) m ph br h (t :: fin) cx)
  | RFinalAborted w st ws1 ws2 m ph br h fin t ready :
      rstep (mkRcfg w st (ws1 ++ WFinal (t :: ready) :: ws2) m ph br h fin true)
        (mkRcfg w st (ws1 ++ WFinal ready :: ws2) m ph br h fin true)
  | RNext w st ws1 ws2 m ph br h fin cx :
      rstep (mkRcfg w st (ws1 ++ WFinal [] :: ws2) m ph br h fin cx)
        (mkRcfg w st (ws1 ++ WIdle :: ws2) m ph br h fin cx)
  | RExit w st ws1 ws2 ph br h fin cx :
      ps_jobs st = [] →
      rstep (mkRcfg w st (ws1 ++ WIdle :: ws2) Closed ph br h fin cx)
        (mkRcfg w st (ws1 ++ WExited :: ws2) Closed ph br h fin cx).

(** The start of [Run]. *)
Definition Run : M rcfg :=
  let! n := workerCount bots uploadConcurrency in
  λ w, (Ok (mkRcfg w (mkPackState ∅ 0 [] [] empty_run 0) (replicate (Z.to_nat n) WIdle)
              Polling Idle [] (mkHistory [] ∅) [] false), w).

(** A schedule with [k] steps of the packer, among any steps of the rest. *)
Inductive schedule : nat → rcfg → rcfg → Prop :=
  | sched_nil c : schedule 0 c c
  | sched_env k c c1 c2 : env_step c c1 → schedule k c1 c2 → schedule k c c2
  | sched_run k c c1 c2 : rstep c c1 → schedule k c1 c2 → schedule (S k) c c2.

(** [Run] returns: the builder has returned and [wg.Wait()] does. *)
Definition finished (c : rcfg) : Prop := r_mode c = Closed ∧ Forall (λ w, w = WExited) (r_workers c).

End run.
