(* ===== verification/RunFacts.v ===== *)
(** * Facts about [Packer.Run]: its invariant, its progress and its measure *)
From Stdlib Require Import ZArith Lia Strings.Byte Strings.String.
From stdpp Require Import base tactics list gmap sets strings relations.
From S2P Require Import Prelude Model Sql World Repository Crypto Accounts File Telegram BlobReader Bots Packer PackerFacts Run.
#[local] Open Scope string_scope.
#[local] Open Scope Z_scope.
Open Scope m_scope.

(** ** Completed tracks are not forgotten *)

(** [sound]: the invariant of the packer, and every completed track is about to be
    finalized or was, unless the drain has timed out. *)
Definition sound (d : cfg) (fin : list nat) (cx : bool) : Prop :=
  pack_ok d ∧ ∀ t, is_done (cf_st d) t = true → t ∈ cf_ready d ∨ t ∈ fin ∨ cx = true.

Definition erase (c : rcfg) : cfg :=
  mkCfg (r_world c) (r_st c) (busy (r_workers c)) (r_bready c ++ finals (r_workers c)) (r_hist c) (r_phase c).

Lemma sound_perm w st up up' rd rd' h ph fin cx : up ≡ₚ up' → (∀ t, t ∈ rd ↔ t ∈ rd') →
  sound (mkCfg w st up rd h ph) fin cx → sound (mkCfg w st up' rd' h ph) fin cx.
Proof.
  intros Hup Hrd [Hok Hd]. unfold pack_ok in Hok. cbn in Hok, Hd. split; [|intros t Ht; cbn; rewrite <- Hrd; by apply Hd].
  unfold pack_ok. cbn. eapply inv_ready; [intros t; by apply Hrd|]. eapply inv_perm; [|exact Hok]. by rewrite Hup.
Qed.

Lemma sound_world w w' st up rd h ph fin cx cx' : (cx = true → cx' = true) →
  sound (mkCfg w st up rd h ph) fin cx → sound (mkCfg w' st up rd h ph) fin cx'.
Proof. intros Hc [Hok Hd]. split; [done|]. intros t Ht. destruct (Hd t Ht) as [?|[?|?]]; auto. Qed.

Lemma is_done_alters f ts st t : (∀ tr, f (f tr) = f tr) →
  is_done (foldl (λ st t, upd_track t f st) st ts) t = true →
  is_done st t = true ∨ t ∈ ts.
Proof.
  intros Hf. rewrite upd_tracks_fold. unfold is_done. simpl. rewrite alters_idem_lookup by done.
  destruct (decide (t ∈ ts)); auto.
Qed.

Lemma is_done_alter f u st t : is_done (upd_track u f st) t = true → is_done st t = true ∨ t = u.
Proof.
  unfold is_done. simpl. destruct (decide (t = u)) as [->|Hne]; [auto|]. rewrite lookup_alter_ne by done. auto.
Qed.

Lemma is_done_failed ts st t : is_done (foldl (λ st t, upd_track t set_failed st) st ts) t = true → is_done st t = true.
Proof.
  rewrite upd_tracks_fold. unfold is_done. simpl. rewrite alters_idem_lookup by done.
  destruct (decide (t ∈ ts)), (ps_tracks st !! t); simpl; try done.
  unfold done_track. simpl. by rewrite andb_false_r.
Qed.

Lemma is_done_new st node t t' st' : new_track node st = (t', st') → is_done st' t = true → is_done st t = true.
Proof.
  intros [= <- <-]. unfold is_done. simpl. destruct (decide (t = ps_next st)) as [->|Hne].
  - by rewrite lookup_insert_eq.
  - by rewrite lookup_insert_ne.
Qed.

(** A track still open for the builder is not completed by a change that keeps it open. *)
Lemma is_done_open f u st t : (∀ tr, tr_planned (f tr) = tr_planned tr) →
  (∀ tr, ps_tracks st !! u = Some tr → tr_planned tr = false) →
  is_done (upd_track u f st) t = true → is_done st t = true.
Proof.
  intros Hf Hu. unfold is_done. simpl. destruct (decide (t = u)) as [->|Hne].
  - rewrite lookup_alter_eq. destruct (ps_tracks st !! u) as [tr|] eqn:Ht; simpl; [|done].
    unfold done_track. by rewrite Hf, (Hu tr eq_refl).
  - by rewrite lookup_alter_ne.
Qed.

Lemma is_done_seal st jobs rd h ph blobID ids d st' t :
  inv (ps_tracks st) (ps_next st) (ps_pendingSmall st) (ps_cur st) jobs rd h ph →
  length ids = length (run_segs (ps_cur st)) →
  seal_segs blobID ids (run_segs (ps_cur st)) [] st = (d, st') → is_done st' t = true → is_done st t = true.
Proof.
  intros Hi Hlen Hs. destruct (seal_segs_spec _ _ _ _ _ _ _ Hs Hlen ltac:(constructor)) as (_ & Hmem & _ & Htr).
  specialize (Htr t). unfold is_done. destruct (ps_tracks st' !! t) as [tr'|], (ps_tracks st !! t) as [tr|] eqn:Ht; try done.
  destruct Htr as (Hp & Hf & _ & Hr & _). unfold done_track. rewrite Hp, Hf, Hr.
  destruct (fresh_in t [] d) eqn:Hfr; [|by rewrite Z.add_0_r].
  apply andb_true_iff in Hfr as [Hin%bool_decide_eq_true _]. apply Hmem in Hin as [Hn|(s & Hin & <-)]; [by apply elem_of_nil in Hn|].
  destruct (in_segs _ _ _ _ _ _ _ _ Hi s Hin) as (Hsm & _).
  destruct (in_small _ _ _ _ _ _ _ _ Hi _ Hsm) as [(tr0 & Ht0 & Hp0) _]. rewrite Ht in Ht0. injection Ht0 as ->. by rewrite Hp0.
Qed.

Lemma is_done_landed j st ready st' t : landed j st = (ready, st') → is_done st' t = true →
  is_done st t = true ∨ t ∈ ready.
Proof.
  unfold landed. intros [= <- <-] Hd. destruct (decide (t ∈ jb_tracks j)) as [Hin|Hin].
  - right. apply list_elem_of_In, filter_In. split; [by apply list_elem_of_In|done].
  - left. revert Hd. unfold is_done. rewrite upd_tracks_fold. simpl.
    assert (∀ l (T : gmap nat track), t ∉ l → foldl (λ T t, alter (add_remaining (-1)) t T) T l !! t = T !! t) as Hl.
    { induction l as [|u l IH]; intros T Hn; [done|]. simpl. rewrite IH by set_solver. rewrite lookup_alter_ne by set_solver. done. }
    by rewrite Hl.
Qed.

(** The steps of a run, with their data and premises. *)
Ltac step_cases H := destruct H as
    [ w st ws h fin cx m w' Hp | w st ws bm h fin cx | w st ws bm node rest h fin cx x w' Hz Hf
    | w st ws bm node rest h fin cx ch w' t st' _ _ Hp Hn | w st ws bm node rest h fin cx e w1 w' t st1 st' _ _ Hp Hn Hf
    | w st ws bm node rest h fin cx data w' t st' _ _ Hr Hn | w st ws bm node rest h fin cx e w1 x w' _ _ Hr Hf
    | w st ws bm nodes ph h fin cx w' st' br ph' h' Hne Hp _ | w st ws m ph t br h fin cx x w' Hf | w st ws h fin cx
    | w st ws m h fin cx ch b ids w1 w2 w' d st' Hm0 Hb Hp Hu Hi Hs Hl | w st ws m h fin cx e w1 w' Hm0 Hb Hp Hrel
    | w st ws m pending h fin cx st' Hm0 -> | w st ws h fin cx Hb
    | w st ws1 ws2 m ph br h fin cx j rest Hj | w st ws1 ws2 m ph br h fin cx j res bot w1 w' ready st' Hu Hp Hl
    | w st ws1 ws2 m ph br h fin cx j w1 st' w' Hf0 Hf | w st ws1 ws2 m ph br h fin j
    | w st ws1 ws2 m ph br h fin cx t ready x w' Hf | w st ws1 ws2 m ph br h fin t ready
    | w st ws1 ws2 m ph br h fin cx | w st ws1 ws2 ph br h fin cx Hj ].

Section steps.
Context {E : Env} {C : Aead} {A : BotAPI} (bots : BotRepository) (error_text : error → string) (leaseOwner : string).
Context (leaseFor batchLimit : Z).
Notation pact := (pact bots error_text leaseOwner).

(** A track completed by a step is about to be finalized after it. *)
Lemma pact_done c c' t : pact c c' → pack_ok c → is_done (cf_st c') t = true →
  is_done (cf_st c) t = true ∨ t ∈ cf_ready c'.
Proof.
  unfold pack_ok. destruct 1 as
    [ w st up rd la node bm ch w' u st' _ Hn | w st up rd la node e w1 w' u st1 st' _ Hn Hf
    | w st up rd la u node ch bm off seq data b x w1 w2 w' _ Hr Hb Hx
    | w st up rd la u node ch bm off seq e w1 st' w' _ _ Hf
    | w st up rd la u node ch bm off seq st' _ ->
    | w st up rd la node bm data w' u st' _ Hn | w st up rd la u data bm Ho
    | w st up rd la ph ch b ids w1 w2 w' d st' Hph _ _ _ Hids Hseal
    | w st up rd la ph e w1 w' Hph _ _ | w st up rd la pending ph st' ->
    | w st up rd la ph j rest Hj | w st up1 up2 rd la ph j r bot w1 w' ready st' _ _ Hl
    | w st up1 up2 rd la ph j st' w' Hf | w st up rd1 rd2 la ph u w' x _ ];
    cbn [cf_st cf_up cf_ready cf_hist cf_phase]; intros Hi Hd; try (by left).
  - left. by eapply is_done_new.
  - left. apply failTrack_run in Hf as ->. eapply is_done_new; [exact Hn|]. by apply (is_done_failed [u]).
  - left. destruct (in_phase _ _ _ _ _ _ _ _ Hi) as (_ & tr & Ht & Hp & _).
    eapply (is_done_open (λ tr, add_remaining 1 (add_extent (mkExtent x _ seq off (blen data) b 0) tr)) u);
      [done| |exact Hd]. intros tr'. rewrite Ht. by intros [= <-].
  - left. apply failTrack_run in Hf as ->. by apply (is_done_failed [u]).
  - destruct (is_done_alter _ _ _ _ Hd) as [?| ->]; [by left|]. right. rewrite Hd. by left.
  - left. by eapply is_done_new.
  - left. eapply is_done_seal; [exact Hi|by eapply map_each_length|exact Hseal|exact Hd].
  - destruct (is_done_alters set_planned _ _ _ (λ _, eq_refl) Hd) as [?|Hin]; [by left|]. right.
    apply elem_of_app. left. apply list_elem_of_In, filter_In. split; [by apply list_elem_of_In|done].
  - destruct (is_done_landed _ _ _ _ _ Hl Hd) as [?|?]; [by left|]. right. apply elem_of_app. by left.
  - left. apply failJob_run in Hf as ->. rewrite <- upd_tracks_fold in Hd. by apply is_done_failed in Hd.
Qed.

Lemma sound_pact c c' fin cx : pact c c' → (∀ t, t ∈ cf_ready c → t ∈ cf_ready c') → sound c fin cx → sound c' fin cx.
Proof.
  intros H Hrd [Hok Hd]. split; [by eapply pact_ok|]. intros t Ht.
  destruct (pact_done c c' t H Hok Ht) as [Hold|?]; [|by left]. destruct (Hd t Hold) as [?|?]; auto.
Qed.

(** Taking a track off the list: finalized, or given up at the timeout. *)
Lemma sound_final w w' st up rd1 t rd2 h ph fin fin' cx : (t ∈ fin' ∨ cx = true) → (∀ u, u ∈ fin → u ∈ fin') →
  sound (mkCfg w st up (rd1 ++ t :: rd2) h ph) fin cx → sound (mkCfg w' st up (rd1 ++ rd2) h ph) fin' cx.
Proof.
  intros Ht Hf [Hok Hd]. split.
  - unfold pack_ok in *. cbn in *. eapply inv_ready; [|exact Hok]. intros u. rewrite !elem_of_app. set_solver.
  - intros u Hu. cbn in *. destruct (Hd u Hu) as [Hin|[?|?]]; [|auto..].
    apply elem_of_app in Hin as [Hin|[->|Hin]%elem_of_cons]; rewrite ?elem_of_app; naive_solver.
Qed.

(** ** What always runs *)

Lemma failTrack_Ok t st w : ∃ st' w', failTrack t st w = (Ok st', w').
Proof.
  unfold failTrack. destruct (ps_tracks st !! t) as [tr|]; [|by eexists _, _].
  destruct (tr_failed tr); [by eexists _, _|]. unfold ReleaseLease_, bind, try. simpl.
  by destruct (NodeRepository_ReleaseLease (n_ID (tr_node tr)) w) as [r w1]; eexists _, _.
Qed.

Lemma failJob_Ok ts st w : ∃ st' w', failJob ts st w = (Ok st', w').
Proof.
  revert st w. induction ts as [|t ts IH]; intros st w; [by eexists _, _|]. cbn [failJob].
  destruct (failTrack_Ok t st w) as (st1 & w1 & Hf). destruct (IH st1 w1) as (st2 & w2 & Hr).
  exists st2, w2. unfold bind. by rewrite Hf.
Qed.

Lemma map_each_uuid {X} (l : list X) w : ∃ ids w', map_each l (λ _, uuid_New) w = (Ok ids, w').
Proof.
  revert w. induction l as [|x l IH]; intros w; [by eexists _, _|]. cbn [map_each].
  destruct (IH (tick w)) as (ids & w' & Hr). exists (env_uuid (w_step w) O :: ids), w'. unfold bind at 1, uuid_New at 1.
  unfold bind. by rewrite Hr.
Qed.

Lemma release_pending_Ok st w : ∃ w', release_pending st w = (Ok tt, w').
Proof.
  unfold release_pending. generalize (ps_pendingSmall st). intros ts.
  revert w. induction ts as [|t ts IH]; intros w; [by eexists|]. cbn [for_each].
  destruct (ps_tracks st !! t) as [tr|]; [|apply IH]. unfold ReleaseLease_, bind at 1, try at 1.
  destruct (NodeRepository_ReleaseLease (n_ID (tr_node tr)) w) as [r w1]. apply IH.
Qed.

(** ** The invariant *)

Notation rstep := (rstep bots error_text leaseOwner leaseFor batchLimit).

Definition mode_ok (c : rcfg) : Prop :=
  match r_mode c with
  | Polling | Batch _ _ => True
  | Stopping => r_phase c = Idle ∨ ∃ pending, r_phase c = Sealing pending Idle ∧ r_bready c = [] ∧ run_buf (ps_cur (r_st c)) = []
  | Closed => r_phase c = Idle ∧ r_bready c = []
  end.

Record run_ok (c : rcfg) : Prop := {
  ok_sound : sound (erase c) (r_final c) (r_cancelled c);
  ok_workers : r_workers c ≠ [];
  ok_exited : WExited ∈ r_workers c → r_mode c = Closed ∧ ps_jobs (r_st c) = [];
  ok_mode : mode_ok c }.

Lemma busy_at ws1 wk ws2 : busy (ws1 ++ wk :: ws2) = (busy ws1 ++ busy_of wk ++ busy ws2)%list.
Proof. unfold busy. by rewrite bind_app. Qed.
Lemma finals_at ws1 wk ws2 : finals (ws1 ++ wk :: ws2) = (finals ws1 ++ finals_of wk ++ finals ws2)%list.
Proof. unfold finals. by rewrite bind_app. Qed.

Lemma env_ok c c' : env_step c c' → run_ok c → run_ok c'.
Proof. destruct 1; intros [Hs Hw He Hm]; split; try done; (eapply sound_world; [|exact Hs]; auto). Qed.

Ltac at_worker := unfold erase in *; cbn [r_world r_st r_workers r_mode r_phase r_bready r_hist r_final r_cancelled] in *;
  rewrite ?busy_at, ?finals_at in *; cbn [busy_of finals_of app] in *.

Lemma sound_step c c' : rstep c c' → sound (erase c) (r_final c) (r_cancelled c) →
  sound (erase c') (r_final c') (r_cancelled c').
Proof.
  intros Hstep Hs0. step_cases Hstep; at_worker.
  - by eapply sound_world.
  - done.
  - by eapply sound_world.
  - eapply sound_pact; [by eapply PSplit|done|exact Hs0].
  - eapply sound_pact; [by eapply PSplitNoChannel|done|exact Hs0].
  - eapply sound_pact; [by eapply (PSmall _ _ _ _ _ _ _ _ _ bm)|done|exact Hs0].
  - by eapply sound_world.
  - eapply sound_pact; [exact Hp| |exact Hs0]. intros t Ht. apply elem_of_app. by right.
  - apply (sound_final w w' st _ [] t (br ++ finals ws) h ph fin (t :: fin) cx); [left; by left|by right|done].
  - done.
  - eapply sound_pact; [eapply PSealSend; [exact I|exact Hb|exact Hp|exact Hu|exact Hi|exact Hs]|done|exact Hs0].
  - eapply sound_pact; [eapply (PSealNoChannel _ _ _ w st _ _ _ Idle e w1 w'); [exact I|exact Hp|exact Hrel]|done|exact Hs0].
  - eapply sound_pact; [by eapply PSealPlan| |exact Hs0]. cbn. intros t Ht. apply elem_of_app. by right.
  - done.
  - eapply sound_perm; [|done|eapply sound_pact; [by eapply PTake|done|exact Hs0]]. apply Permutation_middle.
  - eapply (sound_world w'); [done|]. eapply (sound_perm _ _ _ _ (ready ++ br ++ finals ws1 ++ finals ws2)); [reflexivity| |].
    + intros t. rewrite !elem_of_app. tauto.
    + eapply sound_pact; [by eapply PLanded| |exact Hs0]. intros t Ht. cbn. apply elem_of_app. by right.
  - eapply sound_pact; [by eapply PFailed|done|]. by eapply sound_world.
  - destruct (failJob_Ok (jb_tracks j) st w) as (st' & w' & Hf). pose proof (failJob_run _ _ _ _ _ Hf) as Heq.
    rewrite <- upd_tracks_fold in Heq. rewrite <- Heq. eapply (sound_world w'); [done|].
    eapply sound_pact; [by eapply PFailed|done|exact Hs0].
  - rewrite (app_assoc br (finals ws1)) in *. eapply (sound_final w w' _ _ _ t _ _ _ fin); [left; by left|by right|exact Hs0].
  - rewrite (app_assoc br (finals ws1)) in *. eapply (sound_final w w _ _ _ t _ _ _ fin); [by right|done|exact Hs0].
  - done.
  - done.
Qed.

Lemma filter_length {X} (f : X → bool) l : (length (List.filter f l) ≤ length l)%nat.
Proof. induction l as [|x l IH]; simpl; [lia|]. destruct (f x); simpl; lia. Qed.

Lemma upd_all_same f ts st : let st' := foldl (λ st t, upd_track t f st) st ts in
  ps_jobs st' = ps_jobs st ∧ ps_cur st' = ps_cur st ∧ ps_pendingSmall st' = ps_pendingSmall st.
Proof. simpl. by rewrite upd_tracks_fold. Qed.

Lemma landed_same j st ready st' : landed j st = (ready, st') →
  ps_jobs st' = ps_jobs st ∧ ps_cur st' = ps_cur st ∧ ps_pendingSmall st' = ps_pendingSmall st
  ∧ (length ready ≤ length (jb_tracks j))%nat.
Proof. unfold landed. intros [= <- <-]. rewrite upd_tracks_fold. split_and!; try done. apply filter_length. Qed.

Lemma failJob_same ts st w st' w' : failJob ts st w = (Ok st', w') →
  ps_jobs st' = ps_jobs st ∧ ps_cur st' = ps_cur st ∧ ps_pendingSmall st' = ps_pendingSmall st.
Proof. by intros ->%failJob_run. Qed.

Lemma poll_mode w m w' : poll leaseOwner leaseFor batchLimit w = (Ok m, w') → m = Polling ∨ ∃ bm nodes, m = Batch bm nodes.
Proof.
  unfold poll. rewrite try_run. destruct (Settings_Get w) as [[set|e] w1]; cbn [fst snd]; [|intros [= <- _]; by left].
  rewrite try_run. destruct (NodeRepository_ClaimBufferedForPacking _ _ _ w1) as [[[|n l]|e] w2]; cbn [fst snd];
    intros [= <- _]; [by left|right; by eexists _, _|by left].
Qed.

Lemma rstep_ok c c' : rstep c c' → run_ok c → run_ok c'.
Proof.
  intros H [Hs Hw He Hm]. pose proof (sound_step c c' H Hs) as Hs'. split; [exact Hs'|clear Hs Hs'..].
  - destruct H; cbn in *; try done; intros Hnil; apply app_eq_nil in Hnil as [_ ?]; done.
  - destruct H; cbn in *; try done; try (intros Hx; apply He in Hx as [? ?]; done);
      rewrite ?elem_of_app, ?elem_of_cons in *; intros Hx.
    all: try (destruct He as [Hmc Hj]; [naive_solver|]); try done; try (by rewrite Hmc in * ); try (split; [done|]).
    + by rewrite Hj in *.
    + destruct (landed_same _ _ _ _ ltac:(eassumption)) as [-> _]. done.
    + destruct (failJob_same _ _ _ _ _ ltac:(eassumption)) as [-> _]. done.
    + destruct (upd_all_same set_failed (jb_tracks j) st) as [-> _]. done.
  - destruct H; unfold mode_ok in *; cbn in *; try done; try (by left).
    + by destruct (poll_mode _ _ _ ltac:(eassumption)) as [->|(? & ? & ->)].
    + destruct m; naive_solver.
    + destruct m; try done; naive_solver.
    + destruct m; try done; naive_solver.
    + destruct m; try done; naive_solver.
    + destruct (landed_same _ _ _ _ ltac:(eassumption)) as (_ & -> & _). done.
    + destruct (failJob_same _ _ _ _ _ ltac:(eassumption)) as (_ & -> & _). done.
    + destruct (upd_all_same set_failed (jb_tracks j) st) as (_ & -> & _). done.
Qed.

(** ** The measure *)

Definition worker_weight (wk : worker) : nat :=
  match wk with
  | WExited => 0 | WIdle => 1 | WFinal ready => 2 + length ready | WBusy j => 3 + length (jb_tracks j)
  end.
Definition jobs_weight (l : list blobJob) : nat := sum_list_with (λ j, 3 + length (jb_tracks j))%nat l.
Definition builder_weight (m : builder_mode) (ph : phase) (st : packState) : nat :=
  match m, ph with
  | Stopping, Sealing pending _ => 2 + length pending
  | Stopping, _ => if blen (run_buf (ps_cur st)) =? 0 then 1
                   else 7 + length (run_segs (ps_cur st)) + length (ps_pendingSmall st)
  | _, _ => 0
  end.

(** How many steps are left once the builder has stopped. *)
Definition left_over (c : rcfg) : nat :=
  sum_list_with worker_weight (r_workers c) + jobs_weight (ps_jobs (r_st c)) + length (r_bready c)
  + builder_weight (r_mode c) (r_phase c) (r_st c).

Lemma seal_segs_length blobID ids segs seen st d st' : seal_segs blobID ids segs seen st = (d, st') →
  (length d ≤ length seen + length segs)%nat ∧ ps_jobs st' = ps_jobs st.
Proof.
  revert ids seen st. induction segs as [|s segs IH]; intros [|id ids] seen st H; cbn [seal_segs] in H;
    try (injection H as <- <-; simpl; split; [lia|done]).
  case_bool_decide; apply IH in H as [Hl Hj]; rewrite Hj; simpl; (split; [|done]); [lia|].
  rewrite length_app in Hl. simpl in Hl. lia.
Qed.

Lemma jobs_weight_app l j : jobs_weight (l ++ [j])%list = (jobs_weight l + (3 + length (jb_tracks j)))%nat.
Proof. unfold jobs_weight. rewrite sum_list_with_app. simpl. lia. Qed.

Lemma weight_at ws1 wk ws2 : sum_list_with worker_weight (ws1 ++ wk :: ws2)
  = (worker_weight wk + sum_list_with worker_weight (ws1 ++ ws2))%nat.
Proof. rewrite !sum_list_with_app. simpl. lia. Qed.

Lemma builder_weight_same m ph st st' : ps_cur st' = ps_cur st → ps_pendingSmall st' = ps_pendingSmall st →
  builder_weight m ph st' = builder_weight m ph st.
Proof. intros Hc Hp. unfold builder_weight. by rewrite Hc, Hp. Qed.

(** Once the builder has left its loop, every step of the packer brings the end nearer. *)
Lemma step_left c c' : rstep c c' → stopping (r_mode c) = true → mode_ok c →
  (left_over c' < left_over c)%nat ∧ stopping (r_mode c') = true.
Proof.
  intros Hstep Hm Hok. step_cases Hstep; cbn in Hm; try done; try (destruct m; try done; []);
    (split; [|done]); unfold left_over; cbn [r_workers r_st r_bready r_mode r_phase]; rewrite ?weight_at.
  - simpl. lia.
  - destruct (seal_segs_length _ _ _ _ _ _ _ Hs) as [Hd Hjobs]. simpl. rewrite jobs_weight_app, Hjobs. simpl.
    rewrite (proj2 (Z.eqb_neq _ _)) by lia. simpl in Hd. lia.
  - simpl. rewrite (proj2 (Z.eqb_neq _ _)) by lia. lia.
  - destruct Hok as [?|(pending' & [= <-] & _ & Hbuf)]; [done|].
    destruct (upd_all_same set_planned pending st) as (-> & Hc & _). cbn in Hbuf. simpl. rewrite Hc, Hbuf.
    pose proof (filter_length (is_done (foldl (λ st t, upd_track t set_planned st) st pending)) pending). simpl. lia.
  - simpl. rewrite Hb. simpl. lia.
  - rewrite (builder_weight_same m ph st) by done. rewrite Hj. simpl. lia.
  - destruct (landed_same _ _ _ _ Hl) as (-> & Hc & Hp' & Hlen). rewrite (builder_weight_same m ph st) by done. simpl. lia.
  - destruct (failJob_same _ _ _ _ _ Hf) as (-> & Hc & Hp'). rewrite (builder_weight_same m ph st) by done. simpl. lia.
  - destruct (upd_all_same set_failed (jb_tracks j) st) as (-> & Hc & Hp'). rewrite (builder_weight_same m ph st) by done. simpl. lia.
  - simpl. lia.
  - simpl. lia.
  - simpl. lia.
  - simpl. lia.
Qed.

(** ** Progress *)

Lemma worker_moves w st ws1 wk ws2 m ph br h fin cx : wk ≠ WIdle → wk ≠ WExited →
  ∃ c', rstep (mkRcfg w st (ws1 ++ wk :: ws2) m ph br h fin cx) c'.
Proof.
  intros Hi He. destruct wk as [|j|[|t ready]|]; try done.
  - destruct (upload bots error_text (jb_channel j) (jb_data j) w) as [[[res bot]|e] w1] eqn:Hu.
    + destruct (persistBlob j (jb_channel j) bot res w1) as [[[]|e] w2] eqn:Hp.
      * destruct (landed j st) as [ready st'] eqn:Hl. eexists. by eapply RLanded.
      * destruct (failJob_Ok (jb_tracks j) st w2) as (st' & w' & Hf). eexists. eapply RFailed; [|exact Hf]. right. by eexists _, _, _, _.
    + destruct (failJob_Ok (jb_tracks j) st w1) as (st' & w' & Hf). eexists. eapply RFailed; [|exact Hf]. left. by eexists.
  - eexists. apply RNext.
  - destruct (finalize_ptr leaseOwner st t w) as [x w'] eqn:Hf. eexists. by eapply RFinal.
Qed.

Lemma builder_moves w st ws ph h fin cx : ws ≠ [] → ps_jobs st = [] →
  ph = Idle ∨ (∃ pending, ph = Sealing pending Idle) → ∃ c', rstep (mkRcfg w st ws Stopping ph [] h fin cx) c'.
Proof.
  intros Hws Hj [->|[pending ->]]; [|eexists; by eapply RSealPlan].
  destruct (decide (blen (run_buf (ps_cur st)) = 0)) as [Hb|Hb]; [eexists; by eapply RClose|].
  assert (0 < blen (run_buf (ps_cur st))) as Hpos by (unfold blen in *; lia).
  destruct (Channel_PickForUpload bots w) as [[ch|e] w1] eqn:Hp.
  - destruct (uuid_New w1) as [[b|e] w2] eqn:Hu; [|done].
    destruct (map_each_uuid (run_segs (ps_cur st)) w2) as (ids & w' & Hi).
    destruct (seal_segs b ids (run_segs (ps_cur st)) [] st) as [d st'] eqn:Hs.
    eexists. eapply RSealSend; try done. rewrite Hj. destruct ws; [done|]. simpl. lia.
  - destruct (release_pending_Ok st w1) as (w' & Hr). eexists. by eapply RSealNoChannel.
Qed.

Lemma workers_cases (ws : list worker) : (∃ wk, wk ∈ ws ∧ wk ≠ WIdle ∧ wk ≠ WExited)
  ∨ Forall (λ wk, wk = WIdle ∨ wk = WExited) ws.
Proof.
  induction ws as [|wk ws IH]; [by right|]. destruct IH as [(x & Hx & ?)|IH]; [left; exists x; by rewrite elem_of_cons; auto|].
  destruct wk; try (left; eexists; split; [by left|done]); right; constructor; auto.
Qed.

Lemma idle_or_exited ws : Forall (λ wk, wk = WIdle ∨ wk = WExited) ws →
  (∃ ws1 ws2, ws = ws1 ++ WIdle :: ws2)%list ∨ Forall (λ wk, wk = WExited) ws.
Proof.
  induction 1 as [|wk ws [->| ->] _ IH]; [by right|left; by exists [], ws|].
  destruct IH as [(ws1 & ws2 & ->)|IH]; [left; by exists (WExited :: ws1), ws2|right; by constructor].
Qed.

(** No deadlock: a packer that is stopping has a step, or has returned. *)
Lemma run_progress c : run_ok c → stopping (r_mode c) = true → finished c ∨ ∃ c', rstep c c'.
Proof.
  destruct c as [w st ws m ph br h fin cx]. intros [_ Hw He Hm] Hmode. cbn in *.
  destruct (workers_cases ws) as [(wk & Hin & Hi & Hx)|Hall].
  { apply list_elem_of_split in Hin as (ws1 & ws2 & ->). right. by apply worker_moves. }
  destruct br as [|t br].
  2: { right. destruct (finalize_ptr leaseOwner st t w) as [x w'] eqn:Hf. eexists. by eapply RBuilderFinal. }
  destruct (decide (ps_jobs st = [])) as [Hj|Hj].
  - destruct m; [done|done| |].
    + right. apply builder_moves; [done..|]. destruct Hm as [?|(pending & ? & _)]; eauto.
    + destruct (idle_or_exited ws Hall) as [(ws1 & ws2 & ->)|Hf]; [right; eexists; by eapply RExit|by left].
  - right. destruct ws as [|wk ws]; [done|]. destruct (ps_jobs st) as [|j rest] eqn:Hjs; [done|].
    apply Forall_cons in Hall as [[->| ->] _]; [|by destruct He as [_ ?]; [by left|]].
    eexists. by eapply (RTake _ _ _ _ _ w st []%list).
Qed.

(** ** Schedules *)

Lemma schedule_ok k c c' : schedule bots error_text leaseOwner leaseFor batchLimit k c c' → run_ok c →
  run_ok c' ∧ (stopping (r_mode c) = true → stopping (r_mode c') = true ∧ (k + left_over c' ≤ left_over c)%nat).
Proof.
  induction 1 as [c|k c c1 c2 He _ IH|k c c1 c2 Hr _ IH]; intros Hok.
  - split; [done|]. intros Hm. split; [done|]. lia.
  - destruct (IH (env_ok _ _ He Hok)) as [Hok2 Hm2]. split; [done|].
    assert (left_over c1 = left_over c ∧ r_mode c1 = r_mode c) as [<- <-] by by destruct He. done.
  - destruct (IH (rstep_ok _ _ Hr Hok)) as [Hok2 Hm2]. split; [done|]. intros Hm.
    destruct (step_left _ _ Hr Hm (ok_mode _ Hok)) as [Hlt Hm1]. destruct (Hm2 Hm1) as [? ?]. split; [done|]. lia.
Qed.

Lemma workerCount_bounds upload_ w n w' : workerCount bots upload_ w = (Ok n, w') → 1 ≤ n ≤ 16.
Proof. unfold workerCount. intros (m & w1 & _ & H)%bind_Ok. injection H as <- _. lia. Qed.

Lemma Run_ok uploadConcurrency w c w' : Run bots uploadConcurrency w = (Ok c, w') → run_ok c.
Proof.
  unfold Run. intros (n & w1 & Hn & H)%bind_Ok. injection H as <- _. apply workerCount_bounds in Hn.
  assert (∀ k, busy (replicate k WIdle) = [] ∧ finals (replicate k WIdle) = []) as Hb by (induction k; by simpl).
  split; try done.
  - unfold erase. cbn [r_world r_st r_workers r_mode r_phase r_bready r_hist r_final r_cancelled]. destruct (Hb (Z.to_nat n)) as [-> ->]. split; [exact (started_ok w1)|]. done.
  - destruct (Z.to_nat n) eqn:Hz; [lia|done].
  - cbn. by intros [[=] _]%elem_of_replicate.
Qed.

(** At the end: no job is left, and every file that was planned and has not failed
    has all its blobs stored. *)
Lemma finished_clean c : run_ok c → finished c → ps_jobs (r_st c) = []
  ∧ ∀ t tr, ps_tracks (r_st c) !! t = Some tr → tr_planned tr = true → tr_failed tr = false →
      (t ∈ r_final c ∨ r_cancelled c = true).
Proof.
  intros [[Hok Hd] Hw He Hm] [Hmode Hall]. destruct (r_workers c) as [|wk ws] eqn:Hws; [done|].
  assert (wk = WExited) as -> by by apply Forall_cons in Hall as [-> _].
  destruct He as [_ Hj]; [by left|]. split; [done|]. intros t tr Ht Hp Hf.
  assert (busy (WExited :: ws) = [] ∧ finals (WExited :: ws) = []) as [Hb Hfi].
  { clear -Hall. revert Hall. generalize (WExited :: ws). induction 1 as [|x l -> _ IH]; [done|]. exact IH. }
  unfold mode_ok in Hm. rewrite Hmode in Hm. destruct Hm as [_ Hbr].
  unfold erase in *. rewrite Hws in *. unfold pack_ok in Hok. cbn [cf_st cf_up cf_ready cf_hist cf_phase] in *.
  rewrite Hb, Hfi, Hbr, Hj in *. destruct (Hd t) as [?%elem_of_nil|?]; [|done..].
  unfold is_done. rewrite Ht. unfold done_track. rewrite Hp, Hf, (in_rem _ _ _ _ _ _ _ _ Hok t tr Ht Hf). done.
Qed.

End steps.
