(* ===== verification/Script.v ===== *)
(** * Schedules of the packer, as functions

    A [move] names the step to take; [exec] takes it when it can be taken and nothing
    fails.  What a list of moves computes is a schedule of [Run.rstep]: concrete runs
    are evaluated rather than constructed. *)
From Stdlib Require Import ZArith Lia Strings.Byte Strings.String.
From stdpp Require Import base tactics list gmap sets strings relations.
From S2P Require Import Prelude Model Sql World Repository Crypto Accounts File Telegram BlobReader Bots Packer Run.
#[local] Open Scope string_scope.
#[local] Open Scope Z_scope.
Open Scope m_scope.

(** The steps of the builder, and those of a worker, given by its index. *)
Inductive move :=
  | Poll | Split | Piece | Planned | BatchEnd | Halt | Close
  | Take (i : nat) | Land (i : nat) | Final (i : nat) | Next (i : nat) | Exit (i : nat).

Definition set_worker (i : nat) (v : worker) (ws : list worker) : list worker := (take i ws ++ v :: drop (S i) ws)%list.

Lemma set_worker_id (i : nat) v (ws : list worker) : ws !! i = Some v → ws = set_worker i v ws.
Proof. intros H. by rewrite <- (take_drop_middle ws i v) at 1. Qed.

Section moves.
Context {E : Env} {C : Aead} {A : BotAPI} (bots : BotRepository) (error_text : error → string).
Context (leaseOwner : string) (leaseFor batchLimit : Z).
#[local] Notation rstep := (rstep bots error_text leaseOwner leaseFor batchLimit).

(** The track of a file that is completed as its last piece is planned. *)
Definition completed (st : packState) (t : nat) : list nat := if is_done st t then [t] else [].

Definition exec (v : move) (c : rcfg) : option rcfg :=
  let '(mkRcfg w st ws m ph br h fin cx) := c in
  match v, m, ph, br with
  | Poll, Polling, Idle, [] =>
      match poll leaseOwner leaseFor batchLimit w with
      | (Ok m, w') => Some (mkRcfg w' st ws m Idle [] h fin cx) | _ => None end
  | Split, Batch blobMax (node :: rest), Idle, [] =>
      if bool_decide (n_Size node ≠ 0) && (blobMax <? n_Size node) then
        match Channel_PickForUpload bots w with
        | (Ok ch, w') => let '(t, st') := new_track node st in
            Some (mkRcfg w' st' ws (Batch blobMax rest) (Splitting t node ch blobMax 0 0) [] (note_read t [] h) fin cx)
        | _ => None end
      else None
  | Piece, Batch bm nodes, Splitting t node ch blobMax off seq, [] =>
      match WALRepository_ReadRange (n_ID node) off (Z.min blobMax (n_Size node - off)) w with
      | (Ok data, w1) =>
          match uuid_New w1 with
          | (Ok blobID, w2) =>
              match uuid_New w2 with
              | (Ok extID, w') =>
                  let st' := plan_piece t ch blobID extID off seq data st in
                  if (off <? n_Size node) && (length (ps_jobs st') <=? length ws)%nat then
                    Some (mkRcfg w' st' ws (Batch bm nodes) (Splitting t node ch blobMax (off + blen data) (seq + 1)) []
                            (note_read t (got (h_read h) t ++ data)%list h) fin cx)
                  else None
              | _ => None end
          | _ => None end
      | _ => None end
  | Planned, Batch bm nodes, Splitting t node ch blobMax off seq, [] =>
      let st' := upd_track t set_planned st in
      if (n_Size node <=? off) && (length (ps_jobs st') <=? length ws)%nat then
        Some (mkRcfg w st' ws (Batch bm nodes) Idle (completed st' t) h fin cx)
      else None
  | BatchEnd, Batch _ [], Idle, [] => Some (mkRcfg w st ws Polling Idle [] h fin cx)
  | Halt, Polling, Idle, [] => Some (mkRcfg w st ws Stopping Idle [] h fin cx)
  | Close, Stopping, Idle, [] =>
      if blen (run_buf (ps_cur st)) =? 0 then Some (mkRcfg w st ws Closed Idle [] h fin cx) else None
  | Take i, _, _, _ =>
      match ps_jobs st, ws !! i with
      | j :: rest, Some WIdle => Some (mkRcfg w (set_jobs rest st) (set_worker i (WBusy j) ws) m ph br h fin cx)
      | _, _ => None end
  | Land i, _, _, _ =>
      match ws !! i with
      | Some (WBusy j) =>
          match upload bots error_text (jb_channel j) (jb_data j) w with
          | (Ok (res, bot), w1) =>
              match persistBlob j (jb_channel j) bot res w1 with
              | (Ok tt, w') => let '(ready, st') := landed j st in
                  Some (mkRcfg (AddWriteBytes (blen (jb_data j)) w').2 st' (set_worker i (WFinal ready) ws) m ph br
                          (note_landed j h) fin cx)
              | _ => None end
          | _ => None end
      | _ => None end
  | Final i, _, _, _ =>
      match ws !! i with
      | Some (WFinal (t :: ready)) =>
          Some (mkRcfg (finalize_ptr leaseOwner st t w).2 st (set_worker i (WFinal ready) ws) m ph br h (t :: fin) cx)
      | _ => None end
  | Next i, _, _, _ =>
      match ws !! i with
      | Some (WFinal []) => Some (mkRcfg w st (set_worker i WIdle ws) m ph br h fin cx)
      | _ => None end
  | Exit i, Closed, _, _ =>
      match ps_jobs st, ws !! i with
      | [], Some WIdle => Some (mkRcfg w st (set_worker i WExited ws) Closed ph br h fin cx)
      | _, _ => None end
  | _, _, _, _ => None
  end.

Lemma planned_step w st up rd h t node ch blobMax off seq : n_Size node ≤ off →
  pact bots error_text leaseOwner (mkCfg w st up rd h (Splitting t node ch blobMax off seq))
    (mkCfg w (upd_track t set_planned st) up (completed (upd_track t set_planned st) t ++ rd) h Idle).
Proof.
  intros Hs. pose proof (PPlanned bots error_text leaseOwner w st up rd h t node ch blobMax off seq _ Hs eq_refl) as H.
  unfold completed. by destruct (is_done _ _).
Qed.

Lemma exec_sound v c c' : exec v c = Some c' → rstep c c'.
Proof.
  destruct c as [w st ws m ph br h fin cx]. unfold exec. intros H. destruct v; repeat case_match; simplify_eq.
  all: repeat match goal with
    | Hb : _ && _ = true |- _ => apply andb_true_iff in Hb as [? ?]
    | Hw : _ !! ?i = Some _ |- _ => rewrite (set_worker_id _ _ _ Hw) at 1; unfold set_worker; clear Hw
    end.
  - by apply RPoll.
  - eapply RSplit; [by eapply bool_decide_eq_true|by apply Z.ltb_lt|done..].
  - apply (RInside _ _ _ _ _ _ _ _ _ _ _ _ _ _ _ _ []%list); [done| |by apply Nat.leb_le].
    eapply PPiece; [by apply Z.ltb_lt|done..].
  - eapply RInside; [done| |by apply Nat.leb_le]. apply planned_step. by apply Z.leb_le.
  - apply RBatchEnd.
  - apply RStop.
  - apply RClose. by apply Z.eqb_eq.
  - by apply RTake.
  - by eapply RLanded.
  - eapply RFinal, surjective_pairing.
  - apply RNext.
  - by apply RExit.
Qed.

Fixpoint execs (vs : list move) (c : rcfg) : option rcfg :=
  match vs with [] => Some c | v :: vs => exec v c ≫= execs vs end.

Lemma execs_sound vs c c' : execs vs c = Some c' →
  schedule bots error_text leaseOwner leaseFor batchLimit (length vs) c c'.
Proof.
  revert c. induction vs as [|v vs IH]; intros c; cbn [execs]; [intros [= ->]; apply sched_nil|].
  intros (c1 & H & Hs)%bind_Some. eapply sched_run; [by eapply exec_sound|by apply IH].
Qed.

End moves.
