(* ===== verification/System.v ===== *)
(** * cmd/tgwebdav/server.go: the whole server

    [runServer] puts the parts together over one database and one memory: at start it
    opens the cache, settles which channels are available, makes the first
    administrator and starts the packer; then requests of both endpoints, the ticks of
    the background workers and the steps of the packer come in any order, until the
    process stops, which it may do at any moment, and is started again. *)
From Stdlib Require Import ZArith Lia Strings.Byte Strings.String.
From stdpp Require Import base tactics list gmap sets strings relations.
From S2P Require Import Prelude Model Sql World Repository Crypto Text Password Accounts Identity Limiter.
From S2P Require Import Path FileSystem File Copy WebDav Cache Telegram Config BlobReader Bots Maintenance Management Server Packer Run.
#[local] Open Scope string_scope.
#[local] Open Scope Z_scope.
Open Scope m_scope.

(** [service.Packer]: its parameters. *)
Record PackerParams := mkPackerParams {
  leaseOwner : string; leaseFor : Z; pollInterval : Z; batchLimit : Z; uploadConcurrency : Z }.

(** What the process does beside packing: a request, or a tick of a worker. *)
Inductive task :=
  | DavRequest (r : httpReq)
  | ApiRequest (r : apiReq)
  | Maintain (t : ticker)
  | FlushStats | SweepLimiter | SweepCache.

(** The process is not running, with what the last one left; or it is. *)
Inductive server := Down (w : World) | Up (p : PackerParams) (c : rcfg).

Definition world_of (s : server) : World := match s with Down w => w | Up _ c => r_world c end.
Definition with_world (w : World) (c : rcfg) : rcfg :=
  mkRcfg w (r_st c) (r_workers c) (r_mode c) (r_phase c) (r_bready c) (r_hist c) (r_final c) (r_cancelled c).

Section server.
Context {E : Env} {C : Aead} {A : BotAPI} {K : Kdf} {R : RateLib} {W : WebLib} {O : Oapi} {D : BodyDecoder}.
Context (redirect : string → apiReq → apiResp) (error_text : error → string) (config : serverConfig).

Definition botRepo : BotRepository := NewBotRepository (default [] (SecretKey config)).
Definition blobReader : BlobService := blob_reader botRepo.

Definition NewPacker : M PackerParams :=
  let! id := uuid_New in
  ret (mkPackerParams (env_uuid_string id) (10 * Minute) (250 * Millisecond) 64 0).

(** The gauges; the error of [Count] is dropped, with a count of zero. *)
Definition server_gauges : list gauge :=
  [("cache_bytes", "", let! '(b, _) := cache_Stats in ret b);
   ("blobs_total", "", let? n := blobRepository_Count in ret (match n with Ok n => n | Err _ => 0 end))].

(** [runServer] up to the packer's start.  The memory is that of a new process; the
    directory of the cache is what it was. *)
Definition fresh_memory (step : nat) (w : World) : World :=
  mkWorld (w_db w) None step ∅ (mkCache 0 0 ∅ [] 0 (ca_files (w_cache w)) 0%nat) zero_counters 0 0 ∅ ∅ ∅.

Definition runServer : M (PackerParams * rcfg) :=
  do! cache_New (CacheSize config) (60 * Minute) in
  ignore! reevaluateAvailability botRepo in
  do! bootstrapAdmin (FirstUser config) in
  let! p := NewPacker in
  let! c := Run botRepo (uploadConcurrency p) in
  ret (p, c).

Definition handle (t : task) : M unit :=
  match t with
  | DavRequest r => ignore! WebDAVHandler r in ret tt
  | ApiRequest r => ignore! ManagementHandler botRepo redirect r in ret tt
  | Maintain t => maintenance_turn botRepo t
  | FlushStats => flush server_gauges
  | SweepLimiter => limiter_sweep
  | SweepCache => janitor_turn
  end.

Inductive sstep : server → server → Prop :=
  (* the process is started, and gets as far as the packer, or exits *)
  | SStart w n p c w' : runServer (fresh_memory n w) = (Ok (p, c), w') → sstep (Down w) (Up p c)
  | SStartFails w n e w' : runServer (fresh_memory n w) = (Err e, w') → sstep (Down w) (Down w')
  | SPack p c c' : rstep botRepo error_text (leaseOwner p) (leaseFor p) (batchLimit p) c c' → sstep (Up p c) (Up p c')
  | STimeout p c c' : env_step c c' → r_world c' = r_world c → sstep (Up p c) (Up p c')
  | STask p c t x w' : handle t (r_world c) = (x, w') → sstep (Up p c) (Up p (with_world w' c))
  (* it stops *)
  | SStop p c : sstep (Up p c) (Down (r_world c)).

End server.
