(* ===== verification/SystemFacts.v ===== *)
(** * Facts about the whole server

    Every step of [System.sstep] keeps the tables [fine] and no transaction open. *)
From Stdlib Require Import ZArith Lia Strings.Byte Strings.String.
From stdpp Require Import base tactics list gmap sets strings relations.
From S2P Require Import Prelude Model Sql SqlFacts World Keeps Repository Crypto Text Password Accounts Identity Limiter.
From S2P Require Import Path FileSystem File WebDav Tree FsFacts WriteFacts ReadFacts CopyFacts Tenants Requests.
From S2P Require Import Cache CacheKeeps CacheFacts Telegram Config BlobReader BlobFacts LossFacts WebFacts FinalizeFacts.
From S2P Require Import Bots BotsFacts Maintenance Management Server ServerFacts SparesFacts SafeFacts.
From S2P Require Import Packer PackerFacts Run RunFacts System.
#[local] Open Scope string_scope.
#[local] Open Scope Z_scope.
Open Scope m_scope.

Notation Improves := (Keeps (leaves improves)).
#[local] Hint Resolve Keeps_spares | 8 : keeps.

(** ** The statements of the packer *)

Section packer.
Context {E : Env} {C : Aead} {A : BotAPI} (bots : BotRepository) (error_text : error → string) (leaseOwner : string).
Context (leaseFor batchLimit : Z) (fid fu : uuid) (N : uuid → bytes → Prop).
Notation Advances := (Keeps (leaves (advances fid fu N))).
Hint Resolve Keeps_spares_advances | 8 : keeps.

Lemma Advances_Release id : Advances (NodeRepository_ReleaseLease id).
Proof.
  apply (Keeps_need_row _), (Keeps_translate _), (leaves_stmt _). unfold ReleaseLease. intros d n d' H.
  destruct (d_nodes d !! id) as [r|] eqn:Hr; injection H as _ <-; [|done]. apply leased_advances. intros k.
  destruct (decide (k = id)) as [->|Hne]; [by rewrite lookup_insert_eq, Hr|by rewrite lookup_insert_ne].
Qed.

Lemma claimed_nodes (owner : string) till l (m : gmap uuid NodeRow) : (∀ r, r ∈ l → ∃ k, m !! k = Some r ∧ n_ID (nr_node r) = k) →
  ∀ k, nr_node <$> foldr (λ r m, <[n_ID (nr_node r) := r]> m) m (set_lease owner till <$> l) !! k = nr_node <$> m !! k.
Proof.
  induction l as [|r l IH]; intros Hl k; [done|]. cbn [fmap list_fmap foldr]. change (nr_node (set_lease owner till r)) with (nr_node r).
  destruct (Hl r) as (i & Hi & Hid); [by left|]. destruct (decide (k = n_ID (nr_node r))) as [->|Hne].
  - by rewrite lookup_insert_eq, Hid, Hi.
  - rewrite lookup_insert_ne by done. apply IH. intros r' Hr'. apply Hl. by right.
Qed.

Lemma Advances_Claim owner lease lim : Advances (NodeRepository_ClaimBufferedForPacking owner lease lim).
Proof.
  unfold NodeRepository_ClaimBufferedForPacking. destruct (lim <=? 0); [auto with keeps|].
  apply (Keeps_bind _); [auto with keeps|]. intros now. apply (Keeps_bind _); [|auto with keeps].
  apply (Keeps_translate _), (leaves_query _). intros t _ d rs d' [= _ <-] Hf. apply leased_advances; [|exact Hf].
  apply claimed_nodes. intros r Hr. unfold limit in Hr. apply elem_of_take in Hr as (i & Hr & _).
  apply list_elem_of_lookup_2 in Hr. rewrite sort_by_perm, elem_of_rows in Hr. destruct Hr as (k & Hk & _).
  exists k. split; [done|]. by apply (tk_id _ (fi_tree _ Hf)).
Qed.

Lemma Advances_DeleteWAL id : id ≠ fid → Advances (WALRepository_DeleteByNode id).
Proof. intros Hid. apply (Keeps_translate _), (leaves_stmt _). intros d u d' [= _ <-]. by apply trimmed_advances. Qed.

Lemma Advances_MarkStored id owner : id ≠ fid → Advances (NodeRepository_MarkStoredIfOwner id owner).
Proof.
  intros Hid. unfold NodeRepository_MarkStoredIfOwner. apply (Keeps_try _); [|intros r; repeat case_match; auto with keeps].
  apply (leaves_stmt _). unfold MarkStoredIfOwner. intros d i d' H. destruct (d_nodes d !! id) as [r|] eqn:Hr; [|done].
  destruct (_ && _); [|done]. injection H as _ <-.
  eapply (relocated_advances _ _ _ d id r (stored_row r)); [done|done|by split_and!|done].
Qed.

Lemma Quiet_ReadRange id off len : Quiet (WALRepository_ReadRange id off len).
Proof.
  unfold WALRepository_ReadRange, ListWALChunksByNodeSeqRange, many. destruct (_ || _); [auto with keeps|].
  apply (Keeps_bind _); [quiet_stmt|auto with keeps].
Qed.
Lemma Quiet_Settings : Quiet Settings_Get.
Proof.
  unfold Settings_Get, SettingsRepository_Get. apply (Keeps_try _); [|intros r; repeat case_match; auto with keeps].
  apply Quiet_stmt. unfold GetSettings, one_opt. intros d a d' H. by destruct (d_settings d); simplify_eq.
Qed.
Lemma Quiet_Channels : Quiet ChannelRepository_List.
Proof. unfold ChannelRepository_List, ListChannels, many. quiet_stmt. Qed.
Hint Resolve Advances_Release Advances_Claim Advances_DeleteWAL Advances_MarkStored Quiet_ReadRange Quiet_Settings Quiet_Channels
  Quiet_Pick Keeps_at_index Quiet_do Quiet_decoded : keeps.

Lemma Quiet_eligible_loop usable chs : Quiet (eligible_loop usable chs).
Proof. induction chs as [|ch chs IH]; cbn [eligible_loop]; unfold channelHasUsableMember; keeps_auto. Qed.
Hint Resolve Quiet_eligible_loop : keeps.
Lemma Quiet_Channel_Pick : Quiet (Channel_PickForUpload bots).
Proof.
  assert (Quiet next_channel) as Hn by by apply (Keeps_same _); intros w r w' [= _ <-].
  unfold Channel_PickForUpload, eligibleChannels. keeps_auto.
Qed.

Lemma Advances_ReleaseLease id : Advances (ReleaseLease_ id).
Proof. unfold ReleaseLease_. keeps_auto. Qed.
Hint Resolve Quiet_Channel_Pick Advances_ReleaseLease : keeps.
Lemma Advances_failTrack t st : Advances (failTrack t st).
Proof. unfold failTrack. keeps_auto. Qed.
Hint Resolve Advances_failTrack : keeps.
Lemma Advances_failJob ts st : Advances (failJob ts st).
Proof. revert st. induction ts as [|t ts IH]; intros st; cbn [failJob]; keeps_auto. Qed.
Lemma Advances_release_pending st : Advances (release_pending st).
Proof. unfold release_pending. keeps_auto. Qed.
Lemma Advances_empty node : n_ID node ≠ fid → Advances (handle_empty leaseOwner node).
Proof.
  intros Hid. pose proof (Advances_DeleteWAL _ Hid). pose proof (Advances_MarkStored _ leaseOwner Hid).
  unfold handle_empty, finalizeEmpty. keeps_auto.
Qed.
Lemma Advances_poll : Advances (poll leaseOwner leaseFor batchLimit).
Proof. unfold poll. keeps_auto. Qed.

Lemma Quiet_Send bot chat name data : Quiet (SendDocument bot chat name data).
Proof. unfold SendDocument. keeps_auto. Qed.
Hint Resolve Quiet_Send : keeps.
Lemma Quiet_upload ch data : Quiet (upload bots error_text ch data).
Proof.
  unfold upload. apply (Keeps_bind _); [auto with keeps|]. intros name. generalize 6%nat (@None error). intros k.
  induction k as [|k IH]; intros e; cbn [upload_loop]; unfold upload_react, IncTelegramReq; keeps_auto.
Qed.

(** A new blob has the id it was given, if it was given one. *)
Lemma Advances_CreateBlob b : b_Refcount b = 0 → (∀ i, (b_ID b ≠ uuid_Nil → i = b_ID b) → N i (b_ContentHash b)) →
  Advances (blobRepository_Create b).
Proof.
  intros H0 HN. unfold blobRepository_Create.
  assert (∀ i t, N i (b_ContentHash b) → Advances (stmt (CreateBlob (mkBlob i (b_ChannelID b) (b_MessageID b) (b_MessageSeq b)
    (b_Size b) (b_ContentHash b) (b_State b) (b_Refcount b) t (b_SealedAt b))))) as Hc.
  { intros i t Hi. apply (leaves_stmt _). unfold CreateBlob. intros d u d' H.
    case_bool_decide as Hn; [done|]. destruct (negb _); [done|]. injection H as _ <-.
    apply (created_advances _ _ _ (mkBlob _ _ _ _ _ _ _ _ _ _)); simpl; [by apply eq_None_not_Some|lia|done]. }
  assert (∀ i, (b_ID b ≠ uuid_Nil → i = b_ID b) → Advances (let! created := or_now (b_CreatedAt b) in
    let b' := mkBlob i (b_ChannelID b) (b_MessageID b) (b_MessageSeq b) (b_Size b) (b_ContentHash b) (b_State b) (b_Refcount b)
      created (b_SealedAt b) in do! translate (stmt (CreateBlob b')) in ret b')) as Hk by (intros i Hi; pose proof (λ t, Hc i t (HN i Hi)); keeps_auto).
  unfold or_new. destruct (N.eqb_spec (b_ID b) uuid_Nil) as [Hnil|Hid].
  - apply (Keeps_bind _); [auto with keeps|]. intros i. apply Hk. congruence.
  - intros w r w' H. by eapply (Hk (b_ID b)).
Qed.
Lemma Advances_persist j ch bot r : (∀ i, (jb_blobID j ≠ uuid_Nil → i = jb_blobID j) → N i (sha256 (jb_data j))) →
  Advances (persistBlob j ch bot r).
Proof.
  intros HN. unfold persistBlob, persist_tx. keeps_auto; [|by apply Advances_CreateBlob].
  apply Keeps_spares_advances. spares.
Qed.

(** ** The steps of the packer *)

(** A finalization does not touch the cache. *)
Lemma finalize_culled tr w r w' : finalize leaseOwner tr w = (r, w') → culled w w'.
Proof.
  intros H. assert (Keeps (leaves whatever) (finalize leaseOwner tr)) as Hk; [|by apply Hk in H as [_ _ ?]].
  unfold finalize, finalize_tx, NodeRepository_MarkStoredIfOwner, store_extents, extentRepository_CreateBatch,
    blobRepository_AddRefcounts, WALRepository_DeleteByNode. keeps_auto.
Qed.

(** The track [t] was the file's: it is stored. *)
Definition settles (st : packState) (t : nat) (w w' : World) : Prop := ∃ tr r es,
  ps_tracks st !! t = Some tr ∧ n_ID (tr_node tr) = fid
  ∧ d_nodes (w_db w) !! fid = Some r ∧ n_State (nr_node r) = NodeStateBuffered
  ∧ Forall2 same_extent (tr_extents tr) es ∧ (∀ e, e ∈ es → e_NodeID e = fid)
  ∧ packed fid r es (w_db w) (w_db w') ∧ culled w w' ∧ w_tx w' = None.

(** A finalization of a track whose blobs have all been stored. *)
Lemma finalize_effect c t x w' : pack_ok c → t ∈ cf_ready c → w_tx (cf_world c) = None →
  finalize_ptr leaseOwner (cf_st c) t (cf_world c) = (x, w') →
  leaves (advances fid fu N) (cf_world c) w' ∨ settles (cf_st c) t (cf_world c) w'.
Proof.
  intros Hok Ht Htx H. destruct (ready_landed c t Hok Ht) as (tr & Htr & _ & _ & He).
  unfold finalize_ptr in H. rewrite Htr in H.
  destruct (finalize_run leaseOwner tr _ Htx) as (w1 & Hrun & Htx1 & Hdb). rewrite Hrun in H. injection H as _ <-.
  apply finalize_culled in Hrun as Hcu.
  assert (∀ R : relation Db, R (w_db (cf_world c)) (w_db w1) → leaves R (cf_world c) w1) as Hlv
    by (intros R HR; split; [done|by rewrite Htx, Htx1|done]).
  destruct Hdb as [Heq|(r & es & Hr & Hb & _ & Hall & Hpk)]; [left; apply Hlv; by rewrite Heq|].
  assert (∀ e, e ∈ es → e_NodeID e = n_ID (tr_node tr)) as Hes by (eapply same_extent_node; [exact Hall|]; intros e Hin; by apply He).
  destruct (decide (n_ID (tr_node tr) = fid)) as [Hid|Hid].
  - right. exists tr, r, es. by rewrite <- Hid.
  - left. apply Hlv. by eapply packed_advances.
Qed.

(** Follow the world through the premises of a step. *)
Ltac follow :=
  lazymatch goal with
  | |- leaves _ ?w ?w => reflexivity
  | H : ?m ?w = (_, ?w1) |- leaves ?R ?w _ =>
      transitivity w1; [refine ((_ : Keeps (leaves R) m) w _ w1 H); by eauto with keeps|clear H; follow]
  end.

Hint Resolve Advances_failJob Advances_release_pending Advances_empty Advances_poll Quiet_upload Advances_persist : keeps.

Lemma pact_effect c c' : pact bots error_text leaseOwner c c' → pack_ok c → w_tx (cf_world c) = None →
  (∀ j, cf_up c ≡ₚ j :: cf_up c' → ∀ i, (jb_blobID j ≠ uuid_Nil → i = jb_blobID j) → N i (sha256 (jb_data j))) →
  leaves (advances fid fu N) (cf_world c) (cf_world c')
  ∨ ∃ t, t ∈ cf_ready c ∧ cf_st c' = cf_st c ∧ settles (cf_st c) t (cf_world c) (cf_world c').
Proof.
  intros H Hok Htx HN. destruct H as [| | | | | | | | | | |w st up1 up2 rd la ph j res bot w1 w' ready st' Hu Hp Hl| |w st up rd1 rd2 la ph t w' x Hf];
    cbn [cf_world cf_st cf_ready cf_up] in *.
  all: try (left; follow).
  - assert (∀ i, (jb_blobID j ≠ uuid_Nil → i = jb_blobID j) → N i (sha256 (jb_data j))) by (apply HN; symmetry; apply Permutation_middle). left. follow.
  - destruct (finalize_effect (mkCfg w st up (rd1 ++ t :: rd2) la ph) t x w' Hok) as [?|?]; [|done|done|by left|right].
    { cbn. apply elem_of_app. right. by left. }
    exists t. split; [set_solver|done].
Qed.

Lemma rstep_effect c c' : rstep bots error_text leaseOwner leaseFor batchLimit c c' → run_ok c → w_tx (r_world c) = None →
  (∀ j, busy (r_workers c) ≡ₚ j :: busy (r_workers c') → ∀ i, (jb_blobID j ≠ uuid_Nil → i = jb_blobID j) → N i (sha256 (jb_data j))) →
  (∀ bm node rest, r_mode c = Batch bm (node :: rest) → n_Size node = 0 → n_ID node ≠ fid) →
  leaves (advances fid fu N) (r_world c) (r_world c')
  ∨ ∃ t, t ∈ (r_bready c ++ finals (r_workers c))%list ∧ r_st c' = r_st c ∧ settles (r_st c) t (r_world c) (r_world c').
Proof.
  intros H [[Hok _] _ _ _] Htx HN He. unfold erase in Hok.
  assert (∀ t x w', t ∈ (r_bready c ++ finals (r_workers c))%list → finalize_ptr leaseOwner (r_st c) t (r_world c) = (x, w') →
    leaves (advances fid fu N) (r_world c) w'
    ∨ ∃ t, t ∈ (r_bready c ++ finals (r_workers c))%list ∧ r_st c = r_st c ∧ settles (r_st c) t (r_world c) w') as Hfin.
  { intros t x w' Ht Hf. destruct (finalize_effect (mkCfg _ _ _ _ _ _) t x w' Hok Ht Htx Hf); [by left|right; by exists t]. }
  step_cases H; cbn [r_world r_st r_workers r_mode r_phase r_bready r_hist r_final r_cancelled] in *.
  all: try (left; follow).
  - by apply (pact_effect _ _ Hp Hok).
  - eapply Hfin; [by left|exact Hf].
  - left. transitivity w'; [|by apply frame_mem]. rewrite !busy_at in HN.
    assert (∀ i, (jb_blobID j ≠ uuid_Nil → i = jb_blobID j) → N i (sha256 (jb_data j))) by (apply HN; symmetry; apply Permutation_middle). follow.
  - left. rewrite !busy_at in HN.
    assert (∀ i, (jb_blobID j ≠ uuid_Nil → i = jb_blobID j) → N i (sha256 (jb_data j))) by (apply HN; symmetry; apply Permutation_middle).
    destruct Hf0 as [(e & Hu)|(res & bot & w0 & e & Hu & Hp)]; follow.
  - eapply Hfin; [|exact Hf]. rewrite finals_at. cbn. set_solver.
Qed.

End packer.

(** For every file. *)
Section improvement.
Context {E : Env} {C : Aead} {A : BotAPI} (bots : BotRepository) (error_text : error → string) (leaseOwner : string).
Context (leaseFor batchLimit : Z).

Lemma settles_improves fid st t w w' : w_tx w = None → settles fid st t w w' → leaves improves w w'.
Proof.
  intros Htx (tr & r & es & _ & _ & Hr & Hst & _ & Hes & Hpk & Hcu & Htx'). split; [by eapply packed_improves|congruence|done].
Qed.

Lemma rstep_improves c c' : rstep bots error_text leaseOwner leaseFor batchLimit c c' → run_ok c → w_tx (r_world c) = None →
  leaves improves (r_world c) (r_world c').
Proof.
  intros H Hok Htx. pose (other := match r_mode c with Batch _ (node :: _) => (n_ID node + 1)%N | _ => 0%N end).
  destruct (rstep_effect bots error_text leaseOwner leaseFor batchLimit other 0 (λ _ _, True) c c' H Hok Htx) as [[Hd Ht Hc]|(t & _ & _ & Hs)].
  - done.
  - intros bm node rest Hm _. unfold other. rewrite Hm. lia.
  - split; [intros Hf; by apply Hd|done|done].
  - by eapply settles_improves.
Qed.

End improvement.

(** ** Tasks *)

Section tasks.
Context {E : Env} {C : Aead} {A : BotAPI} {K : Kdf} {R : RateLib} {O : Oapi} {D : BodyDecoder}.
Context (redirect : string → apiReq → apiResp) (bots : BotRepository).

(** What the operation a request asks for keeps, the endpoint keeps. *)
Lemma management_keeps (Rel : relation Db) `{!Tolerates Rel} r : (∀ d d', spares d d' → Rel d d') →
  (∀ op, operation_of r = Some (Some op) → Keeps (leaves Rel) (perform bots op)) →
  Keeps (leaves Rel) (ManagementHandler bots redirect r).
Proof.
  intros Hsp Hop. assert (Keeps (leaves Rel) (mux_ServeHTTP redirect (management_mux bots) r)) as Hmux.
  { destruct (mux_cases bots redirect r) as [([op|] & Hp & _ & ->)|[x ->]]; cbn [run_op]; auto with keeps. }
  assert (Keeps (leaves Rel) (authenticateAdmin (rq_Authorization r))) as Hadm by by apply (leaves_sub _ spares), Spares_admin.
  unfold ManagementHandler, AdminAuth. keeps_auto.
Qed.

Section one_file.
Context (fid fu : uuid) (N : uuid → bytes → Prop).
Notation Advances := (Keeps (leaves (advances fid fu N))).
Hint Resolve Keeps_spares_advances | 8 : keeps.

Lemma DeleteUser_advances v d n d' : v ≠ fu → DeleteUser v d = SqlOk n d' → advances fid fu N d d'.
Proof.
  intros Hv H. apply (users_advances _ _ _ (λ x, x = v)); [congruence| |by eapply DeleteUser_spares].
  unfold DeleteUser in H. destruct (d_users d !! v); injection H as _ <-; [|by intros ?]. intros Hf.
  apply (spares_improves (delete_nodes (dom (filter (λ kv : uuid * NodeRow, n_UserID (nr_node kv.2) = v) (d_nodes d))) d)); [by split|].
  by apply deleted_improves.
Qed.

Lemma Advances_perform op : op ≠ OpDeleteUser fu → Advances (perform bots op).
Proof.
  intros Hop. destruct op; try by (apply Keeps_spares_advances, Spares_perform; intros ?).
  assert (Advances (UserRepository_Delete id)) as Hdel.
  { apply (Keeps_need_row _), (Keeps_translate _), (leaves_stmt _). intros d n d'. apply DeleteUser_advances. congruence. }
  cbn [perform]. unfold DeleteUser_, respond, User_Delete. keeps_auto.
Qed.

Lemma Advances_management r : operation_of r ≠ Some (Some (OpDeleteUser fu)) → Advances (ManagementHandler bots redirect r).
Proof.
  intros Hr. apply (management_keeps (advances fid fu N)); [apply spares_advances|].
  intros op Hop. apply Advances_perform. congruence.
Qed.

Lemma Advances_reap : Advances (reap bots).
Proof.
  unfold reap. apply (Keeps_try _).
  - apply (leaves_quiet _). unfold blobRepository_ListCollectable. apply (Keeps_translate _), Quiet_query.
    intros t _ d l d' H. unfold ListCollectableBlobs, many in H. by injection H as _ <-.
  - intros [l|e]; [|auto with keeps]. apply (leaves_sub _ (reaped (b_ID <$> l))); [intros d d'; apply reaped_advances|].
    apply reap_loop_reaps. intros b Hb. apply list_elem_of_fmap. by exists b.
Qed.

Lemma Advances_maintenance t : Advances (maintenance_turn bots t).
Proof.
  destruct t; cbn [maintenance_turn]; [apply Advances_reap|apply Keeps_spares_advances, Spares_evict|].
  apply Keeps_spares_advances. pose proof (Spares_Refresh bots). keeps_auto.
Qed.

Lemma Advances_flush : Advances (flush server_gauges).
Proof.
  apply Keeps_spares_advances, Spares_flush. unfold server_gauges, cache_Stats, blobRepository_Count.
  constructor; [|constructor; [|constructor]]; cbn [snd]; spares.
Qed.

End one_file.

(** For every file. *)
Lemma Improves_management r : Improves (ManagementHandler bots redirect r).
Proof.
  assert (∃ u, operation_of r ≠ Some (Some (OpDeleteUser u))) as [u Hu].
  { destruct (operation_of r) as [[op|]|]; try by exists 0%N. destruct op; try by exists 0%N. exists (id + 1)%N. intros [= Hid]. lia. }
  by apply (advances_improves 0 u (λ _ _, True)), Advances_management.
Qed.
Lemma Improves_maintenance t : Improves (maintenance_turn bots t).
Proof. apply (advances_improves 0 0 (λ _ _, True)), Advances_maintenance. Qed.
Lemma Improves_flush : Improves (flush server_gauges).
Proof. apply (advances_improves 0 0 (λ _ _, True)), Advances_flush. Qed.

End tasks.

(** ** The whole *)

(** The tables are fine, and no transaction is open between two steps. *)
Definition safe (w : World) : Prop := fine (w_db w) ∧ w_tx w = None.

Lemma safe_leaves w w' : leaves improves w w' → safe w → safe w'.
Proof. intros [Hd Ht] [Hf Hn]. split; [by apply Hd|by apply (same_tx_None w w')]. Qed.

Section whole.
Context {E : Env} {C : Aead} {A : BotAPI} {K : Kdf} {R : RateLib} {W : WebLib} {O : Oapi} {D : BodyDecoder}.
Context (redirect : string → apiReq → apiResp) (error_text : error → string) (config : serverConfig).
Context {L : WebLaws (B := blobReader config)}.

Lemma AuthenticateBasic_both username pw w p w' : AuthenticateBasic username pw w = (Ok p, w') →
  ∃ t a, p = mkPrincipal (Some t) (Some a).
Proof.
  unfold AuthenticateBasic, authenticateImpersonation. destruct (Cut _ username) as [[l target] []].
  - intros (a & w1 & _ & H)%bind_Ok. destruct (negb (u_IsAdmin a)); [done|]. rewrite try_run in H.
    destruct (UserRepository_GetByLogin target w1) as [[t|e] w2]; cbn in H; [|by destruct (errors_Is e ErrNotFound)].
    injection H as <- _. by eexists _, _.
  - intros (u & w1 & _ & H)%bind_Ok. injection H as <- _. by eexists _, _.
Qed.

Lemma WebDAV_safe r w x w' : uuids_ok → safe w → WebDAVHandler r w = (x, w') → safe w'.
Proof.
  intros Huu Hs. unfold WebDAVHandler, Recoverer. rewrite try_run.
  destruct (BasicAuth (rateLimit (router r)) r w) as [y w1] eqn:Hb. cbn [fst snd]. intros H.
  assert (w' = w1) as -> by by destruct y; injection H. clear H. unfold BasicAuth in Hb.
  destruct (BasicCredentials _) as [[username pw]|]; [|by injection Hb as _ <-].
  rewrite try_run in Hb. destruct (AuthenticateBasic username pw w) as [p w2] eqn:Ha. cbn [fst snd] in Hb.
  pose proof (Keeps_spares _ (Spares_Basic username pw) _ _ _ Ha) as H2. apply (safe_leaves _ _ H2) in Hs. destruct p as [p|e].
  - apply AuthenticateBasic_both in Ha as (t & a & ->). destruct Hs as [Hf Ht].
    apply (rateLimit_touches (B := blobReader config)) in Hb as [Hc Ht']; [|done|apply (fi_tree _ Hf)|done].
    split; [|done]. by apply (touched_improves _ _ _ Hc).
  - assert (w1 = w2) as -> by (repeat case_match; by injection Hb). done.
Qed.

Lemma handle_safe t w x w' : uuids_ok → safe w → handle redirect config t w = (x, w') → safe w'.
Proof.
  intros Huu Hs H. destruct t; cbn [handle] in H.
  - rewrite try_run in H. destruct (WebDAVHandler r w) as [y w1] eqn:Hd. injection H as _ <-. by eapply WebDAV_safe.
  - eapply safe_leaves, Hs. revert H. apply (Keeps_try _); [apply Improves_management|auto with keeps].
  - eapply safe_leaves, Hs. by eapply Improves_maintenance.
  - eapply safe_leaves, Hs. by eapply Improves_flush.
  - eapply safe_leaves, Hs. by eapply (Keeps_spares _ Spares_sweep).
  - eapply safe_leaves, Hs. by eapply (leaves_janitor improves).
Qed.

(** What a start keeps. *)
Lemma Run_keeps (Rel : relation Db) `{!Tolerates Rel} n : Keeps (leaves Rel) (Run (botRepo config) n).
Proof.
  assert (Keeps (leaves Rel) (BotRepository_List (botRepo config))) as Hb by apply (leaves_quiet _), Quiet_Bots.
  unfold Run, workerCount, Bot_List. keeps_auto. by apply (Keeps_same _); intros w x w' [= _ <-].
Qed.

Lemma runServer_keeps (Rel : relation Db) `{!Tolerates Rel} : (∀ d d', spares d d' → Rel d d') →
  Keeps (leaves Rel) (runServer config).
Proof.
  intros Hsp. pose proof (leaves_New Rel (CacheSize config) (60 * Minute)). pose proof (λ n, Run_keeps Rel n).
  assert (∀ X (m : M X), Keeps (leaves spares) m → Keeps (leaves Rel) m) as Hs by (intros X m; apply (leaves_sub Rel spares); exact Hsp).
  pose proof (Hs _ _ (Spares_reevaluate (botRepo config))). pose proof (Hs _ _ (Spares_bootstrap (FirstUser config))).
  unfold runServer, NewPacker. keeps_auto.
Qed.
Lemma Improves_runServer : Improves (runServer config).
Proof. apply (runServer_keeps improves), spares_improves. Qed.

Lemma runServer_Ok w p c w' : runServer config w = (Ok (p, c), w') → r_world c = w' ∧ run_ok c.
Proof.
  unfold runServer. intros (u & w1 & _ & H)%bind_Ok. rewrite try_run in H.
  apply bind_Ok in H as (v & w2 & _ & H). apply bind_Ok in H as (q & w3 & _ & H).
  apply bind_Ok in H as (c0 & w4 & Hrun & H). injection H as <- <- <-. split; [|by eapply Run_ok].
  unfold Run in Hrun. apply bind_Ok in Hrun as (n & w5 & _ & Hrun). by injection Hrun as <- <-.
Qed.

(** What holds of the server in every state. *)
Definition server_ok (s : server) : Prop :=
  safe (world_of s) ∧ match s with Down _ => True | Up _ c => run_ok c end.

Lemma sstep_ok s s' : uuids_ok → sstep redirect error_text config s s' → server_ok s → server_ok s'.
Proof.
  intros Huu Hstep [Hs Hr]. destruct Hstep as [w n p c w' H|w n e w' H|p c c' H|p c c' H Hw|p c t x w' H|p c]; cbn [world_of] in *.
  - assert (safe (fresh_memory n w)) as Hf by by destruct Hs.
    apply runServer_Ok in H as Hc. destruct Hc as [Hc Hok]. split; [|done]. cbn. rewrite Hc.
    eapply safe_leaves; [by eapply Improves_runServer|done].
  - assert (safe (fresh_memory n w)) as Hf by by destruct Hs. split; [|done].
    eapply safe_leaves; [by eapply Improves_runServer|done].
  - split; [|by eapply rstep_ok]. eapply safe_leaves; [|exact Hs]. eapply rstep_improves; [exact H|done|apply Hs].
  - split; [by rewrite <- Hw in Hs|by eapply env_ok].
  - split; [by eapply handle_safe|]. eapply env_ok; [|exact Hr]. destruct c. apply EOther.
  - done.
Qed.

Lemma server_invariant s s' : uuids_ok → rtc (sstep redirect error_text config) s s' → server_ok s → server_ok s'.
Proof. intros Huu. induction 1 as [|s s1 s2 Hs _ IH]; [done|]. intros Hok. apply IH. by eapply sstep_ok. Qed.

End whole.
