(* ===== verification/EndureSteps.v ===== *)
(** * One file under the steps of the packer

    The blobs that are being stored and those that have landed keep apart
    ([blobs_ok]); what the builder has read of a file that is still buffered is a
    prefix of it, and the whole of it once its track is planned ([packing]). *)
From Stdlib Require Import ZArith Lia Strings.Byte Strings.String.
From stdpp Require Import base tactics list gmap sets sorting strings relations.
From S2P Require Import Prelude Model Sql SqlFacts World Keeps Repository Crypto Text Password Accounts Identity Limiter.
From S2P Require Import Path FileSystem File WebDav Tree FsFacts WalFacts WriteFacts ReadFacts CopyFacts Tenants Requests.
From S2P Require Import Cache CacheKeeps CacheFacts Telegram Config BlobReader BlobFacts LossFacts WebFacts FinalizeFacts.
From S2P Require Import Bots BotsFacts Maintenance Management Server ServerFacts SparesFacts SafeFacts EndureFacts.
From S2P Require Import Packer PackerFacts Run RunFacts System SystemFacts.
#[local] Open Scope string_scope.
#[local] Open Scope Z_scope.
Open Scope m_scope.

(** ** Jobs *)

(** The jobs queued or in hand. *)
Definition jobs_of (c : rcfg) : list blobJob := (ps_jobs (r_st c) ++ busy (r_workers c))%list.
Definition ids_of (c : rcfg) : list uuid := ((jb_blobID <$> jobs_of c) ++ (fst <$> h_landed (r_hist c)))%list.

Lemma NoDup_fmap_inj {A B} (f : A → B) l x y : NoDup (f <$> l) → x ∈ l → y ∈ l → f x = f y → x = y.
Proof.
  intros Hnd [i Hi]%list_elem_of_lookup [j Hj]%list_elem_of_lookup Hf.
  assert (i = j) as ->; [|congruence]. eapply NoDup_lookup; [exact Hnd|..]; rewrite list_lookup_fmap; [by rewrite Hi|by rewrite Hj, Hf].
Qed.

Section blobs.
Context {E : Env} {A : BotAPI}.

Record blobs_ok (c : rcfg) : Prop := {
  bo_ids : NoDup (ids_of c);
  bo_jobs : ∀ j, j ∈ jobs_of c → unborn (jb_blobID j) (r_world c) ∧ sole (jb_data j);
  bo_landed : ∀ b bs, (b, bs) ∈ h_landed (r_hist c) → holds b bs (r_world c) }.

(** A job that is sent carries a blob of its own, and bytes of their own hash. *)
Definition mints (c c' : rcfg) : Prop := ∀ j, ps_jobs (r_st c') = (ps_jobs (r_st c) ++ [j])%list →
  unborn (jb_blobID j) (r_world c) ∧ sole (jb_data j) ∧ jb_blobID j ∉ ids_of c.

(** The blob whose job the step ends. *)
Definition ended (c c' : rcfg) (b : uuid) (h : bytes) : Prop :=
  ∃ j, busy (r_workers c) ≡ₚ j :: busy (r_workers c') ∧ b = jb_blobID j ∧ h = sha256 (jb_data j).

(** What a step does to the jobs: nothing, or one is sent, or one ends, stored or not. *)
Inductive jobs_step (c c' : rcfg) : Prop :=
  | JSame : jobs_of c' ≡ₚ jobs_of c → (length (busy (r_workers c)) ≤ length (busy (r_workers c')))%nat →
      h_landed (r_hist c') = h_landed (r_hist c) → jobs_step c c'
  | JSent j : ps_jobs (r_st c') = (ps_jobs (r_st c) ++ [j])%list → busy (r_workers c') = busy (r_workers c) →
      h_landed (r_hist c') = h_landed (r_hist c) → jobs_step c c'
  | JDone j : busy (r_workers c) ≡ₚ j :: busy (r_workers c') → ps_jobs (r_st c') = ps_jobs (r_st c) →
      h_landed (r_hist c') = h_landed (r_hist c) ∨ h_landed (r_hist c') = (jb_blobID j, jb_data j) :: h_landed (r_hist c) → jobs_step c c'.

Lemma blobs_step c c' : jobs_step c c' → mints c c' → keeps_blobs (ended c c') (r_world c) (r_world c') → blobs_ok c → blobs_ok c'.
Proof.
  intros Hj Hm Hk [Hnd Hjb Hla]. pose proof Hnd as (Hnj & Hsep & _)%NoDup_app.
  assert (∀ j, busy (r_workers c) ≡ₚ j :: busy (r_workers c') → j ∈ jobs_of c) as Hend
    by (intros j Hp; unfold jobs_of; rewrite Hp; set_solver).
  assert (∀ b bs, (b, bs) ∈ h_landed (r_hist c) → holds b bs (r_world c')) as Hla'.
  { intros b bs Hb. eapply holds_keeps; [|exact Hk|by apply Hla]. intros h (j & Hp & -> & ->).
    destruct (Hsep (jb_blobID j)); [by apply list_elem_of_fmap_2, Hend|]. by apply (list_elem_of_fmap_2 fst _ (jb_blobID j, bs)). }
  assert (∀ b, unborn b (r_world c) → (∀ j, busy (r_workers c) ≡ₚ j :: busy (r_workers c') → b ≠ jb_blobID j) → unborn b (r_world c')) as Hun.
  { intros b Hb Hne. eapply unborn_keeps; [|exact Hk|exact Hb]. intros h (j & Hp & Heq & _). by eapply Hne. }
  assert (∀ j, ¬ (length (busy (r_workers c)) ≤ length (busy (r_workers c')))%nat ∨ ¬ busy (r_workers c) ≡ₚ j :: busy (r_workers c')) as Hlen.
  { intros j. destruct (decide (length (busy (r_workers c)) ≤ length (busy (r_workers c')))%nat); [right|by left].
    intros Hp%Permutation_length. simpl in Hp. lia. }
  destruct Hj as [Hp Hl Hh|j Hs Hb Hh|j Hp Hs Hh].
  - split; unfold ids_of in *; rewrite ?Hh; [by rewrite Hp| |done]. intros j Hj. rewrite Hp in Hj. destruct (Hjb j Hj) as [Hu ?].
    split; [|done]. apply Hun; [done|]. intros j' Hp'. by destruct (Hlen j').
  - destruct (Hm j Hs) as (Hu & Hso & Hni).
    assert (jobs_of c' ≡ₚ j :: jobs_of c) as Hp by (unfold jobs_of; rewrite Hs, Hb, <- app_assoc; symmetry; apply Permutation_middle).
    split; unfold ids_of in *; rewrite ?Hh; [rewrite Hp; by apply NoDup_cons| |done].
    intros j' Hj'. rewrite Hp in Hj'. assert (unborn (jb_blobID j') (r_world c) ∧ sole (jb_data j')) as [Hu' ?]
      by (apply elem_of_cons in Hj' as [->|Hj']; auto). split; [|done]. apply Hun; [done|]. intros j2 Hp2.
    destruct (Hlen j2) as [[]|?]; [by rewrite Hb|done].
  - assert (jobs_of c ≡ₚ j :: jobs_of c') as Hjs by (unfold jobs_of; rewrite Hs, Hp; symmetry; apply Permutation_middle).
    assert (NoDup ((jb_blobID <$> j :: jobs_of c') ++ (fst <$> h_landed (r_hist c)))%list) as Hnd' by by rewrite <- Hjs.
    destruct (Hjb j) as [Huj Hsj]; [by apply Hend|].
    assert (∀ j2, busy (r_workers c) ≡ₚ j2 :: busy (r_workers c') → j2 = j) as Hj2.
    { intros j2 Hp2. rewrite Hp in Hp2. assert (j ∈ j2 :: busy (r_workers c')) as Hin by (rewrite <- Hp2; by left).
      apply elem_of_cons in Hin as [|Hin]; [done|]. exfalso. apply NoDup_app in Hnd' as ([Hni _]%NoDup_cons & _).
      apply Hni, list_elem_of_fmap_2. unfold jobs_of. set_solver. }
    assert (holds (jb_blobID j) (jb_data j) (r_world c')) as Hhold.
    { eapply holds_keeps; [|exact Hk|by apply unborn_holds]. by intros h (j2 & ->%Hj2 & _ & ->). }
    split; unfold ids_of.
    + apply NoDup_cons in Hnd' as [Hni Hnd']. destruct Hh as [->| ->]; [done|]. rewrite fmap_cons, <- Permutation_middle.
      by apply NoDup_cons.
    + intros j' Hj'. destruct (Hjb j') as [Hu ?]; [rewrite Hjs; by right|]. split; [|done]. apply Hun; [done|].
      intros j2 ->%Hj2 Heq. apply NoDup_app in Hnd' as ([Hni _]%NoDup_cons & _). apply Hni. rewrite <- Heq. by apply list_elem_of_fmap_2.
    + destruct Hh as [->| ->]; [done|]. intros b bs [[= -> ->]|?]%elem_of_cons; [done|by apply Hla'].
Qed.

End blobs.

(** ** What the steps do to the jobs *)

Section steps.
Context {E : Env} {C : Aead} {A : BotAPI} (bots : BotRepository) (error_text : error → string) (leaseOwner : string).
Context (leaseFor batchLimit : Z).
Notation rstep := (rstep bots error_text leaseOwner leaseFor batchLimit).
Notation pact := (pact bots error_text leaseOwner).

Lemma failTrack_jobs t st w st' w' : failTrack t st w = (Ok st', w') → ps_jobs st' = ps_jobs st.
Proof. by intros ->%failTrack_run. Qed.

(** The builder's own steps of [pact]: the workers are where they were. *)
Inductive built : cfg → cfg → Prop :=
  | BSame c c' : ps_jobs (cf_st c') = ps_jobs (cf_st c) → h_landed (cf_hist c') = h_landed (cf_hist c) → built c c'
  | BSent c c' j : ps_jobs (cf_st c') = (ps_jobs (cf_st c) ++ [j])%list → h_landed (cf_hist c') = h_landed (cf_hist c) → built c c'.

Lemma pact_built c c' : pact c c' → cf_up c' = cf_up c → built c c'.
Proof.
  destruct 1 as
    [ w st up rd la node bm ch w' u st' _ Hn | w st up rd la node e w1 w' u st1 st' _ Hn Hf
    | w st up rd la u node ch bm off seq data b x w1 w2 w' _ Hr Hb Hx
    | w st up rd la u node ch bm off seq e w1 st' w' _ _ Hf
    | w st up rd la u node ch bm off seq st' _ ->
    | w st up rd la node bm data w' u st' _ Hn | w st up rd la u data bm Ho
    | w st up rd la ph ch b ids w1 w2 w' d st' Hph _ _ _ Hids Hseal
    | w st up rd la ph e w1 w' Hph _ _ | w st up rd la pending ph st' ->
    | w st up rd la ph j rest Hj | w st up1 up2 rd la ph j r bot w1 w' ready st' _ _ Hl
    | w st up1 up2 rd la ph j st' w' Hf | w st up rd1 rd2 la ph u w' x _ ];
    cbn [cf_up]; intros Hup; try (by apply BSame).
  - injection Hn as <- <-. by apply BSame.
  - apply failTrack_jobs in Hf. injection Hn as <- <-. by apply BSame.
  - by eapply BSent.
  - apply failTrack_jobs in Hf. by apply BSame.
  - injection Hn as <- <-. by apply BSame.
  - destruct (seal_segs_length _ _ _ _ _ _ _ Hseal) as [_ Hj]. eapply BSent; [|done]. cbn. by rewrite Hj.
  - destruct (upd_all_same set_planned pending st) as (Hj & _). by apply BSame.
  - apply (f_equal length) in Hup. simpl in Hup. lia.
  - apply (f_equal length) in Hup. rewrite !length_app in Hup. simpl in Hup. lia.
  - apply (f_equal length) in Hup. rewrite !length_app in Hup. simpl in Hup. lia.
Qed.

Lemma jobs_same c c' : ps_jobs (r_st c') = ps_jobs (r_st c) → busy (r_workers c') = busy (r_workers c) →
  h_landed (r_hist c') = h_landed (r_hist c) → jobs_step c c'.
Proof. intros Hj Hb Hh. apply JSame; [unfold jobs_of; by rewrite Hj, Hb|by rewrite Hb|done]. Qed.

Lemma rstep_jobs c c' : rstep c c' → jobs_step c c'.
Proof.
  intros H. step_cases H; try (by apply jobs_same).
  - injection Hn as <- <-. by apply jobs_same.
  - apply failTrack_jobs in Hf. injection Hn as <- <-. by apply jobs_same.
  - injection Hn as <- <-. by apply jobs_same.
  - apply pact_built in Hp; [|done]. inversion Hp as [? ? Hj Hh|? ? j Hj Hh]; subst; [by apply jobs_same|by eapply JSent].
  - destruct (seal_segs_length _ _ _ _ _ _ _ Hs) as [_ Hj]. eapply JSent; [|done..]. cbn. by rewrite Hj.
  - destruct (upd_all_same set_planned pending st) as (Hj & _). by apply jobs_same.
  - apply JSame; unfold jobs_of; cbn [r_st r_workers r_hist ps_jobs set_jobs]; rewrite ?Hj, ?busy_at; cbn [busy_of]; [|simpl; rewrite !length_app; simpl; lia|done].
    simpl. rewrite <- !Permutation_middle. done.
  - destruct (landed_same _ _ _ _ Hl) as (Hj & _). apply (JDone _ _ j); cbn [r_st r_workers r_hist h_landed note_landed]; [|done|by right].
    rewrite !busy_at. cbn. symmetry. apply Permutation_middle.
  - destruct (failJob_same _ _ _ _ _ Hf) as (Hj & _). apply (JDone _ _ j); cbn [r_st r_workers r_hist h_landed]; [|done|by left].
    rewrite !busy_at. cbn. symmetry. apply Permutation_middle.
  - destruct (upd_all_same set_failed (jb_tracks j) st) as (Hj & _). apply (JDone _ _ j); cbn [r_st r_workers r_hist h_landed]; [|done|by left].
    rewrite !busy_at. cbn. symmetry. apply Permutation_middle.
  - apply jobs_same; [done| |done]. cbn. by rewrite !busy_at.
  - apply jobs_same; [done| |done]. cbn. by rewrite !busy_at.
  - apply jobs_same; [done| |done]. cbn. by rewrite !busy_at.
  - apply jobs_same; [done| |done]. cbn. by rewrite !busy_at.
Qed.

End steps.

(** ** What the builder has read of the file *)

(** The tracks are the same ones, and none that failed is mended. *)
Definition evolved (T T' : gmap nat track) : Prop := ∀ t, match T !! t, T' !! t with
  | Some tr, Some tr' => tr_node tr' = tr_node tr ∧ (tr_failed tr' = false → tr_failed tr = false)
  | None, None => True
  | _, _ => False end.

#[global] Instance evolved_preorder : PreOrder evolved.
Proof.
  split; [intros T t; by destruct (T !! t)|]. intros T1 T2 T3 H1 H2 t. specialize (H1 t). specialize (H2 t).
  destruct (T1 !! t), (T2 !! t), (T3 !! t); try done. destruct H1 as [N1 F1], H2 as [N2 F2]. split; [congruence|auto].
Qed.

Lemma evolved_alter f t T : (∀ tr, tr_node (f tr) = tr_node tr ∧ (tr_failed (f tr) = false → tr_failed tr = false)) →
  evolved T (alter f t T).
Proof.
  intros Hf u. destruct (decide (u = t)) as [->|Hne].
  - rewrite lookup_alter_eq. destruct (T !! t) as [tr|]; [apply Hf|done].
  - rewrite lookup_alter_ne by done. by destruct (T !! u).
Qed.

Lemma evolved_alters f ts T : (∀ tr, tr_node (f tr) = tr_node tr ∧ (tr_failed (f tr) = false → tr_failed tr = false)) →
  evolved T (foldl (λ T t, alter f t T) T ts).
Proof. intros Hf. revert T. induction ts as [|t ts IH]; intros T; [done|]. etrans; [by apply (evolved_alter f t)|apply IH]. Qed.

Lemma evolved_seal blobID ids segs st d st' : seal_segs blobID ids segs [] st = (d, st') → length ids = length segs →
  evolved (ps_tracks st) (ps_tracks st').
Proof.
  intros H Hl t. destruct (seal_segs_spec _ _ _ _ _ _ _ H Hl ltac:(constructor)) as (_ & _ & _ & Htr). specialize (Htr t).
  destruct (ps_tracks st !! t), (ps_tracks st' !! t); try done. destruct Htr as (_ & Hf & Hn & _). split; [done|congruence].
Qed.

Definition splits (ph : phase) (t : nat) : Prop := match ph with Splitting u _ _ _ _ _ => u = t | _ => False end.

Section packing.
Context (fid : uuid) (data : bytes).

(** What has been read of a file is a prefix of it, and all of it unless it is being
    split or was given up. *)
Record packing (T : gmap nat track) (G : gmap nat bytes) (ph : phase) : Prop := {
  pg_split : ∀ t node ch bm off seq, ph = Splitting t node ch bm off seq → ∀ tr, T !! t = Some tr →
    n_ID (tr_node tr) = fid → tr_node tr = node;
  pg_track : ∀ t tr, T !! t = Some tr → n_ID (tr_node tr) = fid → tr_failed tr = false →
    n_Size (tr_node tr) = blen data ∧ (∃ k, got G t = take k data) ∧ (got G t = data ∨ splits ph t) }.

Lemma packing_evolved T T' G ph ph' : evolved T T' → (ph' = ph ∨ ∀ t, ¬ splits ph t ∧ ¬ splits ph' t) →
  packing T G ph → packing T' G ph'.
Proof.
  intros He Hph [Hs Ht]. split.
  - intros t node ch bm off seq ->. destruct Hph as [Hph|Hph]; [|by destruct (Hph t) as [_ []]].
    intros tr' Htr' Hid. specialize (He t). rewrite Htr' in He. destruct (T !! t) as [tr|] eqn:Htr; [|done].
    destruct He as [Hn _]. rewrite Hn in *. by eapply Hs.
  - intros t tr' Htr' Hid Hf. specialize (He t). rewrite Htr' in He. destruct (T !! t) as [tr|] eqn:Htr; [|done].
    destruct He as [Hn Hf']. rewrite Hn in *. destruct (Ht t tr Htr Hid (Hf' Hf)) as (Hsz & Hk & [?|Hsp]); [auto|].
    split_and!; [done|done|right]. destruct Hph as [->|Hph]; [done|]. by destruct (Hph t) as [[] _].
Qed.

(** A track the file has not, or one read in full, or from the start. *)
Lemma packing_new T G t node g ph : T !! t = None → packing T G Idle →
  (∀ u node' ch bm off seq, ph = Splitting u node' ch bm off seq → u = t ∧ node' = node) →
  (n_ID node = fid → n_Size node = blen data ∧ (∃ k, g = take k data) ∧ (g = data ∨ splits ph t)) →
  packing (<[t := mkTrack node 0 false false []]> T) (<[t := g]> G) ph.
Proof.
  intros Hn [_ Ht] Hph Hg. split.
  - intros u node' ch bm off seq Heq. destruct (Hph _ _ _ _ _ _ Heq) as [-> ->]. rewrite lookup_insert_eq. by intros tr [= <-].
  - intros u tr [[<- <-]|[Hne Htr]]%lookup_insert_Some Hid Hf; [rewrite got_eq; by apply Hg|]. rewrite got_ne by done.
    destruct (Ht u tr Htr Hid Hf) as (? & ? & [?|[]]). auto.
Qed.

(** The next piece. *)
Lemma packing_piece T T' G t node ch bm off seq off' seq' piece k : evolved T T' → off = blen (got G t) →
  (n_ID node = fid → n_Size node = blen data → piece = take k (drop (Z.to_nat off) data)) →
  packing T G (Splitting t node ch bm off seq) →
  packing T' (<[t := (got G t ++ piece)%list]> G) (Splitting t node ch bm off' seq').
Proof.
  intros He Hoff Hp Hpk. pose proof (packing_evolved T T' G _ _ He (or_introl eq_refl) Hpk) as [Hs' Ht']. split.
  - intros u node' ch' bm' o s [= <- <- _ _ _ _]. by eapply Hs'.
  - intros u tr' Htr' Hid Hf. destruct (Ht' u tr' Htr' Hid Hf) as (Hsz & (n & Hn) & Hor).
    destruct (decide (t = u)) as [<-|Hne]; [|rewrite got_ne by done; auto]. rewrite got_eq.
    pose proof (Hs' t node ch bm off seq eq_refl tr' Htr' Hid) as Hnode.
    split_and!; [done| |by right]. rewrite Hnode in *. rewrite (Hp Hid Hsz), Hoff.
    exists (length (got G t) + k)%nat. unfold blen. rewrite Nat2Z.id, <- take_take_drop. f_equal.
    rewrite Hn, length_take. destruct (decide (n ≤ length data)%nat); [by rewrite Nat.min_l|].
    rewrite Nat.min_r by lia. by rewrite !take_ge by lia.
Qed.

(** The end of a file that was read to its end. *)
Lemma packing_planned T T' G t node ch bm off seq : evolved T T' → off = blen (got G t) → n_Size node ≤ off →
  packing T G (Splitting t node ch bm off seq) → packing T' G Idle.
Proof.
  intros He Hoff Hle Hpk. pose proof (packing_evolved T T' G _ _ He (or_introl eq_refl) Hpk) as [Hs' Ht']. split; [done|].
  intros u tr' Htr' Hid Hf. destruct (Ht' u tr' Htr' Hid Hf) as (Hsz & (n & Hn) & [?|Hu]);
    [split_and!; [done|by exists n|by left]|simpl in Hu; subst u].
  pose proof (Hs' t node ch bm off seq eq_refl tr' Htr' Hid) as Hnode.
  split_and!; [done|by exists n|left]. rewrite Hnode in *. rewrite Hn. apply take_ge.
  rewrite Hn in Hoff. unfold blen in *. rewrite length_take in Hoff. lia.
Qed.

(** A file that is given up. *)
Lemma packing_failed T G t node ch bm off seq : packing T G (Splitting t node ch bm off seq) → packing (alter set_failed t T) G Idle.
Proof.
  intros Hpk. assert (evolved T (alter set_failed t T)) as He by by apply evolved_alter.
  pose proof (packing_evolved T _ G _ _ He (or_introl eq_refl) Hpk) as [_ Ht']. split; [done|].
  intros u tr' Htr' Hid Hf. destruct (Ht' u tr' Htr' Hid Hf) as (Hsz & Hk & [?|Hu]); [split_and!; [done|done|by left]|simpl in Hu; subst u].
  rewrite lookup_alter_eq in Htr'. destruct (T !! t); [|done]. by injection Htr' as <-.
Qed.

End packing.

Section reading.
Context {E : Env} {C : Aead} {A : BotAPI} (bots : BotRepository) (error_text : error → string) (leaseOwner : string).
Context (leaseFor batchLimit : Z) (fid : uuid) (content : bytes).
Notation rstep := (rstep bots error_text leaseOwner leaseFor batchLimit).
Notation pact := (pact bots error_text leaseOwner).
Notation packing := (packing fid content).

(** The log holds the file. *)
Definition logged (d : Db) : Prop := wal_ok fid d ∧ wal_content fid d = content ∧ blen content ≤ max_file.

(** The builder knows the size of the file if it has claimed it. *)
Definition batched (m : builder_mode) : Prop := ∀ bm nodes node, m = Batch bm nodes → node ∈ nodes →
  n_ID node = fid → n_Size node = blen content.

Lemma logged_range off n w out w' : logged (w_db w) → 0 ≤ off → off + n ≤ blen content →
  WALRepository_ReadRange fid off n w = (Ok out, w') → out = take (Z.to_nat n) (drop (Z.to_nat off) content).
Proof. intros (Hw & Hc & Hm) Ho Hn H. apply ReadRange_Ok in H as [-> _]; [by rewrite Hc|done|done|int_lia]. Qed.

Lemma new_track_fresh c node t st' : pack_ok c → new_track node (cf_st c) = (t, st') →
  ps_tracks (cf_st c) !! t = None ∧ ps_tracks st' = <[t := mkTrack node 0 false false []]> (ps_tracks (cf_st c)).
Proof.
  intros Hi [= <- <-]. split; [|done]. apply eq_None_not_Some. intros [tr Htr].
  pose proof (in_fresh _ _ _ _ _ _ _ _ Hi _ _ Htr). lia.
Qed.

Lemma evolved_failed t st w st' w' : failTrack t st w = (Ok st', w') → evolved (ps_tracks st) (ps_tracks st').
Proof. intros ->%failTrack_run. by apply evolved_alter. Qed.

Lemma evolved_planned ts st : evolved (ps_tracks st) (ps_tracks (foldl (λ st t, upd_track t set_planned st) st ts)).
Proof. rewrite upd_tracks_fold. by apply evolved_alters. Qed.

(** In the middle of a node. *)
Lemma pact_packing c c' : pact c c' → cf_up c' = cf_up c → cf_phase c ≠ Idle → pack_ok c → logged (w_db (cf_world c)) →
  packing (ps_tracks (cf_st c)) (h_read (cf_hist c)) (cf_phase c) →
  packing (ps_tracks (cf_st c')) (h_read (cf_hist c')) (cf_phase c').
Proof.
  destruct 1 as
    [ w st up rd la node bm ch w' u st' _ Hn | w st up rd la node e w1 w' u st1 st' _ Hn Hf
    | w st up rd la u node ch bm off seq piece b x w1 w2 w' Hlt Hr Hb Hx
    | w st up rd la u node ch bm off seq e w1 st' w' _ _ Hf
    | w st up rd la u node ch bm off seq st' Hle ->
    | w st up rd la node bm piece w' u st' _ Hn | w st up rd la u piece bm Ho
    | w st up rd la ph ch b ids w1 w2 w' d st' Hph _ _ _ Hids Hseal
    | w st up rd la ph e w1 w' Hph _ _ | w st up rd la pending ph st' ->
    | w st up rd la ph j rest Hj | w st up1 up2 rd la ph j r bot w1 w' ready st' _ _ Hl
    | w st up1 up2 rd la ph j st' w' Hf | w st up rd1 rd2 la ph u w' x _ ];
    cbn [cf_up cf_phase cf_st cf_hist cf_world]; intros Hup Hid Hok Hlog Hpk; try done.
  - destruct (in_phase _ _ _ _ _ _ _ _ Hok) as (Hoff & _). cbn in Hoff.
    eapply (packing_piece _ _ _ _ _ _ _ _ _ off _ _ _ piece (Z.to_nat (Z.min bm (n_Size node - off)))); [|exact Hoff| |exact Hpk].
    { by apply (evolved_alter (λ tr, add_remaining 1 (add_extent _ tr))). }
    intros Hn Hsz. rewrite Hn in Hr. eapply logged_range; [exact Hlog| | |exact Hr]; [rewrite Hoff; blen_lia|lia].
  - apply failTrack_run in Hf as ->. by eapply packing_failed.
  - destruct (in_phase _ _ _ _ _ _ _ _ Hok) as (Hoff & _). cbn in Hoff.
    eapply packing_planned; [|exact Hoff|exact Hle|exact Hpk]. by apply evolved_alter.
  - eapply packing_evolved; [reflexivity| |exact Hpk]. right. intros t. by split; intros [].
  - eapply (packing_evolved _ _ _ (ps_tracks st') _ ph); [by eapply evolved_seal; [|eapply map_each_length]| |exact Hpk].
    right. intros t. destruct ph; try done; by split; intros [].
  - eapply packing_evolved; [apply evolved_planned| |exact Hpk]. right. intros t.
    destruct (in_phase _ _ _ _ _ _ _ _ Hok) as (_ & _ & _ & Hnext). cbn in *. destruct ph; try done; by split; intros [].
  - apply (f_equal length) in Hup. rewrite !length_app in Hup. simpl in Hup. lia.
  - apply (f_equal length) in Hup. rewrite !length_app in Hup. simpl in Hup. lia.
Qed.

Lemma rstep_packing c c' : rstep c c' → pack_ok (erase c) → logged (w_db (r_world c)) → batched (r_mode c) →
  packing (ps_tracks (r_st c)) (h_read (r_hist c)) (r_phase c) → packing (ps_tracks (r_st c')) (h_read (r_hist c')) (r_phase c').
Proof.
  intros H Hok Hlog Hbat. unfold erase in Hok.
  step_cases H; cbn [r_world r_st r_workers r_mode r_phase r_bready r_hist r_final r_cancelled] in *; intros Hpk; try done.
  - destruct (new_track_fresh (mkCfg _ _ _ _ _ _) _ _ _ Hok Hn) as [Hnt ->]. apply packing_new; [done|done|by intros ? ? ? ? ? ? [=]|].
    intros Hid. split_and!; [by apply (Hbat bm (node :: rest)); [|left|]|by exists 0%nat|by right].
  - destruct (new_track_fresh (mkCfg _ _ _ _ _ _) _ _ _ Hok Hn) as [Hnt Hst]. apply failTrack_run in Hf as ->. cbn. rewrite Hst.
    apply (packing_failed fid content _ _ t node (mkChannel 0 0 "" 0 0 false 0) 0 0 0), packing_new; [done|done|by intros ? ? ? ? ? ? [=]|].
    intros Hid. split_and!; [by apply (Hbat bm (node :: rest)); [|left|]|by exists 0%nat|by right].
  - destruct (new_track_fresh (mkCfg _ _ _ _ _ _) _ _ _ Hok Hn) as [Hnt ->]. apply packing_new; [done|done|by intros ? ? ? ? ? ? [=]|].
    intros Hid. assert (n_Size node = blen content) as Hsz by (by apply (Hbat bm (node :: rest)); [|left|]).
    rewrite Hid, Hsz in Hr. apply logged_range in Hr as ->; [|done|lia|lia].
    assert (take (Z.to_nat (blen content)) (drop (Z.to_nat 0) content) = content) as -> by (apply take_ge; blen_lia).
    split_and!; [done| |by left]. exists (length content). by rewrite take_ge.
  - eapply (pact_packing _ _ Hp); done.
  - eapply (packing_evolved _ _ _ (ps_tracks st') _ Idle); [by eapply evolved_seal; [|eapply map_each_length]| |exact Hpk].
    right. intros t. by split; intros [].
  - eapply packing_evolved; [apply evolved_planned| |exact Hpk]. right. intros t. by split; intros [].
  - unfold landed in Hl. injection Hl as _ <-. rewrite upd_tracks_fold. eapply packing_evolved; [by apply evolved_alters|by left|exact Hpk].
  - apply failJob_run in Hf as ->. eapply packing_evolved; [by apply evolved_alters|by left|exact Hpk].
  - rewrite upd_tracks_fold. eapply packing_evolved; [by apply evolved_alters|by left|exact Hpk].
Qed.

(** A claim returns rows as they are. *)
Lemma poll_claims w bm nodes w' : poll leaseOwner leaseFor batchLimit w = (Ok (Batch bm nodes), w') →
  ∀ node, node ∈ nodes → ∃ k r, d_nodes (w_db w) !! k = Some r ∧ node = nr_node r.
Proof.
  unfold poll. rewrite try_run. destruct (Settings_Get w) as [[set|e] w1] eqn:Hs; cbn [fst snd]; [|done].
  apply Quiet_Settings in Hs. rewrite try_run.
  destruct (NodeRepository_ClaimBufferedForPacking _ _ _ w1) as [[l|e] w2] eqn:Hc; cbn [fst snd]; [|done].
  destruct l as [|n l]; [done|]. intros [= _ <- _] node Hin. unfold NodeRepository_ClaimBufferedForPacking in Hc.
  destruct (batchLimit <=? 0); [done|]. apply bind_Ok in Hc as (now & w3 & Hn & Hc). injection Hn as <- <-.
  apply bind_Ok in Hc as (rs & w4 & Hq & Hc). injection Hc as Hl _. rewrite <- Hl in Hin.
  apply translate_Ok, query_Ok in Hq as (_ & _ & d & Hq & _). unfold ClaimBufferedForPacking in Hq. injection Hq as <- _.
  apply list_elem_of_fmap in Hin as (r & -> & Hr). apply list_elem_of_fmap in Hr as (r0 & -> & Hr0).
  unfold limit in Hr0. apply elem_of_take in Hr0 as (i & Hr0 & _). apply list_elem_of_lookup_2 in Hr0.
  rewrite sort_by_perm, elem_of_rows in Hr0. destruct Hr0 as (k & Hk & _). exists k, r0. split; [|done].
  cbn in Hk. by rewrite (si_nodes _ _ (qu_db _ _ Hs)) in Hk.
Qed.

Lemma rstep_batched c c' : rstep c c' → (∀ r, d_nodes (w_db (r_world c)) !! fid = Some r → n_Size (nr_node r) = blen content) →
  tree_ok (w_db (r_world c)) → batched (r_mode c) → batched (r_mode c').
Proof.
  intros H Hrow Hd Hbat.
  step_cases H; cbn [r_world r_mode] in *; try done; try (intros bm' nodes' node' [= -> ->] Hin; eapply Hbat; [done|by right]).
  intros bm nodes node -> Hin Hid. destruct (poll_claims _ _ _ _ Hp _ Hin) as (k & r & Hk & ->).
  rewrite (tk_id _ Hd _ _ Hk) in Hid. subst k. by apply Hrow.
Qed.

End reading.

(** ** The file under a step *)

Section enduring.
Context {E : Env} {C : Aead} {A : BotAPI} (bots : BotRepository) (error_text : error → string) (leaseOwner : string).
Context (leaseFor batchLimit : Z) (fid : uuid) (r0 : NodeRow) (content : bytes).
Notation rstep := (rstep bots error_text leaseOwner leaseFor batchLimit).

Record endures (c : rcfg) : Prop := {
  en_alive : ∃ r st, alive fid r0 content (r_world c) r st ∧
    (n_State (nr_node r) = NodeStateBuffered → packing fid content (ps_tracks (r_st c)) (h_read (r_hist c)) (r_phase c));
  en_blobs : blobs_ok c;
  en_batch : batched fid content (r_mode c) }.

Lemma alive_logged w r st : alive fid r0 content w r st → n_State (nr_node r) = NodeStateBuffered → logged fid content (w_db w).
Proof. intros [_ _ (_ & Hm & Hc) _ _] Hst. rewrite Hst in Hc. by destruct Hc. Qed.

(** A finalization makes no blob and puts nothing into the cache. *)
Lemma settles_keeps N st t w w' : settles fid st t w w' → keeps_blobs N w w'.
Proof.
  intros (tr & r & es & _ & _ & _ & _ & _ & _ & Hpk & Hcu & _). split.
  - intros b x'. rewrite (pk_conserves _ _ _ _ _ Hpk). intros (x & Hx & ->)%fmap_Some. left. by exists x.
  - intros b data u Hb. left. by eapply Hcu.
Qed.

(** The blobs of the extents, as they landed. *)
Definition landed_in (es : list Extent) (l : list (uuid * bytes)) (b : uuid) : option bytes :=
  if bool_decide (b ∈ e_BlobID <$> es) then list_to_map (M := gmap uuid bytes) l !! b else None.

Lemma settles_alive c t w' : run_ok c → endures c → t ∈ (r_bready c ++ finals (r_workers c))%list →
  settles fid (r_st c) t (r_world c) w' → ∃ r st, alive fid r0 content w' r st ∧ n_State (nr_node r) = NodeStateStored.
Proof.
  intros [[Hok _] _ _ _] [(r & st & [Hr Hpl Hs Hfr Hb] & Hpk) [Hnd _ Hla] _] Ht Hse. pose proof (settles_keeps nobody _ _ _ _ Hse) as Hkb.
  destruct Hse as (tr & r1 & es & Htr & Hid & Hr1 & Hst & Hall & Hes & Hp & _). rewrite Hr in Hr1. injection Hr1 as <-.
  destruct (ready_landed (erase c) t Hok Ht) as (tr1 & Htr1 & Hnf & Hwh & He). cbn in Htr1, Hwh, He. rewrite Htr in Htr1. injection Htr1 as <-.
  destruct (pg_track _ _ _ _ _ (Hpk Hst) t tr Htr Hid Hnf) as (_ & _ & Hgot). destruct Hgot as [Hgot|Hsp].
  2: { exfalso. pose proof (in_phase _ _ _ _ _ _ _ _ Hok) as Hph. destruct (in_ready _ _ _ _ _ _ _ _ Hok t Ht) as (tr1 & Htr1 & Hdone).
       cbn in Hph, Htr1. rewrite Htr in Htr1. injection Htr1 as <-. destruct (r_phase c); try done. cbn in Hsp, Hph. subst.
       destruct Hph as (_ & tr1 & Htr1 & Hpl1 & _). rewrite Htr in Htr1. injection Htr1 as <-. unfold done_track in Hdone. by rewrite Hpl1 in Hdone. }
  rewrite Hgot in *. pose proof Hs as (Hsz & Hmax & _).
  apply NoDup_app in Hnd as (_ & _ & Hnl).
  destruct (packed_stores fid r es _ _ Hp (landed_in es (h_landed (r_hist c))) content) as [Hrow Hcon]; try done; [by apply Hfr| |].
  { eapply landed_extents; [exact Hwh| |exact Hall]. intros e Hin. destruct (He e Hin) as (_ & bs & Hin' & Hc). exists bs.
    split; [|done]. unfold landed_in. rewrite bool_decide_true; [by apply elem_of_list_to_map_1|].
    destruct (Forall2_mem_l _ _ _ e Hall Hin) as (x & Hx & Hsx). apply list_elem_of_fmap. exists x. split; [by rewrite Hsx|done]. }
  exists (stored_row r), (landed_in es (h_landed (r_hist c))). split; [|done]. split; [done|exact Hpl|done|done|].
  intros b bs. unfold landed_in. case_bool_decide as Hin; [|done]. intros Hl%elem_of_list_to_map_2. split.
  - apply list_elem_of_fmap in Hin as (e & -> & Hin). exists (e_ID e), e. split_and!; [|by apply Hes|done].
    apply (pk_extlk _ _ _ _ _ Hp). by right.
  - eapply holds_keeps; [|exact Hkb|by apply Hla]. by intros h [].
Qed.

Lemma rstep_endures c c' : content ≠ [] → rstep c c' → run_ok c → safe (r_world c) → mints c c' → endures c → endures c'.
Proof.
  intros Hne Hstep Hok [Hf Htx] Hm Hen. pose proof Hen as [(r & st & Hal & Hpk) Hbl Hbat].
  assert (∀ j, busy (r_workers c) ≡ₚ j :: busy (r_workers c') → unborn (jb_blobID j) (r_world c)) as Hun.
  { intros j Hp. apply (bo_jobs _ Hbl). unfold jobs_of. rewrite Hp. set_solver. }
  assert (0 < blen content) as Hpos by (destruct content; [done|blen_lia]).
  assert (batched fid content (r_mode c')) as Hbat'.
  { eapply rstep_batched; [exact Hstep| |apply Hf|exact Hbat]. intros r1 Hr1. rewrite (al_row _ _ _ _ _ _ Hal) in Hr1.
    injection Hr1 as <-. apply Hal. }
  destruct (rstep_effect bots error_text leaseOwner leaseFor batchLimit fid (ruser r0) (ended c c') c c' Hstep Hok Htx)
    as [Hlv|(t & Ht & Hst & Hse)].
  - intros j Hp i Hi. exists j. split; [done|]. split; [|done]. apply Hi, (Hun j Hp).
  - intros bm node rest Hmode Hz Hid. assert (n_Size node = blen content) by (eapply Hbat; [exact Hmode|by left|done]). lia.
  - apply leaves_passes in Hlv; [|done]. split; [|eapply blobs_step; [by eapply rstep_jobs|done|apply Hlv|done]|done].
    destruct (alive_passes fid r0 content _ _ _ r st Hf Hlv) as (r' & Hq & Hal'); [|done|].
    { intros b h (j & Hp & -> & _). apply (Hun j Hp). }
    exists r', st. split; [done|]. rewrite Hq. intros Hst. eapply rstep_packing; [exact Hstep|apply Hok|by eapply alive_logged|done|by apply Hpk].
  - destruct (settles_alive c t _ Hok Hen Ht Hse) as (r' & st' & Hal' & Hst').
    split; [|eapply blobs_step; [by eapply rstep_jobs|done|by eapply settles_keeps|done]|done].
    exists r', st'. split; [done|]. by rewrite Hst'.
Qed.

End enduring.
