(* ===== verification/EndureServer.v ===== *)
(** * One file under everything the whole server does

    The steps that are not its owner's ([by_others]), and that under each of them the
    file keeps its bytes or is seen to lose a blob. *)
From Stdlib Require Import ZArith Lia Strings.Byte Strings.String.
From stdpp Require Import base tactics list gmap sets sorting strings relations.
From S2P Require Import Prelude Model Sql SqlFacts World Keeps Repository Crypto Text Password Accounts Identity Limiter.
From S2P Require Import Path FileSystem File WebDav Tree FsFacts WalFacts WriteFacts ReadFacts CopyFacts Tenants Requests Session.
From S2P Require Import Cache CacheKeeps CacheFacts Telegram Config BlobReader BlobFacts LossFacts WebFacts FinalizeFacts.
From S2P Require Import Bots BotsFacts Maintenance Management Server ServerFacts SparesFacts SafeFacts EndureFacts.
From S2P Require Import Packer PackerFacts Run RunFacts System SystemFacts EndureSteps.
#[local] Open Scope string_scope.
#[local] Open Scope Z_scope.
Open Scope m_scope.

(** The credentials of the request let it act as [u] now. *)
Definition acts_for {E : Env} {K : Kdf} (r : httpReq) (w : World) (u : User) : Prop := ∃ username pw a w1,
  BasicCredentials (WebDav.rq_Authorization r) = Some (username, pw)
  ∧ AuthenticateBasic username pw w = (Ok (mkPrincipal (Some u) (Some a)), w1).

Section whole.
Context {E : Env} {C : Aead} {A : BotAPI} {K : Kdf} {R : RateLib} {W : WebLib} {O : Oapi} {D : BodyDecoder}.
Context (redirect : string → apiReq → apiResp) (error_text : error → string) (config : serverConfig).

(** What the process does beside packing, when it is not done for the user [fu]. *)
Definition foreign_task (fu : uuid) (t : task) (w : World) : Prop :=
  match t with
  | DavRequest r => ∀ u, acts_for r w u → u_ID u ≠ fu
  | ApiRequest r => operation_of r ≠ Some (Some (OpDeleteUser fu))
  | _ => True
  end.

(** A step of the server that is not done for [fu]; the blobs it makes are new. *)
Inductive by_others (fu : uuid) : server → server → Prop :=
  | OStart w s : sstep redirect error_text config (Down w) s → by_others fu (Down w) s
  | OPack p c c' : rstep (botRepo config) error_text (leaseOwner p) (leaseFor p) (batchLimit p) c c' → mints c c' →
      by_others fu (Up p c) (Up p c')
  | OTimeout p c c' : env_step c c' → r_world c' = r_world c → by_others fu (Up p c) (Up p c')
  | OTask p c t x w' : foreign_task fu t (r_world c) → handle redirect config t (r_world c) = (x, w') →
      by_others fu (Up p c) (Up p (with_world w' c))
  | OStop p c : by_others fu (Up p c) (Down (r_world c)).

Lemma by_others_sstep fu s s' : by_others fu s s' → sstep redirect error_text config s s'.
Proof. destruct 1; [done|by apply SPack|by apply STimeout|by eapply STask|by apply SStop]. Qed.

Context {L : WebLaws (B := blobReader config)}.

Lemma WebDAV_passes id fu r w x w' : uuids_ok → safe w → (∀ u, acts_for r w u → u_ID u ≠ fu) →
  WebDAVHandler r w = (x, w') → passes id fu nobody w w' ∨ spoils id w w'.
Proof.
  intros Huu Hs Hact. pose proof Hs as [Hf _].
  assert (passes id fu nobody w w) as Hrefl by (apply leaves_passes; [done|reflexivity]).
  unfold WebDAVHandler, Recoverer. rewrite try_run.
  destruct (BasicAuth (rateLimit (router r)) r w) as [y w1] eqn:Hb. cbn [fst snd]. intros H.
  assert (w' = w1) as -> by by destruct y; injection H. clear H. unfold BasicAuth in Hb.
  destruct (BasicCredentials _) as [[username pw]|] eqn:Hc; [|injection Hb as _ <-; by left].
  rewrite try_run in Hb. destruct (AuthenticateBasic username pw w) as [p w2] eqn:Ha. cbn [fst snd] in Hb.
  pose proof (Keeps_spares _ (Spares_Basic username pw) _ _ _ Ha) as H2. apply (safe_leaves _ _ H2) in Hs.
  pose proof (Keeps_spares_advances id fu nobody _ (Spares_Basic username pw) _ _ _ Ha) as Hp2. apply leaves_passes in Hp2; [|done].
  destruct p as [p|e].
  - pose proof Ha as (t & a & ->)%AuthenticateBasic_both. destruct Hs as [Hf2 Ht2].
    pose proof (rateLimit_stocked _ _ _ _ _ _ _ Huu (fi_tree _ Hf2) Ht2 Hb) as Hst.
    apply (rateLimit_touches (B := blobReader config)) in Hb as [Hto _]; [|done|apply (fi_tree _ Hf2)|done].
    destruct (touched_passes id fu (u_ID t) w2 w1) as [Hp|(b & Hl & Hlies)]; [|done|done|left; by eapply passes_trans|right].
    { apply Hact. by eexists username, pw, a, w2. }
    exists b. split; [done|]. destruct Hlies as (k & e & Hk & He & Hbl). exists k, e. split; [|done].
    pose proof (Spares_Basic username pw _ _ _ Ha) as [Hsp _ _]. by rewrite (sp_extents _ _ Hsp) in Hk.
  - assert (w1 = w2) as -> by (repeat case_match; by injection Hb). by left.
Qed.

Lemma handle_passes id fu t w x w' : uuids_ok → safe w → foreign_task fu t w → handle redirect config t w = (x, w') →
  passes id fu nobody w w' ∨ spoils id w w'.
Proof.
  intros Huu Hs Ht H. pose proof Hs as [Hf _].
  assert (∀ (m : M unit), Keeps (leaves (advances id fu nobody)) m → m w = (x, w') → passes id fu nobody w w' ∨ spoils id w w') as Hk.
  { intros m Hm Hr. left. apply leaves_passes; [done|]. by eapply Hm. }
  destruct t; cbn [handle foreign_task] in *.
  - rewrite try_run in H. destruct (WebDAVHandler r w) as [y w1] eqn:Hd. injection H as _ <-. by eapply WebDAV_passes.
  - revert H. apply Hk. apply (Keeps_try _); [by apply Advances_management|auto with keeps].
  - by eapply Hk; [apply Advances_maintenance|].
  - by eapply Hk; [apply Advances_flush|].
  - by eapply Hk; [apply Keeps_spares_advances, Spares_sweep|].
  - by eapply Hk; [apply (leaves_janitor _)|].
Qed.

(** A process that has just been started. *)
Record just_started (c : rcfg) : Prop := {
  js_tracks : ps_tracks (r_st c) = ∅;
  js_jobs : jobs_of c = [];
  js_landed : h_landed (r_hist c) = [];
  js_idle : r_mode c = Polling ∧ r_phase c = Idle }.

Lemma runServer_starts w p c w' : runServer config w = (Ok (p, c), w') → just_started c.
Proof.
  unfold runServer. intros (u & w1 & _ & H)%bind_Ok. rewrite try_run in H.
  apply bind_Ok in H as (v & w2 & _ & H). apply bind_Ok in H as (q & w3 & _ & H).
  apply bind_Ok in H as (c0 & w4 & Hrun & H). injection H as <- <- <-.
  unfold Run in Hrun. apply bind_Ok in Hrun as (n & w5 & _ & Hrun). injection Hrun as <- _. split; try done.
  unfold jobs_of. cbn. by induction (Z.to_nat n).
Qed.

Context (fid : uuid) (r0 : NodeRow) (content : bytes).

(** The server has the file. *)
Definition lasting (s : server) : Prop := server_ok s ∧
  match s with
  | Down w => ∃ r st, alive fid r0 content w r st
  | Up _ c => endures fid r0 content c
  end.

Lemma start_endures c : just_started c → (∃ r st, alive fid r0 content (r_world c) r st) → endures fid r0 content c.
Proof.
  intros [Ht Hj Hl [Hm Hph]] (r & st & Hal). split.
  - exists r, st. split; [done|]. intros _. rewrite Ht, Hph. split; [done|]. intros t tr. by rewrite lookup_empty.
  - split; unfold ids_of; rewrite ?Hj, ?Hl; [constructor|intros j Hin; by apply elem_of_nil in Hin|intros b bs Hin; by apply elem_of_nil in Hin].
  - intros bm nodes node. by rewrite Hm.
Qed.

(** Steps that leave the packer where it is. *)
Lemma world_endures c w' : fine (w_db (r_world c)) → passes fid (ruser r0) nobody (r_world c) w' →
  endures fid r0 content c → endures fid r0 content (with_world w' c).
Proof.
  intros Hf Hp [(r & st & Hal & Hpk) [Hnd Hj Hl] Hb]. pose proof (pa_blobs _ _ _ _ _ Hp) as Hkb. destruct c. cbn in *. split; [| |exact Hb].
  - destruct (alive_passes fid r0 content _ _ _ r st Hf Hp) as (r' & Hq & Hal'); [by intros b h []|done|].
    exists r', st. split; [done|]. by rewrite Hq.
  - split; [exact Hnd| |].
    + intros j Hin. destruct (Hj j Hin) as [Hu Hso]. split; [|done]. eapply unborn_keeps; [|exact Hkb|exact Hu]. by intros h [].
    + intros b bs Hin. eapply holds_keeps; [|exact Hkb|by apply Hl]. by intros h [].
Qed.

Lemma start_passes w n w1 x w' : fine (w_db w) → w1 = fresh_memory n w → runServer config w1 = (x, w') →
  passes fid (ruser r0) nobody w w'.
Proof.
  intros Hf -> H. eapply (runServer_keeps config (advances fid (ruser r0) nobody)) in H; [|apply spares_advances].
  apply leaves_passes in H; [|done]. by destruct H as [Hk Hb]; split; [exact Hk|destruct Hb; split].
Qed.

Lemma step_lasts s s' : uuids_ok → content ≠ [] → by_others (ruser r0) s s' → lasting s →
  lasting s' ∨ spoils fid (world_of s) (world_of s').
Proof.
  intros Huu Hne Hstep [Hok Hl]. pose proof (sstep_ok _ _ _ _ _ Huu (by_others_sstep _ _ _ Hstep) Hok) as Hok'.
  pose proof Hok as [Hs _].
  assert (∀ w n x w', Down w = s → runServer config (fresh_memory n w) = (x, w') → ∃ r st, alive fid r0 content w' r st) as Hstart.
  { intros w n x w' <- H. destruct Hl as (r & st & Hal). destruct Hs as [Hf _].
    destruct (alive_passes fid r0 content _ _ _ r st Hf (start_passes _ _ _ _ _ Hf eq_refl H)) as (r' & _ & ?); [by intros b h []|done|by exists r', st]. }
  destruct Hstep as [w s' Hss|p c c' H Hm|p c c' H Hw|p c t x w' Ht H|p c]; cbn [world_of] in *.
  - left. split; [done|]. inversion Hss as [w0 n p c w' H|w0 n e w' H| | | |]; subst.
    + apply start_endures; [by eapply runServer_starts|]. apply runServer_Ok in H as Hc. destruct Hc as [-> _]. by eapply Hstart.
    + by eapply Hstart.
  - left. split; [done|]. eapply rstep_endures; [done|exact H|apply Hok|done..].
  - left. split; [done|]. destruct H; cbn in *; [by subst|]. by destruct Hl as [? [] ?]; split; [|split|].
  - destruct (handle_passes fid (ruser r0) _ _ _ _ Huu Hs Ht H) as [Hp|?]; [left|by right].
    split; [done|]. apply world_endures; [apply Hs|done|done].
  - left. split; [done|]. destruct Hl as [(r & st & ? & _) _ _]. by exists r, st.
Qed.

Lemma run_lasts s s' : uuids_ok → content ≠ [] → rtc (by_others (ruser r0)) s s' → lasting s →
  lasting s' ∨ ∃ s1 s2, rtc (by_others (ruser r0)) s s1 ∧ by_others (ruser r0) s1 s2 ∧ rtc (by_others (ruser r0)) s2 s'
    ∧ spoils fid (world_of s1) (world_of s2).
Proof.
  intros Huu Hne. induction 1 as [s|s s1 s2 Hs Hr IH]; intros Hl; [by left|].
  destruct (step_lasts _ _ Huu Hne Hs Hl) as [Hl1|Hsp]; [|right; exists s, s1; split_and!; [apply rtc_refl|done..]].
  destruct (IH Hl1) as [?|(s3 & s4 & ? & ? & ? & ?)]; [by left|right]. exists s3, s4. split_and!; [by eapply rtc_l|done..].
Qed.

End whole.
