(* ===== verification/PackerTheorems.v ===== *)
(** * Theorems about the packer

    What the packer may finalize and when, what a finalized file holds, and the
    behaviours of its loops on the boundary; and that a packer told to stop drains its
    queue and returns. *)
From Stdlib Require Import ZArith Lia Strings.Byte Strings.String.
From stdpp Require Import base tactics list gmap sets sorting strings relations.
From S2P Require Import Prelude Model Sql SqlFacts World Repository Crypto Accounts Path FileSystem File Tree.
From S2P Require Import FsFacts RenameFacts CreateFacts WalFacts WriteFacts ReadFacts CopyFacts LossFacts Session Cache Telegram BlobReader.
From S2P Require Import Bots Packer PackerFacts FinalizeFacts Demo Requests BlobTheorems BotTheorems Run RunFacts Script.
#[local] Open Scope string_scope.
#[local] Open Scope Z_scope.
Open Scope m_scope.

Section packer.
Context {E : Env} {C : Aead} {A : BotAPI} (bots : BotRepository) (error_text : error → string).
Context (leaseOwner : string).

(** In every interleaving of the builder with any number of upload workers,
    a file is finalized only once all its blobs are stored: no blob of a track about
    to be finalized is still queued, in flight or failed; each of its extents lies
    in a stored blob, where it holds the very bytes the builder read at the extent's
    place in the file, and together the extents cover everything that was read. *)
Theorem finalize_only_when_landed w0 c t : rtc (pstep bots error_text leaseOwner) (started w0) c → t ∈ cf_ready c →
  ∃ tr, ps_tracks (cf_st c) !! t = Some tr ∧ tr_failed tr = false
  ∧ whole (got (h_read (cf_hist c)) t) tr
  ∧ ∀ e, e ∈ tr_extents tr → e_NodeID e = n_ID (tr_node tr)
      ∧ ∃ data, (e_BlobID e, data) ∈ h_landed (cf_hist c) ∧ carries (got (h_read (cf_hist c)) t) e data.
Proof. intros Hr. apply ready_landed. eapply psteps_ok; [exact Hr|apply started_ok]. Qed.

(** C6: packing preserves content.  When a finalization runs, at any point of any
    interleaving, on a file whose buffered bytes are still those the builder read
    (otherwise see [stale_pack_loses_upload]), it either leaves every table as it was, or turns the file into a stored one
    with the same content read from the blobs just uploaded.  Then its chunks are
    gone, reference counts have grown by exactly the new extents, every other file
    keeps its content and a second finalization of the node changes nothing.  While
    the database works and the file is the packer's it is always stored, if the rows
    of its extents can be inserted. *)
Theorem pack_preserves_content w0 c t tr r st x w' : rtc (pstep bots error_text leaseOwner) (started w0) c →
  t ∈ cf_ready c → ps_tracks (cf_st c) !! t = Some tr →
  let w := cf_world c in
  let id := n_ID (tr_node tr) in
  let data := got (h_read (cf_hist c)) t in
  w_tx w = None → tree_ok (w_db w) →
  d_nodes (w_db w) !! id = Some r → extents_of id (w_db w) = [] → stores st id r (w_db w) data →
  (∀ b bs, (b, bs) ∈ h_landed (cf_hist c) → st b = Some bs) →
  finalize_ptr leaseOwner (cf_st c) t w = (x, w') →
  x = Ok tt ∧
  (w_db w' = w_db w
   ∨ d_nodes (w_db w') !! id = Some (stored_row r) ∧ stores st id (stored_row r) (w_db w') data
     ∧ chunks_of id (w_db w') = [] ∧ conserves (w_db w) (w_db w') ∧ tree_ok (w_db w')
     ∧ (∀ n s D, n ≠ id → d_nodes (w_db w) !! n = Some s → stores st n s (w_db w) D →
          d_nodes (w_db w') !! n = Some s ∧ stores st n s (w_db w') D)
     ∧ ∀ tr', n_ID (tr_node tr') = id → w_db (finalize leaseOwner tr' w').2 = w_db w')
  ∧ (no_faults → n_State (nr_node r) = NodeStateBuffered → nr_lease_owner r = leaseOwner → storable tr (w_db w) →
     d_nodes (w_db w') !! id = Some (stored_row r)).
Proof.
  intros Hrtc Ht Htr w id data Htx Hd Hr Hno Hst Hla Hfin.
  destruct (ready_landed c t) as (tr0 & Htr0 & _ & Hw & He); [eapply psteps_ok; [exact Hrtc|apply started_ok]|done|].
  rewrite Htr in Htr0. injection Htr0 as <-. unfold finalize_ptr in Hfin. rewrite Htr in Hfin.
  assert (no_faults → n_State (nr_node r) = NodeStateBuffered → nr_lease_owner r = leaseOwner → storable tr (w_db w) →
    d_nodes (w_db w') !! id = Some (stored_row r)) as Hall by (intros; by eapply finalize_stores).
  destruct (finalize_run leaseOwner tr w Htx) as (w1 & Hrun & Htx1 & Hdb). fold w in Hfin. rewrite Hrun in Hfin.
  injection Hfin as <- <-. split; [done|]. split; [clear Hall|exact Hall].
  destruct Hdb as [?|(r' & es & Hr' & Hbuf & _ & Hall & Hpk)]; [by left|right].
  fold id in Hr', Hpk. rewrite Hr in Hr'. injection Hr' as <-.
  pose proof (tk_files _ Hd _ _ Hr Hbuf) as Hf.
  assert (∀ e, e ∈ es → e_NodeID e = id) as Hn by (eapply same_extent_node; [exact Hall|]; intros e Hin; by apply He).
  destruct Hst as (Hsz & Hmax & _).
  destruct (packed_stores id r es (w_db w) (w_db w1) Hpk st data) as [Hrow Hcon]; try done.
  { eapply landed_extents; [exact Hw| |exact Hall]. intros e Hin. destruct (He e Hin) as (_ & bs & Hb & Hc).
    exists bs. split; [by apply Hla|done]. }
  split_and!; try done.
  - by apply (packed_no_wal id r es (w_db w)).
  - by apply (pk_conserves _ _ _ _ _ Hpk).
  - by apply (packed_tree id r es (w_db w)).
  - intros n s D Hne Hs HD. by apply (packed_others id r es (w_db w) (w_db w1) Hpk).
  - intros tr' Hid. destruct (finalize_run leaseOwner tr' w1 Htx1) as (w2 & -> & _ & [Heq|(s & es2 & Hs & Hb & _)]); [done|].
    rewrite Hid, Hrow in Hs. by injection Hs as <-.
Qed.

(** C29: splitting a large file terminates within its fuel and sends the whole file:
    the jobs, in order, carry its bytes in pieces that are neither empty nor larger
    than a blob. *)
Theorem split_sends_file t node ch blobMax st w : no_faults → in_aborted w = false →
  wal_ok (n_ID node) (w_db w) → n_Size node = blen (wal_content (n_ID node) (w_db w)) → n_Size node ≤ max_int64 →
  0 < blobMax →
  ∃ st' new w', split_loop (split_fuel node) t node ch blobMax 0 0 st w = (Ok (st', true), w')
    ∧ w_db w' = w_db w ∧ ps_jobs st' = (ps_jobs st ++ new)%list
    ∧ concat (jb_data <$> new) = wal_content (n_ID node) (w_db w)
    ∧ Forall (λ j, 0 < blen (jb_data j) ≤ blobMax ∧ jb_tracks j = [t]) new.
Proof.
  intros Hnf Hab Hwal Hsz Hmax Hbm. pose proof Hsz as Hpos. unfold blen in Hpos.
  destruct (split_loop_Ok t node ch blobMax (wal_content (n_ID node) (w_db w)) (split_fuel node) 0 0 st w)
    as (st' & new & w' & Hr & Hdb & _ & Hj & Hc & Hall); try done; try lia.
  - unfold split_fuel. lia.
  - by exists st', new, w'.
Qed.

End packer.

(** The loop has no exit for a file whose chunks end before its recorded size, which
    is what an overwrite leaves while the packer is splitting the old file: however
    long it runs, it goes on sending empty jobs. *)
Lemma split_short_never_ends `{!Env} fuel t node ch blobMax st w : no_faults → in_aborted w = false →
  wal_ok (n_ID node) (w_db w) → blen (wal_content (n_ID node) (w_db w)) < n_Size node ≤ max_int64 → 0 < blobMax →
  (split_loop fuel t node ch blobMax 0 0 st w).1 = Err (ErrOther "out of fuel").
Proof. intros. apply split_loop_spins; try done. blen_lia. Qed.

(** ** A run *)

(** A Telegram that stores what it is sent: the bytes are the file id. *)
Definition cloud : BotAPI := {|
  api_call := λ _ _ method form body,
    if String.eqb method "sendDocument" then
      match body with
      | Some data => Envelope (mkApiResponse true (Some (mkApiResult 99 (Some (string_of data, "U")) "" "" "")) 0 "" None)
      | None => BadBody
      end
    else if String.eqb method "getFile" then
      match form with
      | (_, id) :: _ => Envelope (mkApiResponse true (Some (mkApiResult 0 None "" "" id)) 0 "" None)
      | [] => BadBody
      end
    else Envelope (mkApiResponse false None 400 "Bad Request: message to forward not found" None);
  api_file := λ _ _ path, DlStatus 200 (Some (bytes_of path)) |}.

(** Blobs of at most two bytes: the three bytes of [/b] are split. *)
Definition pack_world : World :=
  set_db (set_settings (Some (mkSettingsRow 2 1000 0 100 1)) (w_db fleet_world)) fleet_world.
Definition pack_start : packState := mkPackState ∅ 0 [] [] empty_run 0.

Definition claimed := NodeRepository_ClaimBufferedForPacking "me" (10 * Minute) 64 pack_world.
Definition claimed_node : Node :=
  match claimed.1 with Ok (n :: _) => n | _ => nr_node (demo_node 0 None "" "" false 0 NodeStateStored) end.

Ltac step_eval := vm_compute; reflexivity.

(** One schedule: claim, split, and the two jobs, one after the other. *)
Definition packing : {c : cfg | rtc (pstep (A := cloud) demo_bots (λ _, "") "me") (started pack_world) c}.
Proof.
  eexists.
  eapply rtc_l; [apply (POther _ _ _ _ _ _ _ _ _ claimed.2)|].
  eapply rtc_l; [eapply PAct, (PSplit _ _ _ _ _ _ _ _ claimed_node 2); [step_eval|reflexivity]|].
  eapply rtc_l; [eapply PAct, PPiece; [step_eval..]|].
  eapply rtc_l; [eapply PAct, PPiece; [step_eval..]|].
  eapply rtc_l; [eapply PAct, PPlanned; [vm_compute; discriminate|step_eval]|].
  eapply rtc_l; [eapply PAct, PTake; step_eval|].
  eapply rtc_l; [eapply PAct, (PLanded _ _ _ _ _ [] []); [step_eval..]|].
  eapply rtc_l; [eapply PAct, PTake; step_eval|].
  eapply rtc_l; [eapply PAct, (PLanded _ _ _ _ _ [] []); [step_eval..]|].
  apply rtc_refl.
Defined.
Definition pack_cfg : cfg := Eval vm_compute in proj1_sig packing.

Lemma pack_cfg_reached : rtc (pstep (A := cloud) demo_bots (λ _, "") "me") (started pack_world) pack_cfg.
Proof.
  assert (pack_cfg = proj1_sig packing) as -> by (vm_compute; reflexivity). exact (proj2_sig packing).
Qed.

Definition pack_track : track :=
  default (mkTrack claimed_node 0 false false []) (ps_tracks (cf_st pack_cfg) !! 0%nat).
Definition buffered_row : NodeRow :=
  default (demo_node 0 None "" "" false 0 NodeStateStored) (d_nodes (w_db (cf_world pack_cfg)) !! 13%N).

(** The blobs stored so far, as a function. *)
Definition landed_store (l : list (uuid * bytes)) (b : uuid) : option bytes := list_to_map (M := gmap uuid bytes) l !! b.

Example pack_run : got (h_read (cf_hist pack_cfg)) 0 = demo_bytes "wal"
  ∧ (jb_data <$> ps_jobs (cf_st pack_cfg)) = [] ∧ (snd <$> h_landed (cf_hist pack_cfg)) = [demo_bytes "l"; demo_bytes "wa"]
  ∧ (e_FileOffset <$> tr_extents pack_track) = [0; 2] ∧ (e_Length <$> tr_extents pack_track) = [2; 1].
Proof. vm_compute. done. Qed.

Lemma landed_witness : ∃ tr, ps_tracks (cf_st pack_cfg) !! 0%nat = Some tr ∧ tr_failed tr = false
  ∧ whole (got (h_read (cf_hist pack_cfg)) 0) tr
  ∧ ∀ e, e ∈ tr_extents tr → e_NodeID e = n_ID (tr_node tr)
      ∧ ∃ data, (e_BlobID e, data) ∈ h_landed (cf_hist pack_cfg) ∧ carries (got (h_read (cf_hist pack_cfg)) 0) e data.
Proof.
  apply (finalize_only_when_landed (A := cloud) demo_bots (λ _, "") "me" pack_world).
  - exact pack_cfg_reached.
  - vm_compute. by left.
Defined.

Lemma pack_stores : stores (landed_store (h_landed (cf_hist pack_cfg))) 13 buffered_row (w_db (cf_world pack_cfg))
  (got (h_read (cf_hist pack_cfg)) 0).
Proof.
  split_and!; [by vm_compute..|].
  assert (node_chunks 13 (w_db (cf_world pack_cfg)) = [mkWALChunk 50 13 0 (demo_bytes "wal") 1]) as He by by vm_compute.
  assert (n_State (nr_node buffered_row) = NodeStateBuffered) as -> by by vm_compute.
  unfold wal_ok, wal_content. rewrite He. split; [split; [done|]|by vm_compute].
  simpl. pose proof chunk_nat_Z. unfold WALChunkSize in *. lia.
Qed.

Lemma pack_landed b bs : (b, bs) ∈ h_landed (cf_hist pack_cfg) → landed_store (h_landed (cf_hist pack_cfg)) b = Some bs.
Proof.
  assert (Forall (λ x, landed_store (h_landed (cf_hist pack_cfg)) x.1 = Some x.2) (h_landed (cf_hist pack_cfg))) as HF
    by (vm_compute; by repeat constructor).
  rewrite Forall_forall in HF. apply (HF (b, bs)).
Qed.

Lemma pack_storable : storable pack_track (w_db (cf_world pack_cfg)).
Proof.
  split.
  - by apply (bool_decide_unpack _); vm_compute.
  - apply Forall_forall. vm_compute. by repeat constructor.
  - apply Forall_forall. vm_compute. repeat constructor; by eexists.
  - apply (bool_decide_unpack (map_Forall (λ k b, _ = true) _)). vm_compute. done.
Qed.

Lemma pack_witness : let w := cf_world pack_cfg in
  let y := finalize_ptr "me" (cf_st pack_cfg) 0 w in
  let st := landed_store (h_landed (cf_hist pack_cfg)) in
  let data := got (h_read (cf_hist pack_cfg)) 0 in
  y.1 = Ok tt ∧
  (w_db y.2 = w_db w
   ∨ d_nodes (w_db y.2) !! 13%N = Some (stored_row buffered_row) ∧ stores st 13 (stored_row buffered_row) (w_db y.2) data
     ∧ chunks_of 13 (w_db y.2) = [] ∧ conserves (w_db w) (w_db y.2) ∧ tree_ok (w_db y.2)
     ∧ (∀ n s D, n ≠ 13%N → d_nodes (w_db w) !! n = Some s → stores st n s (w_db w) D →
          d_nodes (w_db y.2) !! n = Some s ∧ stores st n s (w_db y.2) D)
     ∧ ∀ tr', n_ID (tr_node tr') = 13%N → w_db (finalize "me" tr' y.2).2 = w_db y.2)
  ∧ d_nodes (w_db y.2) !! 13%N = Some (stored_row buffered_row).
Proof.
  intros w y st data.
  destruct (pack_preserves_content (A := cloud) demo_bots (λ _, "") "me" pack_world pack_cfg 0 pack_track buffered_row
    st y.1 y.2) as (H1 & H2 & H3).
  - exact pack_cfg_reached.
  - vm_compute. by left.
  - vm_compute. reflexivity.
  - reflexivity.
  - apply tree_okb_sound. vm_compute. reflexivity.
  - vm_compute. reflexivity.
  - vm_compute. reflexivity.
  - exact pack_stores.
  - exact pack_landed.
  - vm_compute. reflexivity.
  - split; [exact H1|]. split; [exact H2|].
    apply H3; [exact demo_no_faults|vm_compute; reflexivity|vm_compute; reflexivity|exact pack_storable].
Defined.

Example pack_finalizes :
  n_State ∘ nr_node <$> d_nodes (w_db (finalize_ptr "me" (cf_st pack_cfg) 0 (cf_world pack_cfg)).2) !! 13%N
  = Some NodeStateStored.
Proof. vm_compute. reflexivity. Qed.

Lemma split_witness : ∃ st' new w',
  split_loop (split_fuel claimed_node) 0 claimed_node demo_channel 2 0 0 pack_start claimed.2 = (Ok (st', true), w')
    ∧ w_db w' = w_db claimed.2 ∧ ps_jobs st' = (ps_jobs pack_start ++ new)%list
    ∧ concat (jb_data <$> new) = wal_content (n_ID claimed_node) (w_db claimed.2)
    ∧ Forall (λ j, 0 < blen (jb_data j) ≤ 2 ∧ jb_tracks j = [0%nat]) new.
Proof.
  assert (node_chunks (n_ID claimed_node) (w_db claimed.2) = [mkWALChunk 50 13 0 (demo_bytes "wal") 1]) as He by by vm_compute.
  apply split_sends_file.
  - exact demo_no_faults.
  - reflexivity.
  - unfold wal_ok. rewrite He. split; [done|]. simpl. pose proof chunk_nat_Z. unfold WALChunkSize in *. lia.
  - unfold wal_content. rewrite He. vm_compute. reflexivity.
  - vm_compute. discriminate.
  - reflexivity.
Defined.

(** ** An overwrite during packing *)

Definition state_of (r : res packState) : packState := match r with Ok st => st | Err _ => pack_start end.
Definition download (w : World) : res bytes :=
  (get (B := blob_reader (A := cloud) demo_bots) demo_ctx "/b" 100 10 w).1.

(** An upload can be lost.  The builder has queued the blobs of [/b]; a PUT then
    replaces the file, succeeds, and a GET returns the new bytes.  The overwrite
    leaves the packer's lease on the row, so when the old blobs have been uploaded
    the finalization takes the node for its own: it attaches the old extents to the
    new row and deletes the new chunks.  From then on a GET returns the old bytes. *)
Theorem stale_pack_loses_upload :
  let built := builder_turn demo_bots "me" (10 * Minute) 64 pack_start pack_world in
  let upload := put demo_ctx "/b" put_flags [demo_bytes "newer"] built.2 in
  let uploaded := worker_all (A := cloud) demo_bots (λ _, "") "me" 5 (state_of built.1) upload.2 in
  download pack_world = Ok (demo_bytes "wal")
  ∧ (∃ x, upload.1 = Ok x) ∧ download upload.2 = Ok (demo_bytes "newer")
  ∧ (∃ st, uploaded.1 = Ok st) ∧ download uploaded.2 = Ok (demo_bytes "wal").
Proof. split_and!; [vm_compute; reflexivity|by eexists; vm_compute|vm_compute; reflexivity|by eexists; vm_compute|vm_compute; reflexivity]. Qed.

(** Without the overwrite the same run ends with the content in Telegram. *)
Example pack_round_trip :
  let built := builder_turn demo_bots "me" (10 * Minute) 64 pack_start pack_world in
  let uploaded := worker_all (A := cloud) demo_bots (λ _, "") "me" 5 (state_of built.1) built.2 in
  d_wal_chunks (w_db uploaded.2) = ∅ ∧ download uploaded.2 = Ok (demo_bytes "wal").
Proof. split; vm_compute; reflexivity. Qed.

(** ** Theorems about [Packer.Run]

    A packer told to stop drains its queue and returns. *)

Section run.
Context {E : Env} {C : Aead} {A : BotAPI} (bots : BotRepository) (error_text : error → string).
Context (leaseOwner : string) (leaseFor batchLimit uploadConcurrency : Z).
Notation schedule := (schedule bots error_text leaseOwner leaseFor batchLimit).

(** C33: a stopped packer drains and returns.  Take any moment of a run at which the
    builder has seen the cancellation.  Whatever the schedule, the failures of
    Telegram and the database and the rest of the program do, the packer makes at
    most [left_over] steps more, and until it has returned it always has one: there
    is no deadlock on the channel and no loop.  When it has returned no job is left,
    and every file whose blobs were all handed out and none of which failed has been
    finalized, unless the drain timed out. *)
Theorem run_drains w0 c0 w1 k c : Run bots uploadConcurrency w0 = (Ok c0, w1) →
  schedule k c0 c → r_mode c = Stopping →
  ∀ m c', schedule m c c' →
    (m ≤ left_over c)%nat
    ∧ (finished c' ∨ ∃ c'', rstep bots error_text leaseOwner leaseFor batchLimit c' c'')
    ∧ (finished c' → ps_jobs (r_st c') = []
       ∧ ∀ t tr, ps_tracks (r_st c') !! t = Some tr → tr_planned tr = true → tr_failed tr = false →
           t ∈ r_final c' ∨ r_cancelled c' = true).
Proof.
  intros H0 Hk Hm m c' Hs. apply schedule_ok in Hk as [Hok _]; [|by eapply Run_ok].
  apply schedule_ok in Hs as [Hok' Hm']; [|exact Hok]. destruct Hm' as [Hmode Hle]; [by rewrite Hm|]. split_and!.
  - lia.
  - by apply run_progress.
  - by apply finished_clean.
Qed.

End run.

(** ** A run *)

(** One worker; the file is split in two; the builder is stopped while the second
    blob is in the channel. *)
Notation demo_schedule := (schedule (A := cloud) demo_bots (λ _, "") "me" (10 * Minute) 64).
Notation demo_execs := (execs (A := cloud) demo_bots (λ _, "") "me" (10 * Minute) 64).
Definition run_start : res rcfg * World := Run demo_bots 1 pack_world.
Definition run_cfg0 : rcfg := match run_start.1 with Ok c => c | Err _ => mkRcfg pack_world pack_start [] Closed Idle [] (mkHistory [] ∅) [] false end.

Definition to_stop : list move := [Poll; Split; Piece; Take 0; Piece; Planned; BatchEnd; Halt].
Definition stop_cfg : rcfg := Eval vm_compute in default run_cfg0 (demo_execs to_stop run_cfg0).

(** From there to the end. *)
Definition to_end : list move := [Land 0; Next 0; Take 0; Land 0; Close; Final 0; Next 0; Exit 0].
Definition end_cfg : rcfg := Eval vm_compute in default run_cfg0 (demo_execs to_end stop_cfg).

Example stop_run : r_mode stop_cfg = Stopping ∧ length (ps_jobs (r_st stop_cfg)) = 1%nat ∧ length (busy (r_workers stop_cfg)) = 1%nat
  ∧ left_over stop_cfg = 9%nat ∧ length to_end = 8%nat ∧ r_final end_cfg = [0%nat]
  ∧ (n_State ∘ nr_node <$> d_nodes (w_db (r_world end_cfg)) !! 13%N) = Some NodeStateStored.
Proof. vm_compute. done. Qed.

Lemma drains_witness : (length to_end ≤ left_over stop_cfg)%nat
  ∧ (finished end_cfg ∨ ∃ c'', rstep (A := cloud) demo_bots (λ _, "") "me" (10 * Minute) 64 end_cfg c'')
  ∧ (finished end_cfg → ps_jobs (r_st end_cfg) = []
     ∧ ∀ t tr, ps_tracks (r_st end_cfg) !! t = Some tr → tr_planned tr = true → tr_failed tr = false →
         t ∈ r_final end_cfg ∨ r_cancelled end_cfg = true).
Proof.
  apply (run_drains (A := cloud) demo_bots (λ _, "") "me" (10 * Minute) 64 1 pack_world run_cfg0 run_start.2 (length to_stop)).
  - vm_compute. reflexivity.
  - apply execs_sound. vm_compute. reflexivity.
  - vm_compute. reflexivity.
  - apply execs_sound. vm_compute. reflexivity.
Defined.
