(* ===== verification/SpecTheorems.v ===== *)
(** * The filesystem implements its abstract specification

    Every history of the program is a history of the abstract filesystem of
    [Spec.v], and what that filesystem holds is what a client downloads. *)
From Stdlib Require Import ZArith Lia Strings.Byte Strings.String Strings.Ascii.
From stdpp Require Import base tactics list gmap sets sorting strings.
From S2P Require Import Prelude Model Sql SqlFacts World Repository Crypto Path FileSystem File Copy.
From S2P Require Import Tree FsFacts RenameFacts CreateFacts WalFacts WriteFacts ReadFacts Session Tenants CopyFacts.
From S2P Require Import Demo Requests Spec.
#[local] Open Scope string_scope.
#[local] Open Scope Z_scope.

(** C1: Any history of MKCOL, PUT, DELETE, MOVE and COPY requests, by any users in any
    order and with the answers the program gives, is a history of the abstract
    filesystem: a request that succeeds was enabled there and has the effect
    specified on its user's tree and no other, one that fails has none.  In the
    state reached, a download of a file of the abstract tree returns its bytes.  After
    an upload that failed or that is longer than [max_file] (2^63 - 2^20) bytes, or a
    move or copy onto an ancestor of its source, which can lose what was there, nothing
    more is said of the tree of the user who asked for it; it is of the trees of all
    others. *)
Theorem filesystem_refines {E : Env} {B : BlobService} st (I : World → Prop) `{!BlobLaws st I} rs w σ :
  uuids_ok → tree_ok (w_db w) → w_tx w = None → (∀ u t, σ u = Some t → represents st u (w_db w) t) →
  ∃ σ', spec_run σ rs (answers rs w) σ' ∧ (∀ u t, σ' u = Some t → represents st u (w_db (serve_all rs w)) t)
    ∧ ∀ ctx user t name c plen fuel, no_faults → serving st I → I (serve_all rs w) → acting ctx = Ok user →
        segs_of name ≠ [] → σ' (u_ID user) = Some t → t (segs_of name) = Some (AFile c) →
        0 < plen → blen c < Z.of_nat fuel → ∃ w2, get ctx name plen fuel (serve_all rs w) = (Ok c, w2).
Proof.
  intros Huu Hd Htx Hσ. destruct (run_refines st rs w σ Huu Hd Htx Hσ) as (σ' & Hrun & Hσ' & Hd' & Htx').
  exists σ'. split_and!; [done..|]. intros ctx user t name c plen fuel Hnf Hsv HI Hact Hne Ht Hc Hplen Hfuel.
  pose proof (Hσ' (u_ID user) t Ht (segs_of name) Hne) as He. rewrite Hc in He. destruct He as (r & Hr & Hdir & Hst).
  destruct (get_content st I ctx user name (segs_of name) r c plen fuel (serve_all rs w)) as (w2 & H2 & _); try done.
  by exists w2.
Qed.

(** ** A history from an empty database *)

Definition start : World := set_db (set_users (d_users demo_db) empty_db) demo_world.
Definition bob_ctx : option Principal := Some (mkPrincipal (Some demo_other) (Some demo_other)).

Definition history : list (option Principal * request) :=
  [(demo_ctx, RMkdir "/a"); (demo_ctx, RPut "/a/x" [demo_bytes "hello "; demo_bytes "world"]);
   (bob_ctx, RMkdir "/a"); (demo_ctx, RCopy "/a" "/c" true false); (demo_ctx, RMove "/a" "/c/d");
   (demo_ctx, RMkdir "/c"); (bob_ctx, RPut "/a/y" [demo_bytes "bob"]); (bob_ctx, RCopy "/a/y" "/a" false true); (demo_ctx, RDelete "/c/x")].

Example history_answers : answers history start =
  [Ok tt; Ok tt; Ok tt; Ok tt; Ok tt; Err OsErrExist; Ok tt; Ok tt; Ok tt].
Proof. vm_compute. reflexivity. Qed.

Lemma start_tree : tree_ok (w_db start).
Proof. apply tree_okb_sound. vm_compute. reflexivity. Qed.

(** All but the copy onto an ancestor, which is another user's. *)
Example history_admissible :
  (λ qx, bool_decide (admissible qx.1 qx.2)) <$> zip history (answers history start)
  = [true; true; true; true; true; true; true; false; true].
Proof. rewrite history_answers. by vm_compute. Qed.

Definition no_blobs : uuid → option bytes := λ _, None.
#[local] Instance no_store : BlobService := {
  blob_ReadBlob := λ _, fail ErrBlobUnavailable;
  blob_Prefetch := λ _, ret tt }.
#[local] Instance no_store_laws : BlobLaws no_blobs (λ _, True).
Proof. split; [done|]. intros id w r w' _ H. unfold blob_ReadBlob, no_store, fail in H. by simplify_eq. Qed.

Lemma filesystem_refines_witness : ∃ σ', spec_run (λ _, Some (λ _, None)) history (answers history start) σ'
  ∧ ∀ u t, σ' u = Some t → represents no_blobs u (w_db (serve_all history start)) t.
Proof.
  destruct (filesystem_refines no_blobs (λ _, True) history start (λ _, Some (λ _, None))) as (σ' & Hrun & Hrep & _).
  - exact demo_uuids.
  - exact start_tree.
  - reflexivity.
  - intros u t Ht q _. assert (t = λ _, None) as -> by congruence. cbn. apply view_None; [exact start_tree|].
    intros id r Hr. exact (λ _ _, match eq_trans (eq_sym Hr) (lookup_empty id) with end).
  - exists σ'. split; [exact Hrun|exact Hrep].
Defined.

(** The bytes arrive where the moves and copies took them; the other user's copy of a
    file onto its directory has lost it. *)
Example history_download :
  (get demo_ctx "/c/d/x" 4 100 (serve_all history start)).1 = Ok (demo_bytes "hello world")
  ∧ (get bob_ctx "/a/y" 4 100 (serve_all history start)).1 = Err OsErrNotExist
  ∧ (get demo_ctx "/a/x" 4 100 (serve_all history start)).1 = Err OsErrNotExist.
Proof. vm_compute. done. Qed.
