(* ===== verification/ConfigTheorems.v ===== *)
(** * Theorems about the configuration, with the facts about numbers and sizes in text

    Rounding of integers to floats, the parser on decimal numerals, and the suffixes
    of a size; then the properties. *)
From Stdlib Require Import ZArith Lia Strings.Byte Strings.String Strings.Ascii.
From stdpp Require Import base tactics list gmap strings pretty.
From S2P Require Import Prelude Model Sql World Repository Crypto Text Number Path Telegram Config.
#[local] Open Scope string_scope.
#[local] Open Scope Z_scope.

(** ** Rounding *)

Lemma round_quot_close n d : 0 < d → 2 * Z.abs (round_quot n d * d - n) <= d.
Proof.
  intros Hd. unfold round_quot. pose proof (Z.div_mod n d ltac:(lia)). pose proof (Z.mod_pos_bound n d Hd).
  destruct (Z.ltb_spec d (2 * (n mod d))); simpl.
  - nia.
  - destruct (Z.eqb_spec (2 * (n mod d)) d); simpl; [destruct (Z.odd (n / d))|]; nia.
Qed.

Lemma round_quot_exact n d : 0 < d → round_quot (n * d) d = n.
Proof.
  intros Hd. pose proof (round_quot_close (n * d) d Hd). nia.
Qed.

(** The exponent chosen for an integer. *)
Lemma last_place_int n : 0 < n → last_place n 1 = Z.max (Z.log2 n - 52) (-1074).
Proof.
  intros Hn. unfold last_place, scale_num, scale_den. change (Z.log2 1) with 0.
  pose proof (Z.log2_spec n Hn) as [Hl _]. pose proof (Z.log2_nonneg n). set (k := Z.log2 n - 0 - 52).
  replace (n * 2 ^ Z.max (- k) 0 <? 2 ^ 52 * (1 * 2 ^ Z.max (- - k) 0)) with false; [by unfold k; rewrite Z.sub_0_r|].
  symmetry. apply Z.ltb_ge. rewrite Z.mul_1_l, <- Z.pow_add_r by lia.
  destruct (decide (0 <= k)) as [Hk|Hk].
  - rewrite (Z.max_r (- k)), (Z.max_l (- - k)) by lia. change (2 ^ 0) with 1.
    replace (52 + - - k) with (Z.log2 n) by (unfold k; lia). lia.
  - rewrite (Z.max_l (- k)), (Z.max_r (- - k)) by lia. rewrite Z.add_0_r.
    replace 52 with (Z.log2 n + - k) at 1 by (unfold k; lia). rewrite Z.pow_add_r by lia.
    apply Z.mul_le_mono_nonneg_r; [apply Z.pow_nonneg; lia|lia].
Qed.

(** Cancelling a power of two. *)
Lemma round64_pow neg n d j : 0 < n → 0 < d → 0 <= j → round64 neg (n * 2 ^ j) (d * 2 ^ j) = round64 neg n d.
Proof.
  intros Hn Hd Hj. assert (0 < 2 ^ j) as Hp by (apply Z.pow_pos_nonneg; lia). unfold round64.
  rewrite (proj2 (Z.eqb_neq n 0)), (proj2 (Z.eqb_neq (n * 2 ^ j) 0)) by nia.
  assert (∀ k, scale_num (n * 2 ^ j) k = scale_num n k * 2 ^ j) as Hs by (intros k; unfold scale_num; ring).
  assert (last_place (n * 2 ^ j) (d * 2 ^ j) = last_place n d) as ->.
  { unfold last_place. rewrite !Z.log2_mul_pow2 by lia. rewrite Hs.
    replace (j + Z.log2 n - (j + Z.log2 d) - 52) with (Z.log2 n - Z.log2 d - 52) by lia. set (k := _ - _ - 52).
    replace (scale_num n (- k) * 2 ^ j <? 2 ^ 52 * (d * 2 ^ j * scale_den (- k)))
      with (scale_num n (- k) <? 2 ^ 52 * (d * scale_den (- k))); [done|].
    replace (2 ^ 52 * (d * 2 ^ j * scale_den (- k))) with (2 ^ 52 * (d * scale_den (- k)) * 2 ^ j) by ring.
    apply eq_true_iff_eq. rewrite !Z.ltb_lt. apply Z.mul_lt_mono_pos_r. lia. }
  set (e := last_place n d). rewrite Hs.
  assert (round_quot (scale_num n (- e) * 2 ^ j) (d * 2 ^ j * scale_den (- e))
          = round_quot (scale_num n (- e)) (d * scale_den (- e))) as ->; [|done].
  assert (0 < scale_den (- e)) as Hsd by (unfold scale_den; apply Z.pow_pos_nonneg; lia).
  unfold round_quot. replace (d * 2 ^ j * scale_den (- e)) with (d * scale_den (- e) * 2 ^ j) by ring.
  set (N := scale_num n (- e)). set (D := d * scale_den (- e)). assert (0 < D) by (unfold D; nia).
  rewrite Z.div_mul_cancel_r by lia. rewrite Zmult_mod_distr_r.
  replace (2 * (N mod D * 2 ^ j)) with (2 * (N mod D) * 2 ^ j) by ring.
  replace (D * 2 ^ j <? 2 * (N mod D) * 2 ^ j) with (D <? 2 * (N mod D)).
  2:{ apply eq_true_iff_eq. rewrite !Z.ltb_lt. apply Z.mul_lt_mono_pos_r. lia. }
  replace (2 * (N mod D) * 2 ^ j =? D * 2 ^ j) with (2 * (N mod D) =? D); [done|].
  apply eq_true_iff_eq. rewrite !Z.eqb_eq. nia.
Qed.

(** An integer is rounded to an integer within half a unit of the 53rd bit, and not
    at all when it has no more bits. *)
Lemma round64_int n : 0 <= n < 2 ^ 1000 →
  ∃ m e, round64 false n 1 = F_fin false m e ∧ 0 <= m
    ∧ Z.abs (scale_num m e / scale_den e - n) * 2 ^ 53 <= n
    ∧ (n < 2 ^ 53 → -1074 <= e <= 0 ∧ m = n * 2 ^ (- e)).
Proof.
  intros [Hn Hmax]. unfold round64. destruct (Z.eqb_spec n 0) as [->|Hne].
  { exists 0, 0. split_and!; try done; try lia. }
  rewrite last_place_int by lia. pose proof (Z.log2_spec n ltac:(lia)) as [Hl Hu]. pose proof (Z.log2_nonneg n).
  set (e := Z.max (Z.log2 n - 52) (-1074)). destruct (decide (e <= 0)) as [He|He].
  - assert (n < 2 ^ 53) as Hsmall.
    { eapply Z.lt_le_trans; [exact Hu|]. apply Z.pow_le_mono_r; lia. }
    assert (round_quot (scale_num n (- e)) (1 * scale_den (- e)) = n * 2 ^ (- e)) as ->.
    { unfold scale_num, scale_den. rewrite (Z.max_l (- e)), (Z.max_r (- - e)) by lia.
      rewrite Z.mul_1_l. change (2 ^ 0) with 1. rewrite <- (Z.mul_1_r (n * _)) at 1. by apply round_quot_exact. }
    assert (0 < 2 ^ (- e)) as Hp by (apply Z.pow_pos_nonneg; lia).
    assert (n * 2 ^ (- e) < 2 ^ 1024 * 1) as Hfit.
    { assert (e = Z.log2 n - 52) as -> by (unfold e; lia). eapply Z.lt_le_trans with (2 ^ Z.succ (Z.log2 n) * 2 ^ (- (Z.log2 n - 52))).
      - apply Z.mul_lt_mono_pos_r; [apply Z.pow_pos_nonneg; lia|lia].
      - rewrite <- Z.pow_add_r by lia. rewrite Z.mul_1_r. apply Z.pow_le_mono_r; lia. }
    exists (n * 2 ^ (- e)), e. unfold scale_num, scale_den. rewrite (Z.max_r e), (Z.max_l (- e)) by lia.
    change (2 ^ 0) with 1. rewrite (proj2 (Z.leb_gt _ _)) by lia. split_and!; try done; try lia.
    rewrite Z.mul_1_r, Z.div_mul by lia. lia.
  - assert (e = Z.log2 n - 52) as Hee by (unfold e; lia).
    assert (0 < 2 ^ e) as Hp by (apply Z.pow_pos_nonneg; lia).
    pose proof (round_quot_close n (2 ^ e) Hp) as Hc.
    assert (2 ^ e * 2 ^ 52 <= n) as Hen by (rewrite <- Z.pow_add_r by lia; by replace (e + 52) with (Z.log2 n) by lia).
    unfold scale_num, scale_den. rewrite (Z.max_r (- e)), (Z.max_l (- - e)) by lia.
    rewrite (Z.max_l e) by lia. change (2 ^ 0) with 1. rewrite Z.mul_1_r, Z.mul_1_l, Z.opp_involutive.
    set (m := round_quot n (2 ^ e)) in *.
    assert (m * 2 ^ e < 2 ^ 1024) as Hfit.
    { assert (2 ^ 1024 = 2 ^ 1000 * 2 ^ 24) by done. lia. }
    rewrite (proj2 (Z.leb_gt _ _)) by lia.
    exists m, e. rewrite (Z.max_l e), (Z.max_r (- e)) by lia. change (2 ^ 0) with 1. rewrite Z.div_1_r.
    split_and!; try done; try nia.
    intros Hs. exfalso. assert (2 ^ 53 <= 2 ^ Z.log2 n) by (apply Z.pow_le_mono_r; lia). lia.
Qed.

(** A product of small integers. *)
Lemma mul64_int n m e k : n < 2 ^ 53 → 0 < n → -1074 <= e <= 0 → m = n * 2 ^ (- e) → 0 < k →
  mul64 (F_fin false m e) k = round64 false (n * k) 1.
Proof.
  intros Hn Hp He -> Hk. simpl. unfold scale_num, scale_den. rewrite (Z.max_r e), (Z.max_l (- e)) by lia.
  change (2 ^ 0) with 1. rewrite <- (round64_pow false (n * k) 1 (- e)) by nia. f_equal; ring.
Qed.

(** ** Decimal numerals *)

Definition is_digit (c : ascii) : bool := match scan_digit c with Some _ => true | None => false end.
Fixpoint all_chars (P : ascii → bool) (s : string) : bool :=
  match s with EmptyString => true | String c t => P c && all_chars P t end.
Abbreviation all_digits := (all_chars is_digit).

Lemma digit_cases (P : ascii → Prop) : P "0"%char → P "1"%char → P "2"%char → P "3"%char → P "4"%char → P "5"%char →
  P "6"%char → P "7"%char → P "8"%char → P "9"%char → ∀ c, is_digit c = true → P c.
Proof. intros H0 H1 H2 H3 H4 H5 H6 H7 H8 H9 c. by destruct c as [[] [] [] [] [] [] [] []]. Qed.

Lemma all_chars_app P a b : all_chars P (a +:+ b) = all_chars P a && all_chars P b.
Proof. induction a as [|c a IH]; [done|]. cbn. by rewrite IH, andb_assoc. Qed.

Lemma all_chars_impl (P Q : ascii → bool) s : (∀ c, P c = true → Q c = true) → all_chars P s = true → all_chars Q s = true.
Proof. intros HPQ. induction s as [|c s IH]; [done|]. cbn. intros [? ?]%andb_true_iff. rewrite HPQ; auto. Qed.

(** The value of a numeral, after the digits [acc]. *)
Fixpoint dec (acc : Z) (s : string) : Z :=
  match s with EmptyString => acc | String c t => dec (10 * acc + default 0 (scan_digit c)) t end.

Lemma dec_app acc a b : dec acc (a +:+ b) = dec (dec acc a) b.
Proof. revert acc. induction a as [|c a IH]; intros acc; [done|]. cbn. apply IH. Qed.

Lemma pretty_char r : (r < 10)%N → scan_digit (pretty_N_char r) = Some (Z.of_N r).
Proof.
  intros Hr. assert (r = 0 ∨ r = 1 ∨ r = 2 ∨ r = 3 ∨ r = 4 ∨ r = 5 ∨ r = 6 ∨ r = 7 ∨ r = 8 ∨ r = 9)%N by lia.
  destruct_or?; by subst.
Qed.

Lemma pretty_go x s : (0 < x)%N → ∃ d, pretty_N_go x s = d +:+ s ∧ all_digits d = true ∧ d ≠ "" ∧ dec 0 d = Z.of_N x.
Proof.
  revert s. induction (N.lt_wf_0 x) as [x _ IH]; intros s Hx. rewrite pretty_N_go_step by done.
  pose proof (N.mod_lt x 10 ltac:(lia)) as Hr. pose proof (pretty_char _ Hr) as Hc.
  pose proof (N.div_mod x 10 ltac:(lia)) as Hdm.
  set (c := pretty_N_char (x `mod` 10)) in *. destruct (decide (x `div` 10 = 0)%N) as [Hz|Hz].
  - exists (String c ""). rewrite Hz, pretty_N_go_0. cbn. unfold is_digit. rewrite Hc. split_and!; try done. simpl. lia.
  - destruct (IH (x `div` 10)%N ltac:(apply N.div_lt; lia) (String c s) ltac:(lia)) as (d & -> & Hd & Hne & Hv).
    exists (d +:+ String c ""). rewrite <- str_app_assoc. split_and!; [done|..].
    + rewrite all_chars_app, Hd. cbn. unfold is_digit. by rewrite Hc.
    + by destruct d.
    + rewrite dec_app, Hv. cbn. rewrite Hc. simpl. lia.
Qed.

Lemma pretty_numeral (n : N) : all_digits (pretty n) = true ∧ pretty n ≠ "" ∧ dec 0 (pretty n) = Z.of_N n.
Proof.
  unfold pretty, pretty_N. case_decide as Hn; [by subst|].
  destruct (pretty_go n "" ltac:(lia)) as (d & -> & ? & ? & ?). by rewrite str_app_nil_r.
Qed.

(** A digit is none of the other characters the parsers look for. *)
Lemma digit_plain c : is_digit c = true →
  Ascii.eqb c "_" = false ∧ Ascii.eqb c "." = false ∧ Ascii.eqb c "+" = false ∧ Ascii.eqb c "-" = false
  ∧ Ascii.eqb (fold_ascii c) "i" = false ∧ Ascii.eqb (fold_ascii c) "n" = false ∧ Ascii.eqb (lower c) "x" = false
  ∧ digit_of false c = scan_digit c.
Proof. revert c. by apply digit_cases. Qed.

Lemma read_digits d m : all_digits d = true → mt_dot m = false → (d ≠ "" ∨ mt_digits m = true) →
  read_mantissa false d m = (mkMantissa (dec (mt_value m) d) (mt_frac m) false true (mt_under m), "").
Proof.
  revert m. induction d as [|c d IH]; intros m Hd Hm Hne.
  - destruct m, Hne; simpl in *; by subst.
  - cbn in Hd. apply andb_true_iff in Hd as [Hc Hd].
    destruct (digit_plain c Hc) as (Hu & Hp & _ & _ & _ & _ & _ & Hs). unfold is_digit in Hc.
    cbn [read_mantissa]. rewrite Hu, Hp, Hs, Hm. destruct (scan_digit c) as [x|] eqn:Hx; [|done].
    rewrite IH; [|done..|by right]. cbn. rewrite Hx. simpl. by rewrite (Z.mul_comm 10).
Qed.

(** A numeral is read as its value. *)
Lemma ParseFloat_numeral d : all_digits d = true → d ≠ "" →
  ParseFloat d = match round64 false (dec 0 d) 1 with F_inf _ => None | x => Some x end.
Proof.
  intros Hd Hne. assert (read_mantissa false d (mkMantissa 0 0 false false false)
    = (mkMantissa (dec 0 d) 0 false true false, "")) as Hr by (by rewrite read_digits by auto).
  destruct d as [|c d]; [done|]. assert (is_digit c = true) as Hc by (cbn in Hd; by apply andb_true_iff in Hd as [? _]).
  destruct (digit_plain c Hc) as (_ & _ & Hpl & Hmi & Hi & Hn & _ & _).
  assert (parse_sign (String c d) = (false, String c d)) as Hs.
  { pattern c. by apply digit_cases. }
  assert (special (String c d) = None) as Hsp.
  { unfold special. rewrite Hs. cbn [EqualFold]. change (fold_ascii "i") with "i"%char. change (fold_ascii "n") with "n"%char.
    by rewrite Hi, Hn. }
  assert (hex_prefix (String c d) = None) as Hh.
  { assert (match d with String x _ => Ascii.eqb (lower x) "x" = false | _ => True end) as Hx.
    { destruct d as [|x d]; [done|]. cbn in Hd. apply andb_true_iff in Hd as [_ [Hx _]%andb_true_iff].
      by destruct (digit_plain x Hx) as (_ & _ & _ & _ & _ & _ & ? & _). }
    clear -Hc Hx. revert Hx. pattern c. apply digit_cases; try done. destruct d as [|x [|y d]]; cbn; by try intros ->. }
  unfold ParseFloat. rewrite Hsp, Hs, Hh, Hr. cbn. by rewrite Z.mul_1_r.
Qed.

(** ** Suffixes *)

(** Characters that are not space, in ASCII: digits and letters. *)
Definition alnum (c : ascii) : bool :=
  let n := nat_of_ascii (fold_ascii c) in is_digit c || ((97 <=? n) && (n <=? 122))%nat.

Lemma TrimSpace_alnum s : all_chars alnum s = true → TrimSpace s = s.
Proof.
  assert (∀ c t, alnum c = true → TrimSpaceLeft (String c t) = String c t) as Hl.
  { intros c t Hc. unfold TrimSpaceLeft. cbn [String.length TrimSpaceLeft_].
    replace (strip_space (String c t)) with (@None string); [done|]. by destruct c as [[] [] [] [] [] [] [] []]. }
  assert (∀ u, all_chars alnum u = true → TrimSpaceRight u = u) as Hr.
  { induction u as [|c u IH]; [done|]. cbn [all_chars TrimSpaceRight]. intros [Hc Hu]%andb_true_iff.
    unfold blank. rewrite Hl by done. cbn. by rewrite IH. }
  intros Hs. unfold TrimSpace. destruct s as [|c s]; [done|]. rewrite Hl; [by apply Hr|].
  cbn in Hs. by apply andb_true_iff in Hs as [? _].
Qed.

Lemma substring_prefix (a b : string) : String.substring 0 (String.length a) (a +:+ b) = a.
Proof. induction a as [|c a IH]; cbn; [by destruct b|]. by rewrite IH. Qed.

Lemma list_of_app (a b : string) : list_ascii_of_string (a +:+ b) = (list_ascii_of_string a ++ list_ascii_of_string b)%list.
Proof. induction a as [|c a IH]; cbn; [done|]. by rewrite IH. Qed.
Lemma string_of_app (a b : list ascii) : string_of_list_ascii (a ++ b)%list = string_of_list_ascii a +:+ string_of_list_ascii b.
Proof. induction a as [|c a IH]; cbn; [done|]. by rewrite IH. Qed.

Lemma str_rev_app (a b : string) : str_rev (a +:+ b) = str_rev b +:+ str_rev a.
Proof. unfold str_rev. by rewrite list_of_app, rev_app_distr, string_of_app. Qed.

Lemma TrimSuffix_app a b : TrimSuffix (a +:+ b) b = a.
Proof.
  unfold TrimSuffix, HasSuffix. rewrite str_rev_app. rewrite (proj2 (HasPrefix_spec _ _)) by by eexists.
  rewrite str_length_app. replace (_ - _)%nat with (String.length a) by lia. apply substring_prefix.
Qed.

(** A numeral ends with a digit. *)
Lemma numeral_last d : all_digits d = true → d ≠ "" → ∃ c t, str_rev d = String c t ∧ is_digit c = true.
Proof.
  intros Hd Hne. induction d as [|c d IH]; [done|]. cbn in Hd. apply andb_true_iff in Hd as [Hc Hd].
  change (String c d) with (String c "" +:+ d). rewrite str_rev_app. destruct d as [|x d]; [by exists c, ""|].
  destruct (IH Hd ltac:(done)) as (y & t & -> & Hy). by exists y, (t +:+ str_rev (String c "")).
Qed.

Lemma TrimRightChar_app c d : is_digit c = false → all_digits d = true →
  TrimRightChar c d = d ∧ TrimRightChar c (d +:+ String c "") = d.
Proof.
  intros Hc Hd. induction d as [|a d IH]; [split; [done|]; cbn; by rewrite Ascii.eqb_refl|].
  cbn in Hd. apply andb_true_iff in Hd as [Ha Hd]. destruct (IH Hd) as [H1 H2]. cbn. rewrite H1, H2.
  assert (Ascii.eqb a c = false) as Hac by (apply Ascii.eqb_neq; congruence).
  destruct d; by rewrite ?Hac.
Qed.

(** The suffixes a size may have, with what they multiply by. *)
Definition size_units : list (string * Z) :=
  [("", 1); ("b", 1); ("k", 1000); ("kb", 1000); ("kib", 2 ^ 10); ("m", 1000 * 1000); ("mb", 1000 * 1000);
   ("mib", 2 ^ 20); ("g", 1000 * 1000 * 1000); ("gb", 1000 * 1000 * 1000); ("gib", 2 ^ 30);
   ("t", 1000 * 1000 * 1000 * 1000); ("tb", 1000 * 1000 * 1000 * 1000); ("tib", 2 ^ 40)].

Definition not_digit (c : ascii) : bool := negb (is_digit c).

(** What a numeral with a suffix ends with, when that has no digit, is for the
    suffix to say. *)
Lemma HasSuffix_numeral d u p : all_digits d = true → d ≠ "" → all_chars not_digit (str_rev p) = true →
  HasSuffix (d +:+ u) p = HasSuffix u p.
Proof.
  intros Hd Hne Hp. destruct (numeral_last d Hd Hne) as (c & t & Hr & Hc). unfold HasSuffix.
  rewrite str_rev_app, Hr. generalize (str_rev p), (str_rev u), Hp. clear p u Hp. unfold HasPrefix.
  induction s as [|x p IH]; intros [|y u] Hp; cbn; try done; cbn in Hp; apply andb_true_iff in Hp as [Hx Hp].
  - destruct (Ascii.eqb_spec c x) as [<-|]; [|done]. unfold not_digit in Hx. by rewrite Hc in Hx.
  - destruct (Ascii.eqb y x); [|done]. by apply IH.
Qed.

Lemma size_suffix_units d u mult : all_digits d = true → d ≠ "" → (u, mult) ∈ size_units →
  size_suffix (d +:+ u) = (mult, d).
Proof.
  intros Hd Hne Hin. unfold size_suffix, binary_suffix, decimal_suffix.
  rewrite !(HasSuffix_numeral d u) by done. unfold size_units in Hin.
  repeat (apply elem_of_cons in Hin as [[= -> ->]|Hin]; [cbn; rewrite ?str_app_nil_r; try done; f_equal|]);
    try by apply elem_of_nil in Hin.
  all: rewrite ?TrimSuffix_app; try done; unfold TrimSuffix; rewrite ?(HasSuffix_numeral d) by done; cbn.
  all: match goal with |- TrimRightChar ?c _ = _ => destruct (TrimRightChar_app c d) as [H1 H2]; done end.
Qed.

(** A suffix in any case. *)
Lemma fold_units u' u mult : (u, mult) ∈ size_units → EqualFold u' u = true →
  ToLower u' = u ∧ all_chars alnum u' = true.
Proof.
  intros Hin. assert (∀ c t, (97 <= nat_of_ascii (fold_ascii c) <= 122)%nat →
    ToLower (String c t) = String (fold_ascii c) (ToLower t) ∧ alnum c = true) as Hc.
  { intros c t Hr. assert (((97 <=? nat_of_ascii (fold_ascii c)) && (nat_of_ascii (fold_ascii c) <=? 122))%nat = true) as Hb
      by (apply andb_true_iff; by rewrite !Nat.leb_le). clear Hr.
    by destruct c as [[] [] [] [] [] [] [] []]. }
  assert (Forall (λ x, fold_ascii x = x ∧ (97 <= nat_of_ascii x <= 122)%nat) (list_ascii_of_string u)) as Hu.
  { unfold size_units in Hin. repeat (apply elem_of_cons in Hin as [[= -> _]|Hin];
      [repeat (constructor; [vm_compute; split_and!; [reflexivity|lia..]|]); constructor|]).
    by apply elem_of_nil in Hin. }
  clear Hin. revert u Hu. induction u' as [|c u' IH]; intros [|d u] Hu; cbn [EqualFold]; try done.
  intros [He Hf]%andb_true_iff. inversion Hu as [|? ? [Hd Hr] Hu']; subst. destruct (IH u Hu' Hf) as [H1 H2].
  apply Ascii.eqb_eq in He. rewrite Hd in He. destruct (Hc c u') as [H3 H4]; [by rewrite He|]. rewrite He in H3. rewrite H3, H1. cbn [all_chars]. by rewrite H4, H2.
Qed.

Lemma ToLower_numeral d u : all_digits d = true → ToLower (d +:+ u) = d +:+ ToLower u.
Proof.
  induction d as [|c d IH]; [done|]. cbn [all_chars]. intros [Hc Hd]%andb_true_iff.
  transitivity (String c (ToLower (d +:+ u))); [|by rewrite IH].
  pattern c. by apply digit_cases.
Qed.

Lemma digit_alnum c : is_digit c = true → alnum c = true.
Proof. unfold alnum. by intros ->. Qed.

Lemma unit_pos u mult : (u, mult) ∈ size_units → 0 < mult.
Proof.
  intros Hin. unfold size_units in Hin. repeat (apply elem_of_cons in Hin as [[= _ ->]|Hin]; [done|]).
  by apply elem_of_nil in Hin.
Qed.

(** A size: a numeral and a suffix. *)
Lemma parseSize_numeral `{Arch} d u' u mult : all_digits d = true → d ≠ "" → (u, mult) ∈ size_units →
  EqualFold u' u = true →
  parseSize (d +:+ u') =
    match ParseFloat d with
    | Some x => if is_neg64 x then None else Some (int64_of_float (mul64 x mult))
    | None => None
    end.
Proof.
  intros Hd Hne Hin Hf. destruct (fold_units u' u mult Hin Hf) as [Hl Ha].
  assert (all_chars alnum d = true) as Hda by (by eapply all_chars_impl; [apply digit_alnum|]).
  unfold parseSize. rewrite TrimSpace_alnum by (by rewrite all_chars_app, Hda).
  replace (String.eqb (d +:+ u') "") with false by (by destruct d).
  rewrite ToLower_numeral, Hl, (size_suffix_units d u mult) by done.
  by rewrite TrimSpace_alnum.
Qed.

(** ** The [.env] file *)

(** Can the process environment hold the assignment? *)
Definition settable (kv : string * string) : bool :=
  negb (String.eqb kv.1 "" || StringHas "=" kv.1 || StringHas NUL_char kv.1 || StringHas NUL_char kv.2).

(** The assignments of a file, in order. *)
Definition assignments (file : option string) : list (string * string) :=
  match file with
  | Some content => List.filter settable (omap parse_line (Scan content).1)
  | None => []
  end.

(** The first value a list of assignments gives to a name. *)
Definition assigned (l : list (string * string)) (key : string) : option string :=
  snd <$> find_first (λ kv, String.eqb kv.1 key) l.

Lemma assigned_cons k v l key : assigned ((k, v) :: l) key = if String.eqb k key then Some v else assigned l key.
Proof.
  unfold assigned, find_first. simpl. destruct (String.eqb k key); simpl; [done|].
  by destruct (list_find _ l) as [[]|].
Qed.

Lemma load_lines_lookup ls env key :
  foldl load_line env ls !! key =
    match env !! key with Some v => Some v | None => assigned (List.filter settable (omap parse_line ls)) key end.
Proof.
  revert env. induction ls as [|l ls IH]; intros env; [simpl; by destruct (env !! key)|]. simpl foldl. rewrite IH.
  unfold load_line. simpl omap. destruct (parse_line l) as [[k v]|]; [|done]. simpl List.filter.
  assert (settable (k, v) = negb (String.eqb k "" || StringHas "=" k || StringHas NUL_char k || StringHas NUL_char v))
    as -> by done.
  unfold Setenv. destruct (String.eqb k "" || StringHas "=" k || StringHas NUL_char k || StringHas NUL_char v); simpl.
  { by destruct (env !! k). }
  rewrite assigned_cons. destruct (String.eqb_spec k key) as [->|Hne].
  - destruct (env !! key) eqn:He; rewrite ?He; [done|]. by rewrite lookup_insert_eq.
  - destruct (env !! k); [done|]. by rewrite lookup_insert_ne.
Qed.

(** A [.env] file adds to the environment and overrides nothing. *)
Lemma loadDotenv_lookup file env key :
  (loadDotenv file env).1 !! key =
    match env !! key with Some v => Some v | None => assigned (assignments file) key end.
Proof.
  unfold loadDotenv, assignments. destruct file as [content|]; [|simpl; by destruct (env !! key)].
  destruct (Scan content) as [ls err]. simpl. apply load_lines_lookup.
Qed.

Lemma cobra_flag c given key d : list_to_map (M := gmap string string) (command_flags c) !! key = Some d →
  cobra_flags c given !! key = Some (match given !! key with Some v => mkFlag v true | None => mkFlag d false end).
Proof. intros Hd. unfold cobra_flags. by rewrite map_lookup_imap, Hd. Qed.

Lemma cobra_no_flag c given key : list_to_map (M := gmap string string) (command_flags c) !! key = None →
  cobra_flags c given !! key = None.
Proof. intros Hd. unfold cobra_flags. by rewrite map_lookup_imap, Hd. Qed.

(** ** The configuration of the commands: properties

    Where a setting comes from, what a size is parsed to, and what becomes of the
    program when it is started without a subcommand. *)

(** ** Precedence *)

(** Where a setting comes from: the command line; else the variable of the process,
    else of the [.env] file, if it is not empty; else the default. *)
Definition setting (given : gmap string string) (env : environ) (file : option string) (key default : string) : string :=
  match given !! key with
  | Some v => v
  | None =>
      let name := env_name (newViper ∅) key in
      match (match env !! name with Some x => Some x | None => assigned (assignments file) name end) with
      | Some x => if String.eqb x "" then default else x
      | None => default
      end
  end.

Lemma GetString_setting `{Viper} c given env file key d : ViperLaw →
  list_to_map (M := gmap string string) (command_flags c) !! key = Some d →
  viper_GetString (newViper (cobra_flags c given)) (loadDotenv file env).1 key = setting given env file key d.
Proof.
  intros HV Hd. rewrite HV by done. simpl vp_flags. rewrite (cobra_flag c given key d Hd). unfold setting.
  destruct (given !! key) as [v|]; [done|]. unfold Getenv. rewrite loadDotenv_lookup.
  change (env_name (newViper (cobra_flags c given)) key) with (env_name (newViper ∅) key).
  by destruct (env !! _); [|destruct (assigned _ _)].
Qed.

(** C34: the configuration of the server is what the documentation says: each setting
    comes from its flag when that was given, else from its variable in the process
    environment, else from the [.env] file named by [--env-file], else it is the
    default; a variable that is set is never overridden by the file, and the first
    assignment of a file counts. *)
Theorem config_precedence `{Viper} `{Arch} given files env cfg env' : ViperLaw →
  loadServerConfig (cobra_flags CmdServer given) files env = (Ok cfg, env') →
  let file := files (default ".env" (given !! "env-file")) in
  let get := setting given env file in
  DSN cfg = get "dsn" "" ∧ DSN cfg ≠ "" ∧
  WebDAVAddr cfg = get "webdav-addr" ":8080" ∧ MgmtAddr cfg = get "mgmt-addr" ":8081" ∧
  LogLevel cfg = get "log-level" "info" ∧
  parseSize (get "cache-size" "1GiB") = Some (CacheSize cfg) ∧
  (get "cache-dir" "" ≠ "" → CacheDir cfg = get "cache-dir" "") ∧
  FirstUser cfg = get "first-user" "" ∧ (FirstUser cfg = "" ∨ StringHas ":" (FirstUser cfg) = true) ∧
  SecretKey cfg = (if String.eqb (get "secret-key" "") "" then None
                   else Some (sha256 (bytes_of (get "secret-key" "")))) ∧
  ∀ name v, env !! name = Some v → env' !! name = Some v.
Proof.
  intros HV Hload file get. unfold loadServerConfig in Hload.
  assert (Flags_GetString (cobra_flags CmdServer given) "env-file" = default ".env" (given !! "env-file")) as Hf.
  { unfold Flags_GetString. rewrite (cobra_flag CmdServer given "env-file" ".env") by done. by destruct (given !! "env-file"). }
  rewrite Hf in Hload. fold file in Hload. injection Hload as Hres <-.
  assert (∀ key d, list_to_map (M := gmap string string) (command_flags CmdServer) !! key = Some d →
    viper_GetString (newViper (cobra_flags CmdServer given)) (loadDotenv file env).1 key = get key d) as Hget.
  { intros key d Hd. by apply GetString_setting. }
  clearbody get file. clear Hf. unfold resolve in Hres. rewrite (Hget "dsn" ""), (Hget "first-user" ""), (Hget "cache-size" "1GiB"), (Hget "cache-dir" ""),
    (Hget "secret-key" ""), (Hget "webdav-addr" ":8080"), (Hget "mgmt-addr" ":8081"), (Hget "log-level" "info") in Hres by done.
  destruct (String.eqb_spec (get "dsn" "") ""); [done|]. destruct (parseSize _) as [size|] eqn:Hsz; [|done].
  destruct (negb (String.eqb (get "first-user" "") "") && negb (StringHas ":" (get "first-user" ""))) eqn:Hu; [done|].
  injection Hres as <-. simpl. split_and!; try done.
  - intros Hne. by destruct (String.eqb_spec (get "cache-dir" "") "").
  - apply andb_false_iff in Hu as [Hu|Hu]; apply negb_false_iff in Hu; [left; by apply String.eqb_eq|by right].
  - intros name v Hv. by rewrite loadDotenv_lookup, Hv.
Qed.

(** without a subcommand the program runs the server's code with the flags of the
    root command, which has no [--cache-size]: its default is not applied, and unless
    the variable is set the program refuses to start. *)
Theorem bare_command_refuses `{Viper} `{Arch} given files env : ViperLaw →
  let file := files (default ".env" (given !! "env-file")) in
  Getenv (loadDotenv file env).1 "TGWEBDAV_CACHE_SIZE" = "" →
  let r := (loadServerConfig (cobra_flags CmdRoot given) files env).1 in r = Err ErrNoDSN ∨ r = Err ErrCacheSize.
Proof.
  intros HV file Hsize. unfold loadServerConfig.
  assert (Flags_GetString (cobra_flags CmdRoot given) "env-file" = default ".env" (given !! "env-file")) as ->.
  { unfold Flags_GetString. rewrite (cobra_flag CmdRoot given "env-file" ".env") by done. by destruct (given !! "env-file"). }
  fold file. simpl. unfold resolve.
  assert (viper_GetString (newViper (cobra_flags CmdRoot given)) (loadDotenv file env).1 "cache-size" = "") as ->.
  { rewrite HV by done. simpl vp_flags. rewrite cobra_no_flag by done.
    change (env_name (newViper (cobra_flags CmdRoot given)) "cache-size") with "TGWEBDAV_CACHE_SIZE". by rewrite Hsize. }
  destruct (String.eqb _ ""); [by left|by right].
Qed.

(** ** Sizes *)

(** C35: a size written as a whole number with one of the documented suffixes, in any
    case, is parsed to their product: exactly below 2^53 bytes, and to a relative
    error of less than 2^-53 above, for numbers up to 2^53 and products that an
    [int64] holds with room for the rounding. *)
Theorem parse_size_close `{Arch} (n : N) u' u mult : (u, mult) ∈ size_units → EqualFold u' u = true →
  Z.of_N n < 2 ^ 53 → Z.of_N n * mult < 2 ^ 62 →
  ∃ z, parseSize (pretty n +:+ u') = Some z ∧ Z.abs (z - Z.of_N n * mult) * 2 ^ 53 <= Z.of_N n * mult
    ∧ (Z.of_N n * mult < 2 ^ 53 → z = Z.of_N n * mult).
Proof.
  intros Hin Hf Hn Hp. pose proof (unit_pos u mult Hin) as Hm.
  destruct (pretty_numeral n) as (Hd & Hne & Hv). rewrite (parseSize_numeral (pretty n) u' u mult) by done.
  rewrite ParseFloat_numeral, Hv by done. set (k := Z.of_N n) in *. assert (0 <= k) as Hk by (unfold k; lia).
  assert (2 ^ 53 < 2 ^ 1000 ∧ 2 ^ 62 < 2 ^ 1000) as [? ?] by done.
  destruct (decide (k = 0)) as [Hk0|Hk0].
  { rewrite Hk0. exists 0. split; [done|]. lia. }
  destruct (round64_int k ltac:(lia)) as (m & e & -> & Hm0 & _ & Hexact). destruct (Hexact Hn) as [He ->].
  rewrite (mul64_int k) by (done || lia).
  destruct (round64_int (k * mult) ltac:(nia)) as (m' & e' & -> & Hm' & Hclose & _).
  unfold int64_of_float, is_neg64, trunc64. simpl andb.
  set (z := scale_num m' e' / scale_den e') in *.
  assert (Z.abs (z - k * mult) * 2 ^ 53 < 1 * 2 ^ 53 ∨ 2 ^ 53 <= k * mult) as Hc by lia.
  assert (in_int64 z = true) as -> by (apply in_int64_spec; int_lia).
  exists z. split; [done|]. split; [done|]. lia.
Qed.

(** ** A configuration *)

#[local] Instance demo_viper : Viper := λ v env key,
  match vp_flags v !! key with
  | Some (mkFlag val true) => val
  | f => let x := Getenv env (env_name v key) in
         if String.eqb x "" then match f with Some d => fl_value d | None => "" end else x
  end.

Lemma demo_viper_law : ViperLaw.
Proof. by intros v env key _. Qed.

(** What amd64 does. *)
#[local] Instance amd64 : Arch := {| arch_int64 := λ _, min_int64; arch_int64_range := λ _, eq_refl |}.

Definition newline : string := String "010" EmptyString.
Definition demo_env : environ := <["TGWEBDAV_LOG_LEVEL" := "debug"]> (<["HOME" := "/home/u"]> ∅).
Definition demo_dotenv : string :=
  "# a comment" +:+ newline +:+ "export TGWEBDAV_DSN = 'postgres://db' " +:+ newline
  +:+ "TGWEBDAV_LOG_LEVEL=error" +:+ newline +:+ "TGWEBDAV_CACHE_SIZE=512MiB" +:+ newline +:+ "TGWEBDAV_SECRET_KEY=k".
Definition demo_files (name : string) : option string := if String.eqb name ".env" then Some demo_dotenv else None.
Definition demo_given : gmap string string := <["mgmt-addr" := ":9"]> ∅.
Definition demo_config : serverConfig :=
  mkServerConfig "postgres://db" ":8080" ":9" "/home/u/.cache/tgwebdav" (512 * 2 ^ 20) "" (Some (sha256 (bytes_of "k"))) "debug".

Lemma demo_load : (loadServerConfig (cobra_flags CmdServer demo_given) demo_files demo_env).1 = Ok demo_config.
Proof. vm_compute. reflexivity. Qed.

Lemma config_precedence_witness : let file := demo_files (default ".env" (demo_given !! "env-file")) in
  let get := setting demo_given demo_env file in
  DSN demo_config = get "dsn" "" ∧ DSN demo_config ≠ "" ∧
  WebDAVAddr demo_config = get "webdav-addr" ":8080" ∧ MgmtAddr demo_config = get "mgmt-addr" ":8081" ∧
  LogLevel demo_config = get "log-level" "info" ∧
  parseSize (get "cache-size" "1GiB") = Some (CacheSize demo_config) ∧
  (get "cache-dir" "" ≠ "" → CacheDir demo_config = get "cache-dir" "") ∧
  FirstUser demo_config = get "first-user" "" ∧ (FirstUser demo_config = "" ∨ StringHas ":" (FirstUser demo_config) = true) ∧
  SecretKey demo_config = (if String.eqb (get "secret-key" "") "" then None
                           else Some (sha256 (bytes_of (get "secret-key" "")))) ∧
  ∀ name v, demo_env !! name = Some v →
    (loadServerConfig (cobra_flags CmdServer demo_given) demo_files demo_env).2 !! name = Some v.
Proof.
  apply config_precedence; [exact demo_viper_law|]. apply injective_projections; [exact demo_load|reflexivity].
Defined.

(** The server starts with the default size where the bare command does not. *)
Definition only_dsn (name : string) : option string :=
  if String.eqb name ".env" then Some "TGWEBDAV_DSN=postgres://db" else None.

Example server_starts : CacheSize <$> (match (loadServerConfig (cobra_flags CmdServer ∅) only_dsn demo_env).1 with
  Ok c => Some c | Err _ => None end) = Some (2 ^ 30).
Proof. vm_compute. reflexivity. Qed.

Lemma bare_command_witness : let r := (loadServerConfig (cobra_flags CmdRoot ∅) only_dsn demo_env).1 in
  r = Err ErrNoDSN ∨ r = Err ErrCacheSize.
Proof. apply bare_command_refuses; [exact demo_viper_law|vm_compute; reflexivity]. Defined.

Example bare_command_size : (loadServerConfig (cobra_flags CmdRoot ∅) only_dsn demo_env).1 = Err ErrCacheSize.
Proof. vm_compute. reflexivity. Qed.

Lemma parse_size_witness : ∃ z, parseSize (pretty 3%N +:+ "GiB") = Some z
  ∧ Z.abs (z - Z.of_N 3 * 2 ^ 30) * 2 ^ 53 <= Z.of_N 3 * 2 ^ 30
  ∧ (Z.of_N 3 * 2 ^ 30 < 2 ^ 53 → z = Z.of_N 3 * 2 ^ 30).
Proof.
  apply (parse_size_close 3 "GiB" "gib"); [|reflexivity..]. unfold size_units. by repeat (left || right).
Defined.

(** Values that are no size are accepted: what they become depends on the machine. *)
Lemma sizes_out_of_range : Forall (λ s, parseSize s = Some min_int64) ["1e30"; "inf"; "nan"; "16777216TiB"].
Proof. repeat constructor; vm_compute; reflexivity. Qed.

Example sizes : parseSize "1.5 KiB" = Some 1536 ∧ parseSize "-1" = None ∧ parseSize "" = None ∧ parseSize "5kkkb" = Some 5000
  ∧ parseSize "12x" = None ∧ parseSize "0.1gb" = Some 100000000.
Proof. vm_compute. done. Qed.
