(* ===== verification/ServerTheorems.v ===== *)
(** * The Management API, from the request to the handler: properties

    Which operation a request runs, and for whom. *)
From Stdlib Require Import ZArith Lia Strings.Byte Strings.String Strings.Ascii.
From stdpp Require Import base tactics list gmap strings.
From S2P Require Import Prelude Model Sql SqlFacts World Repository Crypto Text Password Accounts Identity Limiter.
From S2P Require Import FileSystem Path Tree Telegram Bots WebDav Management Server IdentityFacts ServerFacts.
From S2P Require Import Demo BlobTheorems IdentityTheorems.
#[local] Open Scope string_scope.
#[local] Open Scope Z_scope.
Open Scope m_scope.

Section management.
Context {E : Env} {C : Aead} {A : BotAPI} {K : Kdf} {O : Oapi} {D : BodyDecoder} (bots : BotRepository).
Context (redirect : string → apiReq → apiResp).

(** C13: the registered patterns and their wrappers serve exactly the documented
    operations: a request whose method and path are those of an operation runs its
    handler on the parameters and the body of the request, and is a bad request that
    runs nothing when a parameter does not bind; any other request is answered
    without touching anything. *)
Theorem api_dispatches r : cleanPath (rq_Escaped r) = rq_Escaped r →
  match operation_of r with
  | Some (Some op) => ∀ w, mux_ServeHTTP redirect (management_mux bots) r w = perform bots op w
  | Some None => ∀ w, mux_ServeHTTP redirect (management_mux bots) r w = (Ok (writeJSONError 400), w)
  | None => ∃ x, ∀ w, mux_ServeHTTP redirect (management_mux bots) r w = (Ok x, w)
  end.
Proof.
  intros Hc. destruct (operation_of r) as [[op|]|] eqn:Hop.
  - intros w. by rewrite (mux_dispatch bots redirect r _ Hop Hc).
  - intros w. by rewrite (mux_dispatch bots redirect r _ Hop Hc).
  - destruct (mux_cases bots redirect r) as [(p & Hp & _)|[x Hx]]; [congruence|]. exists x. intros w. by rewrite Hx.
Qed.

(** C11: the administrator gate.  However a request is made up (method, encoding of
    the path, query, body, credentials), one of three things happens: its path is
    public and nothing at all changes; or its credentials were those of an
    administrator in the tables, and what follows is the mux's doing; or it is
    refused with 401, 403 or 500 and the tables are as before but for the last use
    of a token. *)
Theorem admin_gate r w x w' : auth_history w → plain_users (w_db w) → url_ok r →
  ManagementHandler bots redirect r w = (x, w') →
  (isManagementPublic (rq_Path r) = true ∧ w' = w ∧ ∃ a, x = Ok a)
  ∨ (∃ u w1, admin_proof (w_db w) (rq_Authorization r) u ∧ touched (w_db w) (w_db w1)
      ∧ (x, w') = (let? y := mux_ServeHTTP redirect (management_mux bots) r in
                   match y with Ok a => ret a | Err _ => ret (mkApiResp 500 [] BNone) end) w1)
  ∨ (∃ a, x = Ok a ∧ refused a) ∧ touched (w_db w) (w_db w').
Proof.
  intros Hh%auth_history_vc Hpl Hurl. unfold ManagementHandler. rewrite try_run.
  destruct (isManagementPublic (rq_Path r)) eqn:Hp.
  { intros H. left. split; [done|]. destruct (mux_cases bots redirect r) as [(p & Hop & Hc & Hm)|[a Ha]].
    - apply (public_operation r p Hurl Hp Hc) in Hop as ->. rewrite Hm in H. injection H as <- <-. split; [done|]. by eexists.
    - rewrite Ha in H. injection H as <- <-. split; [done|]. by eexists. }
  unfold AdminAuth. rewrite try_run.
  destruct (authenticateAdmin (rq_Authorization r) w) as [y w1] eqn:Ha. cbn [fst snd].
  apply authenticateAdmin_run in Ha as (_ & _ & Hto & Hx); [|done..]. intros H. right. destruct y as [u|e].
  - left. exists u, w1. split_and!; [done..|]. by rewrite try_run.
  - right. split; [|by destruct (is_panic e), (errors_Is e ErrForbidden); injection H as <- <-].
    destruct (is_panic e), (errors_Is e ErrForbidden); injection H as <- <-; eexists; (split; [reflexivity|]); split; cbn; auto.
Qed.

End management.

(** ** Concrete requests *)

(** Ids are decimal numbers; the other parameters and the bodies are plain text. *)
Definition demo_id (s : string) : option uuid :=
  match scan_digits 0 s with
  | (n, EmptyString) => if String.eqb s "" then None else Some (Z.to_N n)
  | _ => None
  end.
Definition demo_param (required : bool) (name : string) (q : list (string * string)) : option (option string) :=
  match find_first (λ kv : string * string, String.eqb kv.1 name) q with
  | Some kv => Some (Some kv.2)
  | None => if required then None else Some None
  end.
#[global] Instance demo_oapi : Oapi := {
  bind_uuid := λ _, demo_id;
  bind_string := demo_param;
  bind_int32 := λ req name q, match demo_param req name q with
    | Some (Some s) => (λ u, Some (Z.of_N u)) <$> demo_id s | Some None => Some None | None => None end;
  bind_time := λ req name q, match demo_param req name q with
    | Some (Some s) => (λ u, Some (Z.of_N u)) <$> demo_id s | Some None => Some None | None => None end }.
#[global] Instance demo_decoder : BodyDecoder := {
  decode_AddBot := λ b, Some (string_of b); decode_SetEnabled := λ b, Some (0 <? blen b);
  decode_AddChannel := λ b, Some (blen b); decode_SetEviction := λ b, Some (blen b);
  decode_UpdateSettings := λ _, None; decode_CreateUser := λ _, None;
  decode_SetPassword := λ b, Some (string_of b); decode_CreateToken := λ b, Some (string_of b) }.
Definition demo_redirect (path : string) (_ : apiReq) : apiResp := mkApiResp 307 [("Location", path)] BNone.

Definition request (method path escaped : string) (q : list (string * string)) (auth : string) : apiReq :=
  mkApiReq method path escaped q auth [] [] [].
Definition answer (r : apiReq) : res apiResp :=
  (ManagementHandler (A := gone_api) demo_bots demo_redirect r auth_world).1.

(** ["Basic " + base64("root:secret")]. *)
Definition basic_root : string := "Basic cm9vdDpzZWNyZXQ=".

(** The list of users is answered to the administrator and refused to others; the
    health check is open to all, in any spelling; what does not bind, what has no
    pattern and what is not clean is answered by the mux. *)
Example gates :
  answer (request "GET" "/api/v1/users" "/api/v1/users" [] basic_root)
    = Ok (writeJSON 200 (BUsers (toAPIUser <$> [root_row; ann_row])))
  ∧ res_map ar_Status (answer (request "HEAD" "/api/v1/users" "/api/v1/%75sers" [] basic_root)) = Ok 200
  ∧ res_map ar_Status (answer (request "GET" "/api/v1/users" "/api/v1/users" [] "Basic YW5uOnB3")) = Ok 403
  ∧ res_map ar_Status (answer (request "GET" "/api/v1/users" "/api/v1/users" [] "")) = Ok 401
  ∧ res_map ar_Status (answer (request "GET" "/healthz" "/%68ealthz" [] "")) = Ok 200
  ∧ res_map ar_Status (answer (request "DELETE" "/api/v1/users/me" "/api/v1/users/me" [] basic_root)) = Ok 400
  ∧ res_map ar_Status (answer (request "GET" "/api/v1/stats" "/api/v1/stats" [] basic_root)) = Ok 400
  ∧ (answer (request "PATCH" "/api/v1/users/1" "/api/v1/users/1" [] basic_root)) =
      Ok (mkApiResp 405 [("Allow", "DELETE, GET, HEAD"); ("Content-Type", "text/plain; charset=utf-8");
                         ("X-Content-Type-Options", "nosniff")] (BText "Method Not Allowed"))
  ∧ res_map ar_Status (answer (request "GET" "/api/v1/nothing" "/api/v1/nothing" [] basic_root)) = Ok 404
  ∧ res_map ar_Status (answer (request "GET" "/api//v1/users" "/api//v1/users" [] basic_root)) = Ok 307.
Proof. vm_compute. done. Qed.

Definition revoke : apiReq := request "DELETE" "/api/v1/users/3/tokens/5" "/api/v1/users/3/tokens/5" [] "".

Lemma revoke_operation : operation_of revoke = Some (Some (OpDeleteUserToken 3 5)).
Proof. vm_compute. reflexivity. Qed.

Lemma dispatch_witness :
  mux_ServeHTTP demo_redirect (management_mux (A := gone_api) demo_bots) revoke auth_world
  = perform (A := gone_api) demo_bots (OpDeleteUserToken 3 5) auth_world.
Proof.
  assert (cleanPath (rq_Escaped revoke) = rq_Escaped revoke) as Hc by (vm_compute; reflexivity).
  pose proof (api_dispatches (A := gone_api) demo_bots demo_redirect revoke Hc) as H.
  rewrite revoke_operation in H. exact (H auth_world).
Defined.

Lemma admin_witness : let r := request "GET" "/api/v1/users" "/api/v1/users" [] "" in
  let y := ManagementHandler (A := gone_api) demo_bots demo_redirect r auth_world in
  (isManagementPublic (rq_Path r) = true ∧ y.2 = auth_world ∧ ∃ a, y.1 = Ok a)
  ∨ (∃ u w1, admin_proof (w_db auth_world) (rq_Authorization r) u ∧ touched (w_db auth_world) (w_db w1)
      ∧ (y.1, y.2) = (let? y := mux_ServeHTTP demo_redirect (management_mux (A := gone_api) demo_bots) r in
                   match y with Ok a => ret a | Err _ => ret (mkApiResp 500 [] BNone) end) w1)
  ∨ (∃ a, y.1 = Ok a ∧ refused a) ∧ touched (w_db auth_world) (w_db y.2).
Proof.
  apply (admin_gate (A := gone_api) demo_bots demo_redirect).
  - by apply ah_start.
  - exact auth_plain.
  - vm_compute. reflexivity.
  - apply surjective_pairing.
Defined.

(** The gate of the Management API takes the credentials of an administrator acting
    for another user. *)
Theorem impersonation_passes_gate :
  res_map ar_Status (answer (request "GET" "/api/v1/users" "/api/v1/users" [] "Basic cm9vdC9hbm46c2VjcmV0")) = Ok 200.
Proof. vm_compute. done. Qed.
