(* ===== verification/SystemTheorems.v ===== *)
(** * Theorems about the whole server

    What holds of the tables whatever the parts of the server do, in any order and
    over any number of restarts; and what an administrator's request can change. *)
From Stdlib Require Import ZArith Lia Strings.Byte Strings.String.
From stdpp Require Import base tactics list gmap sets strings relations.
From S2P Require Import Prelude Model Sql SqlFacts World Keeps Repository Crypto Text Password Accounts Identity Limiter.
From S2P Require Import Path FileSystem File WebDav Tree FsFacts WriteFacts ReadFacts CopyFacts Tenants Requests Session.
From S2P Require Import Cache CacheFacts Telegram Config BlobReader BlobFacts LossFacts WebFacts.
From S2P Require Import Bots Maintenance Management Server ServerFacts SparesFacts SafeFacts.
From S2P Require Import Packer PackerFacts Run RunFacts Script System SystemFacts.
From S2P Require Import Demo BlobTheorems BotTheorems IdentityTheorems WebTheorems PackerTheorems ServerTheorems.
#[local] Open Scope string_scope.
#[local] Open Scope Z_scope.
Open Scope m_scope.

Section whole.
Context {E : Env} {C : Aead} {A : BotAPI} {K : Kdf} {R : RateLib} {W : WebLib} {O : Oapi} {D : BodyDecoder}.
Context (redirect : string → apiReq → apiResp) (error_text : error → string) (config : serverConfig).
Context {L : WebLaws (B := blobReader config)}.

(** C2: the whole server is safe.  Start from tables that are [fine], such as empty
    ones, and let requests of both endpoints, maintenance, statistics, the sweeps of
    the cache and the limiter, and every goroutine of the packer follow each other in
    any order, with any failures, and the process stop and start again at any time.
    Then the namespace is a tree; every extent lies on a blob, which the reaper will
    not collect; no blob counts fewer references than it has; and what the packer is
    about to finalize has its bytes stored. *)
Theorem system_safe w0 s : uuids_ok → fine (w_db w0) → w_tx w0 = None →
  rtc (sstep redirect error_text config) (Down w0) s →
  let d := w_db (world_of s) in
  tree_ok d
  ∧ (∀ k e, d_extents d !! k = Some e → ∃ b, d_blobs d !! e_BlobID e = Some b
       ∧ ∀ now, collectable now BlobStateStored b = false)
  ∧ (∀ id b, d_blobs d !! id = Some b → refs id d ≤ b_Refcount b)
  ∧ match s with
    | Down _ => True
    | Up _ c => ∀ t, t ∈ (r_bready c ++ finals (r_workers c))%list → ∃ tr, ps_tracks (r_st c) !! t = Some tr
        ∧ whole (got (h_read (r_hist c)) t) tr
        ∧ ∀ e, e ∈ tr_extents tr → ∃ data, (e_BlobID e, data) ∈ h_landed (r_hist c)
            ∧ carries (got (h_read (r_hist c)) t) e data
    end.
Proof.
  intros Huu Hf Htx Hr d. apply (server_invariant redirect error_text config _ _ Huu) in Hr as [[[Ft Fr Fc] _] Hc]; [|by split].
  fold d in Ft, Fr, Fc. split_and!; [done| |done|].
  - intros k e He. destruct (Fr k e He) as [b Hb]. exists b. split; [done|]. intros now. specialize (Fc _ _ Hb).
    assert (0 < refs (e_BlobID e) d) as Hpos by by eapply refs_pos.
    unfold collectable. rewrite (proj2 (Z.leb_gt _ _)) by lia. by rewrite andb_false_r.
  - destruct s as [w|p c]; [done|]. intros t Ht. destruct Hc as [[Hok _] _ _ _].
    destruct (ready_landed _ t Hok Ht) as (tr & Htr & _ & Hw & He). exists tr. split_and!; [done..|].
    intros e Hin. by apply He.
Qed.

(** C12: a request to the Management API, whatever it is, makes no file, and changes,
    moves or deletes none but those of the user it asks to delete; of the blobs it
    changes the states only. *)
Theorem management_spares_files (bots : BotRepository) r w x w' : tree_ok (w_db w) →
  ManagementHandler bots redirect r w = (x, w') →
  (∀ id row, d_nodes (w_db w') !! id = Some row → d_nodes (w_db w) !! id = Some row)
  ∧ (∀ id row, d_nodes (w_db w) !! id = Some row → operation_of r ≠ Some (Some (OpDeleteUser (ruser row))) →
       d_nodes (w_db w') !! id = Some row ∧ ∀ st c, stores st id row (w_db w) c → stores st id row (w_db w') c)
  ∧ ∀ b, blob_with_state BlobStateStored <$> d_blobs (w_db w') !! b = blob_with_state BlobStateStored <$> d_blobs (w_db w) !! b.
Proof.
  intros Hd H. pose (U := λ v, operation_of r = Some (Some (OpDeleteUser v))).
  assert (Keeps (leaves (spares_users U)) (ManagementHandler bots redirect r)) as Hk.
  { apply (management_keeps redirect bots _); [intros d d'; apply spares_spares_users|]. intros op Hop.
    destruct op; try by apply (leaves_sub _ spares), Spares_perform; [intros d d'; apply spares_spares_users|intros ?].
    cbn [perform]. apply (leaves_sub _ (spares_users (λ v, v = id))).
    - intros d d' Hs Ht. destruct (Hs Ht) as [S1 S2 S3 S4]. split; try done. intros i row HU. apply S3. intros Hv. apply HU. by rewrite <- Hv in Hop.
    - assert (Keeps (leaves (spares_users (λ v, v = id))) (UserRepository_Delete id)) as Hdel
        by (apply (Keeps_need_row _), (Keeps_translate _), (leaves_stmt _); intros d n d'; apply DeleteUser_spares).
      unfold DeleteUser_, respond, User_Delete. keeps_auto. }
  destruct (Hk _ _ _ H) as [Hs _]. destruct (Hs Hd) as [_ Ho Hkp Hb]. split_and!; [done| |done].
  intros id row Hrow Hop. pose proof (Hkp id row Hop Hrow) as Hkept. split; [apply Hkept|]. intros st c. by apply kept_stores.
Qed.

End whole.

(** ** A run of the server *)

(** The tables of [pack_world] with the users of [auth_world], and the key of its bots. *)
Definition sys_world : World := set_db (set_users (d_users (w_db auth_world)) (w_db pack_world)) pack_world.
Definition sys_config : serverConfig := mkServerConfig "" "" "" "" 100 "" (Some (repeat Byte.x00 32)) "info".

(** [fine], decided. *)
Definition fine_okb (d : Db) : bool :=
  tree_okb d && forallb (λ ke : uuid * Extent, bool_decide (is_Some (d_blobs d !! e_BlobID ke.2))) (map_to_list (d_extents d))
  && refcount_okb d.

Lemma fine_okb_sound d : fine_okb d = true → fine d.
Proof.
  unfold fine_okb. rewrite !andb_true_iff, forallb_map_to_list. intros [[Ht%tree_okb_sound He] Hr%refcount_okb_sound]. split; [done| |].
  - intros k e Hk. by apply (bool_decide_eq_true _), (He k e Hk).
  - intros b x Hx. by rewrite (Hr b x Hx).
Qed.

Lemma sys_fine : fine (w_db sys_world).
Proof. apply fine_okb_sound. vm_compute. reflexivity. Qed.

Notation demo_sstep := (sstep demo_redirect (λ _, "") sys_config).

(** A run of the server, as a list of events. *)
Inductive event := Start | Serve (t : task) | Pack (v : move) | Stop.

Definition turn {A : BotAPI} (v : event) (s : server) : option server :=
  match v, s with
  | Start, Down w =>
      Some match runServer sys_config (fresh_memory (w_step w) w) with
           | (Ok (p, c), _) => Up p c | (Err _, w') => Down w' end
  | Serve t, Up p c => Some (Up p (with_world (handle demo_redirect sys_config t (r_world c)).2 c))
  | Pack v, Up p c => Up p <$> exec (botRepo sys_config) (λ _, "") (leaseOwner p) (leaseFor p) (batchLimit p) v c
  | Stop, Up _ c => Some (Down (r_world c))
  | _, _ => None
  end.

Lemma turn_sound {A : BotAPI} v s s' : turn v s = Some s' → demo_sstep s s'.
Proof.
  destruct v, s; cbn [turn]; intros H; simplify_eq.
  - destruct (runServer sys_config _) as [[[p c]|e] w'] eqn:Hr; [by eapply SStart|by eapply SStartFails].
  - eapply STask, surjective_pairing.
  - apply fmap_Some in H as (c' & H & ->). by eapply SPack, exec_sound.
  - apply SStop.
Qed.

Fixpoint turns {A : BotAPI} (vs : list event) (s : server) : option server :=
  match vs with [] => Some s | v :: vs => turn v s ≫= turns vs end.

Lemma turns_sound {A : BotAPI} vs s s' : turns vs s = Some s' → rtc demo_sstep s s'.
Proof.
  revert s. induction vs as [|v vs IH]; intros s; cbn [turns]; [intros [= ->]; apply rtc_refl|].
  intros (s1 & H & Hs)%bind_Some. eapply rtc_l; [by eapply turn_sound|by apply IH].
Qed.

(** The server starts, serves a MKCOL, is killed and starts again; the new process packs
    [/b], while an administrator lists the users and the reaper runs, until both blobs
    have landed. *)
Definition sys_script : list event :=
  [Start; Serve (DavRequest (req "MKCOL" "/n" basic_ann "")); Stop; Start;
   Pack Poll; Pack Split; Serve (ApiRequest (request "GET" "/api/v1/users" "/api/v1/users" [] basic_root));
   Pack Piece; Pack (Take 0); Pack Piece; Pack Planned; Pack (Land 0); Pack (Next 0); Serve (Maintain ReapTick);
   Pack (Take 0); Pack (Land 0)].
Definition sys_state : server := Eval vm_compute in default (Down sys_world) (turns (A := cloud) sys_script (Down sys_world)).

Lemma sys_reached : turns (A := cloud) sys_script (Down sys_world) = Some sys_state.
Proof. vm_compute. reflexivity. Qed.

(** What the two blobs hold, and the track that is ready for its finalization. *)
Example sys_packed : match sys_state with
  | Up _ c => (snd <$> h_landed (r_hist c)) = [demo_bytes "l"; demo_bytes "wa"] ∧ (r_bready c ++ finals (r_workers c))%list = [0%nat]
  | Down _ => False end ∧ size (d_nodes (w_db (world_of sys_state))) = 5%nat.
Proof. vm_compute. done. Qed.

Lemma system_witness :
  let d := w_db (world_of sys_state) in
  tree_ok d
  ∧ (∀ k e, d_extents d !! k = Some e → ∃ b, d_blobs d !! e_BlobID e = Some b
       ∧ ∀ now, collectable now BlobStateStored b = false)
  ∧ (∀ id b, d_blobs d !! id = Some b → refs id d ≤ b_Refcount b)
  ∧ match sys_state with
    | Down _ => True
    | Up _ c => ∀ t, t ∈ (r_bready c ++ finals (r_workers c))%list → ∃ tr, ps_tracks (r_st c) !! t = Some tr
        ∧ whole (got (h_read (r_hist c)) t) tr
        ∧ ∀ e, e ∈ tr_extents tr → ∃ data, (e_BlobID e, data) ∈ h_landed (r_hist c)
            ∧ carries (got (h_read (r_hist c)) t) e data
    end.
Proof.
  apply (system_safe (A := cloud) (L := demo_web_laws) demo_redirect (λ _, "") sys_config sys_world).
  - exact demo_uuids.
  - exact sys_fine.
  - reflexivity.
  - apply (turns_sound sys_script). exact sys_reached.
Defined.

(** The administrator makes a collection of its own, and deletes the user 1, whose
    files go. *)
Definition two_users : World :=
  Eval vm_compute in (handle (A := cloud) demo_redirect sys_config (DavRequest (req "MKCOL" "/r" basic_root "")) sys_world).2.
Definition delete_ann : apiReq := request "DELETE" "/api/v1/users/1" "/api/v1/users/1" [] basic_root.
Definition ann_deleted : World :=
  Eval vm_compute in (ManagementHandler (A := cloud) (botRepo sys_config) demo_redirect delete_ann two_users).2.

Definition owners (w : World) : list (N * string) :=
  (λ kv : uuid * NodeRow, (ruser kv.2, n_Path (nr_node kv.2))) <$> map_to_list (d_nodes (w_db w)).
Example ann_leaves : (1%N, "/a/x") ∈ owners two_users ∧ (3%N, "/r") ∈ owners two_users ∧ (3%N, "/r") ∈ owners ann_deleted
  ∧ length (filter (λ p, p.1 = 1%N) (owners ann_deleted)) = 0%nat.
Proof. split_and!; by apply (bool_decide_unpack _); vm_compute. Qed.

Lemma management_witness :
  (∀ id row, d_nodes (w_db ann_deleted) !! id = Some row → d_nodes (w_db two_users) !! id = Some row)
  ∧ (∀ id row, d_nodes (w_db two_users) !! id = Some row → operation_of delete_ann ≠ Some (Some (OpDeleteUser (ruser row))) →
       d_nodes (w_db ann_deleted) !! id = Some row
       ∧ ∀ st c, stores st id row (w_db two_users) c → stores st id row (w_db ann_deleted) c)
  ∧ ∀ b, blob_with_state BlobStateStored <$> d_blobs (w_db ann_deleted) !! b
       = blob_with_state BlobStateStored <$> d_blobs (w_db two_users) !! b.
Proof.
  apply (management_spares_files (A := cloud) demo_redirect (botRepo sys_config) delete_ann two_users
    (Ok (mkApiResp 204 []%list BNone)) ann_deleted).
  - apply tree_okb_sound. vm_compute. reflexivity.
  - vm_compute. reflexivity.
Defined.
