(* ===== verification/EndureTheorems.v ===== *)
(** * An upload endures

    What becomes of an uploaded file while its owner leaves it alone and everything
    else goes on: requests of others, administration, packing, maintenance, crashes
    and restarts. *)
From Stdlib Require Import ZArith Lia Strings.Byte Strings.String.
From stdpp Require Import base tactics list gmap sets sorting strings relations.
From S2P Require Import Prelude Model Sql SqlFacts World Keeps Repository Crypto Text Password Accounts Identity Limiter.
From S2P Require Import Path FileSystem File WebDav Tree FsFacts WalFacts WriteFacts ReadFacts CopyFacts Tenants Requests Session.
From S2P Require Import Cache CacheFacts Telegram Config BlobReader BlobFacts LossFacts WebFacts.
From S2P Require Import Bots Maintenance Management Server ServerFacts SparesFacts SafeFacts EndureFacts.
From S2P Require Import Packer PackerFacts Run RunFacts Script System SystemFacts EndureSteps EndureServer.
From S2P Require Import Demo BlobTheorems BotTheorems IdentityTheorems WebTheorems PackerTheorems ServerTheorems SystemTheorems.
#[local] Open Scope string_scope.
#[local] Open Scope Z_scope.
Open Scope m_scope.

(** File [fid] has been uploaded: its row [r] is buffered, the log holds [content], and
    nothing has been packed of it; the packer, when it runs, has not heard of it. *)
Record uploaded {E : Env} {A : BotAPI} (fid : uuid) (r : NodeRow) (content : bytes) (s : server) : Prop := {
  up_row : d_nodes (w_db (world_of s)) !! fid = Some r;
  up_state : n_State (nr_node r) = NodeStateBuffered;
  up_stores : stores (λ _, None) fid r (w_db (world_of s)) content;
  up_extents : extents_of fid (w_db (world_of s)) = [];
  up_packer : match s with
    | Down _ => True
    | Up _ c => blobs_ok c ∧ (∀ t tr, ps_tracks (r_st c) !! t = Some tr → n_ID (tr_node tr) ≠ fid)
        ∧ ∀ bm nodes node, r_mode c = Batch bm nodes → node ∈ nodes → n_ID node ≠ fid
    end }.

Section whole.
Context {E : Env} {C : Aead} {A : BotAPI} {K : Kdf} {R : RateLib} {W : WebLib} {O : Oapi} {D : BodyDecoder}.
Context (redirect : string → apiReq → apiResp) (error_text : error → string) (config : serverConfig).
Context {L : WebLaws (B := blobReader config)}.

Lemma uploaded_lasts fid r content s : server_ok s → uploaded fid r content s → lasting fid r content s.
Proof.
  intros Hok [Hr Hst Hs Hex Hp].
  assert (alive fid r content (world_of s) r (λ _, None)) as Hal by by split.
  split; [done|]. destruct s as [w|p c]; [by eexists _, _|]. destruct Hp as (Hb & Ht & Hn). split; [|done|].
  - exists r, (λ _, None). split; [done|]. intros _. split; [|intros t tr Htr Hid; by destruct (Ht t tr)].
    intros t node ch bm off seq _ tr Htr Hid. by destruct (Ht t tr).
  - intros bm nodes node Hm Hin Hid. by destruct (Hn bm nodes node).
Qed.

(** C3: an upload endures. Take a file of one byte or more that lies in the log as it
    was uploaded and that no packer has taken up yet: one just made, in a server that
    runs, or any that is still in the log when the server starts. (A file overwritten
    while it is being packed is not one: [PackerTheorems.stale_pack_loses_upload].) Let
    requests of other users, administration that does not delete its owner, maintenance,
    and every goroutine of the packer follow each other in any order, with any failures,
    and the process crash and start again at any time; the blobs the packer makes have
    new ids, and no other body Telegram ever serves has the hash of one. Then, unless
    along the way Telegram turned out to have lost a blob the file lay on, the file is
    where it was, its bytes are in the log or in blobs that hold them, and every
    download by its owner that succeeds, through cache and Telegram, returns exactly the
    bytes that were uploaded. *)
Theorem upload_endures fid r content s s' : uuids_ok → server_ok s → uploaded fid r content s → content ≠ [] →
  rtc (by_others redirect error_text config (ruser r)) s s' →
  (∃ s1 s2 b, rtc (by_others redirect error_text config (ruser r)) s s1 ∧ by_others redirect error_text config (ruser r) s1 s2
     ∧ rtc (by_others redirect error_text config (ruser r)) s2 s'
     ∧ lost (w_db (world_of s2)) b ∧ lies_on (w_db (world_of s1)) fid b)
  ∨ ∃ r' st, d_nodes (w_db (world_of s')) !! fid = Some r' ∧ same_place r r'
      ∧ content_is st (pinned st) fid r' (world_of s') content
      ∧ ∀ ctx user name plen fuel data w', acting ctx = Ok user → u_ID user = ruser r →
          path_segs (normalize name) = rsegs r → 0 < plen →
          get (B := blobReader config) ctx name plen fuel (world_of s') = (Ok data, w') → data = content.
Proof.
  intros Huu Hok Hup Hne Hr.
  assert (rdir r = false) as Hdir by (eapply tk_files; [apply Hok|apply Hup|apply Hup]). pose proof (uploaded_lasts fid r content s Hok Hup) as Hl.
  destruct (run_lasts redirect error_text config fid r content s s' Huu Hne Hr Hl) as [Hl'|(s1 & s2 & ? & ? & ? & b & ? & ?)];
    [right|left; by exists s1, s2, b].
  assert (∃ r' st, alive fid r content (world_of s') r' st) as (r' & st & Hal).
  { destruct Hl' as [_ Hl']. destruct s'; [done|]. destruct Hl' as [(r' & st & ? & _) _ _]. by exists r', st. }
  destruct Hl' as [[[Hf _] _] _]. pose proof (alive_pinned _ _ _ _ _ _ Hal) as Hpin. destruct Hal as [Hr' Hpl Hs _ _].
  assert (content_is st (pinned st) fid r' (world_of s') content) as Hc by by split.
  exists r', st. split_and!; [done..|]. intros ctx user name plen fuel data w' Hact Hu Hn Hpos Hget.
  pose proof (tk_id _ (fi_tree _ Hf) _ _ Hr') as Hid. rewrite <- Hid in Hc.
  eapply (@get_safe _ (blobReader config) st (pinned st) (reader_laws _ st) ctx user name (rsegs r) r' content plen fuel);
    try done; [by apply (fi_tree _ Hf)| |by destruct Hpl as (_ & _ & _ & _ & _ & ->)].
  apply view_Some; [by apply (fi_tree _ Hf)|]. exists fid. destruct Hpl as (_ & Hru & _ & _ & Hp & _).
  split_and!; [done|congruence|]. unfold rsegs. by rewrite Hp.
Qed.

End whole.

(** ** A run *)

(** A Telegram that stores anything and serves two bodies. *)
Definition served : list string := ["wa"; "l"].
Definition small_cloud : BotAPI := {|
  api_call := @api_call cloud;
  api_file := λ _ _ path, if bool_decide (path ∈ served) then DlStatus 200 (Some (bytes_of path)) else DlStatus 404 None |}.

Lemma served_sole s : s ∈ served → sole (A := small_cloud) (bytes_of s).
Proof.
  intros Hs data (n & bot & path & code & Hf) Hh. cbn in Hf. case_bool_decide as Hp; [|done]. injection Hf as _ <-.
  apply list_elem_of_In in Hs, Hp. cbn in Hs, Hp.
  destruct Hs as [<-|[<-|[]]], Hp as [<-|[<-|[]]]; first [reflexivity|exfalso; vm_compute in Hh; discriminate Hh].
Qed.

(** [foreign_task] and [mints], decided. *)
Definition foreignb (fu : uuid) (t : task) (w : World) : bool :=
  match t with
  | DavRequest r =>
      match BasicCredentials (WebDav.rq_Authorization r) with
      | Some (username, pw) =>
          match AuthenticateBasic username pw w with
          | (Ok (mkPrincipal (Some u) _), _) => negb (N.eqb (u_ID u) fu)
          | _ => true
          end
      | None => true
      end
  | ApiRequest r => match operation_of r with Some (Some (OpDeleteUser v)) => negb (N.eqb v fu) | _ => true end
  | _ => true
  end.

Lemma foreignb_sound fu t w : foreignb fu t w = true → foreign_task fu t w.
Proof.
  destruct t as [r|r| | | |]; cbn [foreignb foreign_task]; try done.
  - intros H u (username & pw & a & w1 & Hc & Ha). rewrite Hc, Ha in H. by apply negb_true_iff, N.eqb_neq in H.
  - intros H Hop. rewrite Hop, N.eqb_refl in H. done.
Qed.

Definition mintsb (c c' : rcfg) : bool :=
  match drop (length (ps_jobs (r_st c))) (ps_jobs (r_st c')) with
  | [j] => bool_decide (jb_blobID j ≠ uuid_Nil ∧ d_blobs (w_db (r_world c)) !! jb_blobID j = None
             ∧ ca_files (w_cache (r_world c)) !! jb_blobID j = None ∧ jb_blobID j ∉ ids_of c
             ∧ jb_data j ∈ bytes_of <$> served)
  | _ => true
  end.

Lemma mintsb_sound c c' : mintsb c c' = true → mints (A := small_cloud) c c'.
Proof.
  intros H j Hj. unfold mintsb in H. rewrite Hj, drop_app_length in H. apply bool_decide_eq_true in H as (H1 & H2 & H3 & H4 & H5).
  split; [by split|]. split; [|done]. apply list_elem_of_fmap in H5 as (x & -> & Hx). by apply served_sole.
Qed.

(** A run of [SystemTheorems], of steps that are not done for [fu]. *)
Definition other_turn (fu : uuid) (v : event) (s : server) : option server :=
  let next := turn (A := small_cloud) v s in
  match v, s, next with
  | Serve t, Up p c, _ => if foreignb fu t (r_world c) then next else None
  | Pack _, Up p c, Some (Up _ c') => if mintsb c c' then next else None
  | Pack _, _, _ => None
  | _, _, _ => next
  end.
Fixpoint other_turns (fu : uuid) (vs : list event) (s : server) : option server :=
  match vs with [] => Some s | v :: vs => other_turn fu v s ≫= other_turns fu vs end.

Notation demo_others := (by_others (A := small_cloud) demo_redirect (λ _, "") sys_config).

Lemma other_turn_sound fu v s s' : other_turn fu v s = Some s' → demo_others fu s s'.
Proof.
  unfold other_turn. intros H. destruct v as [|t|m|], s as [w|p c]; try done.
  - by apply OStart, (turn_sound (A := small_cloud) Start).
  - destruct (foreignb fu t (r_world c)) eqn:Hf; [|done]. injection H as <-. eapply OTask; [by apply foreignb_sound|apply surjective_pairing].
  - cbn [turn] in H. destruct (exec _ _ _ _ _ m c) as [c'|] eqn:He; [|done]. cbn in H. destruct (mintsb c c') eqn:Hm; [|done].
    injection H as <-. apply OPack; [by eapply exec_sound|by apply mintsb_sound].
  - injection H as <-. apply OStop.
Qed.

Lemma other_turns_sound fu vs s s' : other_turns fu vs s = Some s' → rtc (demo_others fu) s s'.
Proof.
  revert s. induction vs as [|v vs IH]; intros s; cbn [other_turns]; [intros [= ->]; apply rtc_refl|].
  intros (s1 & H & Hs)%bind_Some. eapply rtc_l; [by eapply other_turn_sound|by apply IH].
Qed.

(** The server starts, the administrator makes a collection, the server is killed and
    starts again; [/b] is packed while users are listed and the reaper runs; stored, it
    survives a sweep of the cache and another restart. *)
Definition endure_script : list event :=
  [Start; Serve (DavRequest (req "MKCOL" "/n" basic_root "")); Stop; Start;
   Pack Poll; Pack Split; Serve (ApiRequest (request "GET" "/api/v1/users" "/api/v1/users" [] basic_root));
   Pack Piece; Pack (Take 0); Pack Piece; Pack Planned; Pack (Land 0); Pack (Next 0); Serve (Maintain ReapTick);
   Pack (Take 0); Pack (Land 0); Pack (Final 0); Serve SweepCache; Stop; Start].
Definition endure_state : server := Eval vm_compute in default (Down sys_world) (other_turns 1 endure_script (Down sys_world)).

Lemma endure_reached : other_turns 1 endure_script (Down sys_world) = Some endure_state.
Proof. vm_compute. reflexivity. Qed.

(** The file is packed, and read from Telegram. *)
Example endured : match endure_state with Up _ _ => True | Down _ => False end
  ∧ n_State ∘ nr_node <$> d_nodes (w_db (world_of endure_state)) !! 13%N = Some NodeStateStored
  ∧ (get (B := blobReader (A := small_cloud) sys_config) demo_ctx "/b" 2 10 (world_of endure_state)).1 = Ok (demo_bytes "wal").
Proof. split; [done|]. by split; vm_compute. Qed.

Definition wal_row : NodeRow := demo_node 13 (Some 10%N) "b" "/b" false 3 NodeStateBuffered.

Lemma wal_uploaded : uploaded (A := small_cloud) 13 wal_row (demo_bytes "wal") (Down sys_world).
Proof.
  split; [vm_compute; reflexivity|reflexivity| |vm_compute; reflexivity|exact I].
  assert (node_chunks 13 (w_db sys_world) = [mkWALChunk 50 13 0 (demo_bytes "wal") 1]) as He by (vm_compute; reflexivity).
  split_and!; [reflexivity|by vm_compute|]. cbn [n_State nr_node wal_row demo_node]. unfold wal_ok, wal_content. cbn [world_of].
  rewrite He. split; [split; [done|]|by vm_compute]. simpl. pose proof chunk_nat_Z. unfold WALChunkSize in *. lia.
Qed.

Lemma upload_endures_witness :
  (∃ s1 s2 b, rtc (demo_others 1) (Down sys_world) s1 ∧ demo_others 1 s1 s2 ∧ rtc (demo_others 1) s2 endure_state
     ∧ lost (w_db (world_of s2)) b ∧ lies_on (w_db (world_of s1)) 13 b)
  ∨ ∃ r' st, d_nodes (w_db (world_of endure_state)) !! 13%N = Some r' ∧ same_place wal_row r'
      ∧ content_is st (pinned (A := small_cloud) st) 13 r' (world_of endure_state) (demo_bytes "wal")
      ∧ ∀ ctx user name plen fuel data w', acting ctx = Ok user → u_ID user = 1%N →
          path_segs (normalize name) = rsegs wal_row → 0 < plen →
          get (B := blobReader (A := small_cloud) sys_config) ctx name plen fuel (world_of endure_state) = (Ok data, w') →
          data = demo_bytes "wal".
Proof.
  apply (upload_endures (A := small_cloud) (L := demo_web_laws) demo_redirect (λ _, "") sys_config 13 wal_row (demo_bytes "wal")
    (Down sys_world) endure_state).
  - exact demo_uuids.
  - split; [split; [exact sys_fine|reflexivity]|exact I].
  - exact wal_uploaded.
  - vm_compute. discriminate.
  - apply (other_turns_sound 1 endure_script). exact endure_reached.
Defined.
