(* ===== verification/Redact.v ===== *)
(** * The texts of the Telegram client's errors

    [client.go] promises that a bot token never shows in an error, since errors are
    logged, stored in the events table and answered by the Management API, while
    every request carries the token in its URL.  The errors of [Telegram] are the
    values the services test; here are their texts: Go's error chains with
    [Error()], [errors.As] for [*url.Error], [redactToken], and the failures of each
    method of the client.  Then the properties: the token shows in none of them but
    those of a request that cannot be built. *)
From Stdlib Require Import ZArith Lia Strings.Byte Strings.String Strings.Ascii.
From stdpp Require Import base tactics list gmap strings pretty.
From S2P Require Import Prelude Model World Text Path Telegram Demo.
#[local] Open Scope string_scope.
#[local] Open Scope Z_scope.

(** ** Strings *)

(** [strings.ReplaceAll(s, old, new)] for [old] not empty: [skip] bytes of the match
    in hand are still to be dropped. *)
Fixpoint replace_from (skip : nat) (s old new : string) : string :=
  match s with
  | EmptyString => EmptyString
  | String c t =>
      match skip with
      | S k => replace_from k t old new
      | O => if HasPrefix s old then new +:+ replace_from (pred (String.length old)) t old new
             else String c (replace_from O t old new)
      end
  end.
Definition ReplaceAll (s old new : string) : string := replace_from O s old new.

(** [%q] of a byte: a URL holds no other bytes than these after [URL.String]; bytes
    from 128 on are kept, as those of a printable rune are. *)
Definition hex_digit (n : nat) : ascii :=
  ascii_of_nat (if (n <? 10)%nat then n + 48 else n + 87).
Definition quote_byte (c : ascii) : string :=
  let n := nat_of_ascii c in
  if (n =? 34)%nat then "\" +:+ String c ""
  else if (n =? 92)%nat then "\\"
  else if (n =? 7)%nat then "\a" else if (n =? 8)%nat then "\b" else if (n =? 12)%nat then "\f"
  else if (n =? 10)%nat then "\n" else if (n =? 13)%nat then "\r" else if (n =? 9)%nat then "\t"
  else if (n =? 11)%nat then "\v"
  else if (n <? 32)%nat || (n =? 127)%nat
  then "\x" +:+ String (hex_digit (n / 16)) (String (hex_digit (n mod 16)) "")
  else String c "".
Definition quote_mark : ascii := ascii_of_nat 34.
Fixpoint quote_bytes (s : string) : string :=
  match s with EmptyString => EmptyString | String c t => quote_byte c +:+ quote_bytes t end.
Definition Quote (s : string) : string := String quote_mark (quote_bytes s +:+ String quote_mark "").

(** ** Errors *)

(** An error: one that is only a text, [*url.Error], [fmt.Errorf("..%w", err)] and
    [fmt.Errorf("%w..", err)]. *)
Inductive goerr :=
  | Plain (text : string)
  | UrlError (Op URL : string) (Err : goerr)
  | Wrap (before : string) (err : goerr)
  | Told (err : goerr) (after : string).

Fixpoint Error (e : goerr) : string :=
  match e with
  | Plain text => text
  | UrlError op url err => op +:+ " " +:+ Quote url +:+ ": " +:+ Error err
  | Wrap before err => before +:+ Error err
  | Told err after => Error err +:+ after
  end.

(** [errors.As(err, &ue)] followed by [ue.URL = f(ue.URL)]. *)
Fixpoint on_URL (f : string → string) (e : goerr) : option goerr :=
  match e with
  | Plain _ => None
  | UrlError op url err => Some (UrlError op (f url) err)
  | Wrap before err => Wrap before <$> on_URL f err
  | Told err after => (λ e, Told e after) <$> on_URL f err
  end.

Definition redacted : string := "<redacted>".

Definition redactToken (err : goerr) (token : string) : goerr :=
  if String.eqb token "" then err
  else
    match on_URL (λ url, ReplaceAll url token redacted) err with
    | Some err => err
    | None => if Contains (Error err) token then Plain (ReplaceAll (Error err) token redacted) else err
    end.

(** ** The requests *)

Definition defaultBaseURL : string := "https://api.telegram.org".

Definition baseURL (BaseURL : string) : string :=
  if negb (String.eqb BaseURL "") then TrimRightSlash BaseURL else defaultBaseURL.

Definition methodURL (BaseURL token method : string) : string :=
  baseURL BaseURL +:+ "/bot" +:+ token +:+ "/" +:+ method.
Definition fileURL (BaseURL token filePath : string) : string :=
  baseURL BaseURL +:+ "/file/bot" +:+ token +:+ "/" +:+ filePath.

(** ** The failures of the methods *)

(** What can go wrong in [do]; the texts come from outside: the network, the JSON
    decoder, Telegram's descriptions. *)
Inductive call_failure :=
  | Paced (text : string)                        (* the context's error while waiting *)
  | DoFailed (text : string)                     (* the error inside Do's [*url.Error] *)
  | ReadFailed (text : string)
  | NotEnvelope (status : Z) (text : string)
  | Refused (env : apiResponse).

Inductive failure :=
  | BuildFailed (method : string) (text : string) (* NewRequest: the URL does not parse *)
  | MultipartFailed (what : string) (text : string)
  | CallFailed (verb method : string) (c : call_failure)
  | ResultFailed (what : string) (text : string)  (* the result does not decode *)
  | NoFilePath
  | DownloadBuild (filePath text : string)
  | DownloadFailed (filePath text : string)
  | DownloadGone (filePath : string)
  | DownloadStatus (status : Z) (snippet : string)
  | DownloadRead (text : string).

Section client.
Context {E : Env} (url_String : string → string) (BaseURL token : string).

(** [mapError] on the texts; [Telegram.mapError] is its value. *)
Definition refusal (env : apiResponse) : goerr :=
  match mapError env with
  | TgRateLimit retry => Plain ("rate limited, retry after " +:+ env_duration retry)
  | TgMessageNotFound => Told (Plain "message or file not found") (": " +:+ env_Description env)
  | TgForbidden => Told (Plain "forbidden") (": " +:+ env_Description env)
  | _ => Plain ("telegram: api error " +:+ pretty (env_ErrorCode env) +:+ ": " +:+ env_Description env)
  end.

(** [http.Client.Do] puts the printed URL of the request into its error. *)
Definition do_error (verb url : string) (c : call_failure) : goerr :=
  match c with
  | Paced text => Plain text
  | DoFailed text =>
      Wrap "telegram: request failed: " (redactToken (UrlError verb (url_String url) (Plain text)) token)
  | ReadFailed text => Wrap "telegram: read response body: " (Plain text)
  | NotEnvelope status text =>
      Wrap ("telegram: decode response (status " +:+ pretty status +:+ "): ") (Plain text)
  | Refused env => refusal env
  end.

(** A URL that does not parse is quoted as it was given. *)
Definition failure_error (f : failure) : goerr :=
  match f with
  | BuildFailed method text =>
      Wrap ("telegram: build " +:+ method +:+ " request: ") (UrlError "parse" (methodURL BaseURL token method) (Plain text))
  | MultipartFailed what text => Wrap ("telegram: " +:+ what +:+ ": ") (Plain text)
  | CallFailed verb method c => do_error verb (methodURL BaseURL token method) c
  | ResultFailed what text => Wrap ("telegram: decode " +:+ what +:+ " result: ") (Plain text)
  | NoFilePath => Told (Plain "message or file not found") ": empty file_path"
  | DownloadBuild filePath text =>
      Wrap "telegram: build download request: "
        (redactToken (UrlError "parse" (fileURL BaseURL token filePath) (Plain text)) token)
  | DownloadFailed filePath text =>
      Wrap "telegram: download failed: "
        (redactToken (UrlError "Get" (url_String (fileURL BaseURL token filePath)) (Plain text)) token)
  | DownloadGone filePath => Told (Plain "message or file not found") (": file path " +:+ Quote filePath)
  | DownloadStatus status snippet =>
      Plain ("telegram: download status " +:+ pretty status +:+ ": " +:+ TrimSpace snippet)
  | DownloadRead text => Wrap "telegram: read downloaded bytes: " (Plain text)
  end.

End client.

(** ** A bot token shows in no error

    Substrings, [ReplaceAll] and [%q], and the theorem on the texts. *)

(** ** Substrings *)

(** [t] stands nowhere in [s]. *)
Definition free (t s : string) : Prop := ∀ a b, s ≠ a +:+ t +:+ b.

Lemma Contains_spec s t : Contains s t = true ↔ ∃ a b, s = a +:+ t +:+ b.
Proof.
  induction s as [|c s IH].
  - cbn [Contains]. rewrite orb_false_r, HasPrefix_spec. split; [intros [r H]; by exists "", r|].
    intros (a & b & H). destruct a; [by exists b|done].
  - cbn [Contains]. rewrite orb_true_iff, HasPrefix_spec, IH. split.
    + intros [[r ->]|(a & b & ->)]; [by exists "", r|by exists (String c a), b].
    + intros (a & b & H). destruct a as [|c' a]; [left; by exists b|right]. injection H as -> ->. by exists a, b.
Qed.

Lemma free_spec t s : Contains s t = false ↔ free t s.
Proof.
  rewrite <- not_true_iff_false, Contains_spec. split; [intros H a b ->; apply H; by exists a, b|].
  intros H (a & b & ->). by apply (H a b).
Qed.

(** Two ways to cut a string in two. *)
Lemma app_cut (a b u v : string) : a +:+ b = u +:+ v →
  (∃ m, u = a +:+ m ∧ b = m +:+ v) ∨ (∃ m, a = u +:+ m ∧ v = m +:+ b).
Proof.
  revert u. induction a as [|c a IH]; intros u H; [left; by exists u|].
  destruct u as [|d u]; [right; by exists (String c a)|]. cbn in H. injection H as <- H.
  destruct (IH u H) as [(m & -> & ->)|(m & -> & ->)]; [left|right]; by exists m.
Qed.

Lemma free_nil t : t ≠ "" → free t "".
Proof. intros Hne a b H. by destruct a, t. Qed.

(** No occurrence reaches over a character the pattern does not have. *)
Lemma free_sep t a c b : t ≠ "" → StringHas c t = false → free t a → free t b → free t (a +:+ String c b).
Proof.
  intros Hne Hc Ha Hb u v H. destruct (app_cut _ _ _ _ H) as [(m & -> & Hm)|(m & -> & Hm)].
  - destruct m as [|d m].
    + destruct t as [|d t]; [done|]. injection Hm as <- _. cbn in Hc. by rewrite Ascii.eqb_refl in Hc.
    + injection Hm as <- Hm. by apply (Hb m v).
  - destruct (app_cut _ _ _ _ Hm) as [(n & -> & Hn)|(n & -> & Hn)].
    + by apply (Ha u n).
    + destruct n as [|d n]; [apply (Ha u ""); by rewrite !str_app_nil_r|].
      injection Hn as <- Hn. rewrite StringHas_app in Hc. cbn in Hc. rewrite Ascii.eqb_refl, orb_true_r in Hc. done.
Qed.

(** ** [ReplaceAll] *)

(** Every occurrence in [p ++ s] starts in [s]. *)
Definition settled (t p s : string) : Prop :=
  ∀ a b, p +:+ s = a +:+ t +:+ b → (String.length p ≤ String.length a)%nat.

Lemma settled_free t p s : t ≠ "" → settled t p s → free t p.
Proof.
  intros Hne H a b ->. specialize (H a (b +:+ s)). rewrite <- !str_app_assoc in H. specialize (H eq_refl).
  rewrite !str_length_app in H. destruct t; [done|]. cbn in H. lia.
Qed.

Lemma settled_step t p c s : settled t p (String c s) → HasPrefix (String c s) t = false →
  settled t (p +:+ String c "") s.
Proof.
  intros H Hp a b Heq. rewrite <- str_app_assoc in Heq. cbn in Heq. specialize (H a b Heq).
  rewrite str_length_app. cbn. destruct (decide (String.length a = String.length p)) as [Hl|]; [|lia]. exfalso.
  destruct (app_cut _ _ _ _ Heq) as [(m & -> & Hm)|(m & -> & Hm)]; rewrite str_length_app in Hl;
    (destruct m; [|cbn in Hl; lia]); apply not_true_iff_false in Hp; apply Hp, HasPrefix_spec; exists b; [done|by symmetry].
Qed.

Lemma replace_from_skip k u s t n : String.length u = k → replace_from k (u +:+ s) t n = replace_from 0 s t n.
Proof. revert u. induction k; intros [|c u]; cbn; intros H; try done. apply IHk. lia. Qed.

Lemma replaced_free t p s : t ≠ "" → free t "redacted" → StringHas "<" t = false → StringHas ">" t = false →
  settled t p s → free t (p +:+ ReplaceAll s t redacted).
Proof.
  intros Hne Hr Hlt Hgt. remember (String.length s) as n eqn:Hn. revert s p Hn.
  induction n as [n IH] using lt_wf_ind. intros s p -> Hs. unfold ReplaceAll. destruct s as [|c s].
  - cbn. rewrite str_app_nil_r. by eapply settled_free.
  - cbn [replace_from]. destruct (HasPrefix (String c s) t) eqn:Hp.
    + assert (∃ u, t = String c u ∧ HasPrefix s u = true) as (u & -> & Hu).
      { apply HasPrefix_spec in Hp as [r Hp]. destruct t as [|d u]; [done|]. injection Hp as <- ->.
        exists u. split; [done|]. apply HasPrefix_spec. by exists r. }
      apply HasPrefix_spec in Hu as [r ->]. cbn [String.length pred]. rewrite replace_from_skip by done.
      unfold redacted. cbn [String.append]. apply free_sep; [done..|by eapply settled_free|].
      change (free (String c u) ("redacted" +:+ String ">" (ReplaceAll r (String c u) redacted))).
      apply free_sep; [done..|]. apply (IH (String.length r)) with (p := ""); [cbn; rewrite str_length_app; lia|done|].
      intros a b _. cbn. lia.
    + replace (p +:+ String c (replace_from 0 s t redacted)) with ((p +:+ String c "") +:+ ReplaceAll s t redacted)
        by by rewrite <- str_app_assoc.
      apply (IH (String.length s)); [cbn; lia|done|by apply settled_step].
Qed.

(** ** Tokens *)

Definition is_digit (c : ascii) : bool := let n := nat_of_ascii c in (48 <=? n)%nat && (n <=? 57)%nat.
Definition key_char (c : ascii) : bool :=
  let n := nat_of_ascii c in
  is_digit c || ((65 <=? n) && (n <=? 90))%nat || ((97 <=? n) && (n <=? 122))%nat || Ascii.eqb c "_" || Ascii.eqb c "-".

Fixpoint all_chars (P : ascii → bool) (s : string) : bool :=
  match s with EmptyString => true | String c t => P c && all_chars P t end.

(** A bot's token: its number, a colon and the key. *)
Definition bot_token (token : string) : bool :=
  match Cut ":" token with
  | (String _ _ as d, String _ _ as k, true) => all_chars is_digit d && all_chars key_char k
  | _ => false
  end.

(** A digit, a colon and a character of a key stand together. *)
Fixpoint keyed (s : string) : bool :=
  match s with
  | EmptyString => false
  | String a t =>
      (is_digit a && match t with String b (String e _) => Ascii.eqb b ":" && key_char e | _ => false end) || keyed t
  end.

(** Printed by [%q] between quotation marks as it is. *)
Definition plain_char (c : ascii) : bool :=
  let n := nat_of_ascii c in (32 <=? n)%nat && (n <=? 126)%nat && negb (n =? 34)%nat && negb (n =? 92)%nat.
Definition plain (s : string) : Prop := all_chars plain_char s = true.

Lemma chars_app_all P a b : all_chars P (a +:+ b) = all_chars P a && all_chars P b.
Proof. induction a as [|c a IH]; cbn; [done|]. by rewrite IH, andb_assoc. Qed.

Lemma all_chars_has P c s : all_chars P s = true → P c = false → StringHas c s = false.
Proof.
  intros Hs Hc. induction s as [|d s IH]; [done|]. cbn in *. apply andb_true_iff in Hs as [Hd Hs].
  rewrite IH, orb_false_r by done. destruct (Ascii.eqb_spec d c); [congruence|done].
Qed.

Lemma all_chars_mono (P Q : ascii → bool) s : (∀ c, P c = true → Q c = true) → all_chars P s = true → all_chars Q s = true.
Proof. intros H. induction s; cbn; [done|]. rewrite !andb_true_iff. naive_solver. Qed.

Lemma keyed_sub a t b : keyed t = true → keyed (a +:+ t +:+ b) = true.
Proof.
  intros H. induction a as [|c a IH]; cbn [String.append].
  - revert H. induction t as [|c t IH]; [done|]. cbn [String.append keyed]. rewrite !orb_true_iff.
    intros [H|H]; [left|right; by apply IH]. destruct t as [|d [|e t]]; by rewrite ?andb_false_r in H.
  - cbn [keyed]. by rewrite IH, orb_true_r.
Qed.

Lemma keyed_cons c s : keyed s = true → keyed (String c s) = true.
Proof. intros H. cbn [keyed]. by rewrite H, orb_true_r. Qed.

Lemma keyed_number d c k0 k : all_chars is_digit (String c d) = true → key_char k0 = true →
  keyed (String c d +:+ String ":" (String k0 k)) = true.
Proof.
  revert c. induction d as [|c' d IH]; intros c; cbn [all_chars]; rewrite !andb_true_iff.
  - intros [Hc _] Hk. cbn. by rewrite Hc, Hk.
  - intros (_ & Hc & Hd) Hk. apply (keyed_cons c), IH; [|done]. cbn [all_chars]. by rewrite Hc.
Qed.

Definition token_char (c : ascii) : bool := key_char c || Ascii.eqb c ":".

Lemma bot_token_shape token : bot_token token = true → keyed token = true ∧ all_chars token_char token = true.
Proof.
  unfold bot_token. destruct (Cut ":" token) as [[d k] ok] eqn:Hc. destruct d as [|d0 d], k as [|k0 k], ok; try done.
  apply Cut_spec in Hc as [-> _]. rewrite andb_true_iff. intros [Hd Hk]. split.
  - apply keyed_number; [done|]. cbn in Hk. by apply andb_true_iff in Hk as [? _].
  - rewrite chars_app_all. apply andb_true_iff. split; [revert Hd|change (all_chars token_char (String k0 k) = true); revert Hk]; apply all_chars_mono;
      intros c; unfold token_char, key_char; by intros ->.
Qed.

(** ** Texts without the token *)

Section texts.
Context (token : string) (Htok : bot_token token = true).

Lemma token_has c : token_char c = false → StringHas c token = false.
Proof. apply all_chars_has. by apply bot_token_shape. Qed.

Lemma token_nonempty : token ≠ "".
Proof. by intros ->. Qed.

Lemma unkeyed_free s : keyed s = false → free token s.
Proof. intros Hs a b ->. rewrite keyed_sub in Hs; [done|]. by apply bot_token_shape. Qed.

Lemma free_between a c b : token_char c = false → free token a → free token b → free token (a +:+ String c b).
Proof. intros Hc. apply free_sep; [apply token_nonempty|by apply token_has]. Qed.

(** A constant that ends with a separator, before a text. *)
Lemma free_after p c s : token_char c = false → keyed p = false → free token s → free token ((p +:+ String c "") +:+ s).
Proof. intros Hc Hp Hs. rewrite <- str_app_assoc. cbn. apply free_between; [done|by apply unkeyed_free|done]. Qed.

Lemma free_redacted s : free token (ReplaceAll s token redacted).
Proof.
  apply (replaced_free token ""); [apply token_nonempty|by apply unkeyed_free|by apply token_has..|].
  intros a b _. cbn. lia.
Qed.

Lemma unkeyed_colon s : StringHas ":" s = false → keyed (s +:+ ":") = false.
Proof.
  induction s as [|a s IH]; [done|]. cbn [StringHas]. rewrite orb_false_iff. intros [Ha Hs].
  cbn [String.append keyed]. rewrite (IH Hs), orb_false_r.
  destruct s as [|b [|e s]]; cbn [String.append]; rewrite ?andb_false_r; [done..|].
  cbn [StringHas] in Hs. apply orb_false_iff in Hs as [-> _]. by rewrite andb_false_r.
Qed.

Lemma free_colonless s : StringHas ":" s = false → free token s.
Proof.
  intros H. apply unkeyed_free. revert H. induction s as [|a s IH]; [done|]. cbn [StringHas keyed].
  rewrite orb_false_iff. intros [Ha Hs]. rewrite (IH Hs), orb_false_r. destruct s as [|b [|e s]]; rewrite ?andb_false_r; [done..|].
  cbn [StringHas] in Hs. apply orb_false_iff in Hs as [-> _]. by rewrite andb_false_r.
Qed.

End texts.

Lemma pretty_N_go_colonless n s : StringHas ":" s = false → StringHas ":" (pretty_N_go n s) = false.
Proof.
  revert s. induction (N.lt_wf_0 n) as [n _ IH]; intros s Hs. destruct (decide (n = 0)%N) as [->|Hn]; [done|].
  rewrite pretty_N_go_step by lia. apply IH; [apply N.div_lt; lia|]. cbn [StringHas]. rewrite Hs, orb_false_r.
  unfold pretty_N_char. by repeat case_match.
Qed.

Lemma pretty_colonless (z : Z) : StringHas ":" (pretty z) = false.
Proof.
  assert (∀ p, StringHas ":" (pretty (N.pos p)) = false) as H.
  { intros p. unfold pretty, pretty_N. case_decide; [done|]. by apply pretty_N_go_colonless. }
  destruct z as [|p|p]; [done|apply H|]. unfold pretty, pretty_Z. cbn. apply H.
Qed.

(** ** Printing *)

Lemma quote_plain s : plain s → quote_bytes s = s.
Proof.
  unfold plain. induction s as [|c s IH]; [done|]. cbn [all_chars quote_bytes]. rewrite andb_true_iff. intros [Hc Hs].
  rewrite (IH Hs). unfold plain_char in Hc. rewrite !andb_true_iff, !negb_true_iff, !Nat.leb_le, !Nat.eqb_neq in Hc.
  destruct Hc as [[[Hl Hu] Hq] Hb]. unfold quote_byte.
  repeat match goal with |- context [(?n =? ?k)%nat] => destruct (Nat.eqb_spec n k); [lia|] end.
  assert ((nat_of_ascii c <? 32)%nat = false) as -> by (apply Nat.ltb_ge; lia). done.
Qed.

Lemma TrimSpaceRight_prefix s : ∃ r, s = TrimSpaceRight s +:+ r.
Proof.
  induction s as [|c s [r IH]]; [by exists ""|]. cbn [TrimSpaceRight]. destruct (blank _); [by eexists|].
  exists r. cbn. by rewrite <- IH.
Qed.

Lemma strip_space_suffix s t : strip_space s = Some t → ∃ p, s = p +:+ t.
Proof.
  assert (∀ code s t, strip_code code s = Some t → ∃ p, s = p +:+ t) as Hone.
  { induction code as [|n code IH]; intros u v H; cbn in H; [injection H as ->; by exists ""|].
    destruct u as [|c u]; [done|]. destruct (_ =? _)%nat; [|done]. destruct (IH _ _ H) as [p ->]. by exists (String c p). }
  unfold strip_space. induction space_codes as [|code codes IH]; cbn; [done|].
  destruct (strip_code code s) eqn:Hc; [|done]. intros [= <-]. by eapply Hone.
Qed.

Lemma TrimSpace_infix s : ∃ p r, s = p +:+ TrimSpace s +:+ r.
Proof.
  assert (∀ k s, ∃ p, s = p +:+ TrimSpaceLeft_ k s) as Hl.
  { induction k as [|k IH]; intros u; [by exists ""|]. cbn [TrimSpaceLeft_]. destruct (strip_space u) as [t|] eqn:Hs; [|by exists ""].
    apply strip_space_suffix in Hs as [p ->]. destruct (IH t) as [q Hq]. exists (p +:+ q). rewrite <- str_app_assoc. by rewrite <- Hq. }
  destruct (Hl (String.length s) s) as [p Hp]. destruct (TrimSpaceRight_prefix (TrimSpaceLeft s)) as [r Hr].
  exists p, r. unfold TrimSpace. rewrite <- Hr. exact Hp.
Qed.

Lemma free_infix t p x r : free t (p +:+ x +:+ r) → free t x.
Proof. intros H a b ->. apply (H (p +:+ a) (b +:+ r)). by rewrite !str_app_assoc. Qed.

Lemma replace_plain k s t : plain s → plain (replace_from k s t redacted).
Proof.
  unfold plain. revert k. induction s as [|c s IH]; intros k; [done|]. cbn [all_chars]. rewrite andb_true_iff. intros [Hc Hs].
  cbn [replace_from]. destruct k as [|k]; [|by apply IH]. destruct (HasPrefix _ _).
  - rewrite chars_app_all, (IH _ Hs). done.
  - cbn [all_chars]. by rewrite Hc, (IH _ Hs).
Qed.

(** The text ends with a character no token has. *)
Fixpoint ends_apart (s : string) : bool :=
  match s with
  | EmptyString => false
  | String c EmptyString => negb (token_char c)
  | String _ t => ends_apart t
  end.

Lemma ends_apart_inv s : ends_apart s = true → ∃ a c, s = a +:+ String c "" ∧ token_char c = false.
Proof.
  induction s as [|c s IH]; [done|]. destruct s as [|d s]; cbn [ends_apart].
  - intros H%negb_true_iff. by exists "", c.
  - intros H. destruct (IH H) as (a & e & -> & He). by exists (String c a), e.
Qed.

Lemma free_prefix token p s : bot_token token = true → ends_apart p = true → keyed p = false →
  free token s → free token (p +:+ s).
Proof.
  intros Ht He Hp Hs. destruct (ends_apart_inv _ He) as (a & c & -> & Hc). apply free_after; try done.
  destruct (keyed a) eqn:Ha; [|done]. apply (keyed_sub "" a (String c "")) in Ha. by rewrite <- Hp, <- Ha.
Qed.

(** A text between quotation marks. *)
Lemma free_quoted token s rest : bot_token token = true → plain s → free token s → free token rest →
  free token (Quote s +:+ rest).
Proof.
  intros Ht Hp Hs Hr. unfold Quote. rewrite quote_plain by done.
  change (free token ("" +:+ String quote_mark ((s +:+ String quote_mark "") +:+ rest))). rewrite <- str_app_assoc.
  apply free_between; [done|done|by apply unkeyed_free|]. by apply free_between.
Qed.

(** A number before a text. *)
Lemma free_number token (z : Z) s : bot_token token = true → free token s → free token (pretty z +:+ (": " +:+ s)).
Proof.
  intros Ht Hs. change (": " +:+ s) with (":" +:+ String " " s). rewrite str_app_assoc.
  apply free_between; [done|done|by apply unkeyed_free, unkeyed_colon, pretty_colonless|done].
Qed.

(** ** The theorem *)

(** The words of the program in the text of a failure, the texts that come from
    outside, and the paths of files that are printed. *)
Definition names (f : failure) : list string :=
  match f with
  | BuildFailed method _ => [method] | MultipartFailed what _ => [what]
  | CallFailed verb _ _ => [verb] | ResultFailed what _ => [what] | _ => []
  end.
Definition client_names : list string :=
  ["Get"; "Post"; "write chat_id field"; "create document part"; "write document bytes"; "finalize multipart body";
   "getMe"; "getChat"; "message"; "getFile"].
Definition told (f : failure) : list string :=
  match f with
  | CallFailed _ _ (Refused env) => [env_Description env]
  | CallFailed _ _ (Paced t | DoFailed t | ReadFailed t | NotEnvelope _ t) => [t]
  | BuildFailed _ t | MultipartFailed _ t | ResultFailed _ t | DownloadBuild _ t | DownloadFailed _ t
  | DownloadGone t | DownloadStatus _ t | DownloadRead t => [t]
  | NoFilePath => []
  end.
Definition paths (f : failure) : list string :=
  match f with DownloadBuild p _ | DownloadGone p => [p] | _ => [] end.

Lemma client_names_unkeyed s : s ∈ client_names → keyed s = false.
Proof. apply (Forall_forall (λ s, keyed s = false) client_names). by repeat constructor. Qed.

(** One of the client's own words between two constants. *)
Lemma free_named token (Ht : bot_token token = true) what a b text : what ∈ client_names →
  forallb (λ w, ends_apart (a +:+ w +:+ b) && negb (keyed (a +:+ w +:+ b))) client_names = true →
  free token text → free token ((a +:+ what +:+ b) +:+ text).
Proof.
  rewrite forallb_forall. intros Hw H Hx. apply list_elem_of_In, H in Hw. apply andb_true_iff in Hw as [? ?%negb_true_iff].
  by apply free_prefix.
Qed.

Section client.
Context {E : Env} (url_String : string → string) (BaseURL token : string).
Context (Htok : bot_token token = true) (Hurl : ∀ u, plain (url_String u)) (Hbase : plain BaseURL).
Context (Hdur : ∀ d, StringHas ":" (env_duration d) = false).

Lemma redacted_free op url text : keyed op = false → plain url → free token text →
  free token (Error (redactToken (UrlError op url (Plain text)) token)).
Proof using Htok.
  intros Hop Hu Hx. unfold redactToken. destruct (String.eqb_spec token ""); [by subst|]. cbn [on_URL Error].
  change (free token (op +:+ String " " (Quote (ReplaceAll url token redacted) +:+ (": " +:+ text)))).
  apply free_between; [done|done|by apply unkeyed_free|]. apply free_quoted; [done|by apply replace_plain|by apply free_redacted|].
  by apply free_prefix.
Qed.

Lemma fileURL_plain p : plain p → plain (fileURL BaseURL token p).
Proof using Htok Hbase.
  intros Hp. unfold plain, fileURL. rewrite !chars_app_all. repeat (apply andb_true_iff; split); try done.
  - unfold baseURL. destruct (negb _); [|done]. revert Hbase. unfold plain. generalize BaseURL. clear.
    intros s. induction s as [|c s IH]; [done|]. cbn [all_chars TrimRightSlash]. rewrite andb_true_iff. intros [Hc Hs].
    specialize (IH Hs). destruct (TrimRightSlash s) as [|d t]; [destruct (Ascii.eqb c slash); cbn; by rewrite ?Hc|].
    cbn [all_chars] in *. by rewrite Hc.
  - eapply all_chars_mono; [|apply (bot_token_shape _ Htok)]. clear. intros c. destruct c as [[] [] [] [] [] [] [] []]; vm_compute; done.
Qed.

Lemma refusal_free env : free token (env_Description env) → free token (Error (refusal env)).
Proof using Htok Hdur.
  intros Hd. assert (free token (pretty (env_ErrorCode env) +:+ (": " +:+ env_Description env))).
  { by apply free_number. }
  unfold refusal. destruct (mapError env); cbn [Error]; try by apply free_prefix.
  - by apply free_prefix; [..|by apply free_colonless].
  - by apply (free_prefix token "message or file not found: ").
  - by apply (free_prefix token "forbidden: ").
Qed.

Lemma do_error_free verb url c : keyed verb = false → Forall (free token) (told (CallFailed verb "" c)) →
  free token (Error (do_error url_String token verb url c)).
Proof using Htok Hurl Hdur.
  intros Hv Ht. destruct c; inversion_clear Ht as [|? ? Hx _]; cbn [do_error Error].
  - done.
  - by apply free_prefix, redacted_free.
  - by apply free_prefix.
  - rewrite <- !str_app_assoc. apply free_prefix; [done..|]. apply (free_between _ Htok _ ")"); [done| |by apply (free_prefix _ ": ")].
    by apply free_colonless, pretty_colonless.
  - by apply refusal_free.
Qed.

(** C38: The client puts a bot's token into no error.  Let the token have the shape of
    Telegram's (digits, a colon, letters, digits, - and _), whatever fails in a method
    once its request could be built; and let the texts that come from outside (from
    the network, Telegram, the decoders) not contain the token: then the text of the
    error that reaches the log, the events table and the Management API does not
    contain it either, although every request has it in its URL. *)
Theorem token_redacted f : names f ⊆ client_names → (∀ method text, f ≠ BuildFailed method text) →
  Forall (free token) (told f) → Forall plain (paths f) →
  Contains (Error (failure_error url_String BaseURL token f)) token = false.
Proof using All.
  intros Hn Hb Ht Hp. apply free_spec. destruct f; cbn [failure_error names told paths] in *;
    rewrite ?Forall_singleton in *; cbn [Error].
  - by destruct (Hb method text).
  - apply (free_named _ Htok what); [set_solver|reflexivity|done].
  - apply do_error_free; [|by destruct c]. apply client_names_unkeyed. set_solver.
  - apply (free_named _ Htok what); [set_solver|reflexivity|done].
  - by apply unkeyed_free.
  - apply free_prefix; [done..|]. by apply redacted_free; [|apply fileURL_plain|].
  - by apply free_prefix, redacted_free.
  - apply (free_prefix token "message or file not found: file path "); [done..|]. rewrite <- (str_app_nil_r (Quote filePath)).
    apply free_quoted; [done..|by apply free_nil, token_nonempty].
  - apply free_prefix; [done..|]. apply free_number; [done|]. destruct (TrimSpace_infix snippet) as (p & r & Hs).
    rewrite Hs in Ht. by apply free_infix in Ht.
  - by apply free_prefix.
Qed.

End client.

(** ** Two errors *)

Definition demo_token : string := "12345:AAbb_cc-dd".
Definition lost_connection : failure := CallFailed "Post" "sendDocument" (DoFailed "context deadline exceeded").

(** The connection breaks during an upload: what is stored in the events table. *)
Example upload_event :
  Error (failure_error id defaultBaseURL demo_token lost_connection)
  = "telegram: request failed: Post " +:+ Quote "https://api.telegram.org/bot<redacted>/sendDocument" +:+ ": context deadline exceeded".
Proof. vm_compute. reflexivity. Qed.

(** A URL that does not parse is not redacted but by [downloadPath]: the error of the
    other methods shows it, token and all. *)
Theorem build_error_shows_token :
  Contains (Error (failure_error id defaultBaseURL "12345:AA%zz" (BuildFailed "getMe" "invalid URL escape"))) "12345:AA%zz" = true
  ∧ Contains (Error (failure_error id defaultBaseURL "12345:AA%zz" (DownloadBuild "a" "invalid URL escape"))) "12345:AA%zz" = false.
Proof. split; vm_compute; reflexivity. Qed.

(** A text from outside is passed on as it is: a proxy that answers a download with the
    address it was asked for gets the token into the error. *)
Theorem echo_shows_token :
  Contains (Error (failure_error id defaultBaseURL demo_token
    (DownloadStatus 502 ("no route to /file/bot" +:+ demo_token +:+ "/a")))) demo_token = true.
Proof. vm_compute. reflexivity. Qed.

(** [URL.String], for the witness: what is not plain is left out. *)
Fixpoint plain_part (s : string) : string :=
  match s with
  | EmptyString => EmptyString
  | String c t => if plain_char c then String c (plain_part t) else plain_part t
  end.

Lemma token_redacted_witness :
  bot_token demo_token = true
  ∧ Contains (methodURL defaultBaseURL demo_token "sendDocument") demo_token = true
  ∧ Contains (Error (failure_error plain_part defaultBaseURL demo_token lost_connection)) demo_token = false.
Proof.
  split; [reflexivity|]. split; [vm_compute; reflexivity|]. apply token_redacted.
  - reflexivity.
  - intros u. unfold plain. induction u as [|c u IH]; [reflexivity|]. cbn [plain_part].
    destruct (plain_char c) eqn:Hc; [cbn [all_chars]; rewrite Hc; exact IH|exact IH].
  - vm_compute. reflexivity.
  - intros d. apply pretty_colonless.
  - cbn. set_solver.
  - discriminate.
  - apply Forall_singleton, free_spec. vm_compute. reflexivity.
  - apply Forall_nil. exact I.
Defined.
