(* ===== verification/SchemaTheorems.v ===== *)
(** * The program changes the tables by its statements only

    Whatever an operation of the program does to the tables, it does by statements of
    internal/repository/sqlc ([Schema.issue]) one after the other: the relation [issues]
    is kept by every operation of the services and by every step of the server.  What
    all statements keep, the server keeps; so the schema holds in every state of it. *)
From Stdlib Require Import ZArith Lia Strings.Byte Strings.String.
From stdpp Require Import base tactics list gmap sets strings relations sorting.
From S2P Require Import Prelude Model Sql SqlFacts Schema World Keeps Repository Crypto Text Password Accounts.
From S2P Require Import Identity Limiter Path FileSystem File Copy WebDav Tree CopyFacts Requests Session Cache.
From S2P Require Import CacheKeeps Telegram Config BlobReader BlobFacts LossFacts WebFacts Bots Maintenance BotsFacts Management Server.
From S2P Require Import ServerFacts SparesFacts SafeFacts Packer PackerFacts Run RunFacts System SystemFacts Script Demo BlobTheorems.
From S2P Require Import BotTheorems IdentityTheorems WebTheorems PackerTheorems ServerTheorems SystemTheorems.
#[local] Open Scope string_scope.
#[local] Open Scope Z_scope.
Open Scope m_scope.

Definition issues (w w' : World) : Prop := rtc issue (w_db w) (w_db w') ∧ same_tx w w'.

#[global] Instance issues_frame : Frame issues.
Proof.
  split.
  - split; [by intros w|]. intros w1 w2 w3 [H1 T1] [H2 T2]. split; [by etrans|congruence].
  - intros w w' Hd _ Ht. split; [by rewrite Hd|done].
Qed.

Notation Issues := (Keeps issues).

(** A statement that only reads. *)
Definition reads {A} (q : sql A) : Prop := ∀ d a d', q d = SqlOk a d' → d' = d.

Ltac reads_tac :=
  let d := fresh "d" in let H := fresh "H" in intros d ? ? H;
  match type of H with ?q _ = _ => let h := head q in try unfold h, many, one, one_opt in H end;
  repeat (case_match; try discriminate H); by simplify_eq.

(** A statement that is one of [issue]. *)
Ltac issue_tac := let H := fresh "H" in intros ? ? H; by econstructor; exact H.

Section frame.
Context {E : Env}.

Lemma issues_query {A} (q : time → (nat → uuid) → sql A) :
  (∀ t g, reads (q t g) ∨ ∀ d d', does (q t g) d d' → issue d d') → Issues (query q).
Proof.
  intros Hq. apply (Keeps_query _). intros t g w a d' H. split; [|done]. cbn. destruct (Hq t g) as [Hr|Hi].
  - by rewrite (Hr _ _ _ H).
  - apply rtc_once, Hi. by exists a.
Qed.
Lemma issues_stmt {A} (q : sql A) : (reads q ∨ ∀ d d', does q d d' → issue d d') → Issues (stmt q).
Proof. intros Hq. by apply issues_query. Qed.

Lemma issues_WithTx {A} (fn : M A) : Issues fn → Issues (WithTx fn).
Proof.
  intros Hf w r w' H. destruct (w_tx w) as [t|] eqn:Ht.
  { unfold WithTx in H. rewrite Ht in H. by eapply Hf. }
  destruct r as [a|e].
  - apply WithTx_Ok in H as (w1 & H1 & _ & ->); [|done]. apply Hf in H1 as [Hd _]. split; [exact Hd|by rewrite Ht].
  - apply WithTx_Err in H as [Hd Hn]; [|done]. split; [by rewrite Hd|by rewrite Ht, Hn].
Qed.

(** What touches neither tables nor transactions. *)
Lemma issues_leaves {A} (m : M A) : Keeps (leaves eq) m → Issues m.
Proof. intros Hm w r w' [Hd Ht _]%Hm. split; [by rewrite Hd|done]. Qed.
Lemma issues_cache f : Issues (upd_cache f).
Proof. by intros w r w' [= _ <-]. Qed.
Lemma issues_root u : Issues (rootReady_Store u).
Proof. by apply (Keeps_same _); intros w r w' [= _ <-]. Qed.
End frame.

#[export] Hint Resolve issues_cache issues_root : keeps.
#[export] Hint Extern 3 (Keeps issues (stmt _)) =>
  apply issues_stmt; first [right; issue_tac | left; reads_tac] : keeps.
#[export] Hint Extern 3 (Keeps issues (query _)) =>
  apply issues_query; intros ? ?; first [right; issue_tac | left; reads_tac] : keeps.

Create HintDb issued.
#[export] Hint Unfold NodeRepository_Create NodeRepository_Update NodeRepository_Delete NodeRepository_GetByID NodeRepository_GetByPath
  NodeRepository_ListChildren NodeRepository_ListSubtree NodeRepository_SumSizeByUser NodeRepository_ClaimBufferedForPacking
  NodeRepository_ReleaseLease NodeRepository_MarkStoredIfOwner extentRepository_CreateBatch extentRepository_ListByNode
  extentRepository_DeleteByNode extentRepository_CopyForNode extentRepository_ListNodesSolelyOnBlob WALRepository_AppendChunk
  WALRepository_ReadRange WALRepository_DeleteByNode blobRepository_Create blobRepository_GetByID blobRepository_SetState
  blobRepository_AddRefcounts blobRepository_ListCollectable blobRepository_MarkChannelUnavailable
  blobRepository_MarkChannelAvailable blobRepository_EvictOlderThan blobRepository_Delete blobRepository_Count
  BotRepository_Create BotRepository_Update BotRepository_Delete BotRepository_GetByID BotRepository_GetByUsername
  BotRepository_List BotRepository_ListByIDs BotRepository_SetUnavailableUntil BotChannelRepository_Upsert
  BotChannelRepository_ListByChannel BotChannelRepository_ListByBot BotChannelRepository_DeleteByBot
  BotChannelRepository_DeleteByChannel BlobBotFileRepository_Upsert BlobBotFileRepository_ListByBlob
  BlobBotFileRepository_DeleteByBlob BlobBotFileRepository_DeleteByBot ChannelRepository_Create ChannelRepository_Update
  ChannelRepository_Delete ChannelRepository_GetByID ChannelRepository_GetByChatID ChannelRepository_List
  ChannelRepository_IncrementCounter ChannelRepository_SetAvailable EventRepository_Log EventRepository_List
  StatRepository_Record StatRepository_Query StatRepository_Latest SettingsRepository_Get SettingsRepository_Update
  TokenRepository_Create TokenRepository_GetByHash TokenRepository_ListByUser TokenRepository_Delete
  TokenRepository_TouchLastUsed UserRepository_Create UserRepository_Update UserRepository_Delete UserRepository_GetByID
  UserRepository_GetByLogin UserRepository_List : issued.

(** A whole method: its repositories unfolded, its structure, its transactions. *)
Ltac issued := repeat autounfold with issued; repeat first
  [match goal with |- Keeps _ (WithTx _) => apply issues_WithTx end | progress keeps_auto].

Section repositories.
Context {E : Env}.

Lemma Issues_Log k m r : Issues (EventRepository_Log k m r).
Proof. issued. Qed.
Lemma Issues_Claim owner lease lim : Issues (NodeRepository_ClaimBufferedForPacking owner lease lim).
Proof. issued. Qed.
Lemma Issues_copy src dst : Issues (extentRepository_CopyForNode src dst).
Proof. issued. Qed.
End repositories.

(** ** Files *)

Section files.
Context {E : Env} {B : BlobService}.

Lemma Issues_ensureRoot u : Issues (ensureRoot u).
Proof. unfold ensureRoot. issued. Qed.
Hint Resolve Issues_ensureRoot : keeps.
Lemma Issues_ensureRootExists u : Issues (ensureRootExists u).
Proof. unfold ensureRootExists. issued. Qed.
Hint Resolve Issues_ensureRootExists : keeps.
Lemma Issues_Stat ctx name : Issues (Stat ctx name).
Proof. unfold Stat. issued. Qed.
Lemma Issues_CheckQuota ctx p n : Issues (CheckQuota ctx p n).
Proof. unfold CheckQuota. issued. Qed.
Lemma Issues_removeWithin u n : Issues (removeWithin u n).
Proof. unfold removeWithin, remove_listed, release_files, releaseExtents. issued. Qed.
Hint Resolve Issues_removeWithin : keeps.
Lemma Issues_copy_wal k src dst size off seq : Issues (copy_wal k src dst size off seq).
Proof. revert off seq. induction k as [|k IH]; intros off seq; cbn [copy_wal]; issued. Qed.
Hint Resolve Issues_copy_wal : keeps.
Lemma Issues_copyNode k u src p par rec : Issues (copyNode k u src p par rec).
Proof. revert src p par. induction k as [|k IH]; intros src p par; cbn [copyNode]; unfold copy_stored, with_fs_err; issued. Qed.
Hint Resolve Issues_copyNode : keeps.
Lemma Issues_Copy ctx s d rec ow : Issues (Copy ctx s d rec ow).
Proof. unfold Copy, copy_tx, copy_quota, subtreeSize, with_fs_err, if_exists. issued. Qed.
Hint Resolve Issues_Copy : keeps.
Lemma Issues_OpenFile ctx name flag : Issues (OpenFile ctx name flag).
Proof. unfold OpenFile, openRead, openWrite, truncateNode, releaseExtents, with_fs_err. issued. Qed.
Lemma Issues_chunks k f : Issues (flush_full k f).
Proof. revert f. induction k as [|k IH]; intros f; cbn [flush_full]; unfold flushChunk; issued. Qed.
Hint Resolve Issues_OpenFile Issues_chunks : keeps.
Lemma Issues_WriteAll f ps : Issues (WriteAll f ps).
Proof. revert f. induction ps as [|p ps IH]; intros f; cbn [WriteAll]; unfold File_Write, writeFile_Write; issued. Qed.
Hint Resolve Issues_WriteAll : keeps.
Lemma Issues_put ctx name flag ps : Issues (put ctx name flag ps).
Proof. unfold put, File_Close, writeFile_Close, flushChunk, close_tx, close_rollback, IncWriteOps. issued. Qed.
Hint Resolve Issues_put : keeps.
Lemma Issues_serve ctx q : Issues (serve ctx q).
Proof.
  destruct q; cbn [serve]; unfold Mkdir, RemoveAll, remove_listed, release_files, releaseExtents, Rename, rename_tx,
    with_fs_err, if_exists, move_child; issued.
Qed.
Lemma Issues_handleCopy {W : WebLib} ctx r : Issues (handleCopy ctx r).
Proof. pose proof (Issues_Stat ctx). unfold handleCopy. issued. Qed.
Lemma Issues_Allow {R : RateLib} u n : Issues (Allow u n).
Proof. unfold Allow. issued. Qed.

End files.

(** ** Blobs and Telegram *)

Section reader.
Context {E : Env} {C : Aead} {A : BotAPI} (bots : BotRepository).
Hint Resolve Issues_Log : keeps.

Lemma Issues_pace b : Issues (pace b).
Proof. unfold pace. issued. Qed.
Hint Resolve Issues_pace : keeps.
Lemma Issues_do b m f x : Issues (tg_do b m f x).
Proof. unfold tg_do. issued. Qed.
Lemma Issues_decoded {X} r (f : apiResult → X) : Issues (decoded r f).
Proof. unfold decoded. issued. Qed.
Hint Resolve Issues_do Issues_decoded : keeps.
Lemma Issues_GetMe b : Issues (GetMe b).
Proof. unfold GetMe. issued. Qed.
Lemma Issues_GetChat b chat : Issues (GetChat b chat).
Proof. unfold GetChat. issued. Qed.
Lemma Issues_Send b chat name data : Issues (SendDocument b chat name data).
Proof. unfold SendDocument. issued. Qed.
Lemma Issues_Forward b x y z : Issues (ForwardMessage b x y z).
Proof. unfold ForwardMessage. issued. Qed.
Lemma Issues_DeleteMessage b x y : Issues (DeleteMessage b x y).
Proof. unfold DeleteMessage. issued. Qed.
Lemma Issues_Download b f : Issues (DownloadFile b f).
Proof. unfold DownloadFile, downloadPath. issued. Qed.
Hint Resolve Issues_Forward Issues_DeleteMessage Issues_Download : keeps.

Lemma Issues_react b c e : Issues (react b c e).
Proof. unfold react, parkBot, recordNonMember. issued. Qed.
Lemma Issues_verify bl b d : Issues (verifyIntegrity bl b d).
Proof. unfold verifyIntegrity. issued. Qed.
Hint Resolve Issues_react Issues_verify : keeps.
Lemma Issues_recover bl c b : Issues (recover bl c b).
Proof. unfold recover, IncTelegramReq, bestEffortDelete. issued. Qed.
Hint Resolve Issues_recover : keeps.
Lemma Issues_tryCandidate bl c cd : Issues (tryCandidate bl c cd).
Proof. unfold tryCandidate, IncTelegramReq, deleteStaleFileID. issued. Qed.
Hint Resolve Issues_tryCandidate : keeps.
Lemma Issues_try_all bl c cs g : Issues (try_all bl c cs g).
Proof. revert g. induction cs as [|cd cs IH]; intros g; cbn [try_all]; issued. Qed.
Lemma Issues_candidates bl : Issues (candidates bots bl).
Proof. unfold candidates. issued. Qed.
Lemma Issues_markPerm bl : Issues (markPermUnavailable bl).
Proof. unfold markPermUnavailable, cascade_tx. issued. Qed.
Lemma Issues_Get id : Issues (cache_Get id).
Proof. apply issues_leaves, (leaves_Get _). Qed.
Lemma Issues_Put id data : Issues (cache_Put id data).
Proof.
  assert (∀ n, Issues (put_index id n)) by (intros n; apply issues_leaves, (leaves_put_index _)).
  unfold cache_Put, put_file. issued.
Qed.
Hint Resolve Issues_try_all Issues_candidates Issues_markPerm Issues_Get Issues_Put : keeps.
Lemma Issues_ReadBlob id : Issues (ReadBlob bots id).
Proof. unfold ReadBlob, IncCacheHit, IncCacheMiss, AddReadBytes. issued. Qed.

End reader.

(** ** Services *)

Section services.
Context {E : Env} {C : Aead} {A : BotAPI} {K : Kdf} {RL : RateLib} (bots : BotRepository).
Hint Resolve Issues_Log Keeps_encrypt Keeps_hash Keeps_token Issues_GetMe Issues_GetChat Issues_DeleteMessage : keeps.

Lemma Issues_reevaluate : Issues (reevaluateAvailability bots).
Proof. unfold reevaluateAvailability, channelHasEnabledMember, applyChannelAvailability. issued. Qed.
Lemma Issues_record bot ch now : Issues (record_membership bot ch now).
Proof. unfold record_membership. issued. Qed.
Hint Resolve Issues_reevaluate Issues_record : keeps.
Lemma Issues_Bot_Add token : Issues (Bot_Add bots token).
Proof. unfold Bot_Add. issued. Qed.
Lemma Issues_Bot_Remove id : Issues (Bot_Remove bots id).
Proof. unfold Bot_Remove. issued. Qed.
Lemma Issues_Bot_SetEnabled id enabled : Issues (Bot_SetEnabled bots id enabled).
Proof. unfold Bot_SetEnabled. issued. Qed.
Lemma Issues_Refresh : Issues (RefreshMembership bots).
Proof. unfold RefreshMembership. issued. Qed.
Lemma Issues_probe now chat channel bs : Issues (probe_bots now chat channel bs).
Proof. revert channel. induction bs as [|bot bs IH]; intros channel; cbn [probe_bots]; issued. Qed.
Hint Resolve Issues_probe : keeps.
Lemma Issues_Channel_Add bareID : Issues (Channel_Add bots bareID).
Proof. unfold Channel_Add, Settings_Get. issued. Qed.
Lemma Issues_Channel_Remove id : Issues (Channel_Remove id).
Proof. unfold Channel_Remove, remove_tx. issued. Qed.
Lemma Issues_Eviction id threshold : Issues (SetEvictionThreshold id threshold).
Proof. unfold SetEvictionThreshold. issued. Qed.
Hint Resolve Issues_Bot_Add Issues_Bot_Remove Issues_Bot_SetEnabled Issues_Refresh Issues_Channel_Add Issues_Channel_Remove
  Issues_Eviction Keeps_at_index Keeps_next_bot : keeps.

Lemma Issues_Pick ch : Issues (Bot_PickForUpload bots ch).
Proof. unfold Bot_PickForUpload, eligibleBots. issued. Qed.
Hint Resolve Issues_Pick : keeps.

Lemma Issues_lookup login pw : Issues (lookupAndVerify login pw).
Proof. unfold lookupAndVerify, verifiedRecently, markVerified. issued. Qed.
Hint Resolve Issues_lookup : keeps.
Lemma Issues_Basic username pw : Issues (AuthenticateBasic username pw).
Proof. unfold AuthenticateBasic, authenticateImpersonation. issued. Qed.
Lemma Issues_Bearer token : Issues (AuthenticateBearer token).
Proof. unfold AuthenticateBearer. issued. Qed.
Hint Resolve Issues_Basic Issues_Bearer : keeps.
Lemma Issues_admin authorization : Issues (authenticateAdmin authorization).
Proof. unfold authenticateAdmin. issued. Qed.
Lemma Issues_User_Create p : Issues (User_Create p).
Proof. unfold User_Create. issued. Qed.
Hint Resolve Issues_User_Create : keeps.
Lemma Issues_bootstrap firstUser : Issues (bootstrapAdmin firstUser).
Proof. unfold bootstrapAdmin, User_List. issued. Qed.

Lemma Issues_perform op : Issues (perform bots op).
Proof.
  destruct op; cbn [perform].
  all: unfold Healthz, ListUsers_, CreateUser_, GetUser_, DeleteUser_, SetUserPassword, ListUserTokens, CreateUserToken,
    DeleteUserToken, ListBots_, AddBot, DeleteBot_, SetBotEnabled, ListChannels_, AddChannel, DeleteChannel_,
    SetChannelEviction, GetSettings_, UpdateSettings, QueryStats_, ListEvents_.
  all: unfold User_List, User_Get, User_Delete, SetPassword, ListTokens, CreateToken, DeleteToken, Bot_List, Channel_List,
    Settings_Get, Settings_Update, Stats_Query, Events_List, respond.
  all: issued.
Qed.

Lemma Issues_reap_loop l : Issues (reap_loop bots l).
Proof. induction l as [|b l IH]; cbn [reap_loop]; issued. Qed.
Hint Resolve Issues_reap_loop : keeps.
Lemma Issues_maintenance t : Issues (maintenance_turn bots t).
Proof. destruct t; cbn [maintenance_turn]; unfold reap, evict_old, evict_channel; issued. Qed.

Lemma Issues_counters l : Issues (record_counters l).
Proof. induction l as [|[metric delta] l IH]; cbn [record_counters]; issued. Qed.
Hint Resolve Issues_counters : keeps.
Lemma Issues_flush : Issues (flush server_gauges).
Proof. unfold flush, server_gauges, cache_Stats. cbn [record_gauges]. issued. Qed.
Lemma Issues_sweep : Issues limiter_sweep.
Proof. unfold limiter_sweep. issued. Qed.

End services.

(** ** The packer *)

Section packer.
Context {E : Env} {C : Aead} {A : BotAPI} (bots : BotRepository) (error_text : error → string) (leaseOwner : string).
Context (leaseFor batchLimit : Z).
Hint Resolve Issues_Log Keeps_at_index Issues_Pick Issues_Send Issues_Claim : keeps.

Lemma Issues_ReadRange id off len : Issues (WALRepository_ReadRange id off len).
Proof. issued. Qed.
Lemma Issues_ReleaseLease id : Issues (ReleaseLease_ id).
Proof. unfold ReleaseLease_. issued. Qed.
Hint Resolve Issues_ReadRange Issues_ReleaseLease : keeps.
Lemma Issues_failTrack t st : Issues (failTrack t st).
Proof. unfold failTrack. issued. Qed.
Hint Resolve Issues_failTrack : keeps.
Lemma Issues_failJob ts st : Issues (failJob ts st).
Proof. revert st. induction ts as [|t ts IH]; intros st; cbn [failJob]; issued. Qed.
Lemma Issues_release_pending st : Issues (release_pending st).
Proof. unfold release_pending. issued. Qed.
Lemma Issues_finalize st t : Issues (finalize_ptr leaseOwner st t).
Proof. unfold finalize_ptr, finalize, finalize_tx, store_extents. issued. Qed.
Lemma Issues_empty node : Issues (handle_empty leaseOwner node).
Proof. unfold handle_empty, finalizeEmpty. issued. Qed.
Lemma Issues_poll : Issues (poll leaseOwner leaseFor batchLimit).
Proof. unfold poll, Settings_Get. issued. Qed.
Lemma Issues_eligible_loop usable chs : Issues (eligible_loop usable chs).
Proof. induction chs as [|ch chs IH]; cbn [eligible_loop]; unfold channelHasUsableMember; issued. Qed.
Hint Resolve Issues_eligible_loop : keeps.
Lemma Issues_Channel_Pick : Issues (Channel_PickForUpload bots).
Proof.
  assert (Issues next_channel) as Hn by by apply (Keeps_same _); intros w r w' [= _ <-].
  unfold Channel_PickForUpload, eligibleChannels. issued.
Qed.
Lemma Issues_upload ch data : Issues (upload bots error_text ch data).
Proof.
  unfold upload. apply (Keeps_bind _); [auto with keeps|]. intros name. generalize 6%nat (@None error). intros k.
  induction k as [|k IH]; intros e; cbn [upload_loop]; unfold upload_react, IncTelegramReq; issued.
Qed.
Lemma Issues_persist j ch bot r : Issues (persistBlob j ch bot r).
Proof. unfold persistBlob, persist_tx. issued. Qed.
Hint Resolve Issues_failJob Issues_release_pending Issues_finalize Issues_empty Issues_poll Issues_Channel_Pick Issues_upload
  Issues_persist : keeps.

(** Follow the world through the premises of a step. *)
Ltac issues_follow :=
  lazymatch goal with
  | |- issues ?w ?w => reflexivity
  | H : ?m ?w = (_, ?w1) |- issues ?w _ =>
      transitivity w1; [refine ((_ : Issues m) w _ w1 H); by eauto with keeps|clear H; issues_follow]
  end.

Lemma pact_issues c c' : pact bots error_text leaseOwner c c' → issues (cf_world c) (cf_world c').
Proof. intros H. destruct H; cbn [cf_world]; issues_follow. Qed.

Lemma rstep_issues c c' : rstep bots error_text leaseOwner leaseFor batchLimit c c' → issues (r_world c) (r_world c').
Proof.
  intros H. step_cases H; cbn [r_world] in *; try issues_follow.
  - by apply pact_issues in Hp.
  - transitivity w'; [issues_follow|by apply frame_mem].
  - destruct Hf0 as [(e & Hu)|(res & bot & w0 & e & Hu & Hp)]; issues_follow.
Qed.

End packer.

(** ** The server *)

Section server.
Context {E : Env} {C : Aead} {A : BotAPI} {K : Kdf} {R : RateLib} {W : WebLib} {O : Oapi} {D : BodyDecoder}.
Context (redirect : string → apiReq → apiResp) (error_text : error → string) (config : serverConfig).
Context {L : WebLaws (B := blobReader config)}.

Lemma client_issues ctx w w' : client (B := blobReader config) ctx w w' → issues w w'.
Proof.
  induction 1 as [|q w1 _ IH|name w1 _ IH|id w1 _ IH|w1 w2 _ IH Hd Ht _]; [done|..]; (etrans; [exact IH|]).
  - eapply Issues_serve, surjective_pairing.
  - eapply Issues_Stat, surjective_pairing.
  - eapply (Issues_ReadBlob (botRepo config)), surjective_pairing.
  - split; [by rewrite Hd|by rewrite Ht].
Qed.

Lemma Issues_dav ctx r : Issues (dav_ServeHTTP ctx r).
Proof. intros w x w' H. pose proof (dav_client (B := blobReader config) ctx r w) as Hc. rewrite H in Hc. by apply client_issues in Hc. Qed.
Hint Resolve Issues_dav Issues_handleCopy Issues_CheckQuota Issues_Allow Issues_Basic Issues_admin Issues_perform : keeps.

Lemma Issues_WebDAV r : Issues (WebDAVHandler r).
Proof. unfold WebDAVHandler, Recoverer, BasicAuth, rateLimit, router. issued. Qed.

Lemma Issues_management r : Issues (ManagementHandler (botRepo config) redirect r).
Proof.
  assert (Issues (mux_ServeHTTP redirect (management_mux (botRepo config)) r)) as Hmux.
  { destruct (mux_cases (botRepo config) redirect r) as [([op|] & Hp & _ & ->)|[x ->]]; cbn [run_op]; auto with keeps. }
  unfold ManagementHandler, AdminAuth. issued.
Qed.
Hint Resolve Issues_WebDAV Issues_management Issues_maintenance Issues_flush Issues_sweep : keeps.

Lemma Issues_handle t : Issues (handle redirect config t).
Proof. pose proof (issues_leaves _ (leaves_janitor eq)). destruct t; cbn [handle]; issued. Qed.

Lemma Issues_runServer : Issues (runServer config).
Proof.
  pose proof (issues_leaves _ (leaves_New eq (CacheSize config) (60 * Minute))). pose proof (Issues_reevaluate (botRepo config)).
  pose proof (Issues_bootstrap (FirstUser config)).
  assert (∀ n, Issues (Run (botRepo config) n)).
  { intros n. unfold Run, workerCount, Bot_List. issued. by apply (Keeps_same _); intros w x w' [= _ <-]. }
  unfold runServer, NewPacker. issued.
Qed.

Lemma sstep_issues s s' : sstep redirect error_text config s s' → rtc issue (w_db (world_of s)) (w_db (world_of s')).
Proof.
  intros H. destruct H as [w n p c w' H|w n e w' H|p c c' H|p c c' H Hw|p c t x w' H|p c]; cbn [world_of].
  - destruct (runServer_Ok config _ _ _ _ H) as [-> _]. by apply Issues_runServer in H as [H _].
  - by apply Issues_runServer in H as [H _].
  - by apply rstep_issues in H as [H _].
  - by rewrite Hw.
  - by apply Issues_handle in H as [H _].
  - done.
Qed.

Lemma run_issues s s' : rtc (sstep redirect error_text config) s s' → rtc issue (w_db (world_of s)) (w_db (world_of s')).
Proof. induction 1 as [|s s1 s2 H _ IH]; [done|]. etrans; [by eapply sstep_issues|done]. Qed.

End server.

(** ** The schema holds in every state of the server

    Primary keys, UNIQUE columns and foreign keys, whatever the server does and in
    whatever order the statements of its transactions are executed. *)

Section whole.
Context {E : Env} {C : Aead} {A : BotAPI} {K : Kdf} {R : RateLib} {W : WebLib} {O : Oapi} {D : BodyDecoder}.
Context (redirect : string → apiReq → apiResp) (error_text : error → string) (config : serverConfig).
Context {L : WebLaws (B := blobReader config)}.

(** C8: the types of the tables.  Whatever the server does, requests of both endpoints,
    workers, packer, failures, stops and restarts, it does to the tables by a sequence of
    the statements of internal/repository/sqlc; and every such sequence, in any order and
    with any parameters, so also one in which the statements of concurrent transactions
    are interleaved, keeps the schema: every row is found under its key, UNIQUE columns
    are unique, and every foreign key refers to a row, through all cascades of DELETE. *)
Theorem schema_kept s s' : schema_ok (w_db (world_of s)) → rtc (sstep redirect error_text config) s s' →
  schema_ok (w_db (world_of s')) ∧ rtc issue (w_db (world_of s)) (w_db (world_of s'))
  ∧ ∀ d, rtc issue (w_db (world_of s)) d → schema_ok d.
Proof.
  intros Hok Hr. assert (∀ d d', rtc issue d d' → schema_ok d → schema_ok d') as Hi.
  { induction 1 as [|d d1 d2 H _ IH]; [done|]. intros Hd. by eapply IH, issue_schema. }
  apply (run_issues redirect error_text config) in Hr as Hd. split_and!; [by eapply Hi|done|]. intros d Hd'. by eapply Hi.
Qed.

End whole.

(** ** On concrete tables *)

Section decisions.
Context {Key A B J X : Type} `{Countable Key} `{Countable J} `{EqDecision X}.

Definition keyedb (key : A → Key) (m : gmap Key A) : bool :=
  forallb (λ kx : Key * A, bool_decide (key kx.2 = kx.1)) (map_to_list m).
Definition uniqueb (f : A → X) (m : gmap Key A) : bool :=
  forallb (λ kx : Key * A, forallb (λ ly : Key * A, negb (bool_decide (f kx.2 = f ly.2)) || bool_decide (kx.1 = ly.1)) (map_to_list m))
    (map_to_list m).
Definition refersb (f : A → option J) (m : gmap Key A) (t : gmap J B) : bool :=
  forallb (λ kx : Key * A, match f kx.2 with Some i => bool_decide (is_Some (t !! i)) | None => true end) (map_to_list m).

Lemma keyedb_sound key m : keyedb key m = true → keyed key m.
Proof. unfold keyedb. rewrite forallb_map_to_list. intros Hm k x Hx. by apply (bool_decide_eq_true _), (Hm k x Hx). Qed.
Lemma uniqueb_sound f m : uniqueb f m = true → unique f m.
Proof.
  unfold uniqueb. rewrite forallb_map_to_list. intros Hm i j x y Hx Hy Hf. specialize (Hm i x Hx).
  rewrite forallb_map_to_list in Hm. specialize (Hm j y Hy). cbn in Hm. rewrite bool_decide_true in Hm by done.
  by apply bool_decide_eq_true in Hm.
Qed.
Lemma refersb_sound f m t : refersb f m t = true → refers f m t.
Proof.
  unfold refersb. rewrite forallb_map_to_list. intros Hm k x i Hx Hi. specialize (Hm k x Hx). cbn in Hm. rewrite Hi in Hm.
  by apply bool_decide_eq_true in Hm.
Qed.
End decisions.

Lemma sys_schema : schema_ok (w_db sys_world).
Proof.
  split; first [apply keyedb_sound|apply uniqueb_sound|apply refersb_sound|apply (bool_decide_unpack _)]; vm_compute; done.
Qed.

(** The run of [SystemTheorems.sys_script]. *)
Lemma schema_witness :
  schema_ok (w_db (world_of sys_state)) ∧ rtc issue (w_db sys_world) (w_db (world_of sys_state))
  ∧ ∀ d, rtc issue (w_db sys_world) d → schema_ok d.
Proof.
  apply (schema_kept (A := cloud) (L := demo_web_laws) demo_redirect (λ _, "") sys_config (Down sys_world) sys_state).
  - exact sys_schema.
  - apply (turns_sound sys_script). exact sys_reached.
Defined.
