(* ===== verification/LimiterTheorems.v ===== *)
(** * The request limiter: what the janitor may forget

    The comment on [bucketIdleTTL] says that evicting an idle bucket is harmless.
    Here that is a simulation between the limiter with its janitor and one without. *)
From Stdlib Require Import ZArith Lia Strings.Byte Strings.String.
From stdpp Require Import base tactics list gmap strings.
From S2P Require Import Prelude Model Sql World Repository Crypto Accounts Limiter.
#[local] Open Scope string_scope.
#[local] Open Scope Z_scope.

(** ** Runs *)

(** What happens to the limiter: a request, with its two readings of the clock, or
    the janitor's tick. *)
Inductive event := EAllow (user : uuid) (ratePerMin : Z) (seen now : time) | ESweep (now : time).

Definition is_allow (e : event) : bool := match e with EAllow _ _ _ _ => true | ESweep _ => false end.

(** The answers of the requests, in order, and the buckets at the end. *)
Fixpoint run_limiter `{RateLib} (es : list event) (buckets : gmap uuid bucket) : list bool * gmap uuid bucket :=
  match es with
  | [] => ([], buckets)
  | EAllow user r seen now :: es =>
      if r <=? 0 then let '(l, b) := run_limiter es buckets in (true :: l, b)
      else
        let '(ok, buckets) := take_token user r seen now buckets in
        let '(l, b) := run_limiter es buckets in (ok :: l, b)
  | ESweep now :: es => run_limiter es (drop_idle (now - bucketIdleTTL) buckets)
  end.

(** The steps of the program. *)
Lemma Allow_step `{Env} `{RateLib} user r w : 0 < r →
  let seen := env_now (w_step w) in let now := env_now (S (w_step w)) in
  ∃ w', Allow user r w = (Ok (take_token user r seen now (w_buckets w)).1, w')
    ∧ w_buckets w' = (take_token user r seen now (w_buckets w)).2.
Proof. intros Hr. unfold Allow. rewrite (proj2 (Z.leb_gt r 0)) by done. by eexists. Qed.

Lemma limiter_sweep_step `{Env} w : ∃ w', limiter_sweep w = (Ok tt, w')
  ∧ w_buckets w' = drop_idle (env_now (w_step w) - bucketIdleTTL) (w_buckets w).
Proof. by eexists. Qed.

(** The clock does not go back, and between its two readings a request is delayed by
    less than nine minutes. *)
Fixpoint clock_ok (T : time) (es : list event) : Prop :=
  match es with
  | [] => True
  | EAllow _ _ seen now :: es => T ≤ seen ≤ now ∧ now ≤ seen + 9 * Minute ∧ clock_ok now es
  | ESweep now :: es => T ≤ now ∧ clock_ok now es
  end.

(** What is asked of the limiter of golang.org/x/time/rate: a minute after the last
    call it is full, and what was before is forgotten. *)
Definition RateLaw `{RateLib} : Prop := ∀ r later old now, 0 < r →
  (∀ o u, o ∈ old → u ∈ now :: later → o + Minute ≤ u) →
  limiter_Allow r (maxBucketInt 1 r) (later ++ old) now = limiter_Allow r (maxBucketInt 1 r) later now.

(** ** The simulation *)

(** At time [T], a user's bucket with the janitor and without. *)
Definition bucket_sim (T : time) (s n : option bucket) : Prop :=
  match s, n with
  | Some b, Some b' => bk_ratePerMin b = bk_ratePerMin b' ∧ bk_lastSeen b = bk_lastSeen b'
      ∧ bk_lastSeen b ≤ T ∧ bk_calls b ≠ []
      ∧ (∀ c, c ∈ bk_calls b → c ≤ T ∧ c ≤ bk_lastSeen b + 9 * Minute)
      ∧ ∃ old, bk_calls b' = (bk_calls b ++ old)%list ∧ ∀ o c, o ∈ old → c ∈ bk_calls b → o + Minute ≤ c
  | None, Some b' => ∀ c, c ∈ bk_calls b' → c + Minute ≤ T
  | None, None => True
  | Some _, None => False
  end.
Definition sim (T : time) (s n : gmap uuid bucket) : Prop := ∀ u, bucket_sim T (s !! u) (n !! u).

Lemma sim_later T T' s n : T ≤ T' → sim T s n → sim T' s n.
Proof.
  intros HT Hs u. specialize (Hs u). unfold bucket_sim in *. destruct (s !! u), (n !! u); try done.
  - destruct Hs as (? & ? & ? & ? & Hc & ?). split_and!; try done; [lia|]. intros c Hin. destruct (Hc c Hin). lia.
  - intros c Hc. specialize (Hs c Hc). lia.
Qed.

Section simulation.
Context {R : RateLib} (law : RateLaw).

Lemma take_token_sim T s n user r seen now : sim T s n → 0 < r → T ≤ seen ≤ now → now ≤ seen + 9 * Minute →
  (take_token user r seen now s).1 = (take_token user r seen now n).1
  ∧ sim now (take_token user r seen now s).2 (take_token user r seen now n).2.
Proof.
  intros Hs Hr HT Hd. unfold take_token. simpl.
  assert (∃ old, bk_calls (bucket_of user r n) = (bk_calls (bucket_of user r s) ++ old)%list
    ∧ (∀ o u, o ∈ old → u ∈ now :: bk_calls (bucket_of user r s) → o + Minute ≤ u)
    ∧ ∀ c, c ∈ bk_calls (bucket_of user r s) → c ≤ now ∧ c ≤ seen + 9 * Minute) as (old & Hn & Hold & Hc).
  { specialize (Hs user). unfold bucket_of, bucket_sim in *.
    destruct (s !! user) as [b|], (n !! user) as [b'|]; try done.
    - destruct Hs as (Hrate & Hls & HlT & Hne & Hcs & old & Hb & Ho). rewrite <- Hrate.
      destruct (bk_ratePerMin b =? r); [|exists []; split_and!; [done|set_solver..]].
      exists old. split_and!; [done| |].
      + intros o u Hin [->|Hu]%elem_of_cons; [|by apply Ho]. destruct (bk_calls b) as [|c cs]; [done|].
        specialize (Ho o c Hin ltac:(by left)). destruct (Hcs c ltac:(by left)). lia.
      + intros c Hin. destruct (Hcs c Hin). lia.
    - destruct (bk_ratePerMin b' =? r); [|exists []; split_and!; [done|set_solver..]].
      exists (bk_calls b'). split_and!; [done| |set_solver].
      intros o u Hin ->%list_elem_of_singleton. specialize (Hs o Hin). lia.
    - exists []. split_and!; [done|set_solver..]. }
  split.
  - rewrite Hn. symmetry. by apply law.
  - intros u. destruct (decide (u = user)) as [->|Hne].
    + rewrite !lookup_insert_eq. simpl. split_and!; try done; [lia|..].
      * intros c [->|Hin]%elem_of_cons; [lia|]. destruct (Hc c Hin). lia.
      * exists old. rewrite Hn. split; [done|]. auto.
    + rewrite !lookup_insert_ne by done. apply (sim_later T); [lia|done].
Qed.

Lemma drop_idle_sim T s n now : sim T s n → T ≤ now → sim now (drop_idle (now - bucketIdleTTL) s) n.
Proof.
  intros Hs HT u. pose proof (sim_later T now s n HT Hs u) as Hu. unfold drop_idle, bucketIdleTTL, Before in *.
  destruct (s !! u) as [b|] eqn:Hsu.
  - destruct (bk_lastSeen b <? now - 10 * Minute) eqn:Hold.
    + rewrite (map_lookup_filter_None_2 _ s u) by (right; intros x Hx; rewrite Hsu in Hx; injection Hx as <-; simpl; by rewrite Hold).
      unfold bucket_sim in *. destruct (n !! u) as [b'|]; [|done].
      destruct Hu as (_ & _ & _ & Hne & Hc & old & Hb & Ho). apply Z.ltb_lt in Hold. rewrite Hb.
      assert (∀ c, c ∈ bk_calls b → c + Minute ≤ now) as Hnew by (intros c Hin; destruct (Hc c Hin); lia).
      intros c [Hin|Hin]%elem_of_app; [by apply Hnew|]. destruct (bk_calls b) as [|x xs]; [done|].
      specialize (Ho c x Hin ltac:(by left)). specialize (Hnew x ltac:(by left)). unfold Minute, Second, Millisecond in *. lia.
    + rewrite (map_lookup_filter_Some_2 _ s u b Hsu) by (simpl; by rewrite Hold). done.
  - rewrite (map_lookup_filter_None_2 _ s u) by by left. done.
Qed.

Lemma run_sim es T s n : sim T s n → clock_ok T es →
  (run_limiter es s).1 = (run_limiter (List.filter is_allow es) n).1.
Proof.
  revert T s n. induction es as [|[user r seen now|now] es IH]; intros T s n Hs; simpl; [done|..].
  - intros (HT & Hd & Hok). destruct (Z.leb_spec r 0) as [_|Hr].
    + specialize (IH now s n (sim_later T now s n ltac:(lia) Hs) Hok).
      destruct (run_limiter es s), (run_limiter (List.filter is_allow es) n). simpl in *. by rewrite IH.
    + destruct (take_token_sim T s n user r seen now Hs Hr HT Hd) as [Hans Hs'].
      specialize (IH now _ _ Hs' Hok). simpl in Hans, IH. rewrite Hans.
      destruct (run_limiter es _), (run_limiter (List.filter is_allow es) _). simpl in *. by rewrite IH.
  - intros [HT Hok]. by apply (IH now _ n (drop_idle_sim T s n now Hs HT)).
Qed.

(** C36: evicting idle buckets is harmless.  From a new limiter, whatever requests
    come and whenever the janitor runs, each request gets the answer it would get if
    no bucket were ever evicted; and after a tick only buckets used in the last ten
    minutes are left. *)
Theorem sweep_unobservable es T : clock_ok T es →
  (run_limiter es ∅).1 = (run_limiter (List.filter is_allow es) ∅).1
  ∧ ∀ now u b, (run_limiter (es ++ [ESweep now]) ∅).2 !! u = Some b → now - bucketIdleTTL ≤ bk_lastSeen b.
Proof.
  intros Hok. split; [apply (run_sim es T); [|done]; intros u; by rewrite !lookup_empty|].
  intros now u b. generalize (∅ : gmap uuid bucket). clear Hok.
  induction es as [|[user r seen t|t] es IH]; intros bs; simpl.
  - unfold drop_idle, Before. intros [_ Hb]%map_lookup_filter_Some. by apply Z.ltb_ge in Hb.
  - destruct (r <=? 0).
    + specialize (IH bs). by destruct (run_limiter (es ++ _) bs).
    + specialize (IH (<[user := mkBucket r (t :: bk_calls (bucket_of user r bs)) seen]> bs)).
      by destruct (run_limiter (es ++ _) (<[user := _]> bs)).
  - apply IH.
Qed.

End simulation.

(** ** A limiter *)

(** A token is 60 * 10^9 units, so that [r] tokens a minute are [r] units a
    nanosecond; the state is the units and the last call. *)
Definition unit_ : Z := 60 * Second.
Definition refill (r burst : Z) (st : option (Z * time)) (now : time) : Z :=
  match st with
  | None => burst * unit_
  | Some (tokens, last) => Z.min (burst * unit_) (tokens + r * Z.max 0 (now - last))
  end.
Definition spend (tokens : Z) : Z := if unit_ <=? tokens then tokens - unit_ else tokens.
Definition token_state (r burst : Z) (calls : list time) : option (Z * time) :=
  foldr (λ t st, Some (spend (refill r burst st t), t)) None calls.
#[local] Instance token_bucket : RateLib := {
  limiter_Allow := λ r burst calls now, unit_ <=? refill r burst (token_state r burst calls) now }.

Lemma refill_full r old now : 0 < r → (∀ o, o ∈ old → o + Minute ≤ now) → refill r r (token_state r r old) now = r * unit_.
Proof.
  intros Hr Ho. assert (∀ l tokens last, token_state r r l = Some (tokens, last) → 0 ≤ tokens) as Hpos.
  { assert (0 < r * unit_) by (unfold unit_, Second, Millisecond; lia).
    induction l as [|t l IH]; [done|]. intros tokens last [= <- _]. unfold spend.
    destruct (Z.leb_spec unit_ (refill r r (token_state r r l) t)); [lia|]. unfold refill.
    destruct (token_state r r l) as [[tk la]|] eqn:Hl; [|lia]. specialize (IH tk la eq_refl). nia. }
  destruct old as [|o old]; [done|]. cbn [token_state foldr]. fold (token_state r r old).
  specialize (Ho o ltac:(by left)). unfold refill at 1.
  assert (0 ≤ spend (refill r r (token_state r r old) o)) by (by apply (Hpos (o :: old) _ o)).
  assert (r * unit_ ≤ r * Z.max 0 (now - o)) by (unfold unit_, Minute in *; nia). lia.
Qed.

Lemma token_bucket_law : RateLaw.
Proof.
  intros r later old now Hr Ho. assert (maxBucketInt 1 r = r) as -> by (unfold maxBucketInt; destruct (Z.ltb_spec r 1); lia).
  simpl. f_equal. destruct later as [|t later _] using rev_ind; [by rewrite refill_full by set_solver|].
  unfold token_state at 1 2. rewrite <- app_assoc, !foldr_app. simpl. fold (token_state r r old).
  by rewrite refill_full by set_solver.
Qed.

(** Two users, of whom one is idle for more than ten minutes. *)
Definition demo_events : list event :=
  [EAllow 1 1 0 1; EAllow 1 1 2 3; EAllow 2 3 4 5; ESweep (11 * Minute); EAllow 1 1 (12 * Minute) (12 * Minute);
   EAllow 1 1 (12 * Minute) (12 * Minute + 1); EAllow 2 0 (13 * Minute) (13 * Minute)].

Example demo_answers : (run_limiter demo_events ∅).1 = [true; false; true; true; false; true]
  ∧ (run_limiter (take 4 demo_events) ∅).2 = ∅.
Proof. vm_compute. done. Qed.

Lemma sweep_witness : (run_limiter demo_events ∅).1 = (run_limiter (List.filter is_allow demo_events) ∅).1
  ∧ ∀ now u b, (run_limiter (demo_events ++ [ESweep now]) ∅).2 !! u = Some b → now - bucketIdleTTL ≤ bk_lastSeen b.
Proof.
  apply (sweep_unobservable token_bucket_law demo_events 0). unfold demo_events, clock_ok, Minute, Second, Millisecond. lia.
Defined.
